(* ===== verification/_CoqProject ===== *)
-Q . S2P
Prelude.v
Dict.v
Datetime.v
Types.v
Encoding.v
Timeparse.v
Json.v
Graph.v
Cte.v
Lineage.v
Interface.v
Memory.v
Sqlite.v
Payload.v
Jsonschema.v
Postgres.v
Refinement.v
Schema.v
Migrations.v
Advisory.v
Pool.v
World.v
Crypto.v
Policy.v
Wasm.v
Linker.v
Admission.v
Recovery.v
Detectors.v
Designation.v
Routes.v
Lock.v
Backpressure.v
Drain.v
Startup.v
Adapter.v
Reports.v
Demo.v
Connection.v
Trust.v
AdmissionSpec.v
Replay.v
Client.v
Body.v
LiveRun.v
Campaign.v
ContainmentSpec.v
Storm.v
Concurrency.v
PostgresSpec.v
Oracle.v
Runner.v
RecoverySpec.v
Steady.v
System.v
Tainted.v
Latency.v
Scenarios.v
