(* ===== verification/Prelude.v ===== *)
(** * GASC Governor Gateway: a verification library

    The gateway ([src/governor_service.py]) keeps a dependency graph of state
    writes and a quarantine ledger.  Agents submit signed writes that name their
    parents; a policy engine admits them.  When a node is designated as
    poisoned, everything that derives from it (its blast radius) joins the
    ledger, critical functions are served by substitutes, and compactions are
    rebuilt.  This library translates that program into executable definitions
    and proves what makes it correct.  Every definition that models code has a
    [src:] comment with the file, and the lines or the name, that it follows.

    ** Files and the code they follow

    - [Prelude], [Dict], [Datetime], [Timeparse], [Encoding], [Json]: what the
      code uses of Python.  Record update, lists, [sorted]; insertion-ordered
      dictionaries and SQL [INSERT OR IGNORE/REPLACE]; [datetime.isoformat] with
      the proof that comparing the texts is comparing the instants, and reading
      the texts back; hexadecimal, big-endian integers, SHA-256; [json.dumps],
      [json.loads] and their round trip.
    - [Types]: JSON, the write payload ([node]), the records of the backends and
      the settings ([config.py]).
    - [Graph], [Cte], [Lineage]: breadth-first search with its invariant,
      level-by-level search with a depth limit, PostgreSQL's [WITH RECURSIVE] by
      its fixpoint semantics, and the computations on the graph that the backends
      share: children, interval gap, repair planning (R1, R2), critical
      dependents, quarantined ancestors.
    - [Interface]: [BaseStateBackend] as the class [Backend], with the clock
      reading a method makes as an argument and [option] for the methods that a
      driver can refuse; [BackendLaws], what the handlers rely on; [contained],
      the central invariant (nothing outside the ledger derives from the ledger);
      [evolves], append-only growth.
    - [Memory], [Sqlite], [Postgres]: [MemoryStateBackend], [SqliteStateBackend]
      ([sqlite_backend.py]) and [PostgresStateBackend] ([postgres_backend.py]),
      every method.  All three are instances of [BackendLaws]; [Refinement]
      relates the third to the second.  [Payload]: the JSON text of the rows, by
      a class of types with a codec.  [Schema]: the tables ([init_db]) and the
      migration, as statements on a catalog; [Migrations]: [migrations/env.py],
      which runs it.
    - [Connection]: the shared connection and the transaction connections of the
      SQLite file under interleaved calls.  [Advisory]: PostgreSQL's advisory
      locks over a bounded connection pool.  [Pool]: how that pool is made,
      discarded and closed by tasks on several event loops.
    - [World]: handlers are functions from a world (store, adapter key, lock
      flag, counter of outside readings) to an outcome, [Ret], [Raise] or [Hang],
      and a world.  [Env] is everything outside the program: settings, clock,
      identifiers, keys, the [cryptography] and [PyJWT] packages, the policy
      engine's replies, the recovery adapter's replies.  [transaction] and the
      admission lock are combinators.  [respects R m], [atomic m], [silent m] and
      [total m] are the predicates with which handlers are reasoned about.
    - [Crypto]: keys, signatures, session and role tokens.
    - [Policy]: the Rego rules ([policies/]), [evaluate_opa_policy] with its four
      ways to run OPA, [evaluate_admission] with its fallback.  [Wasm]:
      [wasm_engine.py] over a class with the laws of OPA's ABI, and a small module
      that satisfies them.  [Linker]: what the engine offers a module to import.
    - [Admission]: [/submit-candidate], the recurrence hook and
      [process_recurrence] ([r6_utils.py]), external effects, checkpoints.
    - [Recovery]: [_attempt_safe_continuity] (M3, M4) and
      [_attempt_reconstruction] (R3 to R5).  [Adapter]: [recovery_adapter.py].
    - [Detectors]: [detectors/].  [Designation]: [/designate], [/detector].
      [Routes]: the other routes that write.  [Reports]: those that only read.
    - [Lock]: [_AdmissionLock] as a step relation over tasks, with cancellation.
      [Backpressure]: the in-flight counter, drain and readiness, likewise.
      [Drain]: start-up notices, shutdown with its timed wait, the middleware's
      refusals.  [Startup]: importing the module, with Python's abstract classes,
      and [state_backend.py], an older interface.
    - [Jsonschema]: the documents of [schemas/] as values of a schema type,
      conformance, and the typing of a body that conforms.  [Body]: the start of
      [/submit-candidate], from the bytes of the request to the payload, over a
      class for the validation library; the example agent.
    - [Client], [LiveRun], [Campaign]: the black-box client ([signing.py],
      [harness.py]), the scripted attacks of [live_run.py] and its random hammer.
      [Storm], [Oracle], [Runner]: the write storm of [property_runner.py], its
      oracle, and its other tests; [Latency]: its latency test.  They run against the model; what they draw
      from the random generator, and the order of requests of several threads,
      are arguments.
    - [Demo]: a concrete [Env] and a small store, for the witnesses.
    - [Trust], [AdmissionSpec], [ContainmentSpec], [PostgresSpec], [RecoverySpec],
      [Concurrency], [System]: the properties of the handlers; [Replay]:
      resubmission, and the JSON of the answers; [Steady], [Tainted]: which
      handlers leave a table alone, and the records of refused writes.  [Scenarios]:
      evaluated runs that show where a promise stops.

    ** What is shown

    - Graph: the in-memory blast radius is exactly what derives from the root,
      its loop ends, the SQLite one is that up to [MAX_TRAVERSAL_DEPTH] by
      either traversal strategy; the SQLite store refines the in-memory one and
      PostgreSQL answers as SQLite does.  The interval gap is what lies between
      the covers.
    - Storage: payloads, timestamps and JSON text read back as written; the
      migration can be undone, and differs from what [init_db] creates.
    - Admission: the decision is that of the rules on every path; an enforced
      admission is authenticated and has clean parents; a refusal writes
      nothing; a tainted attempt is quarantined alone; an engine that is down
      admits nothing; containment is preserved; a body that passes the checks is
      typed as its schema says; the bytes of an honest client are admitted; a write
      counts once, and its repetition changes nothing; the accounts of refused
      writes add up.
    - Designation: containment is complete and kept by what follows; quotas hold.
    - Recovery: what enters the graph was checked; the adapter and the gateway
      agree on frontiers; the gateway's own signatures verify.
    - Trust: horizons run exactly to their end; withdrawals are append-only and
      all or nothing.
    - Start-up: the module can be imported with the SQLite backend only, and that
      backend has every method that is called.
    - System: outside debug mode no sequence of requests removes a node or
      releases one from quarantine; answers are authorised.
    - Concurrency: mutual exclusion, progress, and the anomalies of the request
      flag; the in-flight counter is exact and bounded and shutdown ends; calls
      that interleave on one SQLite file give a serial result, so submissions and
      designations keep containment in every schedule; how many tasks the
      PostgreSQL pool supports.
    - The black-box tests: the oracle's containment check is exact on contained
      stores, and the oracle can fail; whatever is drawn, the hammer counts no
      shrink, and the accounts of the write storm are exact; the radii of the
      latency test are whole up to a thousand nodes, and after the first twenty
      samples it measures refusals.

    ** Bounds and fuel

    Searches take as fuel the number of nodes they can pop (each node is queued
    once) and [Graph.bfs_terminates] shows that it is enough; the ancestor search
    queues with repetition and its fuel counts edges
    ([Lineage.quarantined_ancestors_spec]), as does the oracle's (starting nodes
    and mentions, [Oracle]).  [Json.loads] has twice the length of the text;
    [Drain.drain_fuel] counts the tests of the shutdown loop, twenty for each
    second of grace.  Timestamps are microseconds since year 1 as [Z]; the order
    theorem needs the range of [datetime].  Counters are unbounded as in Python.
    Strings have code points below 256; [json.dumps] escapes what is not printable
    ASCII, so digests are those of the code.  A JSON number carries the text that
    [repr] gives it.  [time.monotonic] and the grace period are rationals.

    ** Outside the model

    - One request runs at a time in [World]; interleavings are studied for the
      lock, the counter, the pool and the SQLite file.  On the file a method is
      one step, a statement that finds the database locked leaves no trace, and
      the body of a transaction is one statement, since only its task sees it.
      [Hang] stands for a wait that never ends.
    - The SQL text and the rollback journal: a table is a list of rows and a
      transaction restores the store it started from.  The codecs that are set on
      a new PostgreSQL connection.
    - The inside of a WebAssembly module, OPA, [cryptography], [PyJWT], the
      language model: parameters.  Where a theorem needs them to work it says so
      ([faithful_engine], [live_engine], [SignaturesVerify], [OpaAbi]), and there
      is an instance of each.
    - HTTP parsing, logging, uvicorn, what Alembic computes from its version
      table, the benchmark, which patches the handler's functions and measures
      time, and all other measured times. *)
From stdpp Require Export base decidable option list list_numbers strings sorting relations gmap.
From Stdlib Require Export ZArith Lia QArith_base.
Close Scope Q_scope.
Open Scope stdpp_scope.

#[export] Set Default Goal Selector "!".

(** ** Functional record update

    [r <| f := v |>] rebuilds the record [r] with the field [f] replaced.  A
    record type opts in by an instance of [Rebuild] that lists its fields once;
    the setter of a field is found by abstracting its projection there. *)
Class Rebuild (R : Type) := rebuild : R → R.

Class FieldSetter {R E : Type} (f : R → E) := field_update : (E → E) → R → R.
Arguments field_update {R E} f {_} _ _.

Ltac derive_setter R f :=
  let body := eval cbv delta [rebuild] beta in (@rebuild R _) in
  let head := (match body with ?i => let i' := eval red in i in i' | ?i => i end) in
  match (eval pattern f in head) with
  | ?g _ => let t := eval cbv beta in (fun (u : _ → _) (r : R) => g (fun r' : R => u (f r')) r) in exact t
  end.

#[export] Hint Extern 1 (@FieldSetter ?R _ ?f) => derive_setter R f : typeclass_instances.

Declare Scope update_scope.
Notation "r <| f := v |>" := (field_update f (λ _, v) r)
  (at level 12, left associativity, f at level 9, v at level 200,
   format "r  <| f  :=  v |>") : update_scope.
Notation "r <| f ::= u |>" := (field_update f u r)
  (at level 12, left associativity, f at level 9, u at level 200, format "r  <| f  ::=  u |>") : update_scope.
Open Scope update_scope.

(** ** Automation *)
Create HintDb gasc.
Create Rewrite HintDb gasc.

(** Case analysis on every [match]/[if] of the goal or of a hypothesis, with
    the contradictory branches closed. *)
Ltac break_goal := repeat first [case_match | case_decide]; simplify_eq/=.
Ltac break_hyp H :=
  repeat match type of H with context [match ?x with _ => _ end] => destruct x eqn:? end;
  simplify_eq/=.
Ltac solve_gasc := eauto with gasc; try done; try set_solver; try lia.

(** ** Lists *)
Section list_lemmas.
Context {A B : Type}.

Lemma fold_left_inv (P : A → Prop) (f : A → B → A) l a :
  P a → (∀ a b, b ∈ l → P a → P (f a b)) → P (fold_left f l a).
Proof.
  revert a; induction l as [|b l IH]; intros a Ha Hf; simpl; [done|].
  apply IH; [apply Hf; [left|done]|]. intros; apply Hf; [by right|done].
Qed.

Lemma fold_left_app_acc (f : A → B → A) l1 l2 a :
  fold_left f (l1 ++ l2) a = fold_left f l2 (fold_left f l1 a).
Proof. apply fold_left_app. Qed.

Lemma fold_left_rel (R : A → A → Prop) `{!Reflexive R} `{!Transitive R} (f : A → B → A) l a :
  (∀ a b, b ∈ l → R a (f a b)) → R a (fold_left f l a).
Proof.
  intros Hf. apply (fold_left_inv (R a)); [done|].
  intros a' b Hb Ha. etrans; [exact Ha|]. by apply Hf.
Qed.

Lemma list_find_first (p : A → bool) l :
  match List.find p l with
  | Some x => x ∈ l ∧ p x = true
  | None => ∀ x, x ∈ l → p x = false
  end.
Proof.
  destruct (List.find p l) as [x|] eqn:E.
  - apply List.find_some in E as [? ?]. split; [by apply list_elem_of_In|done].
  - intros x Hx%list_elem_of_In. by eapply List.find_none.
Qed.
End list_lemmas.

(** [filter] of the Standard Library is used for Python's comprehensions with
    a Boolean test. *)
Lemma elem_of_bfilter {A} (p : A → bool) l x : x ∈ List.filter p l ↔ x ∈ l ∧ p x = true.
Proof. by rewrite !list_elem_of_In, List.filter_In. Qed.

Lemma NoDup_bfilter {A} (p : A → bool) l : NoDup l → NoDup (List.filter p l).
Proof.
  induction 1 as [|x l Hx Hl IH]; simpl; [constructor|].
  destruct (p x); [|done]. constructor; [|done]. by rewrite elem_of_bfilter; intros [? _].
Qed.

Lemma bfilter_nil {A} (p : A → bool) l : List.filter p l = [] ↔ ∀ x, x ∈ l → p x = false.
Proof.
  split.
  - intros E x Hx. destruct (p x) eqn:Hp; [|done].
    assert (x ∈ List.filter p l) as Hin by (by apply elem_of_bfilter).
    rewrite E in Hin. by apply elem_of_nil in Hin.
  - induction l as [|y l IH]; intros H; simpl; [done|].
    rewrite H by left. apply IH. intros; apply H; by right.
Qed.

Lemma bfilter_all {A} (p : A → bool) l : (∀ x, x ∈ l → p x = true) → List.filter p l = l.
Proof.
  induction l as [|y l IH]; intros H; simpl; [done|].
  rewrite H by left. f_equal. apply IH. intros; apply H; by right.
Qed.

(** Membership as a Boolean, for definitions that evaluate. *)
Notation "x ∈? l" := (bool_decide (x ∈ l)) (at level 70, no associativity) : stdpp_scope.

(** Adding to a list used as a set, at the end: Python's
    [if x not in l: l.append(x)]. *)
Definition add_new {A} `{EqDecision A} (x : A) (l : list A) : list A :=
  if decide (x ∈ l) then l else l ++ [x].

Section add_new.
Context {A : Type} `{EqDecision A}.

Lemma elem_of_add_new (x y : A) l : y ∈ add_new x l ↔ y = x ∨ y ∈ l.
Proof. unfold add_new. case_decide; set_solver. Qed.

Lemma NoDup_add_new (x : A) l : NoDup l → NoDup (add_new x l).
Proof.
  unfold add_new. case_decide; [done|]. intros Hl. apply NoDup_app.
  split_and!; [done| |apply NoDup_singleton]. set_solver.
Qed.

Lemma elem_of_fold_add_new (xs : list A) l y :
  y ∈ fold_left (λ l x, add_new x l) xs l ↔ y ∈ xs ∨ y ∈ l.
Proof.
  revert l; induction xs as [|x xs IH]; intros l; simpl; [set_solver|].
  rewrite IH, elem_of_add_new. set_solver.
Qed.

Lemma NoDup_fold_add_new (xs : list A) l :
  NoDup l → NoDup (fold_left (λ l x, add_new x l) xs l).
Proof. intros H. apply (fold_left_inv NoDup); eauto using NoDup_add_new. Qed.
End add_new.
#[export] Hint Resolve NoDup_add_new NoDup_fold_add_new : gasc.
#[export] Hint Rewrite @elem_of_add_new @elem_of_fold_add_new @elem_of_bfilter : gasc.

(** ** Sorted lists of strings: Python's [sorted] *)
Definition sorted (l : list string) : list string := merge_sort String.le l.

Lemma sorted_Permutation l : sorted l ≡ₚ l.
Proof. apply merge_sort_Permutation. Qed.

Lemma elem_of_sorted l x : x ∈ sorted l ↔ x ∈ l.
Proof. by rewrite sorted_Permutation. Qed.

Lemma StronglySorted_sorted l : StronglySorted String.le (sorted l).
Proof. apply StronglySorted_merge_sort; apply _. Qed.

Lemma NoDup_sorted l : NoDup l → NoDup (sorted l).
Proof. by rewrite sorted_Permutation. Qed.

Lemma length_sorted l : length (sorted l) = length l.
Proof. by rewrite sorted_Permutation. Qed.

(** Two duplicate-free lists with the same elements sort to the same list. *)
Lemma sorted_ext l1 l2 : l1 ≡ₚ l2 → sorted l1 = sorted l2.
Proof.
  intros H. apply (StronglySorted_unique String.le); try apply StronglySorted_sorted.
  by rewrite !sorted_Permutation.
Qed.

Lemma sorted_set_ext l1 l2 :
  NoDup l1 → NoDup l2 → (∀ x, x ∈ l1 ↔ x ∈ l2) → sorted l1 = sorted l2.
Proof. intros. by apply sorted_ext, NoDup_Permutation. Qed.
#[export] Hint Rewrite elem_of_sorted length_sorted : gasc.
#[export] Hint Resolve StronglySorted_sorted NoDup_sorted : gasc.

(** Strict and non-strict order on [str], as Python's comparison operators. *)
Abbreviation str_lt := String.ltb.
Abbreviation str_le := String.leb.

(** ** Options: Python's [d.get(k, default)] and truthiness of strings *)
Definition truthy (o : option string) : bool :=
  match o with Some s => negb (bool_decide (s = "")) | None => false end.

Lemma truthy_Some o : truthy o = true → ∃ s, o = Some s ∧ s ≠ "".
Proof. destruct o as [s|]; [|done]. simpl. rewrite negb_true_iff, bool_decide_eq_false. eauto. Qed.
