(* ===== verification/Dict.v ===== *)
(** * Python dictionaries

    A [dict] keeps its keys in insertion order, assignment to a key that is
    present keeps the key's place, and a new key goes last.  The backends
    iterate over dictionaries, so the order is part of the model.  The last
    section gives the two SQL statements that write a keyed table:
    [INSERT OR IGNORE] and [INSERT OR REPLACE], which moves the row to the end. *)
From S2P Require Import Prelude.

Definition dict (V : Type) := list (string * V).

Section dict.
Context {V : Type}.
Implicit Types (d : dict V) (k : string) (v : V).

Fixpoint dict_get k d : option V :=
  match d with
  | [] => None
  | (k', v) :: d => if decide (k = k') then Some v else dict_get k d
  end.

Definition dict_keys d : list string := d.*1.
Definition dict_values d : list V := d.*2.
Definition dict_mem k d : bool := match dict_get k d with Some _ => true | None => false end.

(** [d[k] = v] *)
Fixpoint dict_set k v d : dict V :=
  match d with
  | [] => [(k, v)]
  | (k', v') :: d => if decide (k = k') then (k, v) :: d else (k', v') :: dict_set k v d
  end.

Definition dict_ok d : Prop := NoDup (dict_keys d).

Lemma dict_get_Some_elem k v d : dict_get k d = Some v → (k, v) ∈ d.
Proof.
  induction d as [|[k' v'] d IH]; simpl; [done|].
  case_decide; intros; simplify_eq; [left|right; auto].
Qed.

Lemma dict_get_elem k v d : dict_ok d → (k, v) ∈ d → dict_get k d = Some v.
Proof.
  unfold dict_ok, dict_keys. induction d as [|[k' v'] d IH]; simpl; [set_solver|].
  intros [Hk Hd]%NoDup_cons [?|Hin]%elem_of_cons; simplify_eq.
  - by rewrite decide_True.
  - rewrite decide_False; [auto|]. intros ->. apply Hk, list_elem_of_fmap. by exists (k', v).
Qed.

Lemma dict_get_is_Some k d : is_Some (dict_get k d) ↔ k ∈ dict_keys d.
Proof.
  unfold dict_keys. induction d as [|[k' v'] d IH]; simpl.
  - split; [by intros [? ?]|set_solver].
  - case_decide; [split; [set_solver|naive_solver]|]. rewrite IH. set_solver.
Qed.

Lemma dict_get_None k d : dict_get k d = None ↔ k ∉ dict_keys d.
Proof.
  rewrite <-dict_get_is_Some, eq_None_not_Some. done.
Qed.

Lemma dict_mem_true k d : dict_mem k d = true ↔ k ∈ dict_keys d.
Proof.
  rewrite <-dict_get_is_Some. unfold dict_mem.
  destruct (dict_get k d); naive_solver.
Qed.

Lemma dict_mem_false k d : dict_mem k d = false ↔ k ∉ dict_keys d.
Proof. rewrite <-dict_mem_true. by destruct (dict_mem k d). Qed.

Lemma dict_get_set k k' v d :
  dict_get k' (dict_set k v d) = if decide (k' = k) then Some v else dict_get k' d.
Proof.
  induction d as [|[k0 v0] d IH]; simpl; [done|].
  destruct (decide (k = k0)) as [->|]; simpl.
  - by repeat case_decide.
  - rewrite IH. repeat case_decide; congruence.
Qed.

Lemma dict_get_set_eq k v d : dict_get k (dict_set k v d) = Some v.
Proof. by rewrite dict_get_set, decide_True. Qed.

Lemma dict_get_set_ne k k' v d : k' ≠ k → dict_get k' (dict_set k v d) = dict_get k' d.
Proof. intros. by rewrite dict_get_set, decide_False. Qed.

Lemma dict_keys_set k v d : dict_keys (dict_set k v d) = add_new k (dict_keys d).
Proof.
  unfold dict_keys. induction d as [|[k' v'] d IH]; [done|].
  cbn [dict_set]. destruct (decide (k = k')) as [->|Hne]; rewrite !fmap_cons; cbn [fst].
  - unfold add_new. by rewrite decide_True by left.
  - rewrite IH. unfold add_new. repeat case_decide; set_solver.
Qed.

Lemma dict_set_fresh k v d : k ∉ dict_keys d → dict_set k v d = d ++ [(k, v)].
Proof.
  unfold dict_keys. induction d as [|[k' v'] d IH]; simpl; [done|]. intros Hk.
  rewrite decide_False by set_solver. by rewrite IH by set_solver.
Qed.

Lemma dict_ok_set k v d : dict_ok d → dict_ok (dict_set k v d).
Proof. unfold dict_ok. rewrite dict_keys_set. eauto with gasc. Qed.

Lemma dict_get_app k d1 d2 :
  dict_get k (d1 ++ d2) = match dict_get k d1 with Some v => Some v | None => dict_get k d2 end.
Proof. induction d1 as [|[k' v'] d IH]; simpl; [done|]. by case_decide. Qed.

Lemma dict_keys_app d1 d2 : dict_keys (d1 ++ d2) = dict_keys d1 ++ dict_keys d2.
Proof. apply fmap_app. Qed.

Lemma length_dict_keys d : length (dict_keys d) = length d.
Proof. apply length_fmap. Qed.

Lemma elem_of_dict_values v d : dict_ok d → v ∈ dict_values d ↔ ∃ k, dict_get k d = Some v.
Proof.
  intros Hok. unfold dict_values. rewrite list_elem_of_fmap. split.
  - intros ([k v'] & -> & Hin). exists k. by apply dict_get_elem.
  - intros [k Hk%dict_get_Some_elem]. by exists (k, v).
Qed.

Lemma dict_keys_elem k v d : (k, v) ∈ d → k ∈ dict_keys d.
Proof. intros H. apply list_elem_of_fmap. by exists (k, v). Qed.
End dict.
#[export] Hint Resolve dict_ok_set dict_keys_elem : gasc.
#[export] Hint Rewrite @dict_get_set_eq @dict_keys_set @dict_keys_app : gasc.

(** [{k: f(v) for k, v in d.items()}] *)
Definition dict_map {V W} (f : V → W) (d : dict V) : dict W := prod_map id f <$> d.

Lemma dict_get_map {V W} (f : V → W) k (d : dict V) : dict_get k (dict_map f d) = f <$> dict_get k d.
Proof. unfold dict_map. induction d as [|[k' v] d IH]; [done|]. cbn. by case_decide. Qed.

Lemma dict_keys_map {V W} (f : V → W) (d : dict V) : dict_keys (dict_map f d) = dict_keys d.
Proof. unfold dict_map, dict_keys. by rewrite <-list_fmap_compose. Qed.

(** [UPDATE .. SET .. WHERE key = k] *)
Definition update_row {V} (k : string) (f : V → V) (d : dict V) : dict V :=
  List.map (λ kv, if decide (kv.1 = k) then (kv.1, f kv.2) else kv) d.

Lemma update_row_get {V} k (f : V → V) (d : dict V) k' :
  dict_get k' (update_row k f d) = (if decide (k' = k) then f else id) <$> dict_get k' d.
Proof.
  unfold update_row. induction d as [|[k0 v] d IH]; [done|].
  cbn -[decide]. destruct (decide (k0 = k)); cbn -[decide]; repeat case_decide; subst; done || congruence.
Qed.

Lemma update_row_keys {V} k (f : V → V) (d : dict V) : dict_keys (update_row k f d) = dict_keys d.
Proof.
  unfold update_row, dict_keys. rewrite <-list_fmap_compose. apply list_fmap_ext.
  intros i [k' v] _. cbn. by case_decide.
Qed.

(** [{k: v for k, v in d.items() if p(v)}] *)
Lemma dict_get_filter {V} (p : V → bool) (d : dict V) k :
  dict_ok d →
  dict_get k (List.filter (λ kv, p kv.2) d) =
    match dict_get k d with Some v => if p v then Some v else None | None => None end.
Proof.
  unfold dict_ok. induction d as [|[k' v] d IH]; [done|]. cbn. intros [Hk Hd]%NoDup_cons.
  destruct (p v) eqn:Hp; cbn; case_decide; subst; [by rewrite Hp|by apply IH| |by apply IH].
  rewrite Hp, IH by done. by apply dict_get_None in Hk as ->.
Qed.

Lemma dict_get_filter_keys {V} (p : string → bool) (d : dict V) k :
  dict_get k (List.filter (λ kv, p kv.1) d) = if p k then dict_get k d else None.
Proof.
  induction d as [|[k' v] d IH]; [by destruct (p k)|]. cbn. destruct (p k') eqn:Hp; cbn; case_decide as Hk; subst.
  - by rewrite Hp.
  - apply IH.
  - rewrite IH. by rewrite Hp.
  - apply IH.
Qed.

Lemma dict_ok_filter {V} (p : string * V → bool) (d : dict V) : dict_ok d → dict_ok (List.filter p d).
Proof.
  unfold dict_ok, dict_keys. induction d as [|kv d IH]; [done|]. cbn. intros [Hk Hd]%NoDup_cons.
  destruct (p kv); cbn; [|by apply IH]. apply NoDup_cons. split; [|by apply IH].
  contradict Hk. apply list_elem_of_fmap in Hk as (kv' & -> & [Hin _]%elem_of_bfilter).
  by apply list_elem_of_fmap_2.
Qed.

(** ** Keyed SQL tables *)
Section table.
Context {V : Type}.
Implicit Types (d : dict V) (k : string) (v : V).

(** [INSERT OR IGNORE] / [ON CONFLICT DO NOTHING] *)
Definition insert_or_ignore k v d : dict V :=
  if decide (k ∈ dict_keys d) then d else d ++ [(k, v)].

(** [INSERT OR REPLACE]: the old row is deleted, the new one gets a fresh rowid *)
Definition insert_or_replace k v d : dict V :=
  List.filter (λ row, negb (bool_decide (row.1 = k))) d ++ [(k, v)].

Lemma insert_or_ignore_get k k' v d :
  dict_get k' (insert_or_ignore k v d) =
    match dict_get k' d with
    | Some v' => Some v'
    | None => if decide (k' = k) then Some v else None
    end.
Proof.
  unfold insert_or_ignore. case_decide as Hk.
  - destruct (dict_get k' d) eqn:E; [done|]. case_decide; subst; [|done].
    by apply dict_get_None in E.
  - rewrite dict_get_app. simpl. by destruct (dict_get k' d).
Qed.

Lemma insert_or_ignore_ok k v d : dict_ok d → dict_ok (insert_or_ignore k v d).
Proof.
  unfold insert_or_ignore, dict_ok. case_decide; [done|].
  rewrite dict_keys_app. intros. apply NoDup_app.
  split_and!; [done| |apply NoDup_singleton]. set_solver.
Qed.

Lemma dict_get_filter_ne k k' d :
  dict_get k' (List.filter (λ row, negb (bool_decide (row.1 = k))) d) =
    if decide (k' = k) then None else dict_get k' d.
Proof.
  induction d as [|[k0 v0] d IH]; simpl; [by case_decide|].
  case_bool_decide; simplify_eq/=.
  - rewrite IH. by repeat case_decide.
  - rewrite IH. repeat case_decide; congruence.
Qed.

Lemma insert_or_replace_get k k' v d :
  dict_get k' (insert_or_replace k v d) = if decide (k' = k) then Some v else dict_get k' d.
Proof.
  unfold insert_or_replace. rewrite dict_get_app, dict_get_filter_ne. simpl.
  case_decide; [done|]. by destruct (dict_get k' d).
Qed.

Lemma insert_or_replace_ok k v d : dict_ok d → dict_ok (insert_or_replace k v d).
Proof.
  unfold insert_or_replace, dict_ok. rewrite dict_keys_app. intros Hd.
  assert (dict_keys (List.filter (λ row : string * V, negb (bool_decide (row.1 = k))) d)
    = List.filter (λ k', negb (bool_decide (k' = k))) (dict_keys d)) as ->.
  { unfold dict_keys. clear Hd. induction d as [|[k0 v0] d IH]; [done|].
    rewrite fmap_cons. cbn [List.filter fst].
    destruct (bool_decide (k0 = k)); cbn [negb]; rewrite ?fmap_cons; [done|]. by rewrite IH. }
  apply NoDup_app. split_and!; [by apply NoDup_bfilter| |apply NoDup_singleton].
  intros x [_ Hx]%elem_of_bfilter. rewrite negb_true_iff, bool_decide_eq_false in Hx. set_solver.
Qed.

(** [INSERT .. ON CONFLICT (key) DO UPDATE SET ..]: the row keeps its place. *)
Definition upsert k (update : V → V) v d : dict V :=
  match dict_get k d with
  | Some v' => dict_set k (update v') d
  | None => d ++ [(k, v)]
  end.

(** [DO UPDATE SET column = EXCLUDED.column] for every column but the key *)
Definition overwrite k v d : dict V := upsert k (λ _, v) v d.

Lemma upsert_get k u v d k' :
  dict_get k' (upsert k u v d) =
    if decide (k' = k) then Some (match dict_get k d with Some v' => u v' | None => v end) else dict_get k' d.
Proof.
  unfold upsert. destruct (dict_get k d) eqn:E; [apply dict_get_set|].
  rewrite dict_get_app. simpl. case_decide; [by subst; rewrite E|]. by destruct (dict_get k' d).
Qed.

Lemma upsert_ok k u v d : dict_ok d → dict_ok (upsert k u v d).
Proof.
  intros Hd. unfold upsert. destruct (dict_get k d) eqn:E; [by apply dict_ok_set|].
  apply dict_get_None in E. unfold dict_ok. rewrite dict_keys_app. apply NoDup_app.
  split_and!; [done| |apply NoDup_singleton]. cbn. set_solver.
Qed.
End table.
#[export] Hint Resolve insert_or_ignore_ok insert_or_replace_ok upsert_ok : gasc.

(** Statements on a table commute with a change of its values. *)
Lemma insert_or_ignore_map {V W} (f : V → W) k v (d : dict V) :
  dict_map f (insert_or_ignore k v d) = insert_or_ignore k (f v) (dict_map f d).
Proof.
  unfold insert_or_ignore. rewrite dict_keys_map. case_decide; [done|]. unfold dict_map. by rewrite fmap_app.
Qed.

Lemma insert_or_replace_map {V W} (f : V → W) k v (d : dict V) :
  dict_map f (insert_or_replace k v d) = insert_or_replace k (f v) (dict_map f d).
Proof.
  unfold insert_or_replace, dict_map. rewrite fmap_app. f_equal.
  induction d as [|[k' v'] d IH]; [done|]. cbn. case_match; cbn; by rewrite <-IH.
Qed.
