(* ===== verification/Datetime.v ===== *)
(** * Timestamps

    The gateway stores instants as [datetime.now(timezone.utc).isoformat() + "Z"]
    and compares them as strings.  A [datetime] is here the number of
    microseconds since 0001-01-01T00:00:00Z; [ymd_of_days] is the proleptic
    Gregorian calendar of Python's [datetime], and [iso_z] the string the code
    writes.  The result of the file is that comparing the strings is comparing
    the instants. *)
From S2P Require Import Prelude.
Local Open Scope Z_scope.

(** ** Decimal fields *)
Definition digit_of (n : Z) : Ascii.ascii := Ascii.ascii_of_nat (Z.to_nat (48 + n)).

(** [f"{n:0{width}d}"] for [0 <= n < 10^width] *)
Fixpoint pad (width : nat) (n : Z) : string :=
  match width with
  | O => ""
  | S w => String (digit_of (n / 10 ^ Z.of_nat w)) (pad w (n mod 10 ^ Z.of_nat w))
  end.

(** ** The calendar *)
Definition is_leap (y : Z) : bool :=
  (y mod 4 =? 0) && (negb (y mod 100 =? 0) || (y mod 400 =? 0)).

Definition days_before_year (y : Z) : Z :=
  let y := y - 1 in y * 365 + y / 4 - y / 100 + y / 400.

Definition days_before_month_table (m : Z) : Z :=
  match m with
  | 1 => 0 | 2 => 31 | 3 => 59 | 4 => 90 | 5 => 120 | 6 => 151
  | 7 => 181 | 8 => 212 | 9 => 243 | 10 => 273 | 11 => 304 | 12 => 334 | _ => 365
  end.

Definition days_before_month (leap : bool) (m : Z) : Z :=
  days_before_month_table m + (if (2 <? m) && leap then 1 else 0).

(** The inverse of [divmod]-based [date.fromordinal]: year, month and day of a
    day number counted from 0 for 0001-01-01. *)
Definition year_and_rest (n : Z) : Z * Z :=
  let n400 := n / 146097 in
  let n := n mod 146097 in
  let n100 := n / 36524 in
  let n := n mod 36524 in
  let n4 := n / 1461 in
  let n := n mod 1461 in
  let n1 := n / 365 in
  let n := n mod 365 in
  let year := n400 * 400 + 1 + n100 * 100 + n4 * 4 + n1 in
  if (n1 =? 4) || (n100 =? 4) then (year - 1, 365) else (year, n).

Definition month_and_day (leap : bool) (n : Z) : Z * Z :=
  let month := Z.shiftr (n + 50) 5 in
  let preceding := days_before_month leap month in
  if n <? preceding then (month - 1, n - days_before_month leap (month - 1) + 1)
  else (month, n - preceding + 1).

Record date := Date { year : Z; month : Z; day : Z }.

Definition ymd_of_days (n : Z) : date :=
  let '(y, r) := year_and_rest n in
  let '(m, d) := month_and_day (is_leap y) r in Date y m d.

(** ** [datetime.isoformat() + "Z"] *)
Definition us_per_second : Z := 1000000.
Definition us_per_day : Z := 86400 * us_per_second.
Definition max_datetime : Z := 3652059 * us_per_day.

Definition in_range (t : Z) : Prop := 0 ≤ t < max_datetime.

Definition iso_date (d : date) : string :=
  pad 4 (year d) +:+ "-" +:+ pad 2 (month d) +:+ "-" +:+ pad 2 (day d).

Definition iso_time (us : Z) : string :=
  let s := us / us_per_second in
  pad 2 (s / 3600) +:+ ":" +:+ pad 2 (s / 60 mod 60) +:+ ":" +:+ pad 2 (s mod 60).

(** [isoformat] leaves the fraction out when it is zero. *)
Definition iso_fraction (us : Z) : string :=
  let f := us mod us_per_second in
  if f =? 0 then "" else "." +:+ pad 6 f.

Definition isoformat (t : Z) : string :=
  iso_date (ymd_of_days (t / us_per_day)) +:+ "T" +:+
  iso_time (t mod us_per_day) +:+ iso_fraction (t mod us_per_day) +:+ "+00:00".

Definition iso_z (t : Z) : string := isoformat t +:+ "Z".

(** [t + timedelta(seconds=s)] *)
Definition plus_seconds (t s : Z) : Z := t + s * us_per_second.

(** [int(datetime.now(timezone.utc).timestamp())], seconds of the Unix epoch *)
Definition unix_timestamp (t : Z) : Z := t / us_per_second - 719162 * 86400.


(** ** Comparing fixed-width fields *)
Definition cmp_then (c1 c2 : comparison) : comparison :=
  match c1 with Eq => c2 | Lt => Lt | Gt => Gt end.

Lemma compare_refl s : String.compare s s = Eq.
Proof. induction s; simpl; [done|]. unfold Ascii.compare. by rewrite N.compare_refl. Qed.

Lemma compare_app a b s t :
  String.length a = String.length b →
  String.compare (a +:+ s) (b +:+ t) = cmp_then (String.compare a b) (String.compare s t).
Proof.
  revert b; induction a as [|c a IH]; intros [|c' b] H; try done; simpl in *.
  rewrite IH by lia. by destruct (Ascii.compare c c').
Qed.

Lemma length_pad w n : String.length (pad w n) = w.
Proof. revert n; induction w as [|w IH]; intros n; simpl; auto. Qed.

Lemma cmp_digits a b :
  0 ≤ a < 10 → 0 ≤ b < 10 → Ascii.compare (digit_of a) (digit_of b) = (a ?= b).
Proof.
  intros Ha Hb. unfold Ascii.compare, digit_of.
  unfold Ascii.ascii_of_nat. rewrite !Ascii.N_ascii_embedding by lia.
  rewrite <-(N2Z.inj_compare). rewrite !nat_N_Z, !Z2Nat.id by lia.
  destruct (Z.compare_spec a b); [subst; apply Z.compare_refl|apply Z.compare_lt_iff; lia|apply Z.compare_gt_iff; lia].
Qed.

(** Lexicographic comparison of a quotient and a remainder is comparison. *)
Lemma cmp_divmod B a b : 0 < B →
  cmp_then (a / B ?= b / B) (a mod B ?= b mod B) = (a ?= b).
Proof.
  intros HB. pose proof (Z.div_mod a B). pose proof (Z.div_mod b B).
  pose proof (Z.mod_pos_bound a B). pose proof (Z.mod_pos_bound b B).
  unfold cmp_then. destruct (Z.compare_spec (a / B) (b / B)) as [E|E|E].
  - destruct (Z.compare_spec (a mod B) (b mod B)); symmetry;
      [apply Z.compare_eq_iff|apply Z.compare_lt_iff|apply Z.compare_gt_iff]; nia.
  - symmetry. apply Z.compare_lt_iff. nia.
  - symmetry. apply Z.compare_gt_iff. nia.
Qed.

Lemma compare_pad w a b :
  0 ≤ a < 10 ^ Z.of_nat w → 0 ≤ b < 10 ^ Z.of_nat w →
  String.compare (pad w a) (pad w b) = (a ?= b).
Proof.
  revert a b; induction w as [|w IH]; intros a b Ha Hb.
  { replace a with 0 by lia. by replace b with 0 by lia. }
  cbn [pad String.compare].
  assert (0 < 10 ^ Z.of_nat w) by (apply Z.pow_pos_nonneg; lia).
  rewrite Nat2Z.inj_succ, Z.pow_succ_r in Ha, Hb by lia.
  rewrite cmp_digits by (split; [apply Z.div_pos; lia|apply Z.div_lt_upper_bound; lia]).
  rewrite IH by (apply Z.mod_pos_bound; lia).
  exact (cmp_divmod (10 ^ Z.of_nat w) a b ltac:(done)).
Qed.

(** ** The calendar is order preserving *)
Lemma days_before_year_mono y1 y2 :
  1 ≤ y1 → y1 < y2 → days_before_year y1 + 365 + (if is_leap y1 then 1 else 0) ≤ days_before_year y2.
Proof.
  intros H1 H2. unfold days_before_year, is_leap.
  assert (y1 / 4 ≤ (y2 - 1) / 4) by (apply Z.div_le_mono; lia).
  assert ((y2 - 1) / 100 - y1 / 100 ≤ (y2 - 1) - y1).
  { pose proof (Z.div_mod (y2 - 1) 100). pose proof (Z.div_mod y1 100).
    pose proof (Z.mod_pos_bound (y2 - 1) 100). pose proof (Z.mod_pos_bound y1 100). lia. }
  assert (y1 / 400 ≤ (y2 - 1) / 400) by (apply Z.div_le_mono; lia).
  destruct (y1 mod 4 =? 0) eqn:E4; destruct (y1 mod 100 =? 0) eqn:E100;
    destruct (y1 mod 400 =? 0) eqn:E400; cbn [andb orb negb];
    rewrite ?Z.eqb_eq, ?Z.eqb_neq in *; Z.to_euclidean_division_equations; lia.
Qed.

Lemma year_and_rest_spec n : 0 ≤ n →
  let '(y, r) := year_and_rest n in
  1 ≤ y ∧ n = days_before_year y + r ∧ 0 ≤ r < 365 + (if is_leap y then 1 else 0).
Proof.
  intros Hn. unfold year_and_rest.
  set (a := n / 146097). set (n1 := n mod 146097).
  set (b := n1 / 36524). set (n2 := n1 mod 36524).
  set (c := n2 / 1461). set (n3 := n2 mod 1461).
  set (d := n3 / 365). set (e := n3 mod 365).
  assert (n = 146097 * a + n1 ∧ 0 ≤ n1 < 146097 ∧ 0 ≤ a) as (?&?&?)
    by (subst a n1; Z.to_euclidean_division_equations; lia).
  assert (n1 = 36524 * b + n2 ∧ 0 ≤ n2 < 36524 ∧ 0 ≤ b ≤ 4) as (?&?&?)
    by (subst b n2; clearbody n1; Z.to_euclidean_division_equations; lia).
  assert (n2 = 1461 * c + n3 ∧ 0 ≤ n3 < 1461 ∧ 0 ≤ c ≤ 24) as (?&?&?)
    by (subst c n3; clearbody n2; Z.to_euclidean_division_equations; lia).
  assert (n3 = 365 * d + e ∧ 0 ≤ e < 365 ∧ 0 ≤ d ≤ 4) as (?&?&?)
    by (subst d e; clearbody n3; Z.to_euclidean_division_equations; lia).
  clearbody a n1 b n2 c n3 d e.
  unfold days_before_year, is_leap.
  destruct ((d =? 4) || (b =? 4)) eqn:E.
  - assert ((b = 4 ∧ c = 0 ∧ d = 0 ∧ e = 0) ∨ (d = 4 ∧ e = 0 ∧ b ≤ 3 ∧ (c ≤ 23 ∨ b = 3))) as Hcase.
    { apply orb_true_iff in E. rewrite !Z.eqb_eq in E. lia. }
    destruct Hcase as [(-> & -> & -> & ->)|(-> & -> & ? & Hc)].
    + replace ((a * 400 + 1 + 4 * 100 + 0 * 4 + 0 - 1) mod 4) with 0 by (Z.to_euclidean_division_equations; lia).
      replace ((a * 400 + 1 + 4 * 100 + 0 * 4 + 0 - 1) mod 400) with 0 by (Z.to_euclidean_division_equations; lia).
      cbn [Z.eqb andb orb]. rewrite orb_true_r. Z.to_euclidean_division_equations; lia.
    + assert ((a * 400 + 1 + b * 100 + c * 4 + 4 - 1) mod 4 = 0) as -> by (Z.to_euclidean_division_equations; lia).
      assert (negb ((a * 400 + 1 + b * 100 + c * 4 + 4 - 1) mod 100 =? 0) || ((a * 400 + 1 + b * 100 + c * 4 + 4 - 1) mod 400 =? 0) = true) as ->.
      { apply orb_true_iff. rewrite negb_true_iff, Z.eqb_neq, Z.eqb_eq.
        destruct (decide (c = 24)); [right|left]; Z.to_euclidean_division_equations; lia. }
      cbn [Z.eqb andb]. Z.to_euclidean_division_equations; lia.
  - apply orb_false_iff in E. rewrite !Z.eqb_neq in E.
    split_and!; [lia| |lia|case_match; lia].
    Z.to_euclidean_division_equations; lia.
Qed.

(** Month and day of a day of the year, checked day by day for both kinds of
    year: in range, and increasing with the day. *)
Definition month_day_key (leap : bool) (n : Z) : Z :=
  let '(m, d) := month_and_day leap n in m * 32 + d.

Definition month_day_in_range (leap : bool) (n : Z) : bool :=
  let '(m, d) := month_and_day leap n in
  (1 <=? m) && (m <=? 12) && (1 <=? d) && (d <=? 31).

Definition year_days (leap : bool) : nat := if leap then 366%nat else 365%nat.

Lemma month_day_table (leap : bool) :
  forallb (λ k : nat, month_day_in_range leap (Z.of_nat k) &&
    (bool_decide (S k = year_days leap) ||
     (month_day_key leap (Z.of_nat k) <? month_day_key leap (Z.of_nat (S k)))))
    (seq 0 (year_days leap)) = true.
Proof. by destruct leap; vm_compute. Qed.

Lemma month_day_step (leap : bool) n : 0 ≤ n < 365 + (if leap then 1 else 0) →
  month_day_in_range leap n = true ∧
  (n + 1 < 365 + (if leap then 1 else 0) → month_day_key leap n < month_day_key leap (n + 1)).
Proof.
  intros Hn. pose proof (month_day_table leap) as T. rewrite forallb_forall in T.
  specialize (T (Z.to_nat n)). rewrite Nat2Z.inj_succ, Z2Nat.id in T by lia.
  assert (In (Z.to_nat n) (seq 0 (year_days leap))) as Hin.
  { apply in_seq. unfold year_days. destruct leap; lia. }
  destruct (andb_prop _ _ (T Hin)) as [Hr Hk].
  split; [done|]. intros Hlast. apply orb_true_iff in Hk as [Hk|Hk].
  - apply bool_decide_eq_true in Hk. clear T Hr. unfold year_days in Hk. destruct leap; lia.
  - by apply Z.ltb_lt in Hk.
Qed.

Lemma month_day_key_mono (leap : bool) n1 n2 :
  0 ≤ n1 → n1 < n2 → n2 < 365 + (if leap then 1 else 0) →
  month_day_key leap n1 < month_day_key leap n2.
Proof.
  intros H1 H12. replace n2 with (n1 + 1 + Z.of_nat (Z.to_nat (n2 - n1 - 1))) by lia.
  generalize (Z.to_nat (n2 - n1 - 1)) as k. clear n2 H12. induction k as [|k IH]; intros H2.
  - replace (n1 + 1 + Z.of_nat 0) with (n1 + 1) in * by lia. apply month_day_step; lia.
  - replace (n1 + 1 + Z.of_nat (S k)) with (n1 + 1 + Z.of_nat k + 1) in * by lia.
    apply Z.lt_trans with (month_day_key leap (n1 + 1 + Z.of_nat k)); [apply IH; lia|].
    apply month_day_step; lia.
Qed.

Definition date_key (d : date) : Z := year d * 512 + month d * 32 + day d.
Definition date_in_range (d : date) : Prop :=
  1 ≤ year d ∧ 1 ≤ month d ≤ 12 ∧ 1 ≤ day d ≤ 31.

Lemma ymd_of_days_range n : 0 ≤ n → date_in_range (ymd_of_days n).
Proof.
  intros Hn. unfold ymd_of_days, date_in_range.
  pose proof (year_and_rest_spec n Hn) as Hy. destruct (year_and_rest n) as [y r].
  destruct Hy as (? & ? & Hr). destruct (month_day_step (is_leap y) r Hr) as [Hmd _].
  unfold month_day_in_range in Hmd. destruct (month_and_day _ r) as [m d]. simpl.
  rewrite !andb_true_iff, !Z.leb_le in Hmd. lia.
Qed.

Lemma date_key_mono n1 n2 : 0 ≤ n1 → n1 < n2 → date_key (ymd_of_days n1) < date_key (ymd_of_days n2).
Proof.
  intros H1 H2. pose proof (ymd_of_days_range n1 H1) as R1.
  pose proof (ymd_of_days_range n2 ltac:(lia)) as R2. unfold ymd_of_days, date_key in *.
  pose proof (year_and_rest_spec n1 ltac:(lia)) as Y1. pose proof (year_and_rest_spec n2 ltac:(lia)) as Y2.
  destruct (year_and_rest n1) as [y1 r1], (year_and_rest n2) as [y2 r2].
  pose proof (month_day_key_mono (is_leap y1) r1 r2) as K. unfold month_day_key, date_in_range in *.
  destruct (month_and_day (is_leap y1) r1) as [m1 d1] eqn:E1, (month_and_day (is_leap y2) r2) as [m2 d2] eqn:E2.
  simpl in *. destruct (Z.lt_trichotomy y1 y2) as [Hlt|[->|Hgt]].
  - lia.
  - rewrite E2 in K. lia.
  - pose proof (days_before_year_mono y2 y1 ltac:(lia) Hgt). lia.
Qed.

Lemma year_le_9999 n : 0 ≤ n < 3652059 → year (ymd_of_days n) ≤ 9999.
Proof.
  intros Hn. unfold ymd_of_days. pose proof (year_and_rest_spec n ltac:(lia)) as Y.
  destruct (year_and_rest n) as [y r]. destruct (month_and_day _ r). simpl.
  destruct (decide (y ≤ 9999)); [done|]. exfalso.
  pose proof (days_before_year_mono 9999 y ltac:(lia) ltac:(lia)).
  change (days_before_year 9999) with 3651694 in *. change (is_leap 9999) with false in *. lia.
Qed.

(** ** Comparing the strings is comparing the instants *)
Lemma cmp_key (a b a' b' B : Z) :
  0 ≤ b < B → 0 ≤ b' < B → cmp_then (a ?= a') (b ?= b') = (a * B + b ?= a' * B + b').
Proof.
  intros Hb Hb'. rewrite <-(cmp_divmod B (a * B + b)) by lia.
  assert (∀ q r, 0 ≤ r < B → (q * B + r) / B = q ∧ (q * B + r) mod B = r) as Hqr.
  { intros q r Hr. split; symmetry; [apply Z.div_unique with r|apply Z.mod_unique with q]; lia. }
  destruct (Hqr a b Hb) as [-> ->], (Hqr a' b' Hb') as [-> ->]. done.
Qed.

Lemma cmp_then_assoc a b c : cmp_then (cmp_then a b) c = cmp_then a (cmp_then b c).
Proof. by destruct a. Qed.

Lemma str_app_assoc s1 s2 s3 : (s1 +:+ s2) +:+ s3 = s1 +:+ (s2 +:+ s3).
Proof. induction s1 as [|c s1 IH]; [done|].
  change (String c ((s1 +:+ s2) +:+ s3) = String c (s1 +:+ (s2 +:+ s3))). by rewrite IH. Qed.

Lemma compare_field w a b s t :
  0 ≤ a < 10 ^ Z.of_nat w → 0 ≤ b < 10 ^ Z.of_nat w →
  String.compare (pad w a +:+ s) (pad w b +:+ t) = cmp_then (a ?= b) (String.compare s t).
Proof. intros. rewrite compare_app by (by rewrite !length_pad). by rewrite compare_pad. Qed.

Lemma compare_sep c s t :
  String.compare (String c "" +:+ s) (String c "" +:+ t) = String.compare s t.
Proof. change (String.compare (String c s) (String c t) = String.compare s t). simpl. unfold Ascii.compare. by rewrite N.compare_refl. Qed.

Lemma compare_date d1 d2 s t :
  date_in_range d1 → date_in_range d2 → year d1 ≤ 9999 → year d2 ≤ 9999 →
  String.compare (iso_date d1 +:+ s) (iso_date d2 +:+ t) =
    cmp_then (date_key d1 ?= date_key d2) (String.compare s t).
Proof.
  intros R1 R2 Y1 Y2. unfold date_in_range, iso_date in *.
  rewrite !str_app_assoc, compare_field by lia.
  rewrite compare_sep, compare_field by lia.
  rewrite compare_sep, compare_field by lia.
  unfold date_key. rewrite <-!cmp_then_assoc, (cmp_key _ _ _ _ 16), (cmp_key _ _ _ _ 32) by lia.
  do 2 f_equal; lia.
Qed.

Lemma compare_time us1 us2 s t :
  0 ≤ us1 < us_per_day → 0 ≤ us2 < us_per_day →
  String.compare (iso_time us1 +:+ s) (iso_time us2 +:+ t) =
    cmp_then (us1 / us_per_second ?= us2 / us_per_second) (String.compare s t).
Proof.
  unfold iso_time, us_per_day, us_per_second. intros H1 H2.
  set (a := us1 / _). set (b := us2 / _).
  assert (0 ≤ a < 86400 ∧ 0 ≤ b < 86400) as [Ha Hb]
    by (subst a b; split; (split; [apply Z.div_pos; lia|apply Z.div_lt_upper_bound; lia])).
  clearbody a b. rewrite !str_app_assoc, compare_field by (Z.to_euclidean_division_equations; lia).
  rewrite compare_sep, compare_field by (Z.to_euclidean_division_equations; lia).
  rewrite compare_sep, compare_field by (Z.to_euclidean_division_equations; lia).
  rewrite <-(cmp_divmod 60 a b), <-(cmp_divmod 60 (a / 60) (b / 60)), !Z.div_div, !cmp_then_assoc by lia.
  done.
Qed.

(** ["+" < "."], so a whole second precedes the fractions of that second. *)
Lemma compare_fraction us1 us2 s :
  String.compare (iso_fraction us1 +:+ "+00:00" +:+ s) (iso_fraction us2 +:+ "+00:00" +:+ s) =
    (us1 mod us_per_second ?= us2 mod us_per_second).
Proof.
  unfold iso_fraction, us_per_second.
  set (f := us1 mod _). set (g := us2 mod _).
  assert (0 ≤ f < 1000000 ∧ 0 ≤ g < 1000000) as [Hf Hg]
    by (subst f g; split; apply Z.mod_pos_bound; lia).
  clearbody f g. destruct (Z.eqb_spec f 0), (Z.eqb_spec g 0); subst.
  - apply compare_refl.
  - symmetry. apply Z.compare_lt_iff. lia.
  - symmetry. apply Z.compare_gt_iff. lia.
  - rewrite !str_app_assoc, compare_sep, compare_field by lia.
    rewrite compare_refl. by destruct (f ?= g).
Qed.

Lemma date_key_compare n1 n2 : 0 ≤ n1 → 0 ≤ n2 →
  (date_key (ymd_of_days n1) ?= date_key (ymd_of_days n2)) = (n1 ?= n2).
Proof.
  intros H1 H2. destruct (Z.compare_spec n1 n2) as [->|H|H].
  - apply Z.compare_refl.
  - by apply Z.compare_lt_iff, date_key_mono.
  - by apply Z.compare_gt_iff, date_key_mono.
Qed.

Lemma compare_iso_z t1 t2 :
  0 ≤ t1 < max_datetime → 0 ≤ t2 < max_datetime →
  String.compare (iso_z t1) (iso_z t2) = (t1 ?= t2).
Proof.
  intros H1 H2.
  assert (∀ t, 0 ≤ t < max_datetime → 0 ≤ t / us_per_day < 3652059) as Hd.
  { unfold max_datetime, us_per_day, us_per_second. intros t Ht.
    Z.to_euclidean_division_equations; lia. }
  unfold iso_z, isoformat. rewrite !str_app_assoc.
  rewrite compare_date, date_key_compare by
    (first [apply ymd_of_days_range|apply year_le_9999|idtac]; naive_solver).
  rewrite compare_sep, compare_time by (apply Z.mod_pos_bound; done).
  rewrite (compare_fraction _ _ "Z"), (cmp_divmod us_per_second) by done.
  by rewrite cmp_divmod.
Qed.

(** The comparisons the code makes. *)
Lemma iso_z_lt t1 t2 : 0 ≤ t1 < max_datetime → 0 ≤ t2 < max_datetime →
  str_lt (iso_z t1) (iso_z t2) = (t1 <? t2).
Proof. intros. unfold String.ltb, Z.ltb. by rewrite compare_iso_z. Qed.

Lemma iso_z_le t1 t2 : 0 ≤ t1 < max_datetime → 0 ≤ t2 < max_datetime →
  str_le (iso_z t1) (iso_z t2) = (t1 <=? t2).
Proof. intros. unfold String.leb, Z.leb. by rewrite compare_iso_z. Qed.
