(* ===== verification/Types.v ===== *)
(** * The gateway's data

    JSON values, the state-write payload that becomes a node of the dependency
    graph, and the records the backends keep.  A key a handler reads with
    [.get] may be missing and is an [option]; a missing list is read as the
    empty list everywhere in the code and is a plain list here. *)
From S2P Require Import Prelude Dict.

(** ** JSON

    A number carries its value and the text that [repr] gives it. *)
Inductive json :=
  | JNull
  | JBool (b : bool)
  | JNum (q : Q) (text : string)
  | JStr (s : string)
  | JArr (l : list json)
  | JObj (o : list (string * json)).

(** [j == "..."] *)
Definition json_is_str (s : string) (j : option json) : bool :=
  match j with Some (JStr t) => bool_decide (t = s) | _ => false end.

Definition json_str (j : option json) : option string :=
  match j with Some (JStr t) => Some t | _ => None end.

(** [j.get(k)]; [None] is the [AttributeError] of a value that is not an object. *)
Definition json_get (k : string) (j : json) : option (option json) :=
  match j with JObj o => Some (dict_get k o) | _ => None end.

Lemma json_is_str_true s j : json_is_str s j = true ↔ j = Some (JStr s).
Proof.
  destruct j as [[]|]; simpl; try done. rewrite bool_decide_eq_true. naive_solver.
Qed.

(** ** Settings ([Settings], with the defaults of the code) *)
(* src: src/config.py 5-36 Settings *)
Record settings := Settings {
  BACKEND_TYPE : string;
  POSTGRES_DSN : string;
  MAX_TRAVERSAL_DEPTH : nat;
  OPA_URL : option string;
  JWT_PUBLIC_KEY : string;
  DEBUG_MODE : bool;
  RECOVERY_ADAPTER_URL : option string;
  ENFORCEMENT_MODE : string;
  SHADOW_BANNER : bool;
  OPA_POLICY_BUNDLE : option string;
  RECOVERY_ADAPTER_PUBLIC_KEY : option string;
  CONTINUATION_HORIZON_SECONDS : Z;
  MAX_WITHDRAWAL_AMPLIFICATION : Z;
  RECURRENCE_SIGNAL_RATE_LIMIT : Z;
  RECURRENCE_SIGNAL_GLOBAL_LIMIT : Z;
  DESIGNATION_RATE_LIMIT : Z;
  TRUST_RENEWAL_REQUIRED : bool;
  CONTINUITY_ENABLED : bool;
  READINESS_PROBE_PATH : string;
  MAX_IN_FLIGHT_REQUESTS : Z;
  GRACEFUL_DRAIN_TIMEOUT_SECONDS : Q;
  BENCHMARK_P99_50_MS : Q }.

#[export] Instance settings_rebuild : Rebuild settings := λ s,
  Settings (BACKEND_TYPE s) (POSTGRES_DSN s) (MAX_TRAVERSAL_DEPTH s) (OPA_URL s) (JWT_PUBLIC_KEY s)
    (DEBUG_MODE s) (RECOVERY_ADAPTER_URL s) (ENFORCEMENT_MODE s) (SHADOW_BANNER s) (OPA_POLICY_BUNDLE s)
    (RECOVERY_ADAPTER_PUBLIC_KEY s) (CONTINUATION_HORIZON_SECONDS s) (MAX_WITHDRAWAL_AMPLIFICATION s)
    (RECURRENCE_SIGNAL_RATE_LIMIT s) (RECURRENCE_SIGNAL_GLOBAL_LIMIT s) (DESIGNATION_RATE_LIMIT s)
    (TRUST_RENEWAL_REQUIRED s) (CONTINUITY_ENABLED s) (READINESS_PROBE_PATH s) (MAX_IN_FLIGHT_REQUESTS s)
    (GRACEFUL_DRAIN_TIMEOUT_SECONDS s) (BENCHMARK_P99_50_MS s).

(** [JWT_PUBLIC_KEY] has no default: it comes from the environment. *)
(* src: src/config.py 6-36 Settings *)
Definition default_settings (jwt_public_key : string) : settings := {|
  BACKEND_TYPE := "memory"; POSTGRES_DSN := ""; MAX_TRAVERSAL_DEPTH := 1000; OPA_URL := None;
  JWT_PUBLIC_KEY := jwt_public_key; DEBUG_MODE := false; RECOVERY_ADAPTER_URL := None;
  ENFORCEMENT_MODE := "shadow"; SHADOW_BANNER := true; OPA_POLICY_BUNDLE := None;
  RECOVERY_ADAPTER_PUBLIC_KEY := None; CONTINUATION_HORIZON_SECONDS := 86400;
  MAX_WITHDRAWAL_AMPLIFICATION := 100; RECURRENCE_SIGNAL_RATE_LIMIT := 10;
  RECURRENCE_SIGNAL_GLOBAL_LIMIT := 100; DESIGNATION_RATE_LIMIT := 20;
  TRUST_RENEWAL_REQUIRED := true; CONTINUITY_ENABLED := true; READINESS_PROBE_PATH := "/ready";
  MAX_IN_FLIGHT_REQUESTS := 100; GRACEFUL_DRAIN_TIMEOUT_SECONDS := 30; BENCHMARK_P99_50_MS := 500 |}.

(** ** Nodes of the dependency graph *)
Record commitment := Commitment {
  parent_node_id : string;
  parent_content_hash : option string;
  edge_class : option string }.

Record nhi := Nhi {
  identity_id : option string;
  session_token : option string;
  nhi_expires_at_utc : option string }.

Record evidence_boundary := EvidenceBoundary {
  boundary_id : string;
  fixed_at_utc : string;
  boundary_digest : string }.

Record summarizer_info := Summarizer {
  method_id : option string;
  config_digest : option string;
  resolved_model : option string;
  generation_params_digest : option string }.

Record node := Node {
  payload_id : string;
  node_type : option string;
  timestamp_utc : option string;
  ephemeral_nhi : option nhi;
  declared_evidence_boundary : option evidence_boundary;
  state_content : option (dict json);
  content_digest_sha256 : option string;
  agent_signature : option string;
  signature_algorithm : option string;
  covers : list string;
  covers_interval_gap : option (list string);
  parent_dependency_commitments : list commitment;
  summarizer : option summarizer_info;
  criticality_weight : option Q;
  retry_of : option string }.

#[export] Instance node_rebuild : Rebuild node := λ n,
  Node (payload_id n) (node_type n) (timestamp_utc n) (ephemeral_nhi n) (declared_evidence_boundary n)
    (state_content n) (content_digest_sha256 n) (agent_signature n) (signature_algorithm n) (covers n)
    (covers_interval_gap n) (parent_dependency_commitments n) (summarizer n) (criticality_weight n)
    (retry_of n).

(** [{"payload_id": id, "parent_dependency_commitments": []}] *)
Definition bare_node (id : string) : node :=
  Node id None None None None None None None None [] None [] None None None.

Definition parent_ids (n : node) : list string :=
  parent_node_id <$> parent_dependency_commitments n.

(** [payload.get("state_content", {})] *)
Definition content_of (n : node) : dict json := default [] (state_content n).

(** [payload.get("ephemeral_nhi", {}).get("identity_id")] and its sibling *)
Definition identity_of (n : node) : option string := ephemeral_nhi n ≫= identity_id.
Definition session_token_of (n : node) : option string := ephemeral_nhi n ≫= session_token.

(** [data.get("criticality_weight", 0)] *)
Definition weight_of (n : node) : Q := default 0%Q (criticality_weight n).

(** [data.get("summarizer", {}).get("method_id")] *)
Definition method_of (n : node) : option string := summarizer n ≫= method_id.

(** ** Records of the state backends *)
(* src: src/governor_service.py CheckpointEvent *)
Record checkpoint_record := Checkpoint {
  checkpoint_id : string;
  target_node_id : string;
  declared_at_utc : string;
  snapshot_data : dict json }.

Record effect_record := Effect {
  eff_node_id : string;
  effect_type : string;
  eff_recorded_at_utc : string }.

Inductive disposition_kind := REDUCIBLE | IRREDUCIBLE | PENDING_RECONSTRUCTION.
#[export] Instance disposition_eq_dec : EqDecision disposition_kind.
Proof. solve_decision. Defined.

Record repair_record := Repair {
  disposition : disposition_kind;
  repair_reason : option string;
  escalation_record : option string;
  frontier : list string;
  repair_method : option string;
  repair_checkpoint : option checkpoint_record;
  reconstructed_node_id : option string }.

#[export] Instance repair_rebuild : Rebuild repair_record := λ r,
  Repair (disposition r) (repair_reason r) (escalation_record r) (frontier r) (repair_method r)
    (repair_checkpoint r) (reconstructed_node_id r).

Definition irreducible (reason record : string) : repair_record :=
  Repair IRREDUCIBLE (Some reason) (Some record) [] None None None.

Definition pending (F : list string) (method : string) (cp : checkpoint_record) : repair_record :=
  Repair PENDING_RECONSTRUCTION None None F (Some method) (Some cp) None.

(** [existing.get("disposition") in ("REDUCIBLE", "IRREDUCIBLE")] *)
Definition terminal (r : option repair_record) : bool :=
  match r with Some r => negb (bool_decide (disposition r = PENDING_RECONSTRUCTION)) | None => false end.

Record quarantine_event := QuarantineEvent {
  quarantine_event_id : string;
  qe_detected_at_utc : string;
  poisoned_root_id : string;
  computed_blast_radius_C_p : list string;
  monotonic_ledger_digest_post_transition : string;
  designator_identity : option string;
  designation_reason : option string;
  detector_source : option string;
  max_traversal_depth : option nat;
  continuity_available : option bool;
  replacement_node_id : option string;
  replacement_for : option string;
  replacement_mechanism : option string }.

#[export] Instance quarantine_event_rebuild : Rebuild quarantine_event := λ e,
  QuarantineEvent (quarantine_event_id e) (qe_detected_at_utc e) (poisoned_root_id e)
    (computed_blast_radius_C_p e) (monotonic_ledger_digest_post_transition e) (designator_identity e)
    (designation_reason e) (detector_source e) (max_traversal_depth e) (continuity_available e)
    (replacement_node_id e) (replacement_for e) (replacement_mechanism e).

Record horizon_record := Horizon {
  admitted_at_utc : option string;
  trust_expires_utc : string;
  predecessor_id : string;
  renewal_count : Z }.

#[export] Instance horizon_rebuild : Rebuild horizon_record := λ h,
  Horizon (admitted_at_utc h) (trust_expires_utc h) (predecessor_id h) (renewal_count h).

Record recurrence_event := RecurrenceEvent {
  re_event_id : string;
  re_node_id : string;
  recurrence_class : string;
  re_detected_at_utc : string;
  re_signal_source : string;
  re_evidence : dict json;
  escalated : bool;
  escalation_reason : option string }.

#[export] Instance recurrence_event_rebuild : Rebuild recurrence_event := λ e,
  RecurrenceEvent (re_event_id e) (re_node_id e) (recurrence_class e) (re_detected_at_utc e)
    (re_signal_source e) (re_evidence e) (escalated e) (escalation_reason e).

Record withdrawal_record := Withdrawal {
  withdrawn_at_utc : string;
  triggering_event_id : string;
  withdrawal_reason : string }.

(* src: src/governor_service.py CalibrateRequest *)
Record calibration_run := CalibrationRun {
  run_id : string;
  run_at_utc : string;
  seeded_count : Z;
  detected_count : Z;
  sensitivity_floor : Q;
  monitored_period : dict json }.

Record signal_attempt := SignalAttempt {
  att_signal_source : string;
  att_node_id : string;
  att_signal_kind : string;
  att_outcome : string;
  att_recorded_at_utc : string }.

Record exposure := Exposure {
  exposure_id : string;
  exp_node_id : string;
  substitute_status : string;
  exposed_at_utc : string;
  quarantine_non_empty : bool;
  exposure_record : json }.

Record substitute_declaration := SubstituteDeclaration {
  sub_target_node_id : string;
  substitute_source_id : string;
  sub_declared_at_utc : string;
  declared_by : string }.

Record detector_event := DetectorEvent {
  de_event_id : string;
  de_source : string;
  raw_event : dict json;
  received_at_utc : string;
  de_outcome : option string;
  drop_reason : option string;
  de_quarantine_event_id : option string }.

#[export] Instance detector_event_rebuild : Rebuild detector_event := λ e,
  DetectorEvent (de_event_id e) (de_source e) (raw_event e) (received_at_utc e) (de_outcome e)
    (drop_reason e) (de_quarantine_event_id e).

Record rejection := Rejection {
  rej_node_id : string;
  tainted_parent_id : string;
  rejected_at_utc : string;
  author_identity : string;
  offered : bool;
  offered_replacement : option string;
  replacement_type : option string;
  completed : bool;
  completed_by : option string }.

#[export] Instance rejection_rebuild : Rebuild rejection := λ r,
  Rejection (rej_node_id r) (tainted_parent_id r) (rejected_at_utc r) (author_identity r) (offered r)
    (offered_replacement r) (replacement_type r) (completed r) (completed_by r).

Record reintegration_evidence := ReintegrationEvidence {
  pre_state_digest : string;
  post_state_digest : string;
  gate_evidence : list (string * bool * string);
  ev_recorded_at_utc : string }.

Record shadow_decision := ShadowDecision {
  decision_id : string;
  sd_node_id : string;
  evaluated_at_utc : string;
  would_have_blocked : bool;
  sd_reason : string;
  parent_status_json : list (string * bool * bool);
  policy_bundle_digest : string;
  writer_identity : string }.

(** Results of the backends' composite queries. *)
Record critical_dependent := CriticalDependent {
  dep_node_id : string;
  dep_weight : Q;
  tainted_parents : list string }.

Record replacement := Replacement {
  rep_node_id : string;
  rep_for : string;
  rep_exposure_id : option string;
  rep_mechanism : option string }.

Record tainted_action_stats := TaintedActionStats {
  total_rejections : Z;
  offered_count : Z;
  completed_count : Z;
  completion_rate : Q;
  offer_rate : Q;
  direct_offered : Z;
  direct_completed : Z;
  ancestor_offered : Z;
  ancestor_completed : Z }.
