(* ===== verification/Encoding.v ===== *)
(** * Bytes, hexadecimal, JSON text and SHA-256

    What the gateway uses of the Python standard library to bind content:
    [bytes.hex]/[bytes.fromhex], [int.from_bytes]/[int.to_bytes] (big endian),
    [json.dumps(.., sort_keys=True)] and [hashlib.sha256(..).hexdigest()].  All
    are executable.  A string is a sequence of characters with code points
    below 256; [json.dumps] escapes everything outside printable ASCII, so its
    result is ASCII and [.encode()] is the identity on it. *)
From S2P Require Import Prelude Types.

Local Open Scope Z_scope.

Definition ascii_z (a : Ascii.ascii) : Z := Z.of_N (Ascii.N_of_ascii a).
Definition z_ascii (z : Z) : Ascii.ascii := Ascii.ascii_of_N (Z.to_N z).

(** [s.encode()] on ASCII text *)
Definition encode (s : string) : list Z := ascii_z <$> String.list_ascii_of_string s.
Definition is_byte (b : Z) : Prop := 0 ≤ b < 256.

(** ** Hexadecimal *)
Definition hex_digit (d : Z) : Ascii.ascii := z_ascii (if d <? 10 then 48 + d else 87 + d).

Definition hex (bs : list Z) : string :=
  String.string_of_list_ascii (bs ≫= λ b, [hex_digit (b / 16); hex_digit (b mod 16)]).

Definition digit_val (a : Ascii.ascii) : option Z :=
  let c := ascii_z a in
  if (48 <=? c) && (c <=? 57) then Some (c - 48)
  else if (97 <=? c) && (c <=? 102) then Some (c - 87)
  else if (65 <=? c) && (c <=? 70) then Some (c - 55)
  else None.

Definition is_space (a : Ascii.ascii) : bool :=
  let c := ascii_z a in (c =? 32) || ((9 <=? c) && (c <=? 13)).

(** [bytes.fromhex]: white space between bytes is skipped; [None] is [ValueError] *)
Fixpoint fromhex_list (l : list Ascii.ascii) : option (list Z) :=
  match l with
  | [] => Some []
  | a :: l' =>
    if is_space a then fromhex_list l' else
    match l' with
    | [] => None
    | b :: l'' =>
      match digit_val a, digit_val b, fromhex_list l'' with
      | Some h, Some d, Some bs => Some (16 * h + d :: bs)
      | _, _, _ => None
      end
    end
  end.

Definition fromhex (s : string) : option (list Z) := fromhex_list (String.list_ascii_of_string s).

(** ** Big-endian integers *)
Definition int_from_bytes (bs : list Z) : Z := fold_left (λ a b, 256 * a + b) bs 0.

Fixpoint le_bytes (n : nat) (z : Z) : list Z :=
  match n with O => [] | S n => z mod 256 :: le_bytes n (z / 256) end.

(** [z.to_bytes(n, "big")], for [0 <= z < 256^n] *)
Definition int_to_bytes (n : nat) (z : Z) : list Z := reverse (le_bytes n z).

(** ** [json.dumps] *)
Definition char (z : Z) : string := String.String (z_ascii z) "".
Definition quote : string := char 34.

Definition json_escape_char (a : Ascii.ascii) : string :=
  let c := ascii_z a in
  if c =? 34 then (char 92 +:+ char 34)%string
  else if c =? 92 then (char 92 +:+ char 92)%string
  else if c =? 10 then (char 92 +:+ "n")%string
  else if c =? 13 then (char 92 +:+ "r")%string
  else if c =? 9 then (char 92 +:+ "t")%string
  else if c =? 8 then (char 92 +:+ "b")%string
  else if c =? 12 then (char 92 +:+ "f")%string
  else if (32 <=? c) && (c <=? 126) then String.String a ""
  else (char 92 +:+ "u00" +:+ hex [c])%string.

Definition json_string (s : string) : string :=
  (quote +:+ String.concat "" (json_escape_char <$> String.list_ascii_of_string s) +:+ quote)%string.

Definition key_le (a b : string * string) : Prop := String.le a.1 b.1.
#[export] Instance key_le_dec : RelDecision key_le := λ a b, decide (String.le a.1 b.1).

Fixpoint dumps (sort_keys : bool) (j : json) : string :=
  match j with
  | JNull => "null"
  | JBool b => if b then "true" else "false"
  | JNum _ t => t
  | JStr s => json_string s
  | JArr l => ("[" +:+ String.concat ", " (List.map (dumps sort_keys) l) +:+ "]")%string
  | JObj o =>
    let items := List.map (λ kv, (kv.1, json_string kv.1 +:+ ": " +:+ dumps sort_keys kv.2)%string) o in
    ("{" +:+ String.concat ", " (if sort_keys then merge_sort key_le items else items).*2 +:+ "}")%string
  end.

Abbreviation json_dumps := (dumps true).

(** ** SHA-256 *)
Definition w32 (x : Z) : Z := Z.land x 4294967295.
Definition rotr (n x : Z) : Z := Z.lor (Z.shiftr x n) (w32 (Z.shiftl x (32 - n))).
Definition add32 (x y : Z) : Z := w32 (x + y).
Definition xor3 (a b c : Z) : Z := Z.lxor a (Z.lxor b c).

(** The round constants and the initial state are the first 32 bits of the
    fractional parts of the cube roots of the first 64 primes and of the square
    roots of the first 8 (FIPS 180-4, 4.2.2 and 5.3.3). *)
Definition primes (n : nat) : list Z :=
  filter (λ p, forallb (λ d, negb (Z.eqb (p mod d) 0)) (seqZ 2 (p - 2)))
    (seqZ 2 (Z.of_nat n)).

(** the largest [r] below [2 ^ bits] with [r ^ k <= m], bit by bit *)
Definition integer_root (bits : nat) (k m : Z) : Z :=
  fold_right (λ b r, let r' := Z.lor (Z.shiftl 1 (Z.of_nat b)) r in
                     if Z.leb (Z.pow r' k) m then r' else r)
    0 (seq 0 bits).

Definition root_fraction (k p : Z) : Z :=
  integer_root 40 k (Z.shiftl p (32 * k)) mod 2 ^ 32.

Definition sha_k : list Z := Eval vm_compute in map (root_fraction 3) (primes 310).

Definition sha_init : list Z := Eval vm_compute in map (root_fraction 2) (primes 18).

(** The schedule is kept with the latest word first. *)
Fixpoint sha_extend (n : nat) (ws : list Z) : list Z :=
  match n with
  | O => ws
  | S n =>
    let w := λ i : nat, nth i ws 0 in
    let s0 := xor3 (rotr 7 (w 14%nat)) (rotr 18 (w 14%nat)) (Z.shiftr (w 14%nat) 3) in
    let s1 := xor3 (rotr 17 (w 1%nat)) (rotr 19 (w 1%nat)) (Z.shiftr (w 1%nat) 10) in
    sha_extend n (w32 (w 15%nat + s0 + w 6%nat + s1) :: ws)
  end.

Definition sha_round (st : list Z) (kw : Z * Z) : list Z :=
  match st with
  | [a; b; c; d; e; f; g; h] =>
    let s1 := xor3 (rotr 6 e) (rotr 11 e) (rotr 25 e) in
    let ch := Z.lxor (Z.land e f) (Z.land (Z.lxor e 4294967295) g) in
    let t1 := w32 (h + s1 + ch + kw.1 + kw.2) in
    let s0 := xor3 (rotr 2 a) (rotr 13 a) (rotr 22 a) in
    let maj := xor3 (Z.land a b) (Z.land a c) (Z.land b c) in
    [add32 t1 (w32 (s0 + maj)); a; b; c; add32 d t1; e; f; g]
  | _ => st
  end.

Definition sha_compress (st : list Z) (words : list Z) : list Z :=
  let ws := reverse (sha_extend 48 (reverse words)) in
  zip_with add32 st (fold_left sha_round (zip sha_k ws) st).

Fixpoint be_words (bs : list Z) : list Z :=
  match bs with
  | a :: b :: c :: d :: bs => int_from_bytes [a; b; c; d] :: be_words bs
  | _ => []
  end.

Fixpoint sha_blocks (fuel : nat) (st ws : list Z) : list Z :=
  match fuel, ws with
  | S fuel, _ :: _ => sha_blocks fuel (sha_compress st (take 16 ws)) (drop 16 ws)
  | _, _ => st
  end.

Definition sha_pad (bs : list Z) : list Z :=
  let n := Z.of_nat (length bs) in
  bs ++ [128] ++ replicate (Z.to_nat ((55 - n) mod 64)) 0 ++ int_to_bytes 8 (8 * n).

Definition sha256 (bs : list Z) : list Z :=
  sha_blocks (length bs + 9) sha_init (be_words (sha_pad bs)) ≫= int_to_bytes 4.

(** [hashlib.sha256(s.encode()).hexdigest()] *)
Definition sha256_hex (s : string) : string := hex (sha256 (encode s)).

Example sha256_empty :
  sha256_hex "" = "e3b0c44298fc1c149afbf4c8996fb92427ae41e4649b934ca495991b7852b855".
Proof. vm_compute. reflexivity. Qed.

Example sha256_abc :
  sha256_hex "abc" = "ba7816bf8f01cfea414140de5dae2223b00361a396177a9cb410ff61f20015ad".
Proof. vm_compute. reflexivity. Qed.

Example sha256_two_blocks :
  sha256_hex "abcdbcdecdefdefgefghfghighijhijkijkljklmklmnlmnomnopnopq"
    = "248d6a61d20638b8e5c026930c3e6039a33ce45964ff2167f6ecedd419db06c1".
Proof. vm_compute. reflexivity. Qed.

Example json_dumps_example :
  json_dumps (JObj [("b", JArr [JBool true; JNull]); ("a", JObj [("x", JNum 1%Q "1")])])
    = ("{" +:+ quote +:+ "a" +:+ quote +:+ ": {" +:+ quote +:+ "x" +:+ quote +:+ ": 1}, "
       +:+ quote +:+ "b" +:+ quote +:+ ": [true, null]}")%string.
Proof. vm_compute. reflexivity. Qed.

(** ** Round trips *)
Lemma z_ascii_z (a : Ascii.ascii) : z_ascii (ascii_z a) = a.
Proof. unfold z_ascii, ascii_z. by rewrite N2Z.id, Ascii.ascii_N_embedding. Qed.

Lemma ascii_z_ascii z : is_byte z → ascii_z (z_ascii z) = z.
Proof.
  unfold is_byte, z_ascii, ascii_z. intros. rewrite Ascii.N_ascii_embedding by lia. lia.
Qed.

Lemma ascii_z_inj a b : ascii_z a = ascii_z b → a = b.
Proof. intros H. by rewrite <-(z_ascii_z a), H, z_ascii_z. Qed.

Lemma ascii_z_byte a : is_byte (ascii_z a).
Proof. unfold is_byte, ascii_z. pose proof (Ascii.N_ascii_bounded a). lia. Qed.

Lemma is_byte_encode s : Forall is_byte (encode s).
Proof. unfold encode. apply Forall_fmap, Forall_true. intros; apply ascii_z_byte. Qed.

Lemma hex_digit_spec d : 0 ≤ d < 16 → digit_val (hex_digit d) = Some d ∧ is_space (hex_digit d) = false.
Proof.
  intros Hd. unfold digit_val, is_space, hex_digit.
  destruct (d <? 10) eqn:E; rewrite ascii_z_ascii by (unfold is_byte; lia);
    repeat match goal with |- context [if ?b then _ else _] => destruct b eqn:? end;
    split; f_equal; lia.
Qed.

Lemma fromhex_hex_list bs :
  Forall is_byte bs →
  fromhex_list (bs ≫= λ b, [hex_digit (b / 16); hex_digit (b mod 16)]) = Some bs.
Proof.
  induction 1 as [|b bs Hb Hbs IH]; [done|]. unfold is_byte in Hb.
  assert (0 ≤ b / 16 < 16) as H1 by (split; [apply Z.div_pos; lia|apply Z.div_lt_upper_bound; lia]).
  assert (0 ≤ b mod 16 < 16) as H2 by (apply Z.mod_pos_bound; lia).
  destruct (hex_digit_spec _ H1) as [Ha Hsp]. destruct (hex_digit_spec _ H2) as [Hd _].
  rewrite bind_cons. cbn [app fromhex_list]. rewrite Hsp, Ha, Hd, IH.
  f_equal. f_equal. symmetry. apply Z.div_mod. lia.
Qed.

Lemma fromhex_hex bs : Forall is_byte bs → fromhex (hex bs) = Some bs.
Proof.
  intros. unfold fromhex, hex. rewrite String.list_ascii_of_string_of_list_ascii.
  by apply fromhex_hex_list.
Qed.

Lemma length_le_bytes n z : length (le_bytes n z) = n.
Proof. revert z; induction n; intros; simpl; auto. Qed.

Lemma length_int_to_bytes n z : length (int_to_bytes n z) = n.
Proof. unfold int_to_bytes. rewrite length_reverse. apply length_le_bytes. Qed.

Lemma is_byte_le_bytes n z : Forall is_byte (le_bytes n z).
Proof.
  revert z; induction n as [|n IH]; intros z; simpl; constructor; [|apply IH].
  unfold is_byte. apply Z.mod_pos_bound. lia.
Qed.

Lemma is_byte_int_to_bytes n z : Forall is_byte (int_to_bytes n z).
Proof. unfold int_to_bytes. apply Forall_reverse, is_byte_le_bytes. Qed.

Lemma int_from_bytes_app bs b : int_from_bytes (bs ++ [b]) = 256 * int_from_bytes bs + b.
Proof. unfold int_from_bytes. by rewrite fold_left_app. Qed.

Lemma int_from_to_bytes n z : 0 ≤ z < 256 ^ Z.of_nat n → int_from_bytes (int_to_bytes n z) = z.
Proof.
  unfold int_to_bytes. revert z; induction n as [|n IH]; intros z Hz; cbn [le_bytes].
  - replace z with 0 by (simpl in Hz; lia). done.
  - rewrite Nat2Z.inj_succ, Z.pow_succ_r in Hz by lia.
    rewrite reverse_cons, int_from_bytes_app, IH.
    + symmetry. apply Z.div_mod. lia.
    + split; [apply Z.div_pos; lia|apply Z.div_lt_upper_bound; lia].
Qed.

Lemma int_from_bytes_bound bs : Forall is_byte bs → 0 ≤ int_from_bytes bs < 256 ^ Z.of_nat (length bs).
Proof.
  induction bs as [|b bs IH] using rev_ind; intros H; [done|].
  apply Forall_app in H as [H Hb]. rewrite Forall_singleton in Hb. unfold is_byte in Hb.
  rewrite int_from_bytes_app, length_app. simpl.
  replace (Z.of_nat (length bs + 1)) with (Z.succ (Z.of_nat (length bs))) by lia.
  rewrite Z.pow_succ_r by lia. specialize (IH H).
  set (p := 256 ^ Z.of_nat (length bs)) in *. clearbody p. lia.
Qed.

Lemma int_to_from_bytes bs :
  Forall is_byte bs → int_to_bytes (length bs) (int_from_bytes bs) = bs.
Proof.
  induction bs as [|b bs IH] using rev_ind; intros H; [done|].
  apply Forall_app in H as [H Hb]. rewrite Forall_singleton in Hb. unfold is_byte in Hb.
  rewrite length_app, Nat.add_comm. unfold int_to_bytes. cbn [length Nat.add le_bytes].
  rewrite int_from_bytes_app, reverse_cons.
  replace ((256 * int_from_bytes bs + b) / 256) with (int_from_bytes bs).
  2:{ apply (Z.div_unique _ 256 _ b); lia. }
  replace ((256 * int_from_bytes bs + b) mod 256) with b.
  2:{ apply (Z.mod_unique _ 256 (int_from_bytes bs)); lia. }
  f_equal. by apply IH.
Qed.

Lemma sha256_hex_spec s : ∃ bs, sha256_hex s = hex bs ∧ Forall is_byte bs.
Proof.
  eexists. split; [reflexivity|]. unfold sha256. apply Forall_bind.
  apply Forall_true. intros. apply is_byte_int_to_bytes.
Qed.
