(* ===== verification/Timeparse.v ===== *)
(** * Reading timestamps back ([_parse_utc])

    The PostgreSQL backend keeps instants, not texts: what it is given as text
    it reads with [_parse_utc], and what it gives out it writes with [strftime]
    or [isoformat].  [fromisoformat] is the part of Python's parser that these
    texts need: a date, one separator character, hours, minutes and seconds, a
    fraction of six digits or none, an offset in hours and minutes or none.  The
    result of the file is that reading undoes each way of writing. *)
From Stdlib Require Import Ascii.
From S2P Require Import Prelude Datetime Types Encoding.
Local Open Scope Z_scope.

Abbreviation chars := String.list_ascii_of_string.

(** [datetime.strftime("%Y-%m-%dT%H:%M:%S.%fZ")] *)
(* src: src/postgres_backend.py 633-633 PostgresStateBackend.get_active_horizon_set *)
Definition strftime_z (t : Z) : string :=
  iso_date (ymd_of_days (t / us_per_day)) +:+ "T" +:+ iso_time (t mod us_per_day) +:+ "." +:+
  pad 6 (t mod us_per_day mod us_per_second) +:+ "Z".

(** ** A parser is a function of the characters that are left *)
Definition parser (A : Type) : Type := list Ascii.ascii → option (A * list Ascii.ascii).

Definition digit : parser Z := λ l,
  match l with
  | c :: l => let d := ascii_z c - 48 in if (0 <=? d) && (d <=? 9) then Some (d, l) else None
  | [] => None
  end.

(** [int] of the next [width] digits *)
Fixpoint number (width : nat) : parser Z := λ l,
  match width with
  | O => Some (0, l)
  | S w => '(d, l) ← digit l; '(r, l) ← number w l; Some (d * 10 ^ Z.of_nat w + r, l)
  end.

Definition expect (c : Ascii.ascii) : parser () := λ l,
  match l with c' :: l => if decide (c' = c) then Some ((), l) else None | [] => None end.

Definition require_that (b : bool) : option () := if b then Some () else None.

Definition days_in_month (leap : bool) (m : Z) : Z := days_before_month leap (m + 1) - days_before_month leap m.

(** [date.toordinal], counted from 0 *)
Definition days_of_ymd (d : date) : Z :=
  days_before_year (year d) + days_before_month (is_leap (year d)) (month d) + day d - 1.

Definition valid_date (d : date) : bool :=
  (1 <=? year d) && (1 <=? month d) && (month d <=? 12)
  && (1 <=? day d) && (day d <=? days_in_month (is_leap (year d)) (month d)).

Definition parse_date : parser date := λ l,
  '(y, l) ← number 4 l; '(_, l) ← expect "-"%char l;
  '(m, l) ← number 2 l; '(_, l) ← expect "-"%char l;
  '(d, l) ← number 2 l;
  _ ← require_that (valid_date (Date y m d));
  Some (Date y m d, l).

Definition parse_fraction : parser Z := λ l,
  match l with
  | "."%char :: l => number 6 l
  | _ => Some (0, l)
  end.

(** Microseconds since midnight *)
Definition parse_time : parser Z := λ l,
  '(h, l) ← number 2 l; '(_, l) ← expect ":"%char l;
  '(m, l) ← number 2 l; '(_, l) ← expect ":"%char l;
  '(s, l) ← number 2 l;
  '(f, l) ← parse_fraction l;
  _ ← require_that ((h <? 24) && (m <? 60) && (s <? 60));
  Some ((h * 3600 + m * 60 + s) * us_per_second + f, l).

(** The offset from UTC in microseconds; [None] inside when there is none. *)
Definition parse_offset (l : list Ascii.ascii) : option (option Z) :=
  match l with
  | [] => Some None
  | c :: l =>
    sign ← (if decide (c = "+"%char) then Some 1 else if decide (c = "-"%char) then Some (-1) else None);
    '(h, l) ← number 2 l; '(_, l) ← expect ":"%char l;
    '(m, l) ← number 2 l;
    _ ← require_that ((h <? 24) && (m <? 60) && bool_decide (l = []));
    Some (Some (sign * (h * 3600 + m * 60) * us_per_second))
  end.

(** [datetime.fromisoformat]: the wall-clock reading and the offset *)
Definition fromisoformat (s : string) : option (Z * option Z) :=
  '(d, l) ← parse_date (chars s);
  match l with
  | [] => Some (days_of_ymd d * us_per_day, None)
  | _separator :: l =>
    '(t, l) ← parse_time l;
    offset ← parse_offset l;
    Some (days_of_ymd d * us_per_day + t, offset)
  end.

(** [s.endswith(suffix)] and [s[:-1]] *)
Definition ends_with (suffix s : string) : bool :=
  bool_decide (drop (String.length s - String.length suffix) (chars s) = chars suffix).

Definition drop_last (s : string) : string :=
  String.string_of_list_ascii (take (String.length s - 1) (chars s)).

(** [None] is the [ValueError] of a text that is no timestamp. *)
(* src: src/postgres_backend.py 20-33 _parse_utc *)
Definition parse_utc (ts : string) : option Z :=
  let ts :=
    if ends_with "+00:00Z" ts then drop_last ts
    else if ends_with "Z" ts then drop_last ts +:+ "+00:00"
    else ts in
  '(t, offset) ← fromisoformat ts;
  Some (match offset with None => t | Some o => t - o end).

Example parse_utc_examples :
  parse_utc "2026-01-02T03:04:05.678901+00:00Z" = parse_utc "2026-01-02T03:04:05.678901Z" ∧
  parse_utc "2026-01-02T03:04:05+00:00" = parse_utc "2026-01-02T03:04:05" ∧
  parse_utc "2026-01-02T03:04:05+01:00Z" = None ∧
  parse_utc "2026-02-29" = None ∧ parse_utc "" = None ∧
  (λ t, t / us_per_second - 719162 * 86400) <$> parse_utc "2026-01-02T03:04:05Z" = Some 1767323045.
Proof. vm_compute. repeat split. Qed.

(** ** Reading a field undoes writing it *)
Lemma chars_app s1 s2 : chars (s1 +:+ s2) = chars s1 ++ chars s2.
Proof. induction s1 as [|c s1 IH]; [done|]. change (c :: chars (s1 +:+ s2) = c :: chars s1 ++ chars s2). by rewrite IH. Qed.

Lemma length_chars s : length (chars s) = String.length s.
Proof. induction s; cbn; auto. Qed.

Lemma chars_inj s1 s2 : chars s1 = chars s2 → s1 = s2.
Proof. intros H. by rewrite <-(String.string_of_list_ascii_of_string s1), H, String.string_of_list_ascii_of_string. Qed.

Lemma digit_digit_of d l : 0 ≤ d < 10 → digit (digit_of d :: l) = Some (d, l).
Proof.
  intros Hd. cbn. assert (ascii_z (digit_of d) = 48 + d) as ->.
  { unfold ascii_z, digit_of, Ascii.ascii_of_nat. rewrite Ascii.N_ascii_embedding by lia. lia. }
  replace (48 + d - 48) with d by lia.
  by rewrite (proj2 (Z.leb_le 0 d)), (proj2 (Z.leb_le d 9)) by lia.
Qed.

Lemma number_pad w n l : 0 ≤ n < 10 ^ Z.of_nat w → number w (chars (pad w n) ++ l) = Some (n, l).
Proof.
  revert n; induction w as [|w IH]; intros n Hn.
  { cbn in *. by replace n with 0 by lia. }
  assert (0 < 10 ^ Z.of_nat w) as Hp by (apply Z.pow_pos_nonneg; lia).
  rewrite Nat2Z.inj_succ, Z.pow_succ_r in Hn by lia.
  cbn [number pad String.list_ascii_of_string app].
  rewrite digit_digit_of by (split; [apply Z.div_pos; lia|apply Z.div_lt_upper_bound; lia]).
  cbn [mbind option_bind]. rewrite IH by by apply Z.mod_pos_bound.
  cbn. do 2 f_equal. rewrite (Z.div_mod n (10 ^ Z.of_nat w)) at 3 by lia. lia.
Qed.

Lemma expect_sep c l : expect c (c :: l) = Some ((), l).
Proof. cbn. by rewrite decide_True. Qed.

(** ** The calendar *)
Lemma month_day_inverse_table (leap : bool) :
  forallb (λ k : nat,
    let '(m, d) := month_and_day leap (Z.of_nat k) in
    (days_before_month leap m + d - 1 =? Z.of_nat k) && (d <=? days_in_month leap m))
    (seq 0 (year_days leap)) = true.
Proof. by destruct leap; vm_compute. Qed.

Lemma month_day_inverse (leap : bool) n : 0 ≤ n < 365 + (if leap then 1 else 0) →
  let '(m, d) := month_and_day leap n in
  days_before_month leap m + d - 1 = n ∧ d ≤ days_in_month leap m.
Proof.
  intros Hn. pose proof (month_day_inverse_table leap) as T. rewrite forallb_forall in T.
  specialize (T (Z.to_nat n)). rewrite Z2Nat.id in T by lia.
  assert (In (Z.to_nat n) (seq 0 (year_days leap))) as Hin.
  { apply in_seq. unfold year_days. destruct leap; lia. }
  specialize (T Hin). destruct (month_and_day leap n) as [m d].
  by rewrite andb_true_iff, Z.eqb_eq, Z.leb_le in T.
Qed.

Lemma ymd_inverse n : 0 ≤ n < 3652059 →
  days_of_ymd (ymd_of_days n) = n ∧ valid_date (ymd_of_days n) = true.
Proof.
  intros Hn. pose proof (ymd_of_days_range n ltac:(lia)) as R. revert R. unfold ymd_of_days.
  pose proof (year_and_rest_spec n ltac:(lia)) as Y. destruct (year_and_rest n) as [y r].
  destruct Y as (? & Hd & Hr). pose proof (month_day_inverse (is_leap y) r Hr) as M.
  destruct (month_and_day (is_leap y) r) as [m d]. destruct M as [M1 M2].
  unfold date_in_range, days_of_ymd, valid_date. cbn [year month day]. intros (? & ? & ?). split; [lia|].
  rewrite !andb_true_iff, !Z.leb_le. lia.
Qed.

Lemma parse_date_iso n l : 0 ≤ n < 3652059 →
  parse_date (chars (iso_date (ymd_of_days n)) ++ l) = Some (ymd_of_days n, l).
Proof.
  intros Hn. destruct (ymd_inverse n Hn) as [_ V]. pose proof (ymd_of_days_range n ltac:(lia)) as R.
  pose proof (year_le_9999 n Hn) as Y. unfold date_in_range, parse_date, iso_date in *.
  rewrite !chars_app, <-!app_assoc.
  rewrite number_pad by lia. cbn [mbind option_bind chars app].
  rewrite expect_sep. cbn [mbind option_bind]. rewrite number_pad by lia. cbn [mbind option_bind].
  rewrite expect_sep. cbn [mbind option_bind]. rewrite number_pad by lia. cbn [mbind option_bind].
  replace (Date _ _ _) with (ymd_of_days n) by by destruct (ymd_of_days n).
  by rewrite V.
Qed.

(** ** The time of day *)
Lemma parse_time_iso us frac f l :
  0 ≤ us < us_per_day → parse_fraction (frac ++ l) = Some (f, l) → f = us mod us_per_second →
  parse_time (chars (iso_time us) ++ frac ++ l) = Some (us, l).
Proof.
  intros Hus Hf ->. unfold parse_time, iso_time, us_per_day, us_per_second in *.
  set (s := us / 1000000) in *. assert (0 ≤ s < 86400) as Hs by (subst s; Z.to_euclidean_division_equations; lia).
  assert (us = s * 1000000 + us mod 1000000) as Hsplit by (subst s; Z.to_euclidean_division_equations; lia).
  clearbody s. rewrite !chars_app, <-!app_assoc.
  rewrite number_pad by (Z.to_euclidean_division_equations; lia). cbn [mbind option_bind chars app].
  rewrite expect_sep. cbn [mbind option_bind].
  rewrite number_pad by (Z.to_euclidean_division_equations; lia). cbn [mbind option_bind].
  rewrite expect_sep. cbn [mbind option_bind].
  rewrite number_pad by (Z.to_euclidean_division_equations; lia). cbn [mbind option_bind].
  rewrite Hf. cbn [mbind option_bind].
  assert ((s / 3600 <? 24) && (s / 60 mod 60 <? 60) && (s mod 60 <? 60) = true) as ->.
  { rewrite !andb_true_iff, !Z.ltb_lt. Z.to_euclidean_division_equations; lia. }
  cbn. do 2 f_equal. rewrite Hsplit at 2.
  replace (s / 3600 * 3600 + s / 60 mod 60 * 60 + s mod 60) with s by (Z.to_euclidean_division_equations; lia).
  done.
Qed.

Lemma parse_fraction_six f l : 0 ≤ f < 1000000 → parse_fraction (chars ("." +:+ pad 6 f) ++ l) = Some (f, l).
Proof. intros Hf. rewrite chars_app. cbn [chars app parse_fraction]. by apply number_pad. Qed.

Lemma parse_fraction_iso us l :
  parse_fraction (chars (iso_fraction us) ++ "+"%char :: l) = Some (us mod us_per_second, "+"%char :: l).
Proof.
  unfold iso_fraction. assert (0 ≤ us mod us_per_second < 1000000) as Hf by by apply Z.mod_pos_bound.
  destruct (Z.eqb_spec (us mod us_per_second) 0) as [->|]; [done|]. by apply parse_fraction_six.
Qed.

(** ** Whole timestamps *)
Lemma fromisoformat_written t s frac rest offset :
  in_range t →
  chars s = chars (iso_date (ymd_of_days (t / us_per_day))) ++ "T"%char ::
              chars (iso_time (t mod us_per_day)) ++ frac ++ rest →
  parse_fraction (frac ++ rest) = Some (t mod us_per_day mod us_per_second, rest) →
  parse_offset rest = Some offset →
  fromisoformat s = Some (t, offset).
Proof.
  intros Ht Hs Hf Ho. unfold in_range, max_datetime in Ht.
  assert (0 < us_per_day) as Hd by done.
  unfold fromisoformat. rewrite Hs, parse_date_iso.
  2:{ split; [apply Z.div_pos; lia|apply Z.div_lt_upper_bound; lia]. }
  cbn [mbind option_bind].
  rewrite (parse_time_iso _ frac _ rest (Z.mod_pos_bound t us_per_day Hd) Hf eq_refl).
  cbn [mbind option_bind]. rewrite Ho. cbn [mbind option_bind].
  rewrite (proj1 (ymd_inverse (t / us_per_day) ltac:(split; [apply Z.div_pos; lia|apply Z.div_lt_upper_bound; lia]))).
  do 2 f_equal. rewrite (Z.div_mod t us_per_day) at 3 by lia. lia.
Qed.

Lemma ends_with_app suffix a b :
  String.length b = String.length suffix → ends_with suffix (a +:+ b) = bool_decide (b = suffix).
Proof.
  intros Hl. unfold ends_with.
  assert (String.length (a +:+ b) - String.length suffix = length (chars a))%nat as ->.
  { rewrite <-!length_chars, chars_app, length_app, !length_chars. lia. }
  rewrite chars_app, drop_app_length. apply bool_decide_ext. split; [apply chars_inj|by intros ->].
Qed.

Lemma drop_last_app a c : drop_last (a +:+ String c "") = a.
Proof.
  unfold drop_last.
  assert (String.length (a +:+ String c "") - 1 = length (chars a))%nat as ->.
  { rewrite <-!length_chars, chars_app, length_app. cbn. lia. }
  rewrite chars_app, take_app_length. apply String.string_of_list_ascii_of_string.
Qed.

Lemma fromisoformat_isoformat t : in_range t → fromisoformat (isoformat t) = Some (t, Some 0).
Proof.
  intros Ht. apply (fromisoformat_written t _ (chars (iso_fraction (t mod us_per_day))) (chars "+00:00")); [done| | |done].
  - unfold isoformat. by rewrite !chars_app.
  - apply parse_fraction_iso.
Qed.

Lemma strftime_written t : strftime_z t =
  (iso_date (ymd_of_days (t / us_per_day)) +:+ "T" +:+ iso_time (t mod us_per_day) +:+ ".") +:+
  (pad 6 (t mod us_per_day mod us_per_second) +:+ "Z").
Proof. unfold strftime_z. by rewrite !str_app_assoc. Qed.

(** [_parse_utc] reads back every instant from each of the three forms in which
    the gateway writes timestamps: [isoformat() + "Z"], [strftime] and plain
    [isoformat()]. *)
Lemma parse_utc_iso_z t : in_range t → parse_utc (iso_z t) = Some t.
Proof.
  intros Ht. unfold parse_utc.
  assert (ends_with "+00:00Z" (iso_z t) = true) as ->.
  { unfold iso_z, isoformat.
    rewrite <-!str_app_assoc, (str_app_assoc _ "+00:00" "Z"), ends_with_app by done. done. }
  unfold iso_z. rewrite drop_last_app, fromisoformat_isoformat by done. cbn. f_equal. lia.
Qed.

(** A text that ends in another character does not end with the suffix. *)
Lemma ends_with_last suffix c a d :
  last (chars suffix) = Some c → c ≠ d → ends_with suffix (a +:+ String d "") = false.
Proof.
  intros Hl Hne. apply bool_decide_eq_false. intros Hd. apply Hne.
  assert (last (chars (a +:+ String d "")) = Some d) as Hs by (rewrite chars_app; apply last_snoc).
  rewrite <-(take_drop (String.length (a +:+ String d "") - String.length suffix) (chars _)), Hd, last_app, Hl in Hs.
  congruence.
Qed.

Lemma parse_utc_isoformat t : in_range t → parse_utc (isoformat t) = Some t.
Proof.
  intros Ht. unfold parse_utc.
  assert (∃ a, isoformat t = a +:+ "0") as (a & Ha).
  { unfold isoformat. change "+00:00" with ("+00:0" +:+ "0"). rewrite <-!str_app_assoc. eauto. }
  assert (∀ suffix, last (chars suffix) = Some "Z"%char → ends_with suffix (isoformat t) = false) as Hz.
  { intros suffix Hs. rewrite Ha. by eapply ends_with_last. }
  rewrite !Hz, fromisoformat_isoformat by done. cbn. f_equal. lia.
Qed.

Lemma parse_utc_strftime_z t : in_range t → parse_utc (strftime_z t) = Some t.
Proof.
  intros Ht. unfold parse_utc. set (f := t mod us_per_day mod us_per_second).
  assert (0 ≤ f < 10 ^ Z.of_nat 6) as Hf by by apply Z.mod_pos_bound.
  assert (ends_with "+00:00Z" (strftime_z t) = false) as ->.
  { rewrite strftime_written, ends_with_app by done. apply bool_decide_eq_false. fold f. intros H.
    apply (f_equal chars) in H. rewrite chars_app in H.
    pose proof (number_pad 6 f (chars "Z") Hf) as Hn. by rewrite H in Hn. }
  assert (∃ a, strftime_z t = a +:+ "Z") as (a & Ha).
  { unfold strftime_z. rewrite <-!str_app_assoc. eauto. }
  rewrite Ha at 1. rewrite ends_with_app, bool_decide_eq_true_2 by done. rewrite Ha, drop_last_app.
  rewrite (fromisoformat_written t _ (chars ("." +:+ pad 6 f)) (chars "+00:00") (Some 0)); [cbn; f_equal; lia|done| | |done].
  - assert (strftime_z t = (iso_date (ymd_of_days (t / us_per_day)) +:+ "T" +:+ iso_time (t mod us_per_day)
      +:+ "." +:+ pad 6 f) +:+ "Z") as Hw by (unfold strftime_z; by rewrite !str_app_assoc).
    rewrite Ha in Hw. apply (f_equal drop_last) in Hw. rewrite !drop_last_app in Hw. subst a.
    by rewrite !chars_app, <-!app_assoc.
  - apply parse_fraction_six, Hf.
Qed.

(** Reading a timestamp undoes writing it: from each of the three forms in
    which the gateway writes an instant ([isoformat() + "Z"], which carries both
    an offset and a [Z], [strftime(...)] with a bare [Z], and plain
    [isoformat()]) [_parse_utc] gives back that instant, for every instant a
    [datetime] can hold. *)
Theorem parse_utc_reads_back t :
  in_range t →
  parse_utc (iso_z t) = Some t ∧ parse_utc (strftime_z t) = Some t ∧ parse_utc (isoformat t) = Some t.
Proof. intros Ht. split_and!; [by apply parse_utc_iso_z|by apply parse_utc_strftime_z|by apply parse_utc_isoformat]. Qed.

Lemma parse_utc_reads_back_witness :
  let t := (739616 * 86400 + 3661) * us_per_second + 42 in
  strftime_z t = "2026-01-01T01:01:01.000042Z" ∧ iso_z t = "2026-01-01T01:01:01.000042+00:00Z" ∧
  parse_utc (iso_z t) = Some t ∧ parse_utc (strftime_z t) = Some t ∧ parse_utc (isoformat t) = Some t.
Proof.
  intros t. split; [by vm_compute|]. split; [by vm_compute|].
  refine (parse_utc_reads_back t _). split; vm_compute; congruence.
Defined.
