(* ===== verification/Json.v ===== *)
(** * JSON text and back

    The SQL backends keep payloads as the text of [json.dumps] and read them
    with [json.loads]; the policy engine is spoken to in the same way.  [loads]
    is Python's parser on characters with code points below 256, with numbers
    kept as they are written; the result of the file is that it undoes [dumps]. *)
From Stdlib Require Import Ascii Qreduction.
From S2P Require Import Prelude Dict Types Encoding Timeparse.
Local Open Scope Z_scope.

(** ** Induction over nested values *)
Section json_ind.
Variable P : json → Prop.
Hypothesis Hnull : P JNull.
Hypothesis Hbool : ∀ b, P (JBool b).
Hypothesis Hnum : ∀ q t, P (JNum q t).
Hypothesis Hstr : ∀ s, P (JStr s).
Hypothesis Harr : ∀ l, Forall P l → P (JArr l).
Hypothesis Hobj : ∀ o, Forall (λ kv, P kv.2) o → P (JObj o).

Fixpoint json_nested_ind (j : json) : P j :=
  match j with
  | JNull => Hnull
  | JBool b => Hbool b
  | JNum q t => Hnum q t
  | JStr s => Hstr s
  | JArr l => Harr l ((fix go l := match l return Forall P l with
      | [] => Forall_nil_2 P | x :: l => Forall_cons_2 P x l (json_nested_ind x) (go l) end) l)
  | JObj o => Hobj o ((fix go o := match o return Forall (λ kv, P kv.2) o with
      | [] => Forall_nil_2 _ | kv :: o => Forall_cons_2 _ kv o (json_nested_ind kv.2) (go o) end) o)
  end.
End json_ind.

(** ** Scanning *)
Definition is_ws (c : ascii) : bool := c ∈? [" "%char; z_ascii 9; z_ascii 10; z_ascii 13].

Fixpoint skip_ws (l : list ascii) : list ascii :=
  match l with c :: l' => if is_ws c then skip_ws l' else l | [] => [] end.

Fixpoint span (p : ascii → bool) (l : list ascii) : list ascii * list ascii :=
  match l with
  | c :: l' => if p c then let '(a, r) := span p l' in (c :: a, r) else ([], l)
  | [] => ([], [])
  end.

(** ** Strings *)
Definition quote_char : ascii := z_ascii 34.
Definition backslash : ascii := z_ascii 92.

Definition unescape (c : ascii) : option ascii :=
  if decide (c = quote_char) then Some quote_char
  else if decide (c = backslash) then Some backslash
  else if decide (c = "/"%char) then Some "/"%char
  else if decide (c = "n"%char) then Some (z_ascii 10)
  else if decide (c = "r"%char) then Some (z_ascii 13)
  else if decide (c = "t"%char) then Some (z_ascii 9)
  else if decide (c = "b"%char) then Some (z_ascii 8)
  else if decide (c = "f"%char) then Some (z_ascii 12)
  else None.

(** The four digits of an escape; code points from 256 on are outside the model. *)
Definition code_point (a b c d : ascii) : option ascii :=
  a ← digit_val a; b ← digit_val b; c ← digit_val c; d ← digit_val d;
  if (a =? 0) && (b =? 0) then Some (z_ascii (16 * c + d)) else None.

(** What follows the opening quote. *)
Fixpoint parse_string (l : list ascii) : option (list ascii * list ascii) :=
  match l with
  | [] => None
  | c :: l =>
    if decide (c = quote_char) then Some ([], l)
    else if decide (c = backslash) then
      match l with
      | e :: l' =>
        if decide (e = "u"%char) then
          match l' with
          | c1 :: c2 :: c3 :: c4 :: l'' =>
            x ← code_point c1 c2 c3 c4; '(s, r) ← parse_string l''; Some (x :: s, r)
          | _ => None
          end
        else x ← unescape e; '(s, r) ← parse_string l'; Some (x :: s, r)
      | [] => None
      end
    else if ascii_z c <? 32 then None
    else '(s, r) ← parse_string l; Some (c :: s, r)
  end.

(** ** Numbers *)
Definition is_digit (c : ascii) : bool := (48 <=? ascii_z c) && (ascii_z c <=? 57).
Definition number_char (c : ascii) : bool := is_digit c || (c ∈? ["-"%char; "+"%char; "."%char; "e"%char; "E"%char]).

Definition digits_value (l : list ascii) : Z := fold_left (λ a c, 10 * a + (ascii_z c - 48)) l 0.

Definition exponent_value (l : list ascii) : option Z :=
  match l with
  | [] => Some 0
  | c :: l =>
    if c ∈? ["e"%char; "E"%char] then
      let '(sign, l) := match l with
                        | "-"%char :: l => (-1, l) | "+"%char :: l => (1, l) | _ => (1, l)
                        end in
      if forallb is_digit l && negb (bool_decide (l = [])) then Some (sign * digits_value l) else None
    else None
  end.

(** The exact value of a decimal numeral. *)
Definition number_value (l : list ascii) : option Q :=
  let '(sign, l) := match l with "-"%char :: l => (-1, l) | _ => (1, l) end in
  let '(whole, l) := span is_digit l in
  let '(point, (fraction, l)) := match l with
                                 | "."%char :: l => (true, span is_digit l)
                                 | _ => (false, ([], l))
                                 end in
  e ← exponent_value l;
  if bool_decide (whole = []) || (point && bool_decide (fraction = []))
     || (bool_decide (head whole = Some "0"%char) && negb (bool_decide (whole = ["0"%char]))) then None
  else
    let m := sign * digits_value (whole ++ fraction) in
    let e := e - Z.of_nat (length fraction) in
    Some (Qred (if 0 <=? e then inject_Z (m * 10 ^ e) else Qmake m (Z.to_pos (10 ^ (- e))))).

Definition parse_number (l : list ascii) : option (json * list ascii) :=
  let '(t, r) := span number_char l in
  q ← number_value t;
  Some (JNum q (String.string_of_list_ascii t), r).

(** ** Values *)
Definition literal (text : string) (j : json) (l : list ascii) : option (json * list ascii) :=
  if decide (take (String.length text) l = chars text) then Some (j, drop (String.length text) l) else None.

(** [dict(pairs)]: a repeated key keeps its place and gets the last value. *)
Definition dict_of_pairs {V} (kvs : list (string * V)) : dict V :=
  fold_left (λ d kv, dict_set kv.1 kv.2 d) kvs [].

Fixpoint parse_value (fuel : nat) (l : list ascii) : option (json * list ascii) :=
  match fuel, l with
  | S fuel, c :: l' =>
    if decide (c = quote_char) then
      '(s, r) ← parse_string l'; Some (JStr (String.string_of_list_ascii s), r)
    else if decide (c = "["%char) then
      match skip_ws l' with
      | "]"%char :: r => Some (JArr [], r)
      | l'' => '(vs, r) ← parse_elements fuel l''; Some (JArr vs, r)
      end
    else if decide (c = "{"%char) then
      match skip_ws l' with
      | "}"%char :: r => Some (JObj [], r)
      | l'' => '(kvs, r) ← parse_members fuel l''; Some (JObj (dict_of_pairs kvs), r)
      end
    else if decide (c = "n"%char) then literal "null" JNull l
    else if decide (c = "t"%char) then literal "true" (JBool true) l
    else if decide (c = "f"%char) then literal "false" (JBool false) l
    else parse_number l
  | _, _ => None
  end
with parse_elements (fuel : nat) (l : list ascii) : option (list json * list ascii) :=
  match fuel with
  | O => None
  | S fuel =>
    '(v, r) ← parse_value fuel l;
    match skip_ws r with
    | "]"%char :: r => Some ([v], r)
    | ","%char :: r => '(vs, r) ← parse_elements fuel (skip_ws r); Some (v :: vs, r)
    | _ => None
    end
  end
with parse_members (fuel : nat) (l : list ascii) : option (list (string * json) * list ascii) :=
  match fuel, l with
  | S fuel, c :: l =>
    if decide (c = quote_char) then
      '(k, r) ← parse_string l;
      match skip_ws r with
      | ":"%char :: r =>
        '(v, r) ← parse_value fuel (skip_ws r);
        let kv := (String.string_of_list_ascii k, v) in
        match skip_ws r with
        | "}"%char :: r => Some ([kv], r)
        | ","%char :: r => '(kvs, r) ← parse_members fuel (skip_ws r); Some (kv :: kvs, r)
        | _ => None
        end
      | _ => None
      end
    else None
  | _, _ => None
  end.

(** [json.loads(s)]; [None] is [JSONDecodeError].  Every value has at least one
    character, so twice the length is enough fuel. *)
Definition loads (s : string) : option json :=
  '(j, r) ← parse_value (2 * String.length s) (skip_ws (chars s));
  match skip_ws r with [] => Some j | _ => None end.

Example loads_examples :
  loads (" [1, -2.50e1 ,true,null]" +:+ char 10) =
    Some (JArr [JNum 1%Q "1"; JNum (-25 # 1)%Q "-2.50e1"; JBool true; JNull]) ∧
  loads ("{" +:+ json_string "a" +:+ ":1," +:+ json_string "b" +:+ " : {}, " +:+ json_string "a" +:+ ":" +:+ json_string ("x" +:+ char 10) +:+ "}")
    = Some (JObj [("a", JStr ("x" +:+ char 10)); ("b", JObj [])]) ∧
  loads "[1," = None ∧ loads "01" = None ∧ loads "1." = None ∧ loads "nul" = None ∧ loads "1 2" = None.
Proof. vm_compute. repeat split. Qed.

(** ** What can be written and read back

    A number's text is its value's, and an object has each key once. *)
Fixpoint json_ok (j : json) : Prop :=
  match j with
  | JNum q t => number_value (chars t) = Some q ∧ forallb number_char (chars t) = true ∧
                match chars t with [] => False | c :: _ => is_digit c = true ∨ c = "-"%char end
  | JArr l => (fix go l := match l with [] => True | x :: l => json_ok x ∧ go l end) l
  | JObj o => NoDup o.*1 ∧ (fix go o := match o with [] => True | (_, x) :: o => json_ok x ∧ go o end) o
  | _ => True
  end.

Lemma json_ok_arr l : json_ok (JArr l) ↔ Forall json_ok l.
Proof. cbn. induction l as [|x l IH]; [by split|]. rewrite Forall_cons, <-IH. done. Qed.

Lemma json_ok_obj o : json_ok (JObj o) ↔ NoDup o.*1 ∧ Forall (λ kv, json_ok kv.2) o.
Proof.
  cbn. apply and_iff_compat_l. induction o as [|[k x] o IH]; [by split|]. rewrite Forall_cons, <-IH. done.
Qed.

(** *** Strings *)
Lemma parse_escaped_char c l :
  parse_string (chars (json_escape_char c) ++ l) = '(s, r) ← parse_string l; Some (c :: s, r).
Proof. destruct c as [[] [] [] [] [] [] [] []]; reflexivity. Qed.

Lemma chars_concat (l : list string) : chars (String.concat "" l) = l ≫= chars.
Proof.
  induction l as [|x l IH]; [done|]. rewrite bind_cons, <-IH. destruct l; cbn [String.concat].
  - by rewrite app_nil_r.
  - change ("" +:+ ?x) with x. by rewrite chars_app.
Qed.

Lemma parse_escaped s l :
  parse_string (chars (String.concat "" (json_escape_char <$> s)) ++ quote_char :: l) = Some (s, l).
Proof.
  rewrite chars_concat. induction s as [|c s IH]; [done|].
  rewrite fmap_cons, bind_cons, <-app_assoc, parse_escaped_char. by rewrite IH.
Qed.

Lemma chars_json_string s l :
  chars (json_string s) ++ l = quote_char :: chars (String.concat "" (json_escape_char <$> chars s)) ++ quote_char :: l.
Proof. unfold json_string. rewrite !chars_app, <-!app_assoc. done. Qed.

(** *** Numbers *)
Definition ends_number (r : list ascii) : Prop := ∀ c l, r = c :: l → number_char c = false.

Lemma span_all (p : ascii → bool) l r :
  forallb p l = true → (∀ c l', r = c :: l' → p c = false) → span p (l ++ r) = (l, r).
Proof.
  intros Hl Hr. induction l as [|c l IH]; cbn in *.
  - destruct r as [|c r]; [done|]. cbn. by rewrite (Hr c r).
  - apply andb_true_iff in Hl as [-> Hl]. by rewrite IH.
Qed.

Lemma parse_number_text q t r :
  json_ok (JNum q t) → ends_number r → parse_number (chars t ++ r) = Some (JNum q t, r).
Proof.
  intros (Hv & Hc & _) Hr. unfold parse_number. rewrite span_all by done. rewrite Hv. cbn.
  by rewrite String.string_of_list_ascii_of_string.
Qed.

(** *** How a text begins *)
Definition starts_value (c : ascii) : Prop :=
  is_ws c = false ∧ c ≠ "]"%char.

Lemma digit_or_minus c :
  is_digit c = true ∨ c = "-"%char →
  starts_value c ∧ c ∉ [quote_char; "["%char; "{"%char; "n"%char; "t"%char; "f"%char].
Proof.
  unfold starts_value. destruct c as [[] [] [] [] [] [] [] []]; intros [H|H]; try discriminate H; (split; [split; [reflexivity|discriminate]|set_solver]).
Qed.

Lemma dumps_starts j : json_ok j → ∃ c l, chars (dumps false j) = c :: l ∧ starts_value c.
Proof.
  destruct j as [|[]|q t|s|l|o]; intros Hok; try by (eexists _, _; split; [reflexivity|split; [reflexivity|discriminate]]).
  - destruct Hok as (_ & _ & Ht). cbn. destruct (chars t) as [|c l]; [done|].
    exists c, l. split; [done|]. by apply digit_or_minus.
Qed.

Lemma skip_ws_dumps j r : json_ok j → skip_ws (chars (dumps false j) ++ r) = chars (dumps false j) ++ r.
Proof. intros H. destruct (dumps_starts j H) as (c & l & -> & Hc & _). cbn. by rewrite Hc. Qed.

(** *** Fuel *)
Fixpoint json_size (j : json) : nat :=
  match j with
  | JArr l => S (list_sum (map (λ x, S (json_size x)) l))
  | JObj o => S (list_sum (map (λ kv, S (json_size kv.2)) o))
  | _ => 1
  end.

Definition member_text (kv : string * json) : string := json_string kv.1 +:+ ": " +:+ dumps false kv.2.

Lemma dumps_obj o : dumps false (JObj o) = "{" +:+ String.concat ", " (map member_text o) +:+ "}".
Proof. cbn. do 3 f_equal. rewrite <-list_fmap_compose. done. Qed.

(** Items are separated by [", "]. *)
Lemma chars_items x (l : list string) r :
  chars (String.concat ", " (x :: l)) ++ r =
    chars x ++ match l with [] => r | _ => ","%char :: " "%char :: chars (String.concat ", " l) ++ r end.
Proof.
  destruct l; cbn [String.concat]; [done|]. rewrite !chars_app, <-!app_assoc. done.
Qed.

Lemma ends_number_cons c r : number_char c = false → ends_number (c :: r).
Proof. by intros H c' l [= <- <-]. Qed.

Definition reads_back (j : json) : Prop :=
  json_ok j → ∀ fuel r, ends_number r → (json_size j ≤ fuel)%nat →
    parse_value fuel (chars (dumps false j) ++ r) = Some (j, r).

Lemma parse_elements_text l fuel r :
  l ≠ [] → Forall reads_back l → Forall json_ok l →
  (list_sum (map (λ x, S (json_size x)) l) ≤ fuel)%nat →
  parse_elements fuel (chars (String.concat ", " (map (dumps false) l)) ++ "]"%char :: r) = Some (l, r).
Proof.
  intros Hne HP. revert fuel. induction HP as [|x l Hx HP IH]; intros fuel Hok Hf; [done|].
  apply Forall_cons in Hok as [Hxok Hok]. cbn [map list_sum fold_right] in *. destruct fuel as [|fuel]; [lia|].
  cbn [map] in *. rewrite chars_items. cbn [parse_elements].
  destruct l as [|y l].
  - cbn [map]. rewrite (Hx Hxok) by (by apply ends_number_cons || lia). reflexivity.
  - cbn [map] in *. rewrite (Hx Hxok) by (by apply ends_number_cons || lia). cbn [mbind option_bind].
    change (skip_ws (","%char :: ?t)) with (","%char :: t). cbn [mbind option_bind].
    change (skip_ws (" "%char :: ?t)) with (skip_ws t).
    assert (json_ok y) as Hy by by apply Forall_cons in Hok as [? _].
    assert (∀ t, skip_ws (chars (String.concat ", " (dumps false y :: map (dumps false) l)) ++ t)
      = chars (String.concat ", " (dumps false y :: map (dumps false) l)) ++ t) as ->.
    { intros t. rewrite chars_items. by apply skip_ws_dumps. }
    cbn [list_sum map fold_right] in *. rewrite (IH ltac:(done) fuel Hok) by lia. reflexivity.
Qed.

Lemma chars_member kv r :
  chars (member_text kv) ++ r = quote_char :: chars (String.concat "" (json_escape_char <$> chars kv.1)) ++
    quote_char :: ":"%char :: " "%char :: chars (dumps false kv.2) ++ r.
Proof. unfold member_text. rewrite chars_app, <-app_assoc, chars_json_string, chars_app, <-app_assoc. done. Qed.

Lemma parse_members_text o fuel r :
  o ≠ [] → Forall (λ kv, reads_back kv.2) o → Forall (λ kv, json_ok kv.2) o →
  (list_sum (map (λ kv, S (json_size kv.2)) o) ≤ fuel)%nat →
  parse_members fuel (chars (String.concat ", " (map member_text o)) ++ "}"%char :: r) = Some (o, r).
Proof.
  intros Hne HP. revert fuel. induction HP as [|[k x] o Hx HP IH]; intros fuel Hok Hf; [done|].
  apply Forall_cons in Hok as [Hxok Hok]. cbn [map list_sum fold_right snd] in *. destruct fuel as [|fuel]; [lia|].
  cbn [map] in *. rewrite chars_items, chars_member. cbn [parse_members fst snd].
  rewrite decide_True, parse_escaped by done. cbn [mbind option_bind].
  change (skip_ws (":"%char :: ?t)) with (":"%char :: t). cbn [mbind option_bind].
  change (skip_ws (" "%char :: ?t)) with (skip_ws t). rewrite skip_ws_dumps by done.
  rewrite String.string_of_list_ascii_of_string.
  destruct o as [|[k' y] o].
  - cbn [map]. rewrite (Hx Hxok) by (by apply ends_number_cons || lia). reflexivity.
  - cbn [map] in *. rewrite (Hx Hxok) by (by apply ends_number_cons || lia). cbn [mbind option_bind].
    change (skip_ws (","%char :: ?t)) with (","%char :: t). cbn [mbind option_bind].
    change (skip_ws (" "%char :: ?t)) with (skip_ws t).
    assert (∀ t, skip_ws (chars (String.concat ", " (member_text (k', y) :: map member_text o)) ++ t)
      = chars (String.concat ", " (member_text (k', y) :: map member_text o)) ++ t) as ->.
    { intros t. by rewrite chars_items, chars_member. }
    cbn [list_sum map fold_right snd] in *. rewrite (IH ltac:(done) fuel Hok) by lia. reflexivity.
Qed.

Lemma dict_of_pairs_nodup {V} (o : list (string * V)) : NoDup o.*1 → dict_of_pairs o = o.
Proof.
  unfold dict_of_pairs. intros Hn.
  assert (∀ d : dict V, NoDup (d ++ o).*1 → fold_left (λ d kv, dict_set kv.1 kv.2 d) o d = d ++ o) as H.
  { clear Hn. induction o as [|[k v] o IH]; intros d Hd; cbn [fold_left]; [by rewrite app_nil_r|].
    cbn [fst snd]. rewrite dict_set_fresh.
    - rewrite IH, <-app_assoc; [done|]. by rewrite <-app_assoc.
    - rewrite fmap_app in Hd. apply NoDup_app in Hd as (_ & Hd & _). intros Hk. apply (Hd k Hk). by left. }
  by apply (H []).
Qed.

Lemma literal_text text j r : literal text j (chars text ++ r) = Some (j, r).
Proof.
  unfold literal. rewrite <-length_chars, take_app_length, drop_app_length. by rewrite decide_True.
Qed.

Lemma parse_value_text j : reads_back j.
Proof.
  induction j as [|b|q t|s|l IH|o IH] using json_nested_ind; intros Hok fuel r Hr Hf;
    (destruct fuel as [|fuel]; [cbn in Hf; lia|]).
  - exact (literal_text "null" JNull r).
  - destruct b; [exact (literal_text "true" (JBool true) r)|exact (literal_text "false" (JBool false) r)].
  - pose proof (parse_number_text q t r Hok Hr) as Hp. destruct Hok as (_ & _ & Ht). cbn [dumps].
    destruct (chars t) as [|c l] eqn:Hc; [done|]. cbn [app parse_value] in *.
    destruct (digit_or_minus c Ht) as [_ Hn]. rewrite !not_elem_of_cons in Hn.
    by rewrite !decide_False by tauto.
  - cbn [dumps]. rewrite chars_json_string. cbn [parse_value]. rewrite decide_True, parse_escaped by done.
    cbn. by rewrite String.string_of_list_ascii_of_string.
  - apply json_ok_arr in Hok. cbn [dumps]. rewrite !chars_app, <-!app_assoc. cbn [chars app parse_value].
    rewrite decide_False, decide_True by done.
    destruct l as [|x l]; [reflexivity|].
    assert (∀ t, skip_ws (chars (String.concat ", " (map (dumps false) (x :: l))) ++ t)
      = chars (String.concat ", " (map (dumps false) (x :: l))) ++ t) as ->.
    { intros t. cbn [map]. rewrite chars_items. apply skip_ws_dumps. by apply Forall_cons in Hok as [? _]. }
    pose proof (parse_elements_text (x :: l) fuel r ltac:(done) IH Hok ltac:(cbn in *; lia)) as Hp.
    destruct (chars _ ++ "]"%char :: r) as [|c t] eqn:E; [rewrite Hp; reflexivity|].
    assert (c ≠ "]"%char) as Hc.
    { cbn [map] in E. rewrite chars_items in E. apply Forall_cons in Hok as [Hx _].
      destruct (dumps_starts x Hx) as (c' & l' & E' & _ & Hc'). rewrite E' in E. cbn in E. congruence. }
    destruct c as [[] [] [] [] [] [] [] []]; first [by destruct Hc|rewrite Hp; reflexivity].
  - apply json_ok_obj in Hok as [Hn Hok]. rewrite dumps_obj, !chars_app, <-!app_assoc.
    cbn [chars app parse_value]. rewrite !decide_False, decide_True by done.
    destruct o as [|[k x] o]; [reflexivity|].
    pose proof (parse_members_text ((k, x) :: o) fuel r ltac:(done) IH Hok ltac:(cbn in *; lia)) as Hp.
    assert (∃ c t, chars (String.concat ", " (map member_text ((k, x) :: o))) ++ "}"%char :: r = c :: t ∧
      is_ws c = false ∧ c ≠ "}"%char) as (c & t & E & Hw & Hc).
    { cbn [map]. rewrite chars_items, chars_member. by eexists _, _. }
    rewrite E in *. cbn [skip_ws]. rewrite Hw.
    rewrite <-(dict_of_pairs_nodup ((k, x) :: o)) by done.
    destruct c as [[] [] [] [] [] [] [] []]; first [by destruct Hc|rewrite Hp; reflexivity].
Qed.

Lemma size_length j : json_ok j → (json_size j + 1 ≤ 2 * length (chars (dumps false j)))%nat.
Proof.
  induction j as [|b|q t|s|l IH|o IH] using json_nested_ind; intros Hok.
  - cbn. lia.
  - destruct b; cbn; lia.
  - destruct (dumps_starts _ Hok) as (c & l & -> & _). cbn. lia.
  - cbn [dumps]. rewrite <-(app_nil_r (chars _)), chars_json_string, length_cons, length_app. cbn. lia.
  - apply json_ok_arr in Hok. cbn [dumps json_size]. rewrite !chars_app, !length_app.
    cut (list_sum (map (λ x, S (json_size x)) l) ≤ 2 * length (chars (String.concat ", " (map (dumps false) l))))%nat; [cbn; lia|].
    induction IH as [|x l Hx _ IHl]; [cbn; lia|]. apply Forall_cons in Hok as [Hxok Hok].
    specialize (Hx Hxok). specialize (IHl Hok). unfold list_sum in *. cbn [map foldr].
    rewrite <-(app_nil_r (chars (String.concat _ (_ :: _)))), chars_items, length_app.
    destruct (map (dumps false) l); cbn in *; rewrite ?length_app; cbn; lia.
  - apply json_ok_obj in Hok as [_ Hok]. rewrite dumps_obj. cbn [json_size]. rewrite !chars_app, !length_app.
    cut (list_sum (map (λ kv, S (json_size kv.2)) o) ≤ 2 * length (chars (String.concat ", " (map member_text o))))%nat; [cbn; lia|].
    induction IH as [|[k x] o Hx _ IHo]; [cbn; lia|]. apply Forall_cons in Hok as [Hxok Hok].
    specialize (Hx Hxok). specialize (IHo Hok). unfold list_sum in *. cbn [map foldr snd] in *.
    rewrite <-(app_nil_r (chars (String.concat _ (_ :: _)))), chars_items, chars_member.
    rewrite !length_cons, !length_app, !length_cons, !length_app.
    destruct (map member_text o); cbn in *; rewrite ?length_app; cbn; lia.
Qed.

(** Reading undoes writing. *)
Lemma loads_dumps j : json_ok j → loads (dumps false j) = Some j.
Proof.
  intros Hok. unfold loads. pose proof (size_length j Hok) as Hs. rewrite length_chars in Hs.
  pose proof (skip_ws_dumps j [] Hok) as Hw. pose proof (parse_value_text j Hok (2 * String.length (dumps false j))%nat []) as Hp.
  rewrite app_nil_r in Hw, Hp. rewrite Hw, Hp; [done|by intros c l|lia].
Qed.

(** The text has no NUL character. *)
Definition no_nul (l : list ascii) : Prop := Forall (λ c, c ≠ z_ascii 0) l.

Lemma no_nul_app l r : no_nul l → no_nul r → no_nul (l ++ r).
Proof. apply Forall_app_2. Qed.

Lemma no_nul_json_string s : no_nul (chars (json_string s)).
Proof.
  unfold json_string. rewrite !chars_app, chars_concat.
  repeat apply no_nul_app; [by repeat constructor| |by repeat constructor].
  apply Forall_bind, Forall_fmap, Forall_true. intros [[] [] [] [] [] [] [] []]; by repeat constructor.
Qed.

Lemma no_nul_items (l : list string) :
  Forall (λ t, no_nul (chars t)) l → no_nul (chars (String.concat ", " l)).
Proof.
  induction 1 as [|t l Ht _ IH]; [constructor|].
  rewrite <-(app_nil_r (chars _)), chars_items. apply no_nul_app; [done|].
  destruct l; [constructor|]. rewrite app_nil_r. by do 2 (constructor; [done|]).
Qed.

Lemma dumps_no_nul j : json_ok j → no_nul (chars (dumps false j)).
Proof.
  induction j as [|b|q t|s|l IH|o IH] using json_nested_ind; intros Hok.
  - by repeat constructor.
  - destruct b; by repeat constructor.
  - destruct Hok as (_ & Hc & _). apply Forall_forall. intros c Hin. rewrite forallb_forall in Hc.
    apply list_elem_of_In, Hc in Hin. by intros ->.
  - apply no_nul_json_string.
  - apply json_ok_arr in Hok. cbn [dumps]. rewrite !chars_app.
    repeat apply no_nul_app; [by repeat constructor| |by repeat constructor].
    apply no_nul_items, Forall_fmap. rewrite Forall_forall in *. intros x Hx. by apply IH, Hok.
  - apply json_ok_obj in Hok as [_ Hok]. rewrite dumps_obj, !chars_app.
    repeat apply no_nul_app; [by repeat constructor| |by repeat constructor].
    apply no_nul_items, Forall_fmap. rewrite Forall_forall in *. intros kv Hkv. unfold compose, member_text.
    rewrite !chars_app. repeat apply no_nul_app; [apply no_nul_json_string|by repeat constructor|].
    by apply IH, Hok.
Qed.
