(* ===== verification/Graph.v ===== *)
(** * Graph traversals

    The gateway explores the dependency graph in several places, always with
    a worklist and a set of visited nodes.  This file has the two shapes the
    code uses, over an arbitrary successor function: a queue ([bfs]) and a
    level-by-level walk bounded in depth ([levels]), each with its
    specification in terms of paths. *)
From S2P Require Import Prelude.

Section traversal.
Variable succ : string → list string.

Definition edge (x y : string) : Prop := y ∈ succ x.
Definition reach : string → string → Prop := rtc edge.

(** [if y not in visited: visited.add(y); queue.append(y)] *)
Definition enqueue (s : list string * list string) (y : string) : list string * list string :=
  if decide (y ∈ s.1) then s else (s.1 ++ [y], s.2 ++ [y]).

Definition expand (ys : list string) (s : list string * list string) : list string * list string :=
  fold_left enqueue ys s.

Lemma expand_spec ys v q :
  ∃ new, expand ys (v, q) = (v ++ new, q ++ new) ∧
    (NoDup v → NoDup (v ++ new)) ∧
    (∀ y, y ∈ new → y ∈ ys) ∧ (∀ y, y ∈ ys → y ∈ v ++ new).
Proof.
  revert v q; induction ys as [|y ys IH]; intros v q.
  - exists []. rewrite !app_nil_r. split_and!; set_solver.
  - unfold expand in *. cbn [fold_left]. unfold enqueue at 2. cbn [fst snd].
    case_decide as Hy.
    + destruct (IH v q) as (new & -> & Hnd & Hin & Hall). exists new.
      split_and!; [done..|set_solver|set_solver].
    + destruct (IH (v ++ [y]) (q ++ [y])) as (new & -> & Hnd & Hin & Hall).
      exists (y :: new). rewrite <-!app_assoc in *. cbn [app] in *.
      split_and!; [done| |set_solver|set_solver].
      intros Hv. apply Hnd. apply NoDup_app. split_and!; [done|set_solver|apply NoDup_singleton].
Qed.

(** ** Breadth-first search with a queue *)
Record search := Search { visited : list string; queue : list string; popped : list string }.

Definition bfs_step (s : search) : search :=
  match queue s with
  | [] => s
  | cur :: q =>
    let '(v, q) := expand (succ cur) (visited s, q) in Search v q (popped s ++ [cur])
  end.

Fixpoint bfs (fuel : nat) (s : search) : search :=
  match fuel with
  | O => s
  | S fuel => match queue s with [] => s | _ => bfs fuel (bfs_step s) end
  end.

Record search_inv (roots : list string) (s : search) : Prop := {
  si_nodup : NoDup (visited s);
  si_roots : roots ⊆ visited s;
  si_queue : queue s ⊆ visited s;
  si_split x : x ∈ visited s → x ∈ popped s ∨ x ∈ queue s;
  si_popped : popped s ⊆ visited s;
  si_reach x : x ∈ visited s → ∃ r, r ∈ roots ∧ reach r x;
  si_closed x y : x ∈ popped s → y ∈ succ x → y ∈ visited s }.

Lemma search_inv_step roots s : search_inv roots s → search_inv roots (bfs_step s).
Proof.
  intros I. unfold bfs_step. destruct (queue s) as [|cur q] eqn:Hq; [done|].
  destruct (expand_spec (succ cur) (visited s) q) as (new & -> & Hnd & Hin & Hall).
  pose proof (si_queue _ _ I) as Hsub. rewrite Hq in Hsub.
  split; simpl.
  - apply Hnd, (si_nodup _ _ I).
  - pose proof (si_roots _ _ I). set_solver.
  - set_solver.
  - intros x [Hx|Hx]%elem_of_app; [|set_solver].
    destruct (si_split _ _ I x Hx) as [|Hx']; [set_solver|]. rewrite Hq in Hx'. set_solver.
  - pose proof (si_popped _ _ I). set_solver.
  - intros x [Hx|Hx]%elem_of_app; [by apply (si_reach _ _ I)|].
    destruct (si_reach _ _ I cur) as (r & Hr & Hp); [set_solver|].
    exists r. split; [done|]. eapply rtc_r; [exact Hp|]. by apply Hin.
  - intros x y [Hx|Hx]%elem_of_app Hy.
    + apply elem_of_app. left. by eapply (si_closed _ _ I).
    + apply list_elem_of_singleton in Hx as ->. auto.
Qed.

Lemma search_inv_bfs roots fuel s : search_inv roots s → search_inv roots (bfs fuel s).
Proof.
  revert s; induction fuel as [|fuel IH]; intros s I; simpl; [done|].
  destruct (queue s) eqn:Hq; [done|]. apply IH, search_inv_step, I.
Qed.

(** Every step pops one element and the visited set stays inside the
    universe, so the queue empties. *)
Lemma bfs_terminates roots universe fuel s :
  search_inv roots s →
  visited s ⊆ universe → (∀ x y, x ∈ universe → y ∈ succ x → y ∈ universe) →
  length (queue s) + (length universe - length (visited s)) ≤ fuel →
  queue (bfs fuel s) = [].
Proof.
  revert s; induction fuel as [|fuel IH]; intros s I Hu Hsucc Hf; simpl.
  - destruct (queue s); [done|simpl in Hf; lia].
  - destruct (queue s) as [|cur q] eqn:Hq; [done|].
    pose proof (search_inv_step _ _ I) as I'. revert I'.
    unfold bfs_step. rewrite Hq.
    destruct (expand_spec (succ cur) (visited s) q) as (new & -> & Hnd & Hin & Hall).
    pose proof (si_queue _ _ I) as Hsub. rewrite Hq in Hsub.
    assert (visited s ++ new ⊆ universe) as Hu'.
    { intros x [Hx|Hx]%elem_of_app; [auto|]. eapply Hsucc; [|by apply Hin]. set_solver. }
    intros I'. apply IH; [done|done|done|]. cbn [queue visited].
    assert (length (visited s ++ new) ≤ length universe).
    { apply submseteq_length, NoDup_submseteq; [apply Hnd, (si_nodup _ _ I)|done]. }
    rewrite !length_app in *. simpl in Hf. lia.
Qed.

Definition start (roots : list string) : search :=
  Search (fold_left (λ l x, add_new x l) roots []) roots [].

Lemma search_inv_start roots : search_inv roots (start roots).
Proof.
  split; simpl.
  - apply NoDup_fold_add_new, NoDup_nil_2.
  - intros x. rewrite elem_of_fold_add_new. auto.
  - intros x. rewrite elem_of_fold_add_new. auto.
  - intros x. rewrite elem_of_fold_add_new. set_solver.
  - set_solver.
  - intros x. rewrite elem_of_fold_add_new. intros [|[]%elem_of_nil].
    exists x. split; [done|apply rtc_refl].
  - set_solver.
Qed.

Lemma closed_reach (l : list string) r x :
  (∀ x y, x ∈ l → y ∈ succ x → y ∈ l) → r ∈ l → reach r x → x ∈ l.
Proof. intros Hcl Hr Hp. induction Hp; eauto. Qed.

Lemma bfs_spec roots universe fuel :
  roots ⊆ universe → (∀ x y, x ∈ universe → y ∈ succ x → y ∈ universe) →
  length roots + length universe ≤ fuel →
  let s := bfs fuel (start roots) in
  queue s = [] ∧
  (∀ x, x ∈ visited s ↔ ∃ r, r ∈ roots ∧ reach r x) ∧
  (∀ x, x ∈ popped s ↔ x ∈ visited s).
Proof.
  intros Hroots Hsucc Hfuel s.
  assert (search_inv roots s) as I by apply search_inv_bfs, search_inv_start.
  assert (queue s = []) as Hq.
  { apply (bfs_terminates roots universe); [apply search_inv_start| |done|].
    - simpl. intros x. rewrite elem_of_fold_add_new. set_solver.
    - simpl. lia. }
  assert (∀ x, x ∈ popped s ↔ x ∈ visited s) as Hpv.
  { intros x. split; [apply (si_popped _ _ I)|]. intros Hx.
    destruct (si_split _ _ I x Hx) as [|Hx']; [done|]. rewrite Hq in Hx'. by apply elem_of_nil in Hx'. }
  split_and!; [done| |done]. intros x. split; [apply (si_reach _ _ I)|].
  intros (r & Hr & Hp). apply (closed_reach (visited s) r x); [|by apply (si_roots _ _ I)|done].
  intros y z Hy%Hpv Hz. by eapply (si_closed _ _ I).
Qed.

(** From a single root nothing is popped twice. *)
Lemma bfs_visited_popped fuel s :
  visited s = popped s ++ queue s →
  visited (bfs fuel s) = popped (bfs fuel s) ++ queue (bfs fuel s).
Proof.
  revert s; induction fuel as [|fuel IH]; intros s Hs; simpl; [done|].
  destruct (queue s) as [|cur q] eqn:Hq; [by rewrite Hq|].
  apply IH. unfold bfs_step. rewrite Hq.
  destruct (expand_spec (succ cur) (visited s) q) as (new & -> & _). simpl.
  rewrite Hs. by rewrite <-!app_assoc.
Qed.

Lemma bfs_root_popped root universe fuel :
  root ∈ universe → (∀ x y, x ∈ universe → y ∈ succ x → y ∈ universe) →
  1 + length universe ≤ fuel →
  let s := bfs fuel (start [root]) in
  queue s = [] ∧ NoDup (popped s) ∧ (∀ x, x ∈ popped s ↔ reach root x).
Proof.
  intros Hroot Hsucc Hfuel s.
  destruct (bfs_spec [root] universe fuel) as (Hq & Hv & Hp); [set_solver|done|done|].
  fold s in Hq, Hv, Hp. split_and!; [done| |].
  - pose proof (bfs_visited_popped fuel (start [root])) as E. fold s in E.
    rewrite Hq, app_nil_r in E. rewrite <-E by (by vm_compute).
    eapply si_nodup, search_inv_bfs, search_inv_start.
  - intros x. rewrite Hp, Hv. split; [|set_solver].
    intros (r & ->%list_elem_of_singleton & ?). done.
Qed.
(** ** Level-by-level walk, bounded in depth

    Every child of the current level that was not seen before forms the next
    level; [depth] levels are expanded, fewer when a level comes out empty or
    when [enough] says that the set of visited nodes cannot grow. *)
Definition expand_level (cur v : list string) : list string * list string :=
  fold_left (λ s x, expand (succ x) s) cur (v, []).

Fixpoint levels (enough : list string → bool) (depth : nat) (v cur : list string) : list string :=
  match depth with
  | O => v
  | S depth =>
    match cur with
    | [] => v
    | _ =>
      let '(v', next) := expand_level cur v in
      if enough v' then v' else levels enough depth v' next
    end
  end.

Lemma expand_level_acc_spec cur v q :
  ∃ new, fold_left (λ s x, expand (succ x) s) cur (v, q) = (v ++ new, q ++ new) ∧
    (NoDup v → NoDup (v ++ new)) ∧
    (∀ y, y ∈ new → ∃ x, x ∈ cur ∧ y ∈ succ x) ∧
    (∀ x y, x ∈ cur → y ∈ succ x → y ∈ v ++ new).
Proof.
  revert v q; induction cur as [|c cur IH]; intros v q; cbn [fold_left].
  - exists []. rewrite !app_nil_r. split_and!; set_solver.
  - destruct (expand_spec (succ c) v q) as (n1 & -> & Hnd1 & Hin1 & Hall1).
    destruct (IH (v ++ n1) (q ++ n1)) as (n2 & -> & Hnd2 & Hin2 & Hall2).
    exists (n1 ++ n2). rewrite !app_assoc. split_and!; [done|auto| |].
    + intros y [Hy|Hy]%elem_of_app; [exists c; set_solver|].
      destruct (Hin2 y Hy) as (x & ? & ?). exists x. set_solver.
    + intros x y [->|Hx]%elem_of_cons Hy; [|by eapply Hall2].
      pose proof (Hall1 y Hy). set_solver.
Qed.

Lemma expand_level_spec cur v :
  ∃ new, expand_level cur v = (v ++ new, new) ∧
    (NoDup v → NoDup (v ++ new)) ∧
    (∀ y, y ∈ new → ∃ x, x ∈ cur ∧ y ∈ succ x) ∧
    (∀ x y, x ∈ cur → y ∈ succ x → y ∈ v ++ new).
Proof. exact (expand_level_acc_spec cur v []). Qed.

Lemma bsteps_inv_r n x z :
  bsteps edge (S n) x z → z = x ∨ ∃ y, bsteps edge n x y ∧ edge y z.
Proof.
  revert x; induction n as [|n IH]; intros x H; inversion H as [|? ? y ? Hxy Hyz]; subst; [by left| |by left|].
  - inversion Hyz; subst. right. exists x. split; [apply bsteps_refl|done].
  - right. destruct (IH y Hyz) as [->|(w & ? & ?)].
    + exists x. split; [apply bsteps_refl|done].
    + exists w. split; [by eapply bsteps_l|done].
Qed.

Lemma levels_nodup enough n v cur : NoDup v → NoDup (levels enough n v cur).
Proof.
  revert v cur; induction n as [|n IH]; intros v cur Hv; [done|]. cbn [levels].
  destruct cur as [|c cur]; [done|].
  destruct (expand_level_spec (c :: cur) v) as (new & -> & Hnd & _).
  destruct (enough _); auto.
Qed.

(** After [k] levels the visited nodes are those at most [k] edges away. *)
Record level_inv (root : string) (k : nat) (v cur : list string) : Prop := {
  li_cur : cur ⊆ v;
  li_root : root ∈ v;
  li_bound x : x ∈ v → bsteps edge k root x;
  li_closed x y : x ∈ v → x ∉ cur → y ∈ succ x → y ∈ v;
  li_nodup : NoDup v }.

Lemma level_inv_start root : level_inv root 0 [root] [root].
Proof.
  split; try set_solver; [|apply NoDup_singleton].
  intros x ->%list_elem_of_singleton. apply bsteps_refl.
Qed.

Lemma level_inv_step root k v cur v' next :
  level_inv root k v cur → expand_level cur v = (v', next) → level_inv root (S k) v' next.
Proof.
  intros I E. destruct (expand_level_spec cur v) as (new & E' & Hnd & Hin & Hall).
  rewrite E in E'. simplify_eq. split.
  - set_solver.
  - pose proof (li_root _ _ _ _ I). set_solver.
  - intros x [Hx|Hx]%elem_of_app; [eapply bsteps_S, (li_bound _ _ _ _ I), Hx|].
    destruct (Hin x Hx) as (y & Hy & Hxy). eapply bsteps_r; [|exact Hxy].
    apply (li_bound _ _ _ _ I), (li_cur _ _ _ _ I), Hy.
  - intros x y [Hx|Hx]%elem_of_app Hn Hy; [|done].
    destruct (decide (x ∈ cur)); [by eapply Hall|].
    apply elem_of_app; left. by eapply (li_closed _ _ _ _ I).
  - apply Hnd, (li_nodup _ _ _ _ I).
Qed.

Lemma level_closed root k v cur :
  level_inv root k v cur → (∀ x y, x ∈ v → y ∈ succ x → y ∈ v) →
  ∀ n x, k ≤ n → x ∈ v ↔ bsteps edge n root x.
Proof.
  intros I Hcl n x Hn. split.
  - intros Hx. eapply bsteps_weaken; [exact Hn|]. by apply (li_bound _ _ _ _ I).
  - intros Hx. apply (closed_reach v root); [done|apply (li_root _ _ _ _ I)|].
    by apply rtc_bsteps_2 in Hx.
Qed.

Lemma level_inv_exact root k v cur :
  level_inv root k v cur → (∀ x, x ∈ v ↔ bsteps edge k root x) →
  ∀ v' next, expand_level cur v = (v', next) → ∀ x, x ∈ v' ↔ bsteps edge (S k) root x.
Proof.
  intros I Hk v' next E x. pose proof (level_inv_step _ _ _ _ _ _ I E) as I'.
  split; [apply (li_bound _ _ _ _ I')|]. intros Hx.
  destruct (expand_level_spec cur v) as (new & E' & _ & _ & Hall).
  rewrite E in E'. simplify_eq.
  apply bsteps_inv_r in Hx as [->|(y & Hy%Hk & Hyx)].
  - pose proof (li_root _ _ _ _ I). set_solver.
  - destruct (decide (y ∈ cur)); [by eapply Hall|].
    apply elem_of_app; left. by eapply (li_closed _ _ _ _ I).
Qed.

Lemma levels_correct enough root n k v cur :
  (∀ k v cur, level_inv root k v cur → enough v = true → ∀ x y, x ∈ v → y ∈ succ x → y ∈ v) →
  level_inv root k v cur → (∀ x, x ∈ v ↔ bsteps edge k root x) →
  ∀ x, x ∈ levels enough n v cur ↔ bsteps edge (k + n) root x.
Proof.
  intros He. revert k v cur; induction n as [|n IH]; intros k v cur I Hk x; cbn [levels].
  - by rewrite Nat.add_0_r.
  - destruct cur as [|c cur].
    + apply (level_closed root k v []); [done| |lia].
      intros y z Hy Hz. eapply (li_closed _ _ _ _ I); [done|set_solver|done].
    + destruct (expand_level (c :: cur) v) as [v' next] eqn:E.
      pose proof (level_inv_step _ _ _ _ _ _ I E) as I'.
      destruct (enough v') eqn:Ee.
      * apply (level_closed root (S k) v' next); [done|by eapply He|lia].
      * rewrite (IH (S k)); [|done|by eapply level_inv_exact]. by replace (S k + n) with (k + S n) by lia.
Qed.

(** With as many levels as the graph has nodes nothing is cut off. *)
Lemma bsteps_reach universe root n x :
  root ∈ universe → (∀ x y, x ∈ universe → y ∈ succ x → y ∈ universe) →
  length universe ≤ n → bsteps edge n root x ↔ reach root x.
Proof.
  intros Hroot Hu Hn. split; [apply rtc_bsteps_2|].
  assert (∀ m k v cur, level_inv root k v cur → v ⊆ universe → (∀ x, x ∈ v ↔ bsteps edge k root x) →
    length universe ≤ m + length v → reach root x → bsteps edge (k + m) root x) as Hgen.
  { clear n Hn. induction m as [|m IH]; intros k v cur I Hv Hk Hlen Hx.
    - rewrite Nat.add_0_r. apply Hk. apply (closed_reach v root); [|apply (li_root _ _ _ _ I)|done].
      assert (universe ⊆ v) as Huv.
      { apply NoDup_submseteq in Hv; [|apply (li_nodup _ _ _ _ I)].
        pose proof (submseteq_length_Permutation _ _ Hv ltac:(lia)) as Hp.
        intros y Hy. by rewrite Hp. }
      intros y z Hy Hz. apply Huv. eapply Hu; [by apply Hv|done].
    - destruct (expand_level cur v) as [v' next] eqn:E.
      pose proof (level_inv_step _ _ _ _ _ _ I E) as I'.
      pose proof (level_inv_exact _ _ _ _ I Hk _ _ E) as Hk'.
      destruct (expand_level_spec cur v) as (new & E' & Hnd & Hin & Hall).
      rewrite E in E'. simplify_eq. destruct new as [|y new].
      + rewrite app_nil_r in *. apply (level_closed root (S k) v []); [done| |lia|].
        * intros y z Hy Hz. eapply (li_closed _ _ _ _ I'); [done|set_solver|done].
        * apply (closed_reach v root); [|apply (li_root _ _ _ _ I)|done].
          intros y z Hy Hz. eapply (li_closed _ _ _ _ I'); [done|set_solver|done].
      + replace (k + S m) with (S k + m) by lia. eapply IH; [exact I'| |done| |done].
        * intros z [Hz|Hz]%elem_of_app; [auto|]. destruct (Hin z Hz) as (w & Hw & Hwz).
          eapply Hu; [|exact Hwz]. by apply Hv, (li_cur _ _ _ _ I).
        * rewrite length_app. simpl. lia. }
  intros Hx. eapply bsteps_weaken; [|eapply (Hgen (length universe) 0 [root] [root])].
  - done.
  - apply level_inv_start.
  - set_solver.
  - intros y. rewrite list_elem_of_singleton. split; [intros ->; apply bsteps_refl|].
    inversion 1; done.
  - simpl; lia.
  - done.
Qed.
End traversal.
Arguments visited _ : assert.

(** Traversals depend only on the edges, not on the order of the successors. *)
Lemma bsteps_edge_ext succ succ' n x y :
  (∀ x y, y ∈ succ x ↔ y ∈ succ' x) → bsteps (edge succ) n x y → bsteps (edge succ') n x y.
Proof.
  intros H. induction 1 as [|n x y z Hxy _ IH]; [apply bsteps_refl|].
  eapply bsteps_l; [|exact IH]. by apply H.
Qed.

Lemma reach_ext succ succ' x y :
  (∀ x y, y ∈ succ x ↔ y ∈ succ' x) → reach succ x y → reach succ' x y.
Proof.
  intros H. induction 1 as [|x y z Hxy _ IH]; [apply rtc_refl|].
  eapply rtc_l; [|exact IH]. by apply H.
Qed.
