(* ===== verification/Cte.v ===== *)
(** * Recursive queries

    [WITH RECURSIVE t AS (base UNION step)]: the rows found last are joined
    again until a round finds nothing new; [UNION] keeps one copy of a row.
    Over rows of any type, with its specification: the result is what the step
    reaches from the base.  The depth-limited query over an edge table, whose
    rows are pairs of a node and a depth, is the second section. *)
From S2P Require Import Prelude Graph.

Section recursive_union.
Context {A : Type} `{EqDecision A}.
Variable step : A → list A.
Implicit Types (seen : list A).

(** The rows of [rows] that are not in [seen], without repetition. *)
Definition fresh_rows (rows seen : list A) : list A :=
  fold_left (λ l x, if decide (x ∈ seen) then l else add_new x l) rows [].

(** [working]: the rows of the last round; [fuel]: rounds. *)
Fixpoint recursive_union (fuel : nat) (working seen : list A) : list A :=
  match fuel with
  | O => seen
  | S fuel =>
    match fresh_rows (working ≫= step) seen with
    | [] => seen
    | new => recursive_union fuel new (seen ++ new)
    end
  end.

(** The base rows, then the rounds. *)
Definition with_recursive (fuel : nat) (base : list A) : list A :=
  let rows := fresh_rows base [] in recursive_union fuel rows rows.

Definition row_reach : A → A → Prop := rtc (λ x y, y ∈ step x).

Lemma fresh_rows_spec rows seen :
  NoDup (fresh_rows rows seen) ∧ ∀ x, x ∈ fresh_rows rows seen ↔ x ∈ rows ∧ x ∉ seen.
Proof.
  unfold fresh_rows.
  assert (∀ l, NoDup l → NoDup (fold_left (λ l x, if decide (x ∈ seen) then l else add_new x l) rows l) ∧
    ∀ x, x ∈ fold_left (λ l x, if decide (x ∈ seen) then l else add_new x l) rows l ↔
      x ∈ l ∨ (x ∈ rows ∧ x ∉ seen)) as Hgen.
  { induction rows as [|r rows IH]; intros l Hl; cbn [fold_left]; [split; [done|set_solver]|].
    case_decide as Hr.
    - destruct (IH l Hl) as [N I]. split; [done|]. intros x. rewrite I. set_solver.
    - destruct (IH (add_new r l) (NoDup_add_new _ _ Hl)) as [N I]. split; [done|].
      intros x. rewrite I, elem_of_add_new. set_solver. }
  destruct (Hgen [] (NoDup_nil_2)) as [N I]. split; [done|]. intros x. rewrite I. set_solver.
Qed.

Record union_inv (base working seen : list A) : Prop := {
  ui_nodup : NoDup seen;
  ui_base : base ⊆ seen;
  ui_working : working ⊆ seen;
  ui_reach x : x ∈ seen → ∃ r, r ∈ base ∧ row_reach r x;
  ui_closed x y : x ∈ seen → x ∉ working → y ∈ step x → y ∈ seen }.

Lemma union_inv_round base working seen :
  union_inv base working seen →
  let new := fresh_rows (working ≫= step) seen in union_inv base new (seen ++ new).
Proof.
  intros I new. destruct (fresh_rows_spec (working ≫= step) seen) as [N Hnew]. fold new in N, Hnew.
  split.
  - apply NoDup_app. split_and!; [apply (ui_nodup _ _ _ I)| |done]. intros x Hx Hn. by apply Hnew in Hn as [_ Hn].
  - pose proof (ui_base _ _ _ I). set_solver.
  - set_solver.
  - intros x [Hx|Hx]%elem_of_app; [by apply (ui_reach _ _ _ I)|]. apply Hnew in Hx as [Hx _].
    apply list_elem_of_bind in Hx as (w & Hs & Hw).
    destruct (ui_reach _ _ _ I w) as (r & Hr & Hp); [by apply (ui_working _ _ _ I)|].
    exists r. split; [done|]. by eapply rtc_r.
  - intros x y [Hx|Hx]%elem_of_app Hn Hy; [|done].
    destruct (decide (x ∈ working)) as [Hw|Hw].
    + destruct (decide (y ∈ seen)) as [|Hs]; [set_solver|]. apply elem_of_app. right. apply Hnew.
      split; [|done]. apply list_elem_of_bind. eauto.
    + apply elem_of_app. left. by eapply (ui_closed _ _ _ I).
Qed.

(** A round that finds nothing ends the query; [universe] bounds the rounds. *)
Lemma recursive_union_spec base universe fuel working seen :
  union_inv base working seen →
  seen ⊆ universe → (∀ x y, x ∈ universe → y ∈ step x → y ∈ universe) →
  length universe ≤ fuel + length seen →
  let result := recursive_union fuel working seen in
  NoDup result ∧ ∀ x, x ∈ result ↔ ∃ r, r ∈ base ∧ row_reach r x.
Proof.
  assert (∀ l, NoDup l → base ⊆ l → (∀ x, x ∈ l → ∃ r, r ∈ base ∧ row_reach r x) →
    (∀ x y, x ∈ l → y ∈ step x → y ∈ l) → NoDup l ∧ ∀ x, x ∈ l ↔ ∃ r, r ∈ base ∧ row_reach r x) as Hclosed.
  { intros l N B R C. split; [done|]. intros x. split; [apply R|]. intros (r & Hr%B & Hp).
    induction Hp; eauto. }
  revert working seen; induction fuel as [|fuel IH]; intros working seen I Hu Hc Hf; cbn [recursive_union].
  - apply Hclosed; [apply (ui_nodup _ _ _ I)|apply (ui_base _ _ _ I)|apply (ui_reach _ _ _ I)|].
    intros x y Hx Hy.
    assert (seen ≡ₚ universe) as Hp.
    { apply submseteq_length_Permutation; [apply NoDup_submseteq; [apply (ui_nodup _ _ _ I)|done]|lia]. }
    rewrite Hp in Hx |- *. eauto.
  - pose proof (union_inv_round _ _ _ I) as I'. cbn zeta in I'.
    destruct (fresh_rows_spec (working ≫= step) seen) as [_ Hnew].
    destruct (fresh_rows (working ≫= step) seen) as [|x new] eqn:Hfr.
    + rewrite app_nil_r in I'.
      apply Hclosed; [apply (ui_nodup _ _ _ I)|apply (ui_base _ _ _ I)|apply (ui_reach _ _ _ I)|].
      intros y z Hy Hz. eapply (ui_closed _ _ _ I'); [done|apply not_elem_of_nil|done].
    + apply IH; [done| |done|].
      * intros y [Hy|Hy]%elem_of_app; [auto|]. apply Hnew in Hy as [Hy _].
        apply list_elem_of_bind in Hy as (w & Hs & Hw). eapply Hc; [|exact Hs].
        by apply Hu, (ui_working _ _ _ I).
      * rewrite length_app. cbn. lia.
Qed.

Lemma with_recursive_spec universe fuel base :
  base ⊆ universe → (∀ x y, x ∈ universe → y ∈ step x → y ∈ universe) → length universe ≤ fuel →
  NoDup (with_recursive fuel base) ∧
  ∀ x, x ∈ with_recursive fuel base ↔ ∃ r, r ∈ base ∧ row_reach r x.
Proof.
  intros Hb Hc Hf. unfold with_recursive. destruct (fresh_rows_spec base []) as [N I].
  assert (∀ x, x ∈ fresh_rows base [] ↔ x ∈ base) as I' by (intros x; rewrite I; set_solver). clear I.
  apply (recursive_union_spec base universe); [|set_solver|done|lia].
  split; [done|set_solver|done| |done]. intros x Hx%I'. exists x. split; [done|apply rtc_refl].
Qed.
End recursive_union.

(** ** Depth-limited reachability *)
Section depth.
Variable (succ : string → list string) (limit : nat).

(** [SELECT e.child_id, br.depth + 1 .. WHERE br.depth < limit] *)
Definition depth_step (row : string * nat) : list (string * nat) :=
  if row.2 <? limit then (λ c, (c, S row.2)) <$> succ row.1 else [].

(** [SELECT DISTINCT node_id] *)
Definition distinct {A} `{EqDecision A} (l : list A) : list A := fold_left (λ l x, add_new x l) l [].

Lemma depth_rows root x d :
  row_reach depth_step (root, 0) (x, d) ↔ nsteps (edge succ) d root x ∧ d ≤ limit.
Proof.
  split.
  - remember (x, d) as row eqn:E. revert x d E.
    assert (∀ row, row_reach depth_step (root, 0) row → nsteps (edge succ) row.2 root row.1 ∧ row.2 ≤ limit) as H.
    { intros row'. apply (rtc_ind_r (λ row, nsteps (edge succ) row.2 root row.1 ∧ row.2 ≤ limit)).
      - split; [apply nsteps_O|cbn; lia].
      - intros [y i] [z j] _ Hs [IH _]. unfold depth_step in Hs. cbn [fst snd] in *.
        destruct (i <? limit) eqn:Hi; [|by apply elem_of_nil in Hs].
        apply list_elem_of_fmap in Hs as (c & [= -> ->] & Hc). apply Nat.ltb_lt in Hi.
        split; [by eapply nsteps_r|lia]. }
    intros x d -> Hp. exact (H _ Hp).
  - intros [Hn Hd]. remember root as r eqn:E. clear E. revert x Hn Hd.
    induction d as [|d IH]; intros x Hn Hd.
    + inversion Hn; subst. apply rtc_refl.
    + apply nsteps_inv_r in Hn as (y & Hy & Hyx). eapply rtc_r; [apply (IH y); [done|lia]|].
      unfold depth_step. cbn [fst snd]. rewrite (proj2 (Nat.ltb_lt d limit)) by lia.
      apply list_elem_of_fmap. by exists x.
Qed.

Definition depth_query (fuel : nat) (root : string) : list string :=
  distinct (with_recursive depth_step fuel [(root, 0)]).*1.

(** With a row per node and depth as fuel, the query finds exactly the nodes
    at most [limit] steps from the root. *)
Lemma depth_query_spec nodes root fuel :
  (∀ x y, y ∈ succ x → y ∈ nodes) → S (length nodes) * S limit ≤ fuel →
  NoDup (depth_query fuel root) ∧ ∀ x, x ∈ depth_query fuel root ↔ bsteps (edge succ) limit root x.
Proof.
  intros Hs Hf. split; [by apply NoDup_fold_add_new, NoDup_nil_2|]. intros x. unfold depth_query, distinct.
  rewrite elem_of_fold_add_new.
  set (universe := (λ xd : string * nat, xd) <$> list_prod (root :: nodes) (seq 0 (S limit))).
  assert (∀ y d, (y, d) ∈ universe ↔ (y = root ∨ y ∈ nodes) ∧ d ≤ limit) as Hu.
  { intros y d. unfold universe. rewrite list_fmap_id, list_elem_of_In, in_prod_iff, <-!list_elem_of_In, elem_of_cons.
    rewrite (elem_of_seq 0 (S limit) d). split; intros [? ?]; (split; [done|lia]). }
  destruct (with_recursive_spec depth_step universe fuel [(root, 0)]) as [_ Hw].
  - intros [y d] [= -> ->]%list_elem_of_singleton. apply Hu. split; [by left|lia].
  - intros [y d] [z e] [_ Hd]%Hu Hz. unfold depth_step in Hz. cbn [fst snd] in Hz.
    destruct (d <? limit) eqn:Hlt; [|by apply elem_of_nil in Hz].
    apply list_elem_of_fmap in Hz as (c & [= -> ->] & Hc). apply Nat.ltb_lt in Hlt.
    apply Hu. split; [right; by eapply Hs|lia].
  - unfold universe. rewrite length_fmap, length_prod, length_seq. exact Hf.
  - split.
    + intros [Hx|[]%elem_of_nil]. apply list_elem_of_fmap in Hx as ([y d] & -> & Hx). apply Hw in Hx as (r & Hr & Hp).
      apply list_elem_of_singleton in Hr as ->. apply depth_rows in Hp as [Hn Hd].
      eapply bsteps_weaken; [exact Hd|]. by apply bsteps_nsteps; exists d.
    + intros Hb. left. apply bsteps_nsteps in Hb as (d & Hd & Hn). apply list_elem_of_fmap. exists (x, d).
      split; [done|]. apply Hw. exists (root, 0). split; [by apply list_elem_of_singleton|].
      by apply depth_rows.
Qed.
End depth.
