(* ===== verification/Lineage.v ===== *)
(** * Lineage: what derives from what in the dependency graph

    The relation between a node and the nodes that commit to it or cover it,
    and the computations on a graph that do not depend on how a backend stores
    it: the interval gap of a compaction, the plan for repairing a compaction
    caught in a blast radius, the critical functions that depend on quarantined
    nodes and the accounting of tainted-parent rejections. *)
From S2P Require Import Prelude Dict Types Graph.

(** ** Derivation *)
Definition commits_to (cur : string) (n : node) : bool := cur ∈? parent_ids n.
Definition covers_node (cur : string) (n : node) : bool := cur ∈? covers n.
Definition derives_from (cur : string) (n : node) : bool := commits_to cur n || covers_node cur n.

Definition carries (cur : string) (n : node) : bool :=
  existsb (λ p, bool_decide (parent_node_id p = cur) && bool_decide (edge_class p = Some "CARRIED"))
    (parent_dependency_commitments n).

(** The nodes of [dag] that derive directly from [cur], in the order of the
    dictionary. *)
Definition children (dag : dict node) (cur : string) : list string :=
  dict_keys (List.filter (λ kv, derives_from cur kv.2) dag).

(** The nodes that commit to [cur] as a parent, and the parents of [cur]. *)
Definition committed_children (dag : dict node) (cur : string) : list string :=
  dict_keys (List.filter (λ kv, commits_to cur kv.2) dag).

Definition known_parents (dag : dict node) (cur : string) : list string :=
  List.filter (λ p, dict_mem p dag) (parent_ids (default (bare_node cur) (dict_get cur dag))).

(** [x] carries material of [root]: the specification of a blast radius. *)
Definition derived (dag : dict node) : string → string → Prop := reach (children dag).
Definition lineage (dag : dict node) : string → string → Prop := reach (committed_children dag).

Lemma elem_of_dict_keys_filter (dag : dict node) (p : node → bool) y :
  dict_ok dag →
  y ∈ dict_keys (List.filter (λ kv, p kv.2) dag) ↔ ∃ n, dict_get y dag = Some n ∧ p n = true.
Proof.
  intros Hok. unfold dict_keys. rewrite list_elem_of_fmap. split.
  - intros ([k n] & -> & [Hin Hp]%elem_of_bfilter). exists n. split; [by apply dict_get_elem|done].
  - intros (n & Hn%dict_get_Some_elem & Hp). exists (y, n). split; [done|]. by apply elem_of_bfilter.
Qed.

Lemma derives_from_true cur n : derives_from cur n = true ↔ cur ∈ parent_ids n ∨ cur ∈ covers n.
Proof. unfold derives_from, commits_to, covers_node. by rewrite orb_true_iff, !bool_decide_eq_true. Qed.

Lemma elem_of_children dag x y :
  dict_ok dag →
  y ∈ children dag x ↔ ∃ n, dict_get y dag = Some n ∧ (x ∈ parent_ids n ∨ x ∈ covers n).
Proof.
  intros Hok. etrans; [exact (elem_of_dict_keys_filter dag (derives_from x) y Hok)|].
  by setoid_rewrite derives_from_true.
Qed.

Lemma elem_of_committed_children dag x y :
  dict_ok dag → y ∈ committed_children dag x ↔ ∃ n, dict_get y dag = Some n ∧ x ∈ parent_ids n.
Proof.
  intros Hok. etrans; [exact (elem_of_dict_keys_filter dag (commits_to x) y Hok)|].
  unfold commits_to.   by setoid_rewrite bool_decide_eq_true.
Qed.

Lemma elem_of_known_parents dag x y :
  y ∈ known_parents dag x ↔ y ∈ dict_keys dag ∧ ∃ n, dict_get x dag = Some n ∧ y ∈ parent_ids n.
Proof.
  unfold known_parents. rewrite elem_of_bfilter, dict_mem_true.
  destruct (dict_get x dag) eqn:E; simpl; set_solver.
Qed.

Lemma children_in_dag dag x y : y ∈ children dag x → y ∈ dict_keys dag.
Proof.
  unfold children, dict_keys. rewrite !list_elem_of_fmap.
  intros (kv & -> & [? _]%elem_of_bfilter). by exists kv.
Qed.

Lemma committed_children_in_dag dag x y : y ∈ committed_children dag x → y ∈ dict_keys dag.
Proof.
  unfold committed_children, dict_keys. rewrite !list_elem_of_fmap.
  intros (kv & -> & [? _]%elem_of_bfilter). by exists kv.
Qed.

(** The same, without the order of the dictionary: material flows from a node
    to every committed node that names it as a parent or covers it. *)
Definition material_edge (dag : dict node) (p c : string) : Prop :=
  ∃ n, dict_get c dag = Some n ∧ (p ∈ parent_ids n ∨ p ∈ covers n).

Definition flows (dag : dict node) : string → string → Prop := rtc (material_edge dag).

Lemma derived_flows dag x y : dict_ok dag → derived dag x y ↔ flows dag x y.
Proof.
  intros Hok. unfold derived, flows, reach. split.
  - induction 1 as [|x y z H _ IH]; [apply rtc_refl|]. eapply rtc_l; [|exact IH]. by apply elem_of_children.
  - induction 1 as [|x y z H _ IH]; [apply rtc_refl|]. eapply rtc_l; [|exact IH]. by apply elem_of_children.
Qed.

Lemma bsteps_material dag n x y :
  dict_ok dag → bsteps (edge (children dag)) n x y ↔ bsteps (material_edge dag) n x y.
Proof.
  intros Hok. split.
  - induction 1 as [|n x y z H _ IH]; [apply bsteps_refl|]. eapply bsteps_l; [|exact IH]. by apply elem_of_children.
  - induction 1 as [|n x y z H _ IH]; [apply bsteps_refl|]. eapply bsteps_l; [|exact IH]. by apply elem_of_children.
Qed.

(** A child of one graph is a child of any graph that keeps its nodes. *)
Lemma derived_mono dag dag' x y :
  dict_ok dag → dict_ok dag' → (∀ k n, dict_get k dag = Some n → dict_get k dag' = Some n) →
  derived dag x y → derived dag' x y.
Proof.
  intros Hok Hok' Hsub. induction 1 as [|x y z Hxy _ IH]; [apply rtc_refl|].
  eapply rtc_l; [|exact IH]. unfold edge in *.
  rewrite elem_of_children in * by done. naive_solver.
Qed.

(** ** [_compute_covers_interval_gap] *)
(* src: src/governor_service.py _compute_covers_interval_gap *)
Definition compute_covers_interval_gap (dag : dict node) (covers : list string) : list string :=
  match covers with
  | [] => []
  | _ =>
    let fuel := length covers + length (covers ++ dict_keys dag) in
    let d_covers := visited (bfs (committed_children dag) fuel (start covers)) in
    let a_covers := visited (bfs (known_parents dag) fuel (start covers)) in
    sorted (List.filter (λ x, (x ∈? a_covers) && negb (x ∈? covers)) d_covers)
  end.

Lemma lineage_up dag x y :
  dict_ok dag → x ∈ dict_keys dag → lineage dag x y → reach (known_parents dag) y x.
Proof.
  intros Hok Hx Hp. induction Hp as [x|x z y Hxz Hzy IH]; [apply rtc_refl|].
  eapply rtc_r.
  - apply IH. by eapply committed_children_in_dag.
  - unfold edge in *. rewrite elem_of_known_parents, elem_of_committed_children in * by done. naive_solver.
Qed.

Lemma lineage_down dag x y :
  dict_ok dag → reach (known_parents dag) y x → lineage dag x y.
Proof.
  intros Hok. induction 1 as [|y z x Hyz _ IH]; [apply rtc_refl|].
  eapply rtc_r; [exact IH|]. unfold edge in *.
  rewrite elem_of_known_parents, elem_of_committed_children in * by done. naive_solver.
Qed.

Lemma lineage_in_dag dag x y : lineage dag x y → x = y ∨ y ∈ dict_keys dag.
Proof.
  intros H. destruct (decide (x = y)) as [|Hne]; [by left|right].
  apply rtc_inv_r in H as [?|(z & _ & Hz)]; [done|]. by eapply committed_children_in_dag.
Qed.

Lemma covers_interval_gap_spec dag covers x :
  dict_ok dag →
  x ∈ compute_covers_interval_gap dag covers ↔
    (x ∉ covers) ∧
    (∃ c1 c2, c1 ∈ covers ∧ c2 ∈ covers ∧ lineage dag c1 x ∧ lineage dag x c2).
Proof.
  intros Hok. unfold compute_covers_interval_gap. destruct covers as [|c0 cs]; [set_solver|].
  set (cov := c0 :: cs). clearbody cov. set (fuel := length cov + _).
  assert (∀ y, y ∈ visited (bfs (committed_children dag) fuel (start cov)) ↔
    (∃ r, r ∈ cov ∧ lineage dag r y)) as Hd.
  { apply (bfs_spec _ cov (cov ++ dict_keys dag)); [set_solver| |done].
    intros y z _ Hz%committed_children_in_dag. set_solver. }
  assert (∀ y, y ∈ visited (bfs (known_parents dag) fuel (start cov)) ↔
    (∃ r, r ∈ cov ∧ reach (known_parents dag) r y)) as Ha.
  { apply (bfs_spec _ cov (cov ++ dict_keys dag)); [set_solver| |done].
    intros y z _ Hz%elem_of_known_parents. set_solver. }
  rewrite elem_of_sorted, elem_of_bfilter, andb_true_iff, negb_true_iff, bool_decide_eq_true,
    bool_decide_eq_false, Hd, Ha.
  split.
  - intros [(r & Hr & Hrx) [(q & Hq & Hqx) Hx]]. split; [done|].
    exists r, q. split_and!; [done..|]. by apply lineage_down.
  - intros [Hx (r & q & Hr & Hq & Hrx & Hxq)]. split_and!; [by exists r| |done].
    exists q. split; [done|]. apply lineage_up; [done| |done].
    destruct (lineage_in_dag _ _ _ Hrx) as [->|]; done.
Qed.

(** ** Repair of a compaction caught in a blast radius (R1 and R2)

    The admissible frontier is what the compaction covers outside the blast
    radius; a checkpoint is admissible when it targets the frontier. *)
Definition admissible_frontier (c_p : list string) (n : node) : list string :=
  List.filter (λ x, negb (x ∈? c_p)) (covers n).

Definition admissible_checkpoint (cps : dict checkpoint_record) (F : list string) : option checkpoint_record :=
  snd <$> List.find (λ kv, target_node_id kv.2 ∈? F) cps.

Definition plan_repair (semantic_rollback : bool) (cps : dict checkpoint_record) (c_p : list string)
    (n : node) : repair_record :=
  if semantic_rollback then
    irreducible "semantic_rollback_hazard" "Quarantined subgraph contains irreversible external effects"
  else
    match admissible_frontier c_p n with
    | [] => irreducible "empty_frontier" "Requires human review"
    | F =>
      if decide (method_of n = Some "llm-v1") then
        match admissible_checkpoint cps F with
        | None => irreducible "no_admissible_checkpoint" "Requires human review"
        | Some cp => pending F "verified_checkpoint_reconstruction" cp
        end
      else irreducible "no_reconstruction_backend" "Unknown summarizer method"
    end.

Lemma elem_of_admissible_frontier c_p n x :
  x ∈ admissible_frontier c_p n ↔ x ∈ covers n ∧ x ∉ c_p.
Proof.
  unfold admissible_frontier. by rewrite elem_of_bfilter, negb_true_iff, bool_decide_eq_false.
Qed.

Lemma admissible_checkpoint_spec cps F cp :
  admissible_checkpoint cps F = Some cp → cp ∈ dict_values cps ∧ target_node_id cp ∈ F.
Proof.
  unfold admissible_checkpoint, dict_values.
  pose proof (list_find_first (λ kv, target_node_id kv.2 ∈? F) cps) as H.
  destruct (List.find _ cps) as [[k cp']|]; intros E; simplify_eq/=.
  destruct H as [Hin Ht%bool_decide_eq_true]. split; [|done]. apply list_elem_of_fmap. by exists (k, cp).
Qed.

(** A compaction is sent to reconstruction only when no external effect forbids
    it, something clean remains, and the checkpoint targets what is clean. *)
Lemma plan_repair_pending sr cps c_p n :
  let r := plan_repair sr cps c_p n in
  disposition r = PENDING_RECONSTRUCTION →
  sr = false ∧ method_of n = Some "llm-v1" ∧ frontier r ≠ [] ∧
  (∀ x, x ∈ frontier r → x ∈ covers n ∧ x ∉ c_p) ∧
  ∃ cp, repair_checkpoint r = Some cp ∧ cp ∈ dict_values cps ∧ target_node_id cp ∈ frontier r.
Proof.
  unfold plan_repair. destruct sr; [done|].
  destruct (admissible_frontier c_p n) as [|f F] eqn:EF; [done|].
  case_decide as Hm; [|done].
  destruct (admissible_checkpoint cps (f :: F)) as [cp|] eqn:Ecp; [|done].
  intros _. apply admissible_checkpoint_spec in Ecp as [? ?]. cbn [frontier pending repair_checkpoint].
  split_and!; [done..| |by exists cp].
  intros x. by rewrite <-EF, elem_of_admissible_frontier.
Qed.

(** ** Critical functions that depend on quarantined nodes *)
Definition critical_dependent_of (q : list string) (kv : string * node) : option critical_dependent :=
  let '(nid, n) := kv in
  if Qle_bool (weight_of n) 0%Q then None
  else
    let tps := List.filter (λ p, p ∈? q) (parent_ids n) in
    if (nid ∈? q) || negb (bool_decide (tps = [])) then
      Some (CriticalDependent nid (weight_of n) (if decide (tps = []) then [nid] else tps))
    else None.

Definition critical_dependents (dag : dict node) (q : list string) : list critical_dependent :=
  omap (critical_dependent_of q) dag.

Lemma critical_dependents_spec dag q d :
  d ∈ critical_dependents dag q →
  ∃ n, (dep_node_id d, n) ∈ dag ∧ dep_weight d = weight_of n ∧ Qle_bool (dep_weight d) 0%Q = false ∧
    tainted_parents d ≠ [] ∧ (∀ p, p ∈ tainted_parents d → p ∈ q).
Proof.
  unfold critical_dependents. rewrite list_elem_of_omap. intros ([nid n] & Hin & Hd).
  unfold critical_dependent_of in Hd. destruct (Qle_bool _ _) eqn:Hw; [done|].
  destruct (_ || _) eqn:Hc; [|done]. injection Hd as <-.
  cbn [dep_node_id dep_weight tainted_parents]. exists n. split_and!; [done..| |].
  - destruct (decide _) as [E|E]; [done|exact E].
  - apply orb_true_iff in Hc. destruct (decide _) as [Ht|Ht].
    + rewrite Ht in Hc. destruct Hc as [Hc|Hc]; [|done]. apply bool_decide_eq_true in Hc. set_solver.
    + intros p [_ Hp%bool_decide_eq_true]%elem_of_bfilter. done.
Qed.

(** ** Tainted-parent rejections (B.8) *)
Definition new_rejection (node_id parent_id rejected_at author : string) : rejection :=
  Rejection node_id parent_id rejected_at author false None None false None.

(** The loop body of [check_retry_completion]: the offered replacement is a
    parent of the new write, and a declared [retry_of] comes from the author. *)
Definition completes (n : node) (r : rejection) : bool :=
  negb (completed r) && offered r
  && match offered_replacement r with
     | Some o => negb (bool_decide (o = "")) && (o ∈? parent_ids n)
     | None => false
     end
  && negb (truthy (retry_of n) && bool_decide (retry_of n = Some (rej_node_id r))
           && negb (bool_decide (author_identity r = ""))
           && negb (bool_decide (default "" (identity_of n) = author_identity r))).

Definition complete_rejection (by_id : string) (r : rejection) : rejection :=
  r <| completed := true |> <| completed_by := Some by_id |>.

Definition count_if {A} (p : A → bool) (l : list A) : Z := Z.of_nat (length (List.filter p l)).

Definition replacement_is (t : string) (r : rejection) : bool := bool_decide (replacement_type r = Some t).

Definition ratio (a b : Z) : Q := if (0 <? b)%Z then (a # Z.to_pos b)%Q else 0%Q.

Definition tainted_action_stats_of (rs : list rejection) : tainted_action_stats :=
  let total := Z.of_nat (length rs) in
  let off := count_if offered rs in
  let com := count_if completed rs in
  {| total_rejections := total; offered_count := off; completed_count := com;
     completion_rate := ratio com total; offer_rate := ratio off total;
     direct_offered := count_if (λ r, offered r && replacement_is "direct" r) rs;
     direct_completed := count_if (λ r, completed r && replacement_is "direct" r) rs;
     ancestor_offered := count_if (λ r, offered r && replacement_is "ancestor" r) rs;
     ancestor_completed := count_if (λ r, completed r && replacement_is "ancestor" r) rs |}.

(** ** Quarantined ancestors: the search of [find_continuity_replacement]

    The visited test is made when a node leaves the queue; parents are followed
    only from quarantined nodes. *)
Fixpoint quarantined_ancestors (parents : string → list string) (ledger : list string) (fuel : nat)
    (vis q cand : list string) : list string * list string :=
  match fuel, q with
  | S fuel, nid :: q =>
    if decide (nid ∈ vis) then quarantined_ancestors parents ledger fuel vis q cand
    else if decide (nid ∈ ledger) then
      quarantined_ancestors parents ledger fuel (nid :: vis) (q ++ parents nid) (cand ++ [nid])
    else quarantined_ancestors parents ledger fuel (nid :: vis) q cand
  | _, _ => (q, cand)
  end.

Definition ancestor_fuel (parents : string → list string) (ledger : list string) : nat :=
  1 + length (remove_dups ledger ≫= parents).

(** The exposures whose node replays the candidate, and the substitute that was
    declared for it. *)
Definition replays (dag : dict node) (candidate : string) (exposed_node : string) : bool :=
  match dict_get exposed_node dag with
  | Some n => json_is_str candidate (dict_get "original_target" (content_of n))
  | None => false
  end.

Definition declared_replacement (dag : dict node) (subs : dict substitute_declaration)
    (ledger : list string) (candidate : string) : option replacement :=
  match dict_get candidate subs with
  | Some d =>
    let src := substitute_source_id d in
    if negb (bool_decide (src = "")) && dict_mem src dag && negb (src ∈? ledger) then
      Some (Replacement src candidate None (Some "M3_DECLARED_SUBSTITUTE"))
    else None
  | None => None
  end.

Definition search_replacement (default_mechanism : option string) (dag : dict node)
    (exposures : list exposure) (subs : dict substitute_declaration) (ledger : list string)
    (candidate : string) : option replacement :=
  match List.find (λ e, replays dag candidate (exp_node_id e)) exposures with
  | Some e =>
    Some (Replacement (exp_node_id e) candidate (Some (exposure_id e))
            (match json_get "mechanism" (exposure_record e) ≫= json_str with
             | Some m => Some m
             | None => default_mechanism
             end))
  | None => declared_replacement dag subs ledger candidate
  end.

Fixpoint first_some {A B} (f : A → option B) (l : list A) : option B :=
  match l with [] => None | x :: l => match f x with Some y => Some y | None => first_some f l end end.

Section quarantined_ancestors.
Variable (parents : string → list string) (ledger : list string).

(** [y] is reached from [x] by following parents of quarantined nodes. *)
Definition q_edge (x y : string) : Prop := x ∈ ledger ∧ y ∈ parents x.
Definition q_ancestor : string → string → Prop := rtc q_edge.

Definition unseen (vis : list string) : list string :=
  List.filter (λ x, negb (x ∈? vis)) (remove_dups ledger).

Lemma unseen_weight nid vis :
  nid ∈ ledger → nid ∉ vis →
  length (unseen (nid :: vis) ≫= parents) + length (parents nid) ≤ length (unseen vis ≫= parents).
Proof.
  intros Hn%elem_of_remove_dups Hv. unfold unseen. revert Hn.
  pose proof (NoDup_remove_dups ledger) as Hnd.
  induction Hnd as [|x l Hx Hnd IH]; [set_solver|]. intros Hn.
  cbn [List.filter]. destruct (decide (x = nid)) as [->|Hne].
  - rewrite bool_decide_eq_true_2 by set_solver. rewrite bool_decide_eq_false_2 by done.
    cbn [negb]. rewrite bind_cons, length_app.
    assert (length (List.filter (λ y, negb (y ∈? nid :: vis)) l ≫= parents)
      ≤ length (List.filter (λ y, negb (y ∈? vis)) l ≫= parents)); [|lia].
    clear IH Hn Hx Hnd. induction l as [|y l IH]; [done|]. cbn [List.filter].
    repeat case_bool_decide; cbn [negb]; rewrite ?bind_cons, ?length_app; try lia. set_solver.
  - assert (nid ∈ l) as Hl by set_solver. specialize (IH Hl).
    assert ((x ∈? nid :: vis) = (x ∈? vis)) as -> by (apply bool_decide_ext; set_solver).
    destruct (x ∈? vis); cbn [negb]; [done|]. rewrite !bind_cons, !length_app. lia.
Qed.

Record ancestors_inv (from : string) (vis q cand : list string) : Prop := {
  ai_cand x : x ∈ cand ↔ x ∈ vis ∧ x ∈ ledger;
  ai_from : from ∈ vis ∨ from ∈ q;
  ai_sound x : x ∈ vis ∨ x ∈ q → q_ancestor from x;
  ai_closed x y : x ∈ cand → y ∈ parents x → y ∈ vis ∨ y ∈ q }.

Lemma q_ancestor_closed (l : list string) x y :
  (∀ x y, x ∈ l → x ∈ ledger → y ∈ parents x → y ∈ l) → x ∈ l → q_ancestor x y → y ∈ l.
Proof. intros Hcl Hx Hp. induction Hp as [|x y z [Hq Hy] _ IHp]; [done|]. eauto. Qed.

Lemma ancestors_inv_end from vis cand x :
  ancestors_inv from vis [] cand → x ∈ cand ↔ (x ∈ ledger ∧ q_ancestor from x).
Proof.
  intros I. rewrite (ai_cand _ _ _ _ I). split.
  - intros [Hx ?]. split; [done|]. apply (ai_sound _ _ _ _ I). by left.
  - intros [Hx Hp]. split; [|done]. apply (q_ancestor_closed vis from x); [|by destruct (ai_from _ _ _ _ I) as [|?%elem_of_nil]|done].
    intros y z Hy Hq Hz.
    destruct (ai_closed _ _ _ _ I y z) as [|Hn%elem_of_nil]; [by apply (ai_cand _ _ _ _ I)|done..].
Qed.

Lemma quarantined_ancestors_inv from fuel vis q cand :
  ancestors_inv from vis q cand →
  length q + length (unseen vis ≫= parents) ≤ fuel →
  ∃ cand', quarantined_ancestors parents ledger fuel vis q cand = ([], cand') ∧
    ∀ x, x ∈ cand' ↔ (x ∈ ledger ∧ q_ancestor from x).
Proof.
  revert vis q cand; induction fuel as [|fuel IH]; intros vis q cand I Hf; cbn [quarantined_ancestors].
  all: destruct q as [|nid q]; [|simpl in Hf].
  1,3: exists cand; split; [done|]; intros x; by apply (ancestors_inv_end from vis).
  1: lia.
  case_decide as Hn; [|case_decide as Hq].
  - apply IH; [|lia]. destruct I as [A B C D]. split; [done|set_solver|set_solver|].
    intros x y Hx Hy. destruct (D x y Hx Hy) as [|[->|]%elem_of_cons]; auto.
  - apply IH.
    + destruct I as [A B C D]. split.
      * intros x. specialize (A x). set_solver.
      * set_solver.
      * intros x Hx. destruct (decide (x ∈ parents nid)) as [Hin|]; [|apply C; set_solver].
        eapply rtc_r; [apply (C nid); set_solver|]. done.
      * intros x y [Hx| ->%list_elem_of_singleton]%elem_of_app Hy; [|set_solver].
        destruct (D x y Hx Hy); set_solver.
    + pose proof (unseen_weight nid vis Hq Hn). rewrite length_app. lia.
  - apply IH.
    + destruct I as [A B C D]. split.
      * intros x. specialize (A x). set_solver.
      * set_solver.
      * intros x Hx. apply C. set_solver.
      * intros x y Hx Hy. destruct (D x y Hx Hy); set_solver.
    + assert (unseen (nid :: vis) = unseen vis) as ->; [|lia].
      unfold unseen. apply List.filter_ext_in. intros x Hx. rewrite <-list_elem_of_In, elem_of_remove_dups in Hx.
      f_equal. apply bool_decide_ext. rewrite elem_of_cons. split; [intros [->|?]; congruence|auto].
Qed.

(** The search ends, and finds exactly the quarantined nodes reachable
    through quarantined nodes. *)
Lemma quarantined_ancestors_spec from :
  ∃ cand, quarantined_ancestors parents ledger (ancestor_fuel parents ledger) [] [from] [] = ([], cand) ∧
    ∀ x, x ∈ cand ↔ (x ∈ ledger ∧ q_ancestor from x).
Proof.
  apply quarantined_ancestors_inv.
  - split.
    + intros x. rewrite !elem_of_nil. tauto.
    + right. apply list_elem_of_singleton. done.
    + intros x [[]%elem_of_nil| ->%list_elem_of_singleton]. apply rtc_refl.
    + intros x y []%elem_of_nil.
  - unfold ancestor_fuel, unseen. rewrite bfilter_all by done. simpl. lia.
Qed.
End quarantined_ancestors.

Lemma first_some_elem {A B} (f : A → option B) l y : first_some f l = Some y → ∃ x, x ∈ l ∧ f x = Some y.
Proof.
  induction l as [|x l IH]; simpl; [done|]. destruct (f x) eqn:E.
  - intros [= <-]. exists x. split; [left|done].
  - intros (x' & ? & ?)%IH. exists x'. split; [by right|done].
Qed.

Lemma replays_true dag c x :
  replays dag c x = true → ∃ n, dict_get x dag = Some n ∧ dict_get "original_target" (content_of n) = Some (JStr c).
Proof.
  unfold replays. destruct (dict_get x dag) as [n|]; [|done]. intros H%json_is_str_true. eauto.
Qed.

Lemma declared_replacement_spec dag subs ledger c r :
  declared_replacement dag subs ledger c = Some r →
  rep_for r = c ∧ rep_node_id r ∈ dict_keys dag ∧ rep_node_id r ∉ ledger.
Proof.
  unfold declared_replacement. destruct (dict_get c subs) as [d|]; [|done].
  destruct (_ && _) eqn:Hc; [|done]. intros [= <-]. cbn [rep_for rep_node_id].
  rewrite !andb_true_iff, dict_mem_true, !negb_true_iff, !bool_decide_eq_false in Hc. by destruct Hc as [[_ ?] ?].
Qed.

Lemma search_replacement_spec dm dag exps subs ledger c r :
  search_replacement dm dag exps subs ledger c = Some r →
  rep_for r = c ∧
  ((∃ n, dict_get (rep_node_id r) dag = Some n ∧ dict_get "original_target" (content_of n) = Some (JStr c)) ∨
   (rep_node_id r ∈ dict_keys dag ∧ rep_node_id r ∉ ledger)).
Proof.
  unfold search_replacement. destruct (List.find _ exps) as [e|] eqn:Ef.
  - intros [= <-]. split; [done|]. left. apply List.find_some in Ef as [_ He]. by apply replays_true.
  - intros (? & ?)%declared_replacement_spec. split; [done|by right].
Qed.
