(* ===== verification/Interface.v ===== *)
(** * The interface of the state backends ([BaseStateBackend])

    One operation per method; an operation that writes returns the new store.
    Where the code reads the clock inside a method, the reading is an argument
    [now].  A method that mutates the dictionary it is given returns it.  A
    method that some backend can leave by an exception returns an [option]:
    [None] is the exception.

    The in-memory backend hands out and keeps references, so a handler that
    later assigns into a dictionary it received or stored also changes the
    store; the SQL backends keep a serialised copy.  The [alias_*] operations
    are the effect of such an assignment on the store.

    [BackendLaws] is what the handlers rely on: which operations can touch the
    graph and the ledger, and how.  Both stores are proved to satisfy it and
    the properties of the handlers use nothing else. *)
From S2P Require Import Prelude Dict Types Encoding Graph Lineage.

(** [json.dumps(payload, sort_keys=True)]: the text of a stored payload, which
    also has the keys that the record does not keep. *)
Class PayloadText := payload_text : node → string.

(* src: src/governor_service.py BaseStateBackend *)
Class Backend (St : Type) := {
  (** the number of edges a traversal may follow from its root; [None]: no limit *)
  traversal_depth : St → option nat;
  get_dag : St → dict node;
  get_quarantine_ledger : St → list string;
  get_repair_candidates : St → dict repair_record;
  update_repair_candidate : string → repair_record → St → St;
  commit_node : node → St → bool * St;
  log_quarantine_event : quarantine_event → St → St;
  add_to_quarantine_ledger : string → St → St;
  apply_quarantine_transaction : quarantine_event → list string → St → quarantine_event * St;
  get_quarantine_events : St → list quarantine_event;
  compute_blast_radius : string → St → list string * St;
  add_checkpoint : checkpoint_record → St → St;
  get_checkpoints : St → dict checkpoint_record;
  add_external_effect : string → string → string → Z → St → St;
  check_external_effect : string → St → bool;
  has_external_effects : list string → St → bool;
  reset : St → St;
  record_reintegration : string → string → Z → Z → St → St;
  record_reintegration_evidence : string → string → string → list (string * bool * string) → Z → St → St;
  get_active_horizon_set : Z → St → dict horizon_record;
  get_expired_horizon_set : Z → St → list string;
  renew_trust : string → Z → Z → St → St;
  apply_withdrawal_transaction : recurrence_event → list string → Z → St → St;
  get_withdrawal_ledger : St → dict withdrawal_record;
  record_calibration_run : calibration_run → St → option St;
  get_calibration_runs : St → list calibration_run;
  record_signal_attempt : string → string → string → string → Z → St → St;
  count_recent_signals : string → string → St → option Z;
  count_recent_signals_global : string → St → option Z;
  get_signal_outcome_counts : St → dict Z;
  record_shadow_decision : shadow_decision → St → option St;
  shadow_decision_counts : St → Z * Z;
  nodes_exist : list string → St → dict bool;
  are_quarantined : list string → St → dict bool;
  get_node_content_hashes : list string → St → dict string;
  covers_gap : list string → St → list string;
  compute_quarantine_digest : list string → St → string;
  compute_state_digest : PayloadText → St → string;
  record_continuity_exposure : string → string → string → bool → dict json → Z → St → St;
  get_continuity_exposures : St → list exposure;
  add_substitute_declaration : substitute_declaration → St → St;
  get_substitute_declarations : St → dict substitute_declaration;
  record_detector_event : detector_event → Z → St → St;
  get_detector_events : St → list detector_event;
  get_critical_dependents : list string → St → list critical_dependent;
  record_tainted_rejection : string → string → string → string → St → option St;
  record_tainted_offer : string → string → string → St → St;
  record_tainted_completion : string → string → St → St;
  check_retry_completion : node → St → St;
  get_tainted_action_stats : St → tainted_action_stats;
  find_continuity_replacement : string → St → option (option replacement);
  alias_repair_candidate : string → repair_record → St → St;
  alias_quarantine_event : quarantine_event → St → St;
  alias_detector_event : detector_event → St → St }.

(** Only the SQLite backend implements [transaction]: the body's effects are
    kept when it returns and undone when it raises. *)
Class Transactional (St : Type) := on_exception : St → St → St.

Class RollbackLaws (St : Type) `{Transactional St} := rollback (s s' : St) : on_exception s s' = s.

(** ** What a client may rely on *)

(** The graph only grows and the ledger only grows. *)
Record evolves {St} `{Backend St} (s s' : St) : Prop := {
  ev_dag k n : dict_get k (get_dag s) = Some n → dict_get k (get_dag s') = Some n;
  ev_ledger : get_quarantine_ledger s ⊆ get_quarantine_ledger s';
  ev_depth : traversal_depth s' = traversal_depth s }.

(** Neither the graph nor the ledger changes. *)
Record same_core {St} `{Backend St} (s s' : St) : Prop := {
  sc_dag : get_dag s' = get_dag s;
  sc_ledger : get_quarantine_ledger s' = get_quarantine_ledger s;
  sc_depth : traversal_depth s' = traversal_depth s }.

#[export] Instance evolves_preorder {St} `{Backend St} : PreOrder (evolves (St:=St)).
Proof.
  split; [done|]. intros s1 s2 s3 [D1 L1 T1] [D2 L2 T2]. split; [eauto|by etrans|congruence].
Qed.

#[export] Instance same_core_equivalence {St} `{Backend St} : Equivalence (same_core (St:=St)).
Proof. split; [done|intros ?? []; split; congruence|intros ??? [] []; split; congruence]. Qed.

Lemma same_core_evolves {St} `{Backend St} (s s' : St) : same_core s s' → evolves s s'.
Proof. intros [D L T]. split; [by rewrite D|by rewrite L|done]. Qed.

(** [m.get(k, False)] *)
Definition flag (k : string) (m : dict bool) : bool := default false (dict_get k m).

Class BackendLaws (St : Type) `{Backend St} := {
  (** the states the store can be in *)
  store_ok : St → Prop;

  dag_ok s : store_ok s → dict_ok (get_dag s);
  ledger_nodup s : store_ok s → NoDup (get_quarantine_ledger s);
  dag_key s k n : store_ok s → dict_get k (get_dag s) = Some n → payload_id n = k;

  commit_node_ok n s : store_ok s → store_ok (commit_node n s).2;
  commit_node_new n s : store_ok s → (commit_node n s).1 = negb (dict_mem (payload_id n) (get_dag s));
  commit_node_dag n s k : store_ok s →
    dict_get k (get_dag (commit_node n s).2) =
      match dict_get k (get_dag s) with
      | Some m => Some m
      | None => if decide (k = payload_id n) then Some n else None
      end;
  commit_node_ledger n s : get_quarantine_ledger (commit_node n s).2 = get_quarantine_ledger s;

  commit_node_depth n s : traversal_depth (commit_node n s).2 = traversal_depth s;

  (** an identifier that is taken keeps its node *)
  commit_node_old n s : store_ok s → dict_mem (payload_id n) (get_dag s) = true → (commit_node n s).2 = s;

  quarantine_ok e c s : store_ok s → store_ok (apply_quarantine_transaction e c s).2;
  quarantine_ledger e c s x :
    x ∈ get_quarantine_ledger (apply_quarantine_transaction e c s).2 ↔ (x ∈ c ∨ x ∈ get_quarantine_ledger s);
  quarantine_dag e c s : get_dag (apply_quarantine_transaction e c s).2 = get_dag s;
  quarantine_depth e c s : traversal_depth (apply_quarantine_transaction e c s).2 = traversal_depth s;
  quarantine_event_id_kept e c s :
    quarantine_event_id (apply_quarantine_transaction e c s).1 = quarantine_event_id e;

  blast_ok r s : store_ok s → store_ok (compute_blast_radius r s).2;
  blast_core r s : store_ok s → same_core s (compute_blast_radius r s).2;
  blast_sorted r s : store_ok s → ∃ l, NoDup l ∧ (compute_blast_radius r s).1 = sorted l;
  blast_spec r s x : store_ok s →
    x ∈ (compute_blast_radius r s).1 ↔
      match traversal_depth s with
      | None => derived (get_dag s) r x
      | Some d => bsteps (edge (children (get_dag s))) d r x
      end;

  nodes_exist_spec ids s k : store_ok s → k ∈ ids → flag k (nodes_exist ids s) = dict_mem k (get_dag s);
  are_quarantined_spec ids s k : k ∈ ids →
    flag k (are_quarantined ids s) = bool_decide (k ∈ get_quarantine_ledger s);
  content_hashes_spec ids s k : store_ok s → k ∈ ids →
    default "" (dict_get k (get_node_content_hashes ids s)) = default "" (dict_get k (get_dag s) ≫= content_digest_sha256);

  (** the other operations leave the graph and the ledger alone *)
  update_repair_candidate_frame k r s : store_ok s →
    store_ok (update_repair_candidate k r s) ∧ same_core s (update_repair_candidate k r s);
  add_checkpoint_frame c s : store_ok s → store_ok (add_checkpoint c s) ∧ same_core s (add_checkpoint c s);
  add_external_effect_frame k n t now s : store_ok s →
    store_ok (add_external_effect k n t now s) ∧ same_core s (add_external_effect k n t now s);
  record_reintegration_frame n p h now s : store_ok s →
    store_ok (record_reintegration n p h now s) ∧ same_core s (record_reintegration n p h now s);
  record_reintegration_evidence_frame n a b g now s : store_ok s →
    store_ok (record_reintegration_evidence n a b g now s) ∧
    same_core s (record_reintegration_evidence n a b g now s);
  renew_trust_frame n h now s : store_ok s →
    store_ok (renew_trust n h now s) ∧ same_core s (renew_trust n h now s);
  apply_withdrawal_transaction_frame e w now s : store_ok s →
    store_ok (apply_withdrawal_transaction e w now s) ∧ same_core s (apply_withdrawal_transaction e w now s);
  record_calibration_run_frame r s s' : store_ok s → record_calibration_run r s = Some s' →
    store_ok s' ∧ same_core s s';
  record_signal_attempt_frame a b c d now s : store_ok s →
    store_ok (record_signal_attempt a b c d now s) ∧ same_core s (record_signal_attempt a b c d now s);
  record_shadow_decision_frame d s s' : store_ok s → record_shadow_decision d s = Some s' →
    store_ok s' ∧ same_core s s';
  record_continuity_exposure_frame a b c d e now s : store_ok s →
    store_ok (record_continuity_exposure a b c d e now s) ∧
    same_core s (record_continuity_exposure a b c d e now s);
  add_substitute_declaration_frame d s : store_ok s →
    store_ok (add_substitute_declaration d s) ∧ same_core s (add_substitute_declaration d s);
  record_detector_event_frame e now s : store_ok s →
    store_ok (record_detector_event e now s) ∧ same_core s (record_detector_event e now s);
  record_tainted_rejection_frame a b c d s s' : store_ok s → record_tainted_rejection a b c d s = Some s' →
    store_ok s' ∧ same_core s s';
  record_tainted_offer_frame a b c s : store_ok s →
    store_ok (record_tainted_offer a b c s) ∧ same_core s (record_tainted_offer a b c s);
  record_tainted_completion_frame a b s : store_ok s →
    store_ok (record_tainted_completion a b s) ∧ same_core s (record_tainted_completion a b s);
  check_retry_completion_frame n s : store_ok s →
    store_ok (check_retry_completion n s) ∧ same_core s (check_retry_completion n s);
  alias_repair_candidate_frame k r s : store_ok s →
    store_ok (alias_repair_candidate k r s) ∧ same_core s (alias_repair_candidate k r s);
  alias_quarantine_event_frame e s : store_ok s →
    store_ok (alias_quarantine_event e s) ∧ same_core s (alias_quarantine_event e s);
  alias_detector_event_frame e s : store_ok s →
    store_ok (alias_detector_event e s) ∧ same_core s (alias_detector_event e s) }.

#[export] Hint Resolve update_repair_candidate_frame add_checkpoint_frame add_external_effect_frame
  record_reintegration_frame record_reintegration_evidence_frame renew_trust_frame
  apply_withdrawal_transaction_frame record_calibration_run_frame record_signal_attempt_frame
  record_shadow_decision_frame record_continuity_exposure_frame add_substitute_declaration_frame
  record_detector_event_frame record_tainted_rejection_frame record_tainted_offer_frame
  record_tainted_completion_frame check_retry_completion_frame alias_repair_candidate_frame
  alias_quarantine_event_frame alias_detector_event_frame : gasc.
#[export] Hint Resolve dag_ok ledger_nodup commit_node_ok quarantine_ok blast_ok : gasc.

(** [x] is contained: nothing outside the ledger derives from the ledger. *)
Definition contained {St} `{Backend St} (s : St) : Prop :=
  ∀ k n, dict_get k (get_dag s) = Some n → k ∉ get_quarantine_ledger s →
    ∀ p, p ∈ parent_ids n ∨ p ∈ covers n → p ∉ get_quarantine_ledger s.

(** The traversal depth of the store is no limit for its graph. *)
Definition deep_enough {St} `{BackendLaws St} (s : St) : Prop :=
  ∀ d, traversal_depth s = Some d → length (get_dag s) < d.

Section laws.
Context {St : Type} `{BackendLaws St}.
Implicit Types (s : St).

Lemma commit_node_evolves n s : store_ok s → evolves s (commit_node n s).2.
Proof.
  intros Hs. split; [|by rewrite commit_node_ledger|by rewrite commit_node_depth]. intros k m Hk.
  by rewrite commit_node_dag, Hk.
Qed.

Lemma quarantine_evolves e c s : evolves s (apply_quarantine_transaction e c s).2.
Proof. split; [by rewrite quarantine_dag| |apply quarantine_depth].
  intros x Hx. apply quarantine_ledger. by right.
Qed.

Lemma blast_evolves r s : store_ok s → evolves s (compute_blast_radius r s).2.
Proof. intros. by apply same_core_evolves, blast_core. Qed.

(** A store is contained exactly when its ledger is closed under derivation. *)
Lemma contained_closed s :
  store_ok s →
  contained s ↔ ∀ x y, x ∈ get_quarantine_ledger s → derived (get_dag s) x y → y ∈ get_quarantine_ledger s.
Proof.
  intros Hs. split.
  - intros Hc x y Hx Hd. revert Hx. induction Hd as [|x z y Hxz _ IH]; [done|]. intros Hx.
    apply IH. unfold edge in Hxz. rewrite elem_of_children in Hxz by eauto with gasc.
    destruct Hxz as (n & Hn & Hp). destruct (decide (z ∈ get_quarantine_ledger s)); [done|].
    exfalso. by eapply Hc.
  - intros Hc k n Hk Hkq p Hp Hpq. apply Hkq, (Hc p); [done|]. apply rtc_once. unfold edge.
    rewrite elem_of_children by eauto with gasc. eauto.
Qed.

Lemma blast_bounded_derived s r x :
  store_ok s → x ∈ (compute_blast_radius r s).1 → derived (get_dag s) r x.
Proof.
  intros Hs. rewrite blast_spec by done. destruct (traversal_depth s); [apply rtc_bsteps_2|done].
Qed.

(** Deep enough, a blast radius is everything that derives from the root. *)
Lemma blast_derived s r x :
  store_ok s → deep_enough s → x ∈ (compute_blast_radius r s).1 ↔ derived (get_dag s) r x.
Proof.
  intros Hs Hd. rewrite blast_spec by done. destruct (traversal_depth s) as [d|] eqn:E; [|done].
  apply (bsteps_reach _ (r :: dict_keys (get_dag s))).
  - by left.
  - intros y z _ Hz%children_in_dag. by right.
  - cbn [length]. rewrite length_dict_keys. by apply Hd.
Qed.

Lemma blast_root s r : store_ok s → r ∈ (compute_blast_radius r s).1.
Proof. intros Hs. rewrite blast_spec by done. destruct (traversal_depth s); [apply bsteps_refl|apply rtc_refl]. Qed.

Lemma same_core_contained s s' : same_core s s' → contained s → contained s'.
Proof. intros [D L _]. unfold contained. by rewrite D, L. Qed.

Lemma same_core_deep s s' : same_core s s' → deep_enough s → deep_enough s'.
Proof. intros [D _ T]. unfold deep_enough. by rewrite D, T. Qed.
End laws.

(** ** Two stores that hold the same graph and ledger *)
Record agree {A B} `{Backend A, Backend B} (a : A) (b : B) : Prop := {
  ag_dag k : dict_get k (get_dag a) = dict_get k (get_dag b);
  ag_ledger x : x ∈ get_quarantine_ledger a ↔ x ∈ get_quarantine_ledger b }.

Section agree.
Context {A B : Type} `{BackendLaws A, BackendLaws B}.

Lemma agree_derived (a : A) (b : B) x y :
  store_ok a → store_ok b → agree a b → derived (get_dag a) x y ↔ derived (get_dag b) x y.
Proof.
  intros Ha Hb [D _]. split; apply derived_mono; eauto with gasc; intros; congruence.
Qed.

Lemma agree_commit (a : A) (b : B) n :
  store_ok a → store_ok b → agree a b →
  (commit_node n a).1 = (commit_node n b).1 ∧ agree (commit_node n a).2 (commit_node n b).2.
Proof.
  intros Ha Hb [D L]. split.
  - rewrite !commit_node_new by done. unfold dict_mem. by rewrite D.
  - split; intros; [by rewrite !commit_node_dag, D by done|by rewrite !commit_node_ledger].
Qed.

Lemma agree_quarantine (a : A) (b : B) e c :
  agree a b →
  agree (apply_quarantine_transaction e c a).2 (apply_quarantine_transaction e c b).2.
Proof. intros [D L]. split; intros; [by rewrite !quarantine_dag|by rewrite !quarantine_ledger, L]. Qed.

Lemma agree_blast (a : A) (b : B) r :
  store_ok a → store_ok b → deep_enough a → deep_enough b → agree a b →
  (compute_blast_radius r a).1 = (compute_blast_radius r b).1 ∧
  agree (compute_blast_radius r a).2 (compute_blast_radius r b).2.
Proof.
  intros Ha Hb Da Db Hag. split.
  - destruct (blast_sorted r a Ha) as (la & Hna & Ea), (blast_sorted r b Hb) as (lb & Hnb & Eb).
    rewrite Ea, Eb. apply sorted_set_ext; [done..|]. intros x.
    rewrite <-(elem_of_sorted la), <-(elem_of_sorted lb), <-Ea, <-Eb, !blast_derived by done.
    by apply agree_derived.
  - destruct Hag as [D L], (blast_core r a Ha) as [Da' La _], (blast_core r b Hb) as [Db' Lb _].
    split; intros; by rewrite ?Da', ?Db', ?La, ?Lb.
Qed.
End agree.
#[export] Hint Resolve commit_node_evolves quarantine_evolves blast_evolves same_core_evolves : gasc.
