(* ===== verification/Memory.v ===== *)
(** * The in-memory backend ([MemoryStateBackend])

    Every method runs under the backend's own lock from its first to its last
    statement, so each is one step on the state. *)
From S2P Require Import Prelude Dict Types Encoding Datetime Graph Lineage Interface.

(* src: src/governor_service.py 190-207 MemoryStateBackend._reset_sync *)
Record state := State {
  dag : dict node;
  quarantine_ledger : list string;
  quarantine_events : list quarantine_event;
  repair_candidates : dict repair_record;
  checkpoints : dict checkpoint_record;
  external_effects : dict effect_record;
  shadow_decisions : list bool;
  reintegration_horizon : dict horizon_record;
  recurrence_events : list recurrence_event;
  withdrawal_ledger : dict withdrawal_record;
  calibration_runs : list calibration_run;
  signal_attempts : list signal_attempt;
  continuity_exposures : list exposure;
  substitute_declarations : dict substitute_declaration;
  detector_events : list detector_event;
  tainted_rejections : list rejection;
  reintegration_evidences : dict reintegration_evidence }.

#[export] Instance state_rebuild : Rebuild state := λ s,
  State (dag s) (quarantine_ledger s) (quarantine_events s) (repair_candidates s) (checkpoints s)
    (external_effects s) (shadow_decisions s) (reintegration_horizon s) (recurrence_events s)
    (withdrawal_ledger s) (calibration_runs s) (signal_attempts s) (continuity_exposures s)
    (substitute_declarations s) (detector_events s) (tainted_rejections s) (reintegration_evidences s).

(** The state of a fresh backend; [_reset_sync] keeps only the reintegration
    evidence, which it does not mention. *)
(* src: src/governor_service.py MemoryStateBackend._reset_sync *)
Definition reset_sync (evidence : dict reintegration_evidence) : state :=
  State [("clean-parent-1", bare_node "clean-parent-1")] ["quarantined-node-A"]
    [] [] [] [] [] [] [] [] [] [] [] [] [] [] evidence.

(* src: src/governor_service.py MemoryStateBackend.__init__ *)
Definition initial : state := reset_sync [].

(* src: src/governor_service.py MemoryStateBackend.reset *)
Definition reset (s : state) : state := reset_sync (reintegration_evidences s).

(** ** Graph and ledger *)
(* src: src/governor_service.py MemoryStateBackend.update_repair_candidate *)
Definition update_repair_candidate (node_id : string) (data : repair_record) (s : state) : state :=
  s <| repair_candidates ::= dict_set node_id data |>.

(* src: src/governor_service.py MemoryStateBackend.commit_node *)
Definition commit_node (payload : node) (s : state) : bool * state :=
  if dict_mem (payload_id payload) (dag s) then (false, s)
  else (true, s <| dag ::= dict_set (payload_id payload) payload |>).

(* src: src/governor_service.py MemoryStateBackend.log_quarantine_event *)
Definition log_quarantine_event (event : quarantine_event) (s : state) : state :=
  s <| quarantine_events ::= λ l, l ++ [event] |>.

(* src: src/governor_service.py MemoryStateBackend.add_to_quarantine_ledger *)
Definition add_to_quarantine_ledger (node_id : string) (s : state) : state :=
  s <| quarantine_ledger ::= add_new node_id |>.

(* src: src/governor_service.py MemoryStateBackend.apply_quarantine_transaction *)
Definition apply_quarantine_transaction (event : quarantine_event) (c_p : list string) (s : state)
    : quarantine_event * state :=
  (event, fold_left (λ s node_id, add_to_quarantine_ledger node_id s) c_p (log_quarantine_event event s)).

(* src: src/governor_service.py MemoryStateBackend.add_checkpoint *)
Definition add_checkpoint (checkpoint : checkpoint_record) (s : state) : state :=
  s <| checkpoints ::= dict_set (checkpoint_id checkpoint) checkpoint |>.

(** ** Blast radius *)

(** The traversal's variables: [visited], [queue], [c_p] and
    [affected_compactions]. *)
Record blast := Blast {
  b_visited : list string;
  b_queue : list string;
  b_cp : list string;
  b_affected : list string }.

(** One iteration of the inner [for] over [self.dag.items()]. *)
(* src: src/governor_service.py 264-284 MemoryStateBackend.compute_blast_radius *)
Definition blast_visit (current : string) (b : blast) (kv : string * node) : blast :=
  let '(node_id, node_data) := kv in
  if node_id ∈? b_visited b then b
  else if commits_to current node_data then
    Blast (b_visited b ++ [node_id]) (b_queue b ++ [node_id]) (b_cp b)
      (if carries current node_data then b_affected b ++ [node_id] else b_affected b)
  else if covers_node current node_data then
    Blast (b_visited b ++ [node_id]) (b_queue b ++ [node_id]) (b_cp b) (b_affected b)
  else b.

(** One iteration of [while queue]. *)
(* src: src/governor_service.py 260-284 MemoryStateBackend.compute_blast_radius *)
Definition blast_step (g : dict node) (b : blast) : blast :=
  match b_queue b with
  | [] => b
  | current :: q =>
    fold_left (blast_visit current) g (Blast (b_visited b) q (b_cp b ++ [current]) (b_affected b))
  end.

(* src: src/governor_service.py 260-284 MemoryStateBackend.compute_blast_radius *)
Fixpoint blast_loop (g : dict node) (fuel : nat) (b : blast) : blast :=
  match fuel with
  | O => b
  | S fuel => match b_queue b with [] => b | _ => blast_loop g fuel (blast_step g b) end
  end.

(* src: src/governor_service.py 252-284 MemoryStateBackend.compute_blast_radius *)
Definition traverse (g : dict node) (root : string) : blast :=
  blast_loop g (2 + length g) (Blast [root] [root] [] []).

(* src: src/governor_service.py MemoryStateBackend.has_external_effects *)
Definition has_external_effects (node_ids : list string) (s : state) : bool :=
  existsb (λ e, eff_node_id e ∈? node_ids) (dict_values (external_effects s)).

(** One iteration of the loop over [affected_compactions]. *)
(* src: src/governor_service.py 293-350 MemoryStateBackend.compute_blast_radius *)
Definition plan_compaction (semantic_rollback : bool) (c_p : list string) (s : state) (comp_node : string) : state :=
  if terminal (dict_get comp_node (repair_candidates s)) then s
  else
    match dict_get comp_node (dag s) with
    | None => s
    | Some n =>
      update_repair_candidate comp_node (plan_repair semantic_rollback (checkpoints s) c_p n) s
    end.

(* src: src/governor_service.py MemoryStateBackend.compute_blast_radius *)
Definition compute_blast_radius (poisoned_root_id : string) (s : state) : list string * state :=
  let b := traverse (dag s) poisoned_root_id in
  let semantic_rollback := has_external_effects (b_cp b) s in
  (sorted (b_cp b), fold_left (plan_compaction semantic_rollback (b_cp b)) (b_affected b) s).

(** ** External effects, horizons, withdrawals *)
(* src: src/governor_service.py MemoryStateBackend.add_external_effect *)
Definition add_external_effect (idempotency_key node_id effect_type : string) (now : Z) (s : state) : state :=
  s <| external_effects ::= dict_set idempotency_key (Effect node_id effect_type (iso_z now)) |>.

(* src: src/governor_service.py MemoryStateBackend.check_external_effect *)
Definition check_external_effect (idempotency_key : string) (s : state) : bool :=
  dict_mem idempotency_key (external_effects s).

(* src: src/governor_service.py MemoryStateBackend.record_reintegration *)
Definition record_reintegration (node_id predecessor_id : string) (horizon_seconds now : Z) (s : state) : state :=
  s <| reintegration_horizon ::=
    dict_set node_id (Horizon (Some (iso_z now)) (iso_z (plus_seconds now horizon_seconds)) predecessor_id 0) |>.

(* src: src/governor_service.py MemoryStateBackend.get_active_horizon_set *)
Definition get_active_horizon_set (now : Z) (s : state) : dict horizon_record :=
  List.filter (λ kv, str_lt (iso_z now) (trust_expires_utc kv.2)) (reintegration_horizon s).

(* src: src/governor_service.py MemoryStateBackend.get_expired_horizon_set *)
Definition get_expired_horizon_set (now : Z) (s : state) : list string :=
  dict_keys (List.filter (λ kv, str_le (trust_expires_utc kv.2) (iso_z now)) (reintegration_horizon s)).

(* src: src/governor_service.py MemoryStateBackend.renew_trust *)
Definition renew_trust (node_id : string) (horizon_seconds now : Z) (s : state) : state :=
  match dict_get node_id (reintegration_horizon s) with
  | None => s
  | Some h =>
    s <| reintegration_horizon ::= dict_set node_id
      (h <| trust_expires_utc := iso_z (plus_seconds now horizon_seconds) |>
         <| renewal_count := (renewal_count h + 1)%Z |>) |>
  end.

(* src: src/governor_service.py 417-424 MemoryStateBackend.apply_withdrawal_transaction *)
Definition withdraw (event : recurrence_event) (now : Z) (i : nat) (node_id : string)
    (l : dict withdrawal_record) : dict withdrawal_record :=
  if dict_mem node_id l then l
  else dict_set node_id
    (Withdrawal (iso_z now) (re_event_id event)
       (if decide (i = 0) then "DIRECTLY_IMPLICATED" else "UNEXAMINED_DEPENDENT")) l.

(* src: src/governor_service.py 417-424 MemoryStateBackend.apply_withdrawal_transaction *)
Fixpoint withdraw_all (event : recurrence_event) (now : Z) (i : nat) (w_r : list string)
    (l : dict withdrawal_record) : dict withdrawal_record :=
  match w_r with
  | [] => l
  | node_id :: w_r => withdraw_all event now (S i) w_r (withdraw event now i node_id l)
  end.

(* src: src/governor_service.py MemoryStateBackend.apply_withdrawal_transaction *)
Definition apply_withdrawal_transaction (event : recurrence_event) (w_r : list string) (now : Z) (s : state) : state :=
  s <| recurrence_events ::= λ l, l ++ [event] |>
    <| withdrawal_ledger ::= withdraw_all event now 0 w_r |>.

(* src: src/governor_service.py MemoryStateBackend.record_calibration_run *)
Definition record_calibration_run (run : calibration_run) (s : state) : state :=
  s <| calibration_runs ::= λ l, l ++ [run] |>.

(** ** Signals and decisions *)
(* src: src/governor_service.py MemoryStateBackend.record_signal_attempt *)
Definition record_signal_attempt (signal_source node_id signal_kind outcome : string) (now : Z) (s : state) : state :=
  s <| signal_attempts ::= λ l, l ++ [SignalAttempt signal_source node_id signal_kind outcome (iso_z now)] |>.

(* src: src/governor_service.py MemoryStateBackend.count_recent_signals *)
Definition count_recent_signals (signal_source since_utc : string) (s : state) : Z :=
  count_if (λ a, bool_decide (att_signal_source a = signal_source) && str_le since_utc (att_recorded_at_utc a))
    (signal_attempts s).

(* src: src/governor_service.py MemoryStateBackend.count_recent_signals_global *)
Definition count_recent_signals_global (since_utc : string) (s : state) : Z :=
  count_if (λ a, str_le since_utc (att_recorded_at_utc a)) (signal_attempts s).

(* src: src/governor_service.py MemoryStateBackend.get_signal_outcome_counts *)
Definition get_signal_outcome_counts (s : state) : dict Z :=
  fold_left (λ counts a, dict_set (att_outcome a) (default 0%Z (dict_get (att_outcome a) counts) + 1)%Z counts)
    (signal_attempts s) [].

(* src: src/governor_service.py MemoryStateBackend.record_shadow_decision *)
Definition record_shadow_decision (d : shadow_decision) (s : state) : state :=
  s <| shadow_decisions ::= λ l, l ++ [would_have_blocked d] |>.

(** The branch of [get_shadow_report] for a backend without a database. *)
(* src: src/governor_service.py 2290-2292 get_shadow_report *)
Definition shadow_decision_counts (s : state) : Z * Z :=
  (Z.of_nat (length (shadow_decisions s)), count_if id (shadow_decisions s)).

(** ** Queries on nodes *)

(** [{k: f(k) for k in ids}]: a key that occurs twice is written twice. *)
Definition dict_of {V} (f : string → V) (ids : list string) : dict V :=
  fold_left (λ d k, dict_set k (f k) d) ids [].

(* src: src/governor_service.py MemoryStateBackend.nodes_exist *)
Definition nodes_exist (node_ids : list string) (s : state) : dict bool :=
  dict_of (λ nid, dict_mem nid (dag s)) node_ids.

(* src: src/governor_service.py MemoryStateBackend.are_quarantined *)
Definition are_quarantined (node_ids : list string) (s : state) : dict bool :=
  dict_of (λ nid, nid ∈? quarantine_ledger s) node_ids.

(* src: src/governor_service.py MemoryStateBackend.get_node_content_hashes *)
Definition get_node_content_hashes (node_ids : list string) (s : state) : dict string :=
  omap (λ nid, (λ n, (nid, default "" (content_digest_sha256 n))) <$> dict_get nid (dag s))
    (fold_left (λ l x, add_new x l) node_ids []).

(* src: src/governor_service.py MemoryStateBackend.compute_covers_interval_gap *)
Definition covers_gap (covers : list string) (s : state) : list string :=
  compute_covers_interval_gap (dag s) covers.

(** [json.dumps] of a list of strings, hashed *)
Definition list_digest (l : list string) : string := sha256_hex (json_dumps (JArr (JStr <$> l))).

(* src: src/governor_service.py MemoryStateBackend.compute_quarantine_digest *)
Definition compute_quarantine_digest (additional_node_ids : list string) (s : state) : string :=
  list_digest (sorted (fold_left (λ l x, add_new x l) additional_node_ids (quarantine_ledger s))).

(* src: src/governor_service.py MemoryStateBackend.compute_state_digest *)
Definition compute_state_digest (text : PayloadText) (s : state) : string :=
  let nodes := merge_sort key_le ((λ kv, (kv.1, sha256_hex (text kv.2))) <$> dag s) in
  sha256_hex (json_dumps (JObj
    [("nodes", JArr ((λ kv, JArr [JStr kv.1; JStr kv.2]) <$> nodes));
     ("quarantine", JArr (JStr <$> sorted (quarantine_ledger s)))])).

(** ** Continuity, detectors, tainted actions *)
(* src: src/governor_service.py MemoryStateBackend.record_continuity_exposure *)
Definition record_continuity_exposure (exposure_id node_id substitute_status : string)
    (quarantine_non_empty : bool) (exposure_record : dict json) (now : Z) (s : state) : state :=
  s <| continuity_exposures ::= λ l,
    l ++ [Exposure exposure_id node_id substitute_status (iso_z now) quarantine_non_empty (JObj exposure_record)] |>.

(* src: src/governor_service.py MemoryStateBackend.record_reintegration_evidence *)
Definition record_reintegration_evidence (node_id pre_digest post_digest : string)
    (gates : list (string * bool * string)) (now : Z) (s : state) : state :=
  s <| reintegration_evidences ::=
    dict_set node_id (ReintegrationEvidence pre_digest post_digest gates (iso_z now)) |>.

(* src: src/governor_service.py MemoryStateBackend.add_substitute_declaration *)
Definition add_substitute_declaration (declaration : substitute_declaration) (s : state) : state :=
  s <| substitute_declarations ::= dict_set (sub_target_node_id declaration) declaration |>.

(* src: src/governor_service.py MemoryStateBackend.record_detector_event *)
Definition record_detector_event (event : detector_event) (now : Z) (s : state) : state :=
  s <| detector_events ::= λ l, l ++ [event] |>.

(* src: src/governor_service.py MemoryStateBackend.get_critical_dependents *)
Definition get_critical_dependents (quarantined_node_ids : list string) (s : state) : list critical_dependent :=
  critical_dependents (dag s) quarantined_node_ids.

(* src: src/governor_service.py MemoryStateBackend.record_tainted_rejection *)
Definition record_tainted_rejection (node_id parent_id rejected_at author : string) (s : state) : state :=
  s <| tainted_rejections ::= λ l, l ++ [new_rejection node_id parent_id rejected_at author] |>.

(** [for r in l: if p(r): r := f(r); break] *)
Fixpoint update_first {A} (p : A → bool) (f : A → A) (l : list A) : list A :=
  match l with
  | [] => []
  | x :: l => if p x then f x :: l else x :: update_first p f l
  end.

(* src: src/governor_service.py MemoryStateBackend.record_tainted_offer *)
Definition record_tainted_offer (rejection_node_id rep_id rep_type : string) (s : state) : state :=
  s <| tainted_rejections ::= update_first
    (λ r, bool_decide (rej_node_id r = rejection_node_id) && negb (offered r))
    (λ r, r <| offered := true |> <| offered_replacement := Some rep_id |> <| replacement_type := Some rep_type |>) |>.

(* src: src/governor_service.py MemoryStateBackend.record_tainted_completion *)
Definition record_tainted_completion (rejection_node_id completed_by_node_id : string) (s : state) : state :=
  s <| tainted_rejections ::= update_first
    (λ r, bool_decide (rej_node_id r = rejection_node_id) && negb (completed r))
    (complete_rejection completed_by_node_id) |>.

(* src: src/governor_service.py MemoryStateBackend.check_retry_completion *)
Definition check_retry_completion (payload : node) (s : state) : state :=
  s <| tainted_rejections ::= List.map
    (λ r, if completes payload r then complete_rejection (payload_id payload) r else r) |>.

(* src: src/governor_service.py MemoryStateBackend.get_tainted_action_stats *)
Definition get_tainted_action_stats (s : state) : tainted_action_stats :=
  tainted_action_stats_of (tainted_rejections s).

Definition parents_of (s : state) (nid : string) : list string :=
  parent_ids (default (bare_node nid) (dict_get nid (dag s))).

(* src: src/governor_service.py MemoryStateBackend.find_continuity_replacement *)
Definition find_continuity_replacement (tainted_node_id : string) (s : state) : option replacement :=
  let parents := parents_of s in
  let fuel := ancestor_fuel parents (quarantine_ledger s) in
  let candidates := (quarantined_ancestors parents (quarantine_ledger s) fuel [] [tainted_node_id] []).2 in
  first_some (search_replacement (Some "unknown") (dag s) (continuity_exposures s)
    (substitute_declarations s) (quarantine_ledger s)) candidates.

(** ** Assignments through shared references *)
Definition update_last {A} (x : A) (l : list A) : list A :=
  match reverse l with [] => [] | _ :: l' => reverse l' ++ [x] end.

(** [get_repair_candidates] returns the records that the store keeps. *)
(* src: src/governor_service.py MemoryStateBackend.get_repair_candidates *)
Definition alias_repair_candidate (node_id : string) (data : repair_record) (s : state) : state :=
  if dict_mem node_id (repair_candidates s) then update_repair_candidate node_id data s else s.

(** The event passed to [apply_quarantine_transaction] is the one kept. *)
(* src: src/governor_service.py MemoryStateBackend.apply_quarantine_transaction *)
Definition alias_quarantine_event (event : quarantine_event) (s : state) : state :=
  s <| quarantine_events ::= update_last event |>.

(* src: src/governor_service.py MemoryStateBackend.record_detector_event *)
Definition alias_detector_event (event : detector_event) (s : state) : state :=
  s <| detector_events ::= update_last event |>.

#[export] Instance memory_backend : Backend state := {|
  Interface.traversal_depth := λ _, None;
  Interface.get_dag := dag;
  Interface.get_quarantine_ledger := quarantine_ledger;
  Interface.get_repair_candidates := repair_candidates;
  Interface.update_repair_candidate := update_repair_candidate;
  Interface.commit_node := commit_node;
  Interface.log_quarantine_event := log_quarantine_event;
  Interface.add_to_quarantine_ledger := add_to_quarantine_ledger;
  Interface.apply_quarantine_transaction := apply_quarantine_transaction;
  Interface.get_quarantine_events := quarantine_events;
  Interface.compute_blast_radius := compute_blast_radius;
  Interface.add_checkpoint := add_checkpoint;
  Interface.get_checkpoints := checkpoints;
  Interface.add_external_effect := add_external_effect;
  Interface.check_external_effect := check_external_effect;
  Interface.has_external_effects := has_external_effects;
  Interface.reset := reset;
  Interface.record_reintegration := record_reintegration;
  Interface.record_reintegration_evidence := record_reintegration_evidence;
  Interface.get_active_horizon_set := get_active_horizon_set;
  Interface.get_expired_horizon_set := get_expired_horizon_set;
  Interface.renew_trust := renew_trust;
  Interface.apply_withdrawal_transaction := apply_withdrawal_transaction;
  Interface.get_withdrawal_ledger := withdrawal_ledger;
  Interface.record_calibration_run := λ r s, Some (record_calibration_run r s);
  Interface.get_calibration_runs := calibration_runs;
  Interface.record_signal_attempt := record_signal_attempt;
  Interface.count_recent_signals := λ src since s, Some (count_recent_signals src since s);
  Interface.count_recent_signals_global := λ since s, Some (count_recent_signals_global since s);
  Interface.get_signal_outcome_counts := get_signal_outcome_counts;
  Interface.record_shadow_decision := λ d s, Some (record_shadow_decision d s);
  Interface.shadow_decision_counts := shadow_decision_counts;
  Interface.nodes_exist := nodes_exist;
  Interface.are_quarantined := are_quarantined;
  Interface.get_node_content_hashes := get_node_content_hashes;
  Interface.covers_gap := covers_gap;
  Interface.compute_quarantine_digest := compute_quarantine_digest;
  Interface.compute_state_digest := compute_state_digest;
  Interface.record_continuity_exposure := record_continuity_exposure;
  Interface.get_continuity_exposures := continuity_exposures;
  Interface.add_substitute_declaration := add_substitute_declaration;
  Interface.get_substitute_declarations := substitute_declarations;
  Interface.record_detector_event := record_detector_event;
  Interface.get_detector_events := detector_events;
  Interface.get_critical_dependents := get_critical_dependents;
  Interface.record_tainted_rejection := λ n p t a s, Some (record_tainted_rejection n p t a s);
  Interface.record_tainted_offer := record_tainted_offer;
  Interface.record_tainted_completion := record_tainted_completion;
  Interface.check_retry_completion := check_retry_completion;
  Interface.get_tainted_action_stats := get_tainted_action_stats;
  Interface.find_continuity_replacement := λ n s, Some (find_continuity_replacement n s);
  Interface.alias_repair_candidate := alias_repair_candidate;
  Interface.alias_quarantine_event := alias_quarantine_event;
  Interface.alias_detector_event := alias_detector_event |}.

(** ** The traversal is a breadth-first search along [children] *)
Lemma blast_visit_fold cur g b :
  let b' := fold_left (blast_visit cur) g b in
  (b_visited b', b_queue b') = expand (children g cur) (b_visited b, b_queue b) ∧ b_cp b' = b_cp b.
Proof.
  revert b; induction g as [|[nid n] g IH]; intros b; [done|].
  cbn [fold_left]. destruct (IH (blast_visit cur b (nid, n))) as [E1 E2]. cbv zeta in *.
  rewrite E1, E2. clear IH E1 E2.
  unfold children, derives_from in *. cbn [List.filter snd].
  unfold blast_visit. destruct (nid ∈? b_visited b) eqn:Hv.
  - split; [|done]. destruct (commits_to cur n || covers_node cur n); [|done].
    unfold dict_keys. rewrite fmap_cons. unfold expand at 2. cbn [fold_left fst].
    unfold enqueue at 2. cbn [fst]. apply bool_decide_eq_true in Hv. by rewrite decide_True.
  - apply bool_decide_eq_false in Hv.
    destruct (commits_to cur n), (covers_node cur n); cbn [orb b_visited b_queue b_cp]; split; try done;
      unfold dict_keys; rewrite fmap_cons; unfold expand at 2; cbn [fold_left fst];
      unfold enqueue at 2; cbn [fst snd]; by rewrite decide_False.
Qed.

Definition to_search (b : blast) : search := Search (b_visited b) (b_queue b) (b_cp b).

Lemma blast_loop_bfs g fuel b : to_search (blast_loop g fuel b) = bfs (children g) fuel (to_search b).
Proof.
  revert b; induction fuel as [|fuel IH]; intros b; [done|]. cbn [blast_loop bfs].
  change (queue (to_search b)) with (b_queue b).
  destruct (b_queue b) as [|cur q] eqn:Hq; [done|]. rewrite IH. f_equal.
  unfold blast_step, bfs_step. change (queue (to_search b)) with (b_queue b). rewrite Hq.
  destruct (blast_visit_fold cur g (Blast (b_visited b) q (b_cp b ++ [cur]) (b_affected b))) as [E1 E2].
  cbn [b_visited b_queue b_cp] in *. change (visited (to_search b)) with (b_visited b).
  rewrite <-E1. unfold to_search. by rewrite E2.
Qed.

Lemma traverse_spec g root :
  let b := traverse g root in
  b_queue b = [] ∧ NoDup (b_cp b) ∧ ∀ x, x ∈ b_cp b ↔ derived g root x.
Proof.
  cbv zeta. pose proof (blast_loop_bfs g (2 + length g) (Blast [root] [root] [] [])) as E.
  destruct (bfs_root_popped (children g) root (root :: dict_keys g) (2 + length g))
    as (Hq & Hnd & Hp).
  - by left.
  - intros x y _ Hy%children_in_dag. by right.
  - cbn [length]. rewrite length_dict_keys. lia.
  - change (start [root]) with (to_search (Blast [root] [root] [] [])) in Hq, Hnd, Hp.
    rewrite <-E in Hq, Hnd, Hp. done.
Qed.

(** Only nodes of the graph that were reached are planned for repair. *)
Lemma b_affected_visit cur g b :
  (∀ x, x ∈ b_affected b → x ∈ b_visited b) →
  ∀ x, x ∈ b_affected (fold_left (blast_visit cur) g b) → x ∈ b_visited (fold_left (blast_visit cur) g b).
Proof.
  revert b; induction g as [|[nid n] g IH]; intros b Hb; [done|]. cbn [fold_left]. apply IH.
  unfold blast_visit. destruct (nid ∈? b_visited b); [done|].
  destruct (commits_to cur n), (covers_node cur n), (carries cur n); simpl; set_solver.
Qed.

Lemma plan_compaction_core sr c s k :
  dag (plan_compaction sr c s k) = dag s ∧ quarantine_ledger (plan_compaction sr c s k) = quarantine_ledger s.
Proof. unfold plan_compaction, update_repair_candidate. repeat case_match; done. Qed.

Lemma plan_all_core sr c ks s :
  dag (fold_left (plan_compaction sr c) ks s) = dag s ∧
  quarantine_ledger (fold_left (plan_compaction sr c) ks s) = quarantine_ledger s.
Proof.
  apply (fold_left_inv (λ s', dag s' = dag s ∧ quarantine_ledger s' = quarantine_ledger s)); [done|].
  intros a k _ [<- <-]. apply plan_compaction_core.
Qed.

Lemma quarantine_all_spec ids s :
  let s' := fold_left (λ s node_id, add_to_quarantine_ledger node_id s) ids s in
  quarantine_ledger s' = fold_left (λ l x, add_new x l) ids (quarantine_ledger s) ∧ dag s' = dag s.
Proof.
  revert s; induction ids as [|x ids IH]; intros s; [done|]. cbn [fold_left].
  destruct (IH (add_to_quarantine_ledger x s)) as [-> ->]. done.
Qed.

Lemma dict_get_dict_of {V} (f : string → V) ids d k :
  dict_get k (fold_left (λ d k, dict_set k (f k) d) ids d) =
    if decide (k ∈ ids) then Some (f k) else dict_get k d.
Proof.
  revert d; induction ids as [|x ids IH]; intros d; [done|]. cbn [fold_left].
  rewrite IH, dict_get_set. repeat case_decide; set_solver.
Qed.

Record wf (s : state) : Prop := {
  wf_dag : dict_ok (dag s);
  wf_key k n : dict_get k (dag s) = Some n → payload_id n = k;
  wf_ledger : NoDup (quarantine_ledger s) }.

Lemma wf_core s s' :
  dag s' = dag s → quarantine_ledger s' = quarantine_ledger s → wf s → wf s'.
Proof. intros D L [A B C]. split; rewrite ?D, ?L; done. Qed.

Lemma commit_node_spec n s k :
  dict_get k (dag (commit_node n s).2) =
    match dict_get k (dag s) with
    | Some m => Some m
    | None => if decide (k = payload_id n) then Some n else None
    end.
Proof.
  unfold commit_node. destruct (dict_mem (payload_id n) (dag s)) eqn:E; cbn [snd].
  - apply dict_mem_true, dict_get_is_Some in E as [m Hm].
    destruct (dict_get k (dag s)) eqn:Hk; [done|]. case_decide; [congruence|done].
  - apply dict_mem_false, dict_get_None in E. change (dag (s <| dag ::= _ |>)) with (dict_set (payload_id n) n (dag s)).
    rewrite dict_get_set. case_decide; subst; [by rewrite E|]. by destruct (dict_get k (dag s)).
Qed.

Lemma wf_commit n s : wf s → wf (commit_node n s).2.
Proof.
  intros [A B C]. split.
  - unfold commit_node. destruct (dict_mem _ _); cbn [snd]; [done|]. by apply dict_ok_set.
  - intros k m. rewrite commit_node_spec.
    destruct (dict_get k (dag s)) eqn:Hk; [intros; simplify_eq; by apply B|].
    case_decide; [|done]. intros; by simplify_eq.
  - unfold commit_node. by destruct (dict_mem _ _).
Qed.

Lemma wf_quarantine e c s : wf s → wf (apply_quarantine_transaction e c s).2.
Proof.
  intros [A B C]. unfold apply_quarantine_transaction. cbn [snd].
  destruct (quarantine_all_spec c (log_quarantine_event e s)) as [L D].
  split; rewrite ?D, ?L; [done..|]. by apply NoDup_fold_add_new.
Qed.

Lemma wf_initial ev : wf (reset_sync ev).
Proof.
  split; simpl.
  - apply NoDup_singleton.
  - intros k n. case_decide; [|done]. intros; by simplify_eq.
  - apply NoDup_singleton.
Qed.

Ltac frame :=
  intros; try match goal with H : _ = Some _ |- _ => apply (inj Some) in H; subst end;
  split; [eapply wf_core; [| |eassumption]; done|by split].

Lemma dict_get_omap {A V} (f : A → V) (g : string → option A) (l : list string) k :
  dict_get k (omap (M:=list) (λ x : string, (λ a, (x, f a)) <$> g x) l) = if decide (k ∈ l) then f <$> g k else None.
Proof.
  induction l as [|x l IH]; [done|]. cbn. destruct (g x) as [v|] eqn:Hx; cbn; rewrite IH; destruct (decide (k = x)) as [->|Hne].
  - by rewrite Hx, decide_True by left.
  - apply decide_ext. set_solver.
  - rewrite Hx. cbn. by repeat case_decide.
  - apply decide_ext. set_solver.
Qed.

Lemma content_hashes_get ids s k :
  wf s → k ∈ ids →
  default "" (dict_get k (get_node_content_hashes ids s)) = default "" (dict_get k (dag s) ≫= content_digest_sha256).
Proof.
  intros _ Hk. unfold get_node_content_hashes. rewrite dict_get_omap, decide_True.
  - by destruct (dict_get k (dag s)).
  - apply elem_of_fold_add_new. by left.
Qed.

#[export] Instance memory_laws : BackendLaws state.
Proof.
  refine {| store_ok := wf |}.
  - by intros s [].
  - by intros s [].
  - intros s k n []; auto.
  - exact wf_commit.
  - intros n s _. unfold Interface.commit_node, memory_backend, commit_node. cbn. by destruct (dict_mem _ _).
  - intros n s k _. exact (commit_node_spec n s k).
  - intros n s. unfold Interface.commit_node, memory_backend, commit_node. cbn. by destruct (dict_mem _ _).
  - done.
  - intros n s _ Hm. unfold Interface.commit_node, memory_backend, commit_node. cbn in *. by rewrite Hm.
  - exact wf_quarantine.
  - intros e c s x. cbn. rewrite (proj1 (quarantine_all_spec c _)), elem_of_fold_add_new. done.
  - intros e c s. exact (proj2 (quarantine_all_spec c _)).
  - done.
  - done.
  - intros r s Hs. cbn. destruct (plan_all_core (has_external_effects (b_cp (traverse (dag s) r)) s)
      (b_cp (traverse (dag s) r)) (b_affected (traverse (dag s) r)) s).
    by apply (wf_core s).
  - intros r s _. split; [apply plan_all_core..|done].
  - intros r s _. eexists. split; [|reflexivity]. apply traverse_spec.
  - intros r s x _. cbn. rewrite elem_of_sorted. apply traverse_spec.
  - intros ids s k _ Hk. cbn. unfold flag, nodes_exist, dict_of. by rewrite dict_get_dict_of, decide_True.
  - intros ids s k Hk. cbn. unfold flag, are_quarantined, dict_of. by rewrite dict_get_dict_of, decide_True.
  - exact content_hashes_get.
  - frame.
  - frame.
  - frame.
  - frame.
  - frame.
  - intros n h now s Hs. cbn. unfold renew_trust. destruct (dict_get n _); [frame|by split].
  - frame.
  - frame.
  - frame.
  - frame.
  - frame.
  - frame.
  - frame.
  - frame.
  - frame.
  - frame.
  - frame.
  - intros k r s Hs. cbn. unfold alias_repair_candidate. destruct (dict_mem k _); [frame|by split].
  - frame.
  - frame.
Defined.

(** ** Properties *)

(** C1: the blast radius of the in-memory store is exactly what carries
    material of the root: sorted, without repetition, an identifier is in it if
    and only if a chain of parent commitments and covers leads to it from the
    root; the graph and the ledger are not changed by computing it. *)
Theorem memory_blast_radius_exact root s :
  wf s →
  let r := compute_blast_radius root s in
  StronglySorted String.le r.1 ∧ NoDup r.1 ∧ (∀ x, x ∈ r.1 ↔ flows (dag s) root x) ∧
  dag r.2 = dag s ∧ quarantine_ledger r.2 = quarantine_ledger s.
Proof.
  intros W r. assert (store_ok s) as Hok by exact W. destruct (blast_core root s Hok) as [D L].
  split_and!; [apply StronglySorted_sorted| | |exact D|exact L].
  - apply NoDup_sorted, traverse_spec.
  - intros x. rewrite <-derived_flows by apply W. exact (blast_spec root s x Hok).
Qed.

Definition demo_dag : dict node :=
  [("root", bare_node "root");
   ("a", bare_node "a" <| parent_dependency_commitments := [Commitment "root" None None] |>);
   ("sum", bare_node "sum" <| covers := ["a"] |>);
   ("other", bare_node "other")].

Definition demo_state : state := initial <| dag := demo_dag |>.

Lemma demo_state_wf : wf demo_state.
Proof.
  split; [by vm_compute; repeat constructor; set_solver| |by vm_compute; repeat constructor; set_solver].
  intros k n H. apply dict_get_Some_elem in H. repeat (apply elem_of_cons in H as [?|H]; [by simplify_eq|]).
  by apply elem_of_nil in H.
Qed.

Lemma memory_blast_radius_exact_witness :
  (compute_blast_radius "root" demo_state).1 = ["a"; "root"; "sum"] ∧
  (∀ x, x ∈ (compute_blast_radius "root" demo_state).1 ↔ flows (dag demo_state) "root" x).
Proof.
  split; [by vm_compute|].
  exact (proj1 (proj2 (proj2 (memory_blast_radius_exact "root" demo_state demo_state_wf)))).
Defined.


(** A plan for one compaction leaves the other records alone and never
    replaces one that is final. *)
Lemma plan_compaction_get sr c s k k' :
  dict_get k' (repair_candidates (plan_compaction sr c s k)) =
    (if decide (k' = k) then
       if terminal (dict_get k (repair_candidates s)) then dict_get k (repair_candidates s)
       else match dict_get k (dag s) with
            | Some n => Some (plan_repair sr (checkpoints s) c n)
            | None => dict_get k (repair_candidates s)
            end
     else dict_get k' (repair_candidates s)).
Proof.
  unfold plan_compaction. destruct (terminal _) eqn:Ht; [by case_decide; subst|].
  destruct (dict_get k (dag s)); [|by case_decide; subst].
  unfold update_repair_candidate. cbn [repair_candidates field_update].
  rewrite dict_get_set. by case_decide; subst.
Qed.

Lemma plan_all_get sr c ks s k :
  let s' := fold_left (plan_compaction sr c) ks s in
  let old := dict_get k (repair_candidates s) in
  let new := dict_get k (repair_candidates s') in
  if terminal old then new = old
  else new = old ∨ ∃ n, dict_get k (dag s) = Some n ∧ new = Some (plan_repair sr (checkpoints s) c n).
Proof.
  cbv zeta.
  apply (fold_left_inv (λ s', dag s' = dag s ∧ checkpoints s' = checkpoints s ∧
    if terminal (dict_get k (repair_candidates s))
    then dict_get k (repair_candidates s') = dict_get k (repair_candidates s)
    else dict_get k (repair_candidates s') = dict_get k (repair_candidates s) ∨
      ∃ n, dict_get k (dag s) = Some n ∧
        dict_get k (repair_candidates s') = Some (plan_repair sr (checkpoints s) c n)));
    [by split_and!; [done..|destruct (terminal _); [done|left]]|].
  intros a k' _ (D & C & Hr). split_and!.
  - by rewrite (proj1 (plan_compaction_core _ _ _ _)).
  - rewrite <-C. unfold plan_compaction. repeat case_match; done.
  - rewrite plan_compaction_get. case_decide as Hk; [subst k'|done]. rewrite D, C.
    destruct (terminal (dict_get k (repair_candidates s))) eqn:Hs; [by rewrite Hr, Hs|].
    destruct (terminal (dict_get k (repair_candidates a))); [done|].
    destruct (dict_get k (dag s)) as [n|] eqn:Hn; [right; eauto|done].
Qed.

(** Computing a blast radius decides the fate of compactions soundly: a
    disposition that is already final is kept, and a compaction newly sent to
    reconstruction has a non-empty frontier of covered nodes outside the blast
    radius, a stored checkpoint of a node of that frontier, and no external
    effect recorded in the blast radius. *)
Theorem memory_repair_plan_sound root s k :
  let r := compute_blast_radius root s in
  let old := dict_get k (repair_candidates s) in
  let new := dict_get k (repair_candidates r.2) in
  (terminal old = true → new = old) ∧
  (∀ p, new = Some p → new ≠ old → disposition p = PENDING_RECONSTRUCTION →
     has_external_effects r.1 s = false ∧ frontier p ≠ [] ∧
     (∀ x, x ∈ frontier p → x ∉ r.1) ∧
     ∃ cp, repair_checkpoint p = Some cp ∧ cp ∈ dict_values (checkpoints s) ∧ target_node_id cp ∈ frontier p).
Proof.
  cbv zeta. unfold compute_blast_radius. cbn [fst snd]. set (b := traverse (dag s) root).
  pose proof (plan_all_get (has_external_effects (b_cp b) s) (b_cp b) (b_affected b) s k) as H. cbv zeta in H.
  destruct (terminal (dict_get k (repair_candidates s))).
  - rewrite H. split; [done|]. intros p _ Hne. done.
  - split; [done|]. intros p Hp Hne Hd. destruct H as [H|(n & Hn & H)]; [done|].
    rewrite H in Hp. injection Hp as <-. apply plan_repair_pending in Hd as (Hsr & _ & Hne' & HF & Hcp).
    split_and!; [|done| |done].
    + rewrite <-Hsr. unfold has_external_effects. apply eq_true_iff_eq. rewrite !existsb_exists.
      setoid_rewrite bool_decide_eq_true. by setoid_rewrite elem_of_sorted.
    + intros x Hx. rewrite elem_of_sorted. by apply HF.
Qed.

(** An exposed or declared replacement for a tainted node is one the
    gateway may offer: it stands for a quarantined ancestor (reached through
    quarantined nodes), and it is either a continuity node whose content names
    that ancestor, or a declared substitute that is in the graph and not
    quarantined; the search for ancestors always ends. *)
Theorem memory_replacement_sound tainted s r :
  find_continuity_replacement tainted s = Some r →
  rep_for r ∈ quarantine_ledger s ∧ q_ancestor (parents_of s) (quarantine_ledger s) tainted (rep_for r) ∧
  ((∃ n, dict_get (rep_node_id r) (dag s) = Some n ∧
      dict_get "original_target" (content_of n) = Some (JStr (rep_for r))) ∨
   (rep_node_id r ∈ dict_keys (dag s) ∧ rep_node_id r ∉ quarantine_ledger s)).
Proof.
  unfold find_continuity_replacement.
  destruct (quarantined_ancestors_spec (parents_of s) (quarantine_ledger s) tainted) as (cand & -> & Hc).
  cbn [snd]. intros (x & Hx & Hs)%first_some_elem. apply Hc in Hx as [Hq Ha].
  destruct (search_replacement_spec _ _ _ _ _ _ _ Hs) as [Hf Hr]. rewrite Hf. naive_solver.
Qed.

Definition demo_tainted : state :=
  demo_state <| quarantine_ledger := ["root"; "a"] |>
    <| substitute_declarations := [("root", SubstituteDeclaration "root" "other" "2026" "admin")] |>.

Lemma memory_replacement_sound_witness :
  find_continuity_replacement "a" demo_tainted
    = Some (Replacement "other" "root" None (Some "M3_DECLARED_SUBSTITUTE")) ∧
  "root" ∈ quarantine_ledger demo_tainted.
Proof.
  split; [by vm_compute|].
  exact (proj1 (memory_replacement_sound "a" demo_tainted
    (Replacement "other" "root" None (Some "M3_DECLARED_SUBSTITUTE")) ltac:(by vm_compute))).
Defined.

(** The interval gap of a compaction in the in-memory store is sorted and is
    exactly what lies strictly between its covers: a node it does not cover that
    descends by parent commitments from a covered node and from which a covered
    node descends. *)
Theorem memory_covers_gap_exact covers s x :
  wf s →
  StronglySorted String.le (covers_gap covers s) ∧
  (x ∈ covers_gap covers s ↔
    (x ∉ covers) ∧ ∃ c1 c2, c1 ∈ covers ∧ c2 ∈ covers ∧ lineage (dag s) c1 x ∧ lineage (dag s) x c2).
Proof.
  intros W. split; [|by apply covers_interval_gap_spec, W].
  unfold covers_gap, compute_covers_interval_gap. destruct covers; [constructor|apply StronglySorted_sorted].
Qed.

Definition demo_chain : state :=
  initial <| dag ::= dict_set "c" (bare_node "c" <| parent_dependency_commitments := [Commitment "b" None None] |>) ∘
                     dict_set "b" (bare_node "b" <| parent_dependency_commitments := [Commitment "a" None None] |>) ∘
                     dict_set "a" (bare_node "a") |>.

Lemma demo_chain_wf : wf demo_chain.
Proof.
  split; [by vm_compute; repeat constructor; set_solver| |by vm_compute; repeat constructor; set_solver].
  intros k n H. apply dict_get_Some_elem in H. repeat (apply elem_of_cons in H as [?|H]; [by simplify_eq|]).
  by apply elem_of_nil in H.
Qed.

Lemma memory_covers_gap_exact_witness :
  covers_gap ["a"; "c"] demo_chain = ["b"] ∧
  ("b" ∈ covers_gap ["a"; "c"] demo_chain ↔
    ("b" ∉ ["a"; "c"]) ∧ ∃ c1 c2, c1 ∈ ["a"; "c"] ∧ c2 ∈ ["a"; "c"] ∧
      lineage (dag demo_chain) c1 "b" ∧ lineage (dag demo_chain) "b" c2).
Proof. split; [by vm_compute|]. exact (proj2 (memory_covers_gap_exact ["a"; "c"] demo_chain "b" demo_chain_wf)). Defined.
