(* ===== verification/Sqlite.v ===== *)
(** * The SQLite backend ([SqliteStateBackend])

    A table is a list of rows in insertion order; a table with a text primary
    key is a dictionary.  A payload is stored as JSON text, so nothing is
    shared with the handlers.  The graph's edges are materialised in a table
    of their own when a node is committed: a row per parent and a [COVERS] row
    per covered node, at most one row per pair of nodes. *)
From S2P Require Import Prelude Dict Types Encoding Datetime Graph Lineage Interface Memory.

Record node_row := NodeRow { payload_json : node; content_hash : string; commitment_digest : string }.

Record edge_row := EdgeRow { child_id : string; parent_id : string; row_class : string }.

(* src: src/sqlite_backend.py SqliteStateBackend.init_db *)
Record db := Db {
  nodes : dict node_row;
  edges : list edge_row;
  t_ledger : list string;
  t_events : dict quarantine_event;
  t_repairs : dict repair_record;
  t_checkpoints : dict checkpoint_record;
  t_effects : dict effect_record;
  t_horizon : dict horizon_record;
  t_recurrence : dict recurrence_event;
  t_signals : list signal_attempt;
  t_withdrawals : dict withdrawal_record;
  t_calibrations : dict calibration_run;
  t_shadow : list shadow_decision;
  t_evidence : dict reintegration_evidence;
  t_exposures : dict exposure;
  t_substitutes : dict substitute_declaration;
  t_detector : dict (detector_event * string);
  t_tainted : list rejection;
  depth_limit : nat }.

#[export] Instance db_rebuild : Rebuild db := λ s,
  Db (nodes s) (edges s) (t_ledger s) (t_events s) (t_repairs s) (t_checkpoints s) (t_effects s)
    (t_horizon s) (t_recurrence s) (t_signals s) (t_withdrawals s) (t_calibrations s) (t_shadow s)
    (t_evidence s) (t_exposures s) (t_substitutes s) (t_detector s) (t_tainted s) (depth_limit s).

(* src: src/sqlite_backend.py SqliteStateBackend.__init__ *)
Definition empty_db (max_traversal_depth : nat) : db :=
  Db [] [] [] [] [] [] [] [] [] [] [] [] [] [] [] [] [] [] max_traversal_depth.

(** [BEGIN IMMEDIATE .. ROLLBACK]: the store is as it was before the body. *)
(* src: src/sqlite_backend.py SqliteStateBackend.transaction *)
#[export] Instance sqlite_transactional : Transactional db := λ before after, before.

#[export] Instance sqlite_rollback : RollbackLaws db.
Proof. by intros s s'. Qed.

(** ** Graph and ledger *)
(* src: src/sqlite_backend.py SqliteStateBackend.get_dag *)
Definition get_dag (s : db) : dict node := dict_map payload_json (nodes s).

(* src: src/sqlite_backend.py SqliteStateBackend._set_repair_candidate *)
Definition set_repair_candidate (node_id : string) (data : repair_record) (s : db) : db :=
  s <| t_repairs ::= insert_or_replace node_id data |>.

(* src: src/sqlite_backend.py 243-250 SqliteStateBackend.commit_node *)
Definition commitment_of (payload : node) : string :=
  let sorted_deps := sorted
    ((λ p, (parent_node_id p +:+ ":" +:+ default "" (parent_content_hash p))%string)
       <$> parent_dependency_commitments payload) in
  sha256_hex (default "" (content_digest_sha256 payload) +:+ String.concat "" sorted_deps)%string.

(** [INSERT OR IGNORE INTO edges]: the primary key is the pair of nodes. *)
Definition insert_edge (e : edge_row) (es : list edge_row) : list edge_row :=
  if existsb (λ e', bool_decide (child_id e' = child_id e) && bool_decide (parent_id e' = parent_id e)) es
  then es else es ++ [e].

(* src: src/sqlite_backend.py 263-274 SqliteStateBackend.commit_node *)
Definition edges_of (payload : node) : list edge_row :=
  ((λ p, EdgeRow (payload_id payload) (parent_node_id p) (default "MATERIAL" (edge_class p)))
     <$> parent_dependency_commitments payload)
  ++ ((λ c, EdgeRow (payload_id payload) c "COVERS") <$> covers payload).

(* src: src/sqlite_backend.py SqliteStateBackend.commit_node *)
Definition commit_node (payload : node) (s : db) : bool * db :=
  if dict_mem (payload_id payload) (nodes s) then (false, s)
  else
    let row := NodeRow payload (default "" (content_digest_sha256 payload)) (commitment_of payload) in
    (true, s <| nodes ::= insert_or_ignore (payload_id payload) row |>
             <| edges ::= fold_left (λ es e, insert_edge e es) (edges_of payload) |>).

(* src: src/sqlite_backend.py SqliteStateBackend.log_quarantine_event *)
Definition log_quarantine_event (event : quarantine_event) (s : db) : db :=
  s <| t_events ::= insert_or_replace (quarantine_event_id event) event |>.

(* src: src/sqlite_backend.py SqliteStateBackend.add_to_quarantine_ledger *)
Definition add_to_quarantine_ledger (node_id : string) (s : db) : db :=
  s <| t_ledger ::= add_new node_id |>.

(* src: src/sqlite_backend.py SqliteStateBackend.apply_quarantine_transaction *)
Definition apply_quarantine_transaction (event : quarantine_event) (c_p : list string) (s : db)
    : quarantine_event * db :=
  let event := event <| max_traversal_depth := Some (depth_limit s) |> in
  (event, fold_left (λ s node_id, add_to_quarantine_ledger node_id s) c_p (log_quarantine_event event s)).

(** ** Blast radius *)

(** The children of a node in the edge table. *)
(* src: src/sqlite_backend.py 346-348 SqliteStateBackend.compute_blast_radius *)
Definition adjacency (es : list edge_row) (node_id : string) : list string :=
  child_id <$> List.filter (λ e, bool_decide (parent_id e = node_id)) es.

(** Sparse graphs: the whole edge table, every level up to the depth limit. *)
(* src: src/sqlite_backend.py 342-361 SqliteStateBackend.compute_blast_radius *)
Definition sparse_walk (root : string) (s : db) : list string :=
  levels (adjacency (edges s)) (λ _, false) (depth_limit s) [root] [root].

(** Dense graphs: the same levels by queries, until every node is reached. *)
(* src: src/sqlite_backend.py 362-402 SqliteStateBackend.compute_blast_radius *)
Definition dense_walk (root : string) (s : db) : list string :=
  let total_expected := length (nodes s) + (if dict_mem root (nodes s) then 0 else 1) in
  levels (adjacency (edges s)) (λ v, length v =? total_expected) (depth_limit s) [root] [root].

(* src: src/sqlite_backend.py 333-341 SqliteStateBackend.compute_blast_radius *)
Definition walk (root : string) (s : db) : list string :=
  if (Z.of_nat (length (edges s)) <=? 10000)%Z then sparse_walk root s else dense_walk root s.

(* src: src/sqlite_backend.py 404-425 SqliteStateBackend.compute_blast_radius *)
Definition affected_compactions (c_p : list string) (s : db) : list string :=
  fold_left (λ l x, add_new x l)
    (child_id <$> List.filter (λ e, (parent_id e ∈? c_p) && bool_decide (row_class e = "CARRIED")) (edges s)) [].

(* src: src/sqlite_backend.py SqliteStateBackend.has_external_effects *)
Definition has_external_effects (node_ids : list string) (s : db) : bool :=
  existsb (λ e, eff_node_id e ∈? node_ids) (dict_values (t_effects s)).

(* src: src/sqlite_backend.py 433-496 SqliteStateBackend.compute_blast_radius *)
Definition plan_compaction (semantic_rollback : bool) (c_p : list string) (s : db) (comp_node : string) : db :=
  if terminal (dict_get comp_node (t_repairs s)) then s
  else if semantic_rollback then
    set_repair_candidate comp_node (irreducible "semantic_rollback_hazard"
      "Quarantined subgraph contains irreversible external effects") s
  else
    match dict_get comp_node (get_dag s) with
    | None => s
    | Some n => set_repair_candidate comp_node (plan_repair false (t_checkpoints s) c_p n) s
    end.

(* src: src/sqlite_backend.py 333-498 SqliteStateBackend.compute_blast_radius *)
Definition compute_blast_radius (poisoned_root_id : string) (s : db) : list string * db :=
  let c_p := sorted (walk poisoned_root_id s) in
  (c_p, fold_left (plan_compaction (has_external_effects c_p s) c_p) (affected_compactions c_p s) s).

(** ** Checkpoints, effects, horizons, withdrawals *)
(* src: src/sqlite_backend.py SqliteStateBackend.add_checkpoint *)
Definition add_checkpoint (checkpoint : checkpoint_record) (s : db) : db :=
  s <| t_checkpoints ::= insert_or_replace (checkpoint_id checkpoint) checkpoint |>.

(* src: src/sqlite_backend.py SqliteStateBackend.add_external_effect *)
Definition add_external_effect (idempotency_key node_id effect_type : string) (now : Z) (s : db) : db :=
  s <| t_effects ::= insert_or_replace idempotency_key (Effect node_id effect_type (iso_z now)) |>.

(* src: src/sqlite_backend.py SqliteStateBackend.check_external_effect *)
Definition check_external_effect (idempotency_key : string) (s : db) : bool :=
  dict_mem idempotency_key (t_effects s).

(* src: src/sqlite_backend.py SqliteStateBackend.reset *)
Definition reset (s : db) : db :=
  let cleared := Db [] [] [] [] [] [] [] [] [] [] [] [] (t_shadow s) (t_evidence s) [] (t_substitutes s)
                    (t_detector s) (t_tainted s) (depth_limit s) in
  (commit_node (bare_node "clean-parent-1") cleared).2 <| t_ledger ::= add_new "quarantined-node-A" |>.

(* src: src/sqlite_backend.py SqliteStateBackend.record_reintegration *)
Definition record_reintegration (node_id predecessor_id : string) (horizon_seconds now : Z) (s : db) : db :=
  s <| t_horizon ::= insert_or_replace node_id
    (Horizon (Some (iso_z now)) (iso_z (plus_seconds now horizon_seconds)) predecessor_id 0) |>.

(* src: src/sqlite_backend.py SqliteStateBackend.record_reintegration_evidence *)
Definition record_reintegration_evidence (node_id pre_digest post_digest : string)
    (gates : list (string * bool * string)) (now : Z) (s : db) : db :=
  s <| t_evidence ::= insert_or_replace node_id (ReintegrationEvidence pre_digest post_digest gates (iso_z now)) |>.

(* src: src/sqlite_backend.py SqliteStateBackend.get_active_horizon_set *)
Definition get_active_horizon_set (now : Z) (s : db) : dict horizon_record :=
  dict_map (λ h, h <| admitted_at_utc := None |>)
    (List.filter (λ kv, str_lt (iso_z now) (trust_expires_utc kv.2)) (t_horizon s)).

(* src: src/sqlite_backend.py SqliteStateBackend.get_expired_horizon_set *)
Definition get_expired_horizon_set (now : Z) (s : db) : list string :=
  dict_keys (List.filter (λ kv, str_le (trust_expires_utc kv.2) (iso_z now)) (t_horizon s)).

(* src: src/sqlite_backend.py SqliteStateBackend.renew_trust *)
Definition renew_trust (node_id : string) (horizon_seconds now : Z) (s : db) : db :=
  s <| t_horizon ::= update_row node_id
    (λ h, h <| trust_expires_utc := iso_z (plus_seconds now horizon_seconds) |>
            <| renewal_count := (renewal_count h + 1)%Z |>) |>.

Fixpoint withdraw_all (event : recurrence_event) (now : Z) (i : nat) (w_r : list string)
    (l : dict withdrawal_record) : dict withdrawal_record :=
  match w_r with
  | [] => l
  | node_id :: w_r =>
    let reason := if decide (i = 0) then "DIRECTLY_IMPLICATED" else "UNEXAMINED_DEPENDENT" in
    withdraw_all event now (S i) w_r
      (insert_or_ignore node_id (Withdrawal (iso_z now) (re_event_id event) reason) l)
  end.

(* src: src/sqlite_backend.py SqliteStateBackend.apply_withdrawal_transaction *)
Definition apply_withdrawal_transaction (event : recurrence_event) (w_r : list string) (now : Z) (s : db) : db :=
  s <| t_recurrence ::= insert_or_replace (re_event_id event) event |>
    <| t_withdrawals ::= withdraw_all event now 0 w_r |>.

(* src: src/sqlite_backend.py SqliteStateBackend.record_calibration_run *)
Definition record_calibration_run (run : calibration_run) (s : db) : db :=
  s <| t_calibrations ::= insert_or_replace (run_id run) run |>.

(** ** Signals and decisions *)
(* src: src/sqlite_backend.py SqliteStateBackend.record_signal_attempt *)
Definition record_signal_attempt (signal_source node_id signal_kind outcome : string) (now : Z) (s : db) : db :=
  s <| t_signals ::= λ l, l ++ [SignalAttempt signal_source node_id signal_kind outcome (iso_z now)] |>.

(* src: src/sqlite_backend.py SqliteStateBackend.count_recent_signals *)
Definition count_recent_signals (signal_source since_utc : string) (s : db) : Z :=
  count_if (λ a, bool_decide (att_signal_source a = signal_source) && str_lt since_utc (att_recorded_at_utc a))
    (t_signals s).

(* src: src/sqlite_backend.py SqliteStateBackend.count_recent_signals_global *)
Definition count_recent_signals_global (since_utc : string) (s : db) : Z :=
  count_if (λ a, str_lt since_utc (att_recorded_at_utc a)) (t_signals s).

(** [GROUP BY outcome] *)
(* src: src/sqlite_backend.py SqliteStateBackend.get_signal_outcome_counts *)
Definition get_signal_outcome_counts (s : db) : dict Z :=
  (λ o, (o, count_if (λ a, bool_decide (att_outcome a = o)) (t_signals s)))
    <$> fold_left (λ l x, add_new x l) (att_outcome <$> t_signals s) [].

(** A plain [INSERT]: [None] is the error for an identifier that is taken. *)
(* src: src/sqlite_backend.py SqliteStateBackend.record_shadow_decision *)
Definition record_shadow_decision (d : shadow_decision) (s : db) : option db :=
  if existsb (λ d', bool_decide (decision_id d' = decision_id d)) (t_shadow s) then None
  else Some (s <| t_shadow ::= λ l, l ++ [d] |>).

(* src: src/governor_service.py 2284-2289 get_shadow_report *)
Definition shadow_decision_counts (s : db) : Z * Z :=
  (Z.of_nat (length (t_shadow s)), count_if would_have_blocked (t_shadow s)).

(** ** Queries on nodes *)

(** [{k: k in found for k in dict.fromkeys(ids)}] *)
Definition membership (found : string → bool) (ids : list string) : dict bool :=
  (λ k, (k, found k)) <$> fold_left (λ l x, add_new x l) ids [].

(* src: src/sqlite_backend.py SqliteStateBackend.nodes_exist *)
Definition nodes_exist (node_ids : list string) (s : db) : dict bool :=
  membership (λ k, dict_mem k (nodes s)) node_ids.

(* src: src/sqlite_backend.py SqliteStateBackend.get_node_content_hashes *)
Definition get_node_content_hashes (node_ids : list string) (s : db) : dict string :=
  dict_map content_hash (List.filter (λ kv, kv.1 ∈? node_ids) (nodes s)).

(* src: src/sqlite_backend.py SqliteStateBackend.are_quarantined *)
Definition are_quarantined (node_ids : list string) (s : db) : dict bool :=
  membership (λ k, k ∈? t_ledger s) node_ids.

(* src: src/sqlite_backend.py SqliteStateBackend.compute_quarantine_digest *)
Definition compute_quarantine_digest (additional_node_ids : list string) (s : db) : string :=
  list_digest (sorted (fold_left (λ l x, add_new x l) additional_node_ids (t_ledger s))).

(* src: src/sqlite_backend.py SqliteStateBackend.compute_state_digest *)
Definition compute_state_digest (text : PayloadText) (s : db) : string :=
  let rows := merge_sort key_le ((λ kv, (kv.1, commitment_digest kv.2)) <$> nodes s) in
  sha256_hex (json_dumps (JObj
    [("nodes", JArr ((λ kv, JArr [JStr kv.1; JStr kv.2]) <$> rows));
     ("quarantine", JArr (JStr <$> sorted (t_ledger s)))])).

Definition edge_parents (es : list edge_row) (node_id : string) : list string :=
  parent_id <$> List.filter (λ e, bool_decide (child_id e = node_id)) es.

(** The recursive query: what the covered nodes reach downwards and upwards
    over every edge row, less the covered nodes. *)
(* src: src/sqlite_backend.py SqliteStateBackend.compute_covers_interval_gap *)
Definition covers_gap (covers : list string) (s : db) : list string :=
  match covers with
  | [] => []
  | _ =>
    let base := List.filter (λ c, dict_mem c (nodes s)) covers in
    let fuel := length base + length (base ++ (child_id <$> edges s) ++ (parent_id <$> edges s)) in
    let descendants := visited (bfs (adjacency (edges s)) fuel (start base)) in
    let ancestors := visited (bfs (edge_parents (edges s)) fuel (start base)) in
    sorted (List.filter (λ x, (x ∈? ancestors) && negb (x ∈? base)) descendants)
  end.

(** ** Continuity, detectors, tainted actions *)
(* src: src/sqlite_backend.py SqliteStateBackend.record_continuity_exposure *)
Definition record_continuity_exposure (exposure_id node_id substitute_status : string)
    (quarantine_non_empty : bool) (exposure_record : dict json) (now : Z) (s : db) : db :=
  s <| t_exposures ::= insert_or_ignore exposure_id
    (Exposure exposure_id node_id substitute_status (iso_z now) quarantine_non_empty (JObj exposure_record)) |>.

Definition by_time_le {A} (time : A → string) (a b : A) : Prop := String.le (time a) (time b).
#[export] Instance by_time_le_dec {A} (time : A → string) : RelDecision (by_time_le time) :=
  λ a b, decide (String.le (time a) (time b)).

(* src: src/sqlite_backend.py SqliteStateBackend.get_continuity_exposures *)
Definition get_continuity_exposures (s : db) : list exposure :=
  merge_sort (by_time_le exposed_at_utc) (dict_values (t_exposures s)).

(* src: src/sqlite_backend.py SqliteStateBackend.add_substitute_declaration *)
Definition add_substitute_declaration (declaration : substitute_declaration) (s : db) : db :=
  s <| t_substitutes ::= insert_or_replace (sub_target_node_id declaration) declaration |>.

(* src: src/sqlite_backend.py SqliteStateBackend.record_detector_event *)
Definition record_detector_event (event : detector_event) (now : Z) (s : db) : db :=
  s <| t_detector ::= insert_or_ignore (de_event_id event) (event, iso_z now) |>.

(* src: src/sqlite_backend.py SqliteStateBackend.get_detector_events *)
Definition get_detector_events (s : db) : list detector_event :=
  (merge_sort (by_time_le snd) (dict_values (t_detector s))).*1.

(* src: src/sqlite_backend.py SqliteStateBackend.get_critical_dependents *)
Definition get_critical_dependents (quarantined_node_ids : list string) (s : db) : list critical_dependent :=
  match quarantined_node_ids with
  | [] => []
  | _ => critical_dependents (get_dag s) quarantined_node_ids
  end.

(* src: src/sqlite_backend.py SqliteStateBackend.record_tainted_rejection *)
Definition record_tainted_rejection (node_id parent_id rejected_at author : string) (s : db) : db :=
  s <| t_tainted ::= λ l, l ++ [new_rejection node_id parent_id rejected_at author] |>.

(** [UPDATE .. WHERE ..]: every row that satisfies the condition. *)
Definition update_where {A} (p : A → bool) (f : A → A) (l : list A) : list A :=
  List.map (λ r, if p r then f r else r) l.

(* src: src/sqlite_backend.py SqliteStateBackend.record_tainted_offer *)
Definition record_tainted_offer (rejection_node_id rep_id rep_type : string) (s : db) : db :=
  s <| t_tainted ::= update_where
    (λ r, bool_decide (rej_node_id r = rejection_node_id) && negb (offered r))
    (λ r, r <| offered := true |> <| offered_replacement := Some rep_id |> <| replacement_type := Some rep_type |>) |>.

(* src: src/sqlite_backend.py SqliteStateBackend.record_tainted_completion *)
Definition record_tainted_completion (rejection_node_id completed_by_node_id : string) (s : db) : db :=
  s <| t_tainted ::= update_where
    (λ r, bool_decide (rej_node_id r = rejection_node_id) && negb (completed r))
    (complete_rejection completed_by_node_id) |>.

(** The pending rows are read once; each that qualifies completes every open
    row of its node. *)
(* src: src/sqlite_backend.py SqliteStateBackend.check_retry_completion *)
Definition check_retry_completion (payload : node) (s : db) : db :=
  fold_left (λ s r, record_tainted_completion (rej_node_id r) (payload_id payload) s)
    (List.filter (completes payload) (t_tainted s)) s.

(* src: src/sqlite_backend.py SqliteStateBackend.get_tainted_action_stats *)
Definition get_tainted_action_stats (s : db) : tainted_action_stats := tainted_action_stats_of (t_tainted s).

(* src: src/sqlite_backend.py SqliteStateBackend.find_continuity_replacement *)
Definition find_continuity_replacement (tainted_node_id : string) (s : db) : option replacement :=
  let parents := edge_parents (edges s) in
  let fuel := ancestor_fuel parents (t_ledger s) in
  let candidates := (quarantined_ancestors parents (t_ledger s) fuel [] [tainted_node_id] []).2 in
  first_some (search_replacement None (get_dag s) (dict_values (t_exposures s)) (t_substitutes s) (t_ledger s))
    candidates.

(** Nothing is shared with a store that keeps JSON text. *)
#[export] Instance sqlite_backend : Backend db := {|
  Interface.traversal_depth := λ s, Some (depth_limit s);
  Interface.get_dag := get_dag;
  Interface.get_quarantine_ledger := t_ledger;
  Interface.get_repair_candidates := t_repairs;
  Interface.update_repair_candidate := set_repair_candidate;
  Interface.commit_node := commit_node;
  Interface.log_quarantine_event := log_quarantine_event;
  Interface.add_to_quarantine_ledger := add_to_quarantine_ledger;
  Interface.apply_quarantine_transaction := apply_quarantine_transaction;
  Interface.get_quarantine_events := λ s, dict_values (t_events s);
  Interface.compute_blast_radius := compute_blast_radius;
  Interface.add_checkpoint := add_checkpoint;
  Interface.get_checkpoints := t_checkpoints;
  Interface.add_external_effect := add_external_effect;
  Interface.check_external_effect := check_external_effect;
  Interface.has_external_effects := has_external_effects;
  Interface.reset := reset;
  Interface.record_reintegration := record_reintegration;
  Interface.record_reintegration_evidence := record_reintegration_evidence;
  Interface.get_active_horizon_set := get_active_horizon_set;
  Interface.get_expired_horizon_set := get_expired_horizon_set;
  Interface.renew_trust := renew_trust;
  Interface.apply_withdrawal_transaction := apply_withdrawal_transaction;
  Interface.get_withdrawal_ledger := t_withdrawals;
  Interface.record_calibration_run := λ r s, Some (record_calibration_run r s);
  Interface.get_calibration_runs := λ s, dict_values (t_calibrations s);
  Interface.record_signal_attempt := record_signal_attempt;
  Interface.count_recent_signals := λ src since s, Some (count_recent_signals src since s);
  Interface.count_recent_signals_global := λ since s, Some (count_recent_signals_global since s);
  Interface.get_signal_outcome_counts := get_signal_outcome_counts;
  Interface.record_shadow_decision := record_shadow_decision;
  Interface.shadow_decision_counts := shadow_decision_counts;
  Interface.nodes_exist := nodes_exist;
  Interface.are_quarantined := are_quarantined;
  Interface.get_node_content_hashes := get_node_content_hashes;
  Interface.covers_gap := covers_gap;
  Interface.compute_quarantine_digest := compute_quarantine_digest;
  Interface.compute_state_digest := compute_state_digest;
  Interface.record_continuity_exposure := record_continuity_exposure;
  Interface.get_continuity_exposures := get_continuity_exposures;
  Interface.add_substitute_declaration := add_substitute_declaration;
  Interface.get_substitute_declarations := t_substitutes;
  Interface.record_detector_event := record_detector_event;
  Interface.get_detector_events := get_detector_events;
  Interface.get_critical_dependents := get_critical_dependents;
  Interface.record_tainted_rejection := λ n p t a s, Some (record_tainted_rejection n p t a s);
  Interface.record_tainted_offer := record_tainted_offer;
  Interface.record_tainted_completion := record_tainted_completion;
  Interface.check_retry_completion := check_retry_completion;
  Interface.get_tainted_action_stats := get_tainted_action_stats;
  Interface.find_continuity_replacement := λ n s, Some (find_continuity_replacement n s);
  Interface.alias_repair_candidate := λ _ _ s, s;
  Interface.alias_quarantine_event := λ _ s, s;
  Interface.alias_detector_event := λ _ s, s |}.

(** ** Invariant: the edge table is the graph *)
Lemma dict_get_get_dag k s : dict_get k (get_dag s) = payload_json <$> dict_get k (nodes s).
Proof. apply dict_get_map. Qed.

Lemma dict_keys_get_dag s : dict_keys (get_dag s) = dict_keys (nodes s).
Proof. apply dict_keys_map. Qed.

Definition linked (x y : string) (es : list edge_row) : Prop := ∃ e, e ∈ es ∧ child_id e = y ∧ parent_id e = x.

Lemma elem_of_adjacency es x y : y ∈ adjacency es x ↔ linked x y es.
Proof.
  unfold adjacency, linked. rewrite list_elem_of_fmap. setoid_rewrite elem_of_bfilter.
  setoid_rewrite bool_decide_eq_true. naive_solver.
Qed.

Lemma linked_insert e es x y :
  linked x y (insert_edge e es) ↔ linked x y es ∨ (child_id e = y ∧ parent_id e = x).
Proof.
  unfold insert_edge. destruct (existsb _ es) eqn:E.
  - split; [by left|]. intros [H|[<- <-]]; [done|].
    apply existsb_exists in E as (e' & Hin & He').
    rewrite andb_true_iff, !bool_decide_eq_true in He'. exists e'.
    rewrite list_elem_of_In. tauto.
  - unfold linked. setoid_rewrite elem_of_app. setoid_rewrite list_elem_of_singleton. naive_solver.
Qed.

Lemma linked_insert_all new es x y :
  linked x y (fold_left (λ es e, insert_edge e es) new es) ↔ linked x y es ∨ linked x y new.
Proof.
  revert es; induction new as [|e new IH]; intros es; cbn [fold_left].
  - unfold linked. set_solver.
  - rewrite IH, linked_insert. unfold linked. setoid_rewrite elem_of_cons. naive_solver.
Qed.

Lemma linked_edges_of n x y :
  linked x y (edges_of n) ↔ y = payload_id n ∧ (x ∈ parent_ids n ∨ x ∈ covers n).
Proof.
  unfold linked, edges_of, parent_ids. setoid_rewrite elem_of_app. rewrite list_elem_of_fmap. split.
  - intros (e & [He|He] & <- & <-); apply list_elem_of_fmap in He as (p & -> & Hp); simpl; eauto.
  - intros [-> [(p & -> & Hp)|Hx]].
    + eexists. split; [left; by apply list_elem_of_fmap_2|done].
    + eexists. split; [right; by apply list_elem_of_fmap_2|done].
Qed.

Record wf (s : db) : Prop := {
  wf_nodes : dict_ok (nodes s);
  wf_key k r : dict_get k (nodes s) = Some r → payload_id (payload_json r) = k;
  wf_ledger : NoDup (t_ledger s);
  wf_edges x y : linked x y (edges s) ↔
    ∃ r, dict_get y (nodes s) = Some r ∧ (x ∈ parent_ids (payload_json r) ∨ x ∈ covers (payload_json r));
  wf_hash k r : dict_get k (nodes s) = Some r → content_hash r = default "" (content_digest_sha256 (payload_json r)) }.

Lemma db_wf_core s s' :
  nodes s' = nodes s → edges s' = edges s → t_ledger s' = t_ledger s → wf s → wf s'.
Proof. intros N E L [A B C D F]. split; rewrite ?N, ?L, ?E; done. Qed.

Lemma wf_dag_ok s : wf s → dict_ok (get_dag s).
Proof. intros W. unfold dict_ok. rewrite dict_keys_get_dag. apply W. Qed.

Lemma adjacency_children s : wf s → ∀ x y, y ∈ adjacency (edges s) x ↔ y ∈ children (get_dag s) x.
Proof.
  intros W x y. rewrite elem_of_adjacency, (wf_edges _ W), elem_of_children by by apply wf_dag_ok.
  setoid_rewrite dict_get_get_dag. destruct (dict_get y (nodes s)); naive_solver.
Qed.

Lemma db_commit_node_spec n s k :
  dict_get k (get_dag (commit_node n s).2) =
    match dict_get k (get_dag s) with
    | Some m => Some m
    | None => if decide (k = payload_id n) then Some n else None
    end.
Proof.
  rewrite !dict_get_get_dag. unfold commit_node.
  destruct (dict_mem (payload_id n) (nodes s)) eqn:E; cbn [snd].
  - apply dict_mem_true, dict_get_is_Some in E as [m Hm].
    destruct (dict_get k (nodes s)) eqn:Hk; [done|]. case_decide; [congruence|done].
  - cbn [nodes field_update]. rewrite insert_or_ignore_get.
    destruct (dict_get k (nodes s)); [done|]. by case_decide.
Qed.

Lemma db_wf_commit n s : wf s → wf (commit_node n s).2.
Proof.
  intros W. pose proof W as [A B C D F]. unfold commit_node.
  destruct (dict_mem (payload_id n) (nodes s)) eqn:E; [done|]. cbn [snd].
  apply dict_mem_false, dict_get_None in E.
  split; cbn [nodes edges t_ledger field_update].
  - by apply insert_or_ignore_ok.
  - intros k r. rewrite insert_or_ignore_get.
    destruct (dict_get k (nodes s)) eqn:Hk; [intros; simplify_eq; by apply B|].
    case_decide; [|done]. intros; by simplify_eq/=.
  - done.
  - intros x y. rewrite linked_insert_all, linked_edges_of, D, insert_or_ignore_get.
    destruct (dict_get y (nodes s)) eqn:Hy.
    + split; [|naive_solver]. intros [?|[-> _]]; [naive_solver|congruence].
    + case_decide; subst; [|naive_solver]. split; [|naive_solver]. intros [?|[_ ?]]; [naive_solver|eauto].
  - intros k r. rewrite insert_or_ignore_get.
    destruct (dict_get k (nodes s)) eqn:Hk; [intros; simplify_eq; by eapply F|].
    case_decide; [|done]. intros; by simplify_eq/=.
Qed.

Lemma db_quarantine_all_spec ids s :
  let s' := fold_left (λ s node_id, add_to_quarantine_ledger node_id s) ids s in
  t_ledger s' = fold_left (λ l x, add_new x l) ids (t_ledger s) ∧ nodes s' = nodes s ∧ edges s' = edges s ∧
  depth_limit s' = depth_limit s.
Proof.
  revert s; induction ids as [|x ids IH]; intros s; [done|]. cbn [fold_left].
  destruct (IH (add_to_quarantine_ledger x s)) as (-> & -> & -> & ->). done.
Qed.

Lemma db_wf_quarantine e c s : wf s → wf (apply_quarantine_transaction e c s).2.
Proof.
  intros [A B C D F]. unfold apply_quarantine_transaction. cbn [snd].
  set (s0 := log_quarantine_event _ s). destruct (db_quarantine_all_spec c s0) as (L & N & E & _).
  split; rewrite ?N, ?L; [done|done| | |exact F].
  - by apply NoDup_fold_add_new.
  - intros x y. rewrite ?E, ?N. apply D.
Qed.

(** ** Both walks find what is at most [depth_limit] edges away *)
Lemma walk_exact enough root s :
  wf s →
  (∀ k v cur, level_inv (adjacency (edges s)) root k v cur → enough v = true →
     ∀ x y, x ∈ v → y ∈ adjacency (edges s) x → y ∈ v) →
  ∀ x, x ∈ levels (adjacency (edges s)) enough (depth_limit s) [root] [root] ↔
    bsteps (edge (children (get_dag s))) (depth_limit s) root x.
Proof.
  intros W He x. rewrite (levels_correct _ enough root (depth_limit s) 0 [root] [root] He).
  - split; apply bsteps_edge_ext; intros; by rewrite adjacency_children.
  - apply level_inv_start.
  - intros y. rewrite list_elem_of_singleton. split; [intros ->; apply bsteps_refl|by inversion 1].
Qed.

Definition universe (root : string) (s : db) : list string :=
  if dict_mem root (nodes s) then dict_keys (nodes s) else root :: dict_keys (nodes s).

Lemma universe_root root s : root ∈ universe root s.
Proof. unfold universe. destruct (dict_mem _ _) eqn:E; [by apply dict_mem_true|by left]. Qed.

Lemma universe_closed root s x y : wf s → y ∈ adjacency (edges s) x → y ∈ universe root s.
Proof.
  intros W. rewrite elem_of_adjacency, (wf_edges _ W). intros (r & Hr & _).
  assert (y ∈ dict_keys (nodes s)) by (apply dict_get_is_Some; eauto).
  unfold universe. destruct (dict_mem _ _); set_solver.
Qed.

Lemma length_universe root s :
  length (universe root s) = length (nodes s) + (if dict_mem root (nodes s) then 0 else 1).
Proof.
  unfold universe. destruct (dict_mem _ _); cbn [length]; rewrite length_dict_keys; lia.
Qed.

(** Reaching as many nodes as there are leaves none out. *)
Lemma early_exit_sound root s k v cur :
  wf s → level_inv (adjacency (edges s)) root k v cur → length v = length (universe root s) →
  ∀ x y, x ∈ v → y ∈ adjacency (edges s) x → y ∈ v.
Proof.
  intros W I Hlen x y Hx Hy.
  assert (v ⊆ universe root s) as Hv.
  { intros z Hz. apply (li_bound _ _ _ _ _ I), rtc_bsteps_2 in Hz.
    apply rtc_inv_r in Hz as [->|(w & _ & Hw)]; [apply universe_root|by eapply universe_closed]. }
  apply NoDup_submseteq in Hv; [|apply (li_nodup _ _ _ _ _ I)].
  pose proof (submseteq_length_Permutation _ _ Hv ltac:(lia)) as Hp.
  rewrite Hp. by eapply universe_closed.
Qed.

Lemma walk_spec root s x :
  wf s → x ∈ walk root s ↔ bsteps (edge (children (get_dag s))) (depth_limit s) root x.
Proof.
  intros W. unfold walk. destruct (_ <=? _)%Z.
  - by apply walk_exact.
  - apply walk_exact; [done|]. intros k v cur I Hv%Nat.eqb_eq.
    eapply early_exit_sound; [done..|]. by rewrite length_universe.
Qed.

Lemma walk_nodup root s : NoDup (walk root s).
Proof. unfold walk. destruct (_ <=? _)%Z; apply levels_nodup, NoDup_singleton. Qed.

Lemma db_plan_compaction_core sr c s k :
  nodes (plan_compaction sr c s k) = nodes s ∧ edges (plan_compaction sr c s k) = edges s ∧
  t_ledger (plan_compaction sr c s k) = t_ledger s ∧ depth_limit (plan_compaction sr c s k) = depth_limit s.
Proof. unfold plan_compaction, set_repair_candidate. repeat case_match; done. Qed.

Lemma db_plan_all_core sr c ks s :
  let s' := fold_left (plan_compaction sr c) ks s in
  nodes s' = nodes s ∧ edges s' = edges s ∧ t_ledger s' = t_ledger s ∧ depth_limit s' = depth_limit s.
Proof.
  apply (fold_left_inv (λ s', nodes s' = nodes s ∧ edges s' = edges s ∧ t_ledger s' = t_ledger s ∧
    depth_limit s' = depth_limit s)); [done|].
  intros a k _ (<- & <- & <- & <-). apply db_plan_compaction_core.
Qed.

Lemma membership_get (found : string → bool) ids k : k ∈ ids → dict_get k (membership found ids) = Some (found k).
Proof.
  intros Hk. unfold membership.
  assert (k ∈ fold_left (λ l x, add_new x l) ids []) as Hin by (apply elem_of_fold_add_new; by left).
  revert Hin. induction (fold_left _ ids []) as [|x l IH]; intros Hin; [by apply elem_of_nil in Hin|].
  cbn. case_decide; [by subst|]. apply IH. set_solver.
Qed.

Lemma check_retry_core n s :
  let s' := check_retry_completion n s in
  nodes s' = nodes s ∧ edges s' = edges s ∧ t_ledger s' = t_ledger s ∧ depth_limit s' = depth_limit s.
Proof.
  apply (fold_left_inv (λ s', nodes s' = nodes s ∧ edges s' = edges s ∧ t_ledger s' = t_ledger s ∧
    depth_limit s' = depth_limit s)); [done|].
  by intros a r _ (<- & <- & <- & <-).
Qed.

Lemma core_same s s' :
  nodes s' = nodes s → t_ledger s' = t_ledger s → depth_limit s' = depth_limit s → same_core (St:=db) s s'.
Proof. intros N L T. split; cbn; [unfold get_dag; by rewrite N|done|by rewrite T]. Qed.

Ltac sql_frame :=
  intros; try match goal with H : _ = Some _ |- _ => apply (inj Some) in H; subst end;
  split; [eapply db_wf_core; [| | |eassumption]; done|by apply core_same].

Lemma db_content_hashes ids s k :
  wf s → k ∈ ids →
  default "" (dict_get k (get_node_content_hashes ids s)) = default "" (dict_get k (get_dag s) ≫= content_digest_sha256).
Proof.
  intros W Hk. unfold get_node_content_hashes. rewrite dict_get_map, dict_get_get_dag.
  pose proof (dict_get_filter_keys (λ k, k ∈? ids) (nodes s) k) as Hf. cbv beta in Hf.
  rewrite (bool_decide_eq_true_2 (k ∈ ids)) in Hf by done. rewrite Hf.
  destruct (dict_get k (nodes s)) as [r|] eqn:Hr; [|done]. cbn. by rewrite (wf_hash _ W k r Hr).
Qed.

#[export] Instance sqlite_laws : BackendLaws db.
Proof.
  refine {| store_ok := wf |}.
  - exact wf_dag_ok.
  - by intros s [].
  - intros s k n W. cbn. rewrite dict_get_get_dag.
    destruct (dict_get k (nodes s)) eqn:E; intros; simplify_eq/=. by eapply wf_key.
  - exact db_wf_commit.
  - intros n s _. cbn. unfold commit_node, dict_mem. rewrite dict_get_get_dag. by destruct (dict_get _ _).
  - intros n s k _. exact (db_commit_node_spec n s k).
  - intros n s. cbn. unfold commit_node. by destruct (dict_mem _ _).
  - intros n s. cbn. unfold commit_node. by destruct (dict_mem _ _).
  - intros n s _. cbn. unfold commit_node, dict_mem. rewrite dict_get_get_dag. by destruct (dict_get _ _).
  - exact db_wf_quarantine.
  - intros e c s x. cbn. rewrite (proj1 (db_quarantine_all_spec c _)), elem_of_fold_add_new. done.
  - intros e c s. cbn. unfold get_dag.
    by rewrite (proj1 (proj2 (db_quarantine_all_spec c (log_quarantine_event _ s)))).
  - intros e c s. cbn. f_equal. exact (proj2 (proj2 (proj2 (db_quarantine_all_spec c (log_quarantine_event _ s))))).
  - done.
  - intros r s W. destruct (db_plan_all_core (has_external_effects (sorted (walk r s)) s) (sorted (walk r s))
      (affected_compactions (sorted (walk r s)) s) s) as (N & E & L & _). by apply (db_wf_core s).
  - intros r s _. destruct (db_plan_all_core (has_external_effects (sorted (walk r s)) s) (sorted (walk r s))
      (affected_compactions (sorted (walk r s)) s) s) as (N & E & L & T). by apply core_same.
  - intros r s W. eexists. split; [|reflexivity]. apply walk_nodup.
  - intros r s x W. cbn. by rewrite elem_of_sorted, walk_spec.
  - intros ids s k _ Hk. cbn. unfold flag, nodes_exist. rewrite membership_get by done.
    unfold dict_mem. rewrite dict_get_get_dag. by destruct (dict_get k _).
  - intros ids s k Hk. cbn. unfold flag, are_quarantined. by rewrite membership_get.
  - exact db_content_hashes.
  - sql_frame.
  - sql_frame.
  - sql_frame.
  - sql_frame.
  - sql_frame.
  - sql_frame.
  - sql_frame.
  - sql_frame.
  - sql_frame.
  - intros d s s' W. cbn. unfold record_shadow_decision. destruct (existsb _ _); [done|]. intros [= <-]. sql_frame.
  - sql_frame.
  - sql_frame.
  - sql_frame.
  - sql_frame.
  - sql_frame.
  - sql_frame.
  - intros n s W. destruct (check_retry_core n s) as (N & E & L & T).
    split; [by apply (db_wf_core s)|by apply core_same].
  - sql_frame.
  - sql_frame.
  - sql_frame.
Defined.

(** ** Properties *)

(** C20: the blast radius of the SQLite store is exactly what is at most
    [MAX_TRAVERSAL_DEPTH] edges away from the root along parent commitments and
    covers, whichever of the two traversal strategies the size of the edge
    table selects. *)
Theorem sqlite_blast_radius_bounded root s :
  wf s →
  let r := compute_blast_radius root s in
  StronglySorted String.le r.1 ∧ NoDup r.1 ∧
  (∀ x, x ∈ r.1 ↔ bsteps (material_edge (get_dag s)) (depth_limit s) root x) ∧
  get_dag r.2 = get_dag s ∧ t_ledger r.2 = t_ledger s.
Proof.
  intros W r. assert (store_ok s) as Hok by exact W. destruct (blast_core root s Hok) as [D L].
  split_and!; [apply StronglySorted_sorted|apply NoDup_sorted, walk_nodup| |exact D|exact L].
  intros x. rewrite <-bsteps_material by by apply wf_dag_ok. exact (blast_spec root s x Hok).
Qed.

Definition demo_db (depth : nat) : db :=
  fold_left (λ s n, (commit_node n s).2) (dict_values demo_dag) (empty_db depth).

Lemma wf_empty depth : wf (empty_db depth).
Proof.
  split; [apply NoDup_nil_2|done|apply NoDup_nil_2| |done].
  intros x y. unfold linked. split; [intros (e & []%elem_of_nil & _)|by intros (r & ? & _)].
Qed.

Lemma demo_db_wf depth : wf (demo_db depth).
Proof. apply (fold_left_inv wf); [apply wf_empty|]. intros; by apply db_wf_commit. Qed.

Lemma sqlite_blast_radius_bounded_witness :
  (compute_blast_radius "root" (demo_db 1)).1 = ["a"; "root"] ∧
  (∀ x, x ∈ (compute_blast_radius "root" (demo_db 1)).1 ↔
     bsteps (material_edge (get_dag (demo_db 1))) (depth_limit (demo_db 1)) "root" x).
Proof.
  split; [by vm_compute|].
  exact (proj1 (proj2 (proj2 (sqlite_blast_radius_bounded "root" (demo_db 1) (demo_db_wf 1))))).
Defined.

(** The two strategies agree: the level-by-level walk with early exit that
    is used above 10000 edges reaches exactly the nodes that the walk over the
    loaded edge table reaches. *)
Theorem dense_walk_equals_sparse_walk root s :
  wf s → ∀ x, x ∈ dense_walk root s ↔ x ∈ sparse_walk root s.
Proof.
  intros W x. unfold dense_walk, sparse_walk. rewrite !walk_exact; [done|done..|].
  intros k v cur I Hv%Nat.eqb_eq. eapply early_exit_sound; [done..|]. by rewrite length_universe.
Qed.

Lemma dense_walk_equals_sparse_walk_witness :
  dense_walk "root" (demo_db 9) = ["root"; "a"; "sum"] ∧
  (∀ x, x ∈ dense_walk "root" (demo_db 9) ↔ x ∈ sparse_walk "root" (demo_db 9)).
Proof.
  split; [by vm_compute|]. exact (dense_walk_equals_sparse_walk "root" (demo_db 9) (demo_db_wf 9)).
Defined.

(** ** The SQLite store refines the in-memory store *)

(** What a history of graph operations lets its caller see. *)
Inductive graph_op := OpCommit (n : node) | OpQuarantine (e : quarantine_event) (c : list string) | OpBlast (r : string).
Inductive observation := Inserted (b : bool) | Done | Radius (l : list string).

Definition run_op {St} `{Backend St} (op : graph_op) (s : St) : observation * St :=
  match op with
  | OpCommit n => let '(b, s) := Interface.commit_node n s in (Inserted b, s)
  | OpQuarantine e c => (Done, (Interface.apply_quarantine_transaction e c s).2)
  | OpBlast r => let '(l, s) := Interface.compute_blast_radius r s in (Radius l, s)
  end.

Fixpoint run_ops {St} `{Backend St} (ops : list graph_op) (s : St) : list observation * St :=
  match ops with
  | [] => ([], s)
  | op :: ops => let '(o, s) := run_op op s in let '(os, s) := run_ops ops s in (o :: os, s)
  end.

Lemma depth_run_op op (s : db) : depth_limit (run_op op s).2 = depth_limit s.
Proof.
  destruct op as [n|e c|r]; cbn.
  - unfold commit_node. by destruct (dict_mem _ _).
  - apply (fold_left_inv (λ s', depth_limit s' = depth_limit s)); [done|]. by intros a b _ <-.
  - apply (fold_left_inv (λ s', depth_limit s' = depth_limit s)); [done|].
    intros a k _ <-. unfold plan_compaction. repeat case_match; done.
Qed.

Lemma length_run_op op (s : db) : length (nodes (run_op op s).2) ≤ S (length (nodes s)).
Proof.
  destruct op as [n|e c|r]; cbn.
  - unfold commit_node. destruct (dict_mem _ _); cbn; [lia|]. unfold insert_or_ignore.
    case_decide; [lia|]. rewrite length_app. cbn. lia.
  - rewrite (proj1 (proj2 (db_quarantine_all_spec c (log_quarantine_event _ s)))). cbn. lia.
  - rewrite (proj1 (db_plan_all_core _ _ _ _)). lia.
Qed.

Lemma run_op_agree op (m : Memory.state) (s : db) :
  store_ok m → store_ok s → length (nodes s) < depth_limit s → agree m s →
  (run_op op m).1 = (run_op op s).1 ∧ agree (run_op op m).2 (run_op op s).2 ∧
  store_ok (run_op op m).2 ∧ store_ok (run_op op s).2.
Proof.
  intros Hm Hs Hd Hag. destruct op as [n|e c|r]; cbn [run_op].
  - destruct (agree_commit m s n Hm Hs Hag) as [E1 E2].
    pose proof (commit_node_ok n m Hm) as K1. pose proof (commit_node_ok n s Hs) as K2.
    destruct (Interface.commit_node n m), (Interface.commit_node n s). cbn in *. by subst.
  - split_and!; [done|by apply agree_quarantine|by apply quarantine_ok..].
  - assert (deep_enough s) as Hdeep.
    { intros d [= <-]. cbn. unfold get_dag, dict_map. by rewrite length_fmap. }
    destruct (agree_blast m s r Hm Hs ltac:(done) Hdeep Hag) as [E1 E2].
    pose proof (blast_ok r m Hm) as K1. pose proof (blast_ok r s Hs) as K2.
    destruct (Interface.compute_blast_radius r m), (Interface.compute_blast_radius r s). cbn in *. by subst.
Qed.

Lemma run_ops_agree ops (m : Memory.state) (s : db) :
  store_ok m → store_ok s → length (nodes s) + length ops < depth_limit s → agree m s →
  (run_ops ops m).1 = (run_ops ops s).1 ∧ agree (run_ops ops m).2 (run_ops ops s).2.
Proof.
  revert m s; induction ops as [|op ops IH]; intros m s Hm Hs Hd Hag; [done|]. cbn [length run_ops] in *.
  destruct (run_op_agree op m s Hm Hs ltac:(lia) Hag) as (E & A & K1 & K2).
  pose proof (depth_run_op op s) as D. pose proof (length_run_op op s) as L.
  destruct (run_op op m) as [o1 m1], (run_op op s) as [o2 s1]. cbn [fst snd] in *. subst o2.
  destruct (IH m1 s1 K1 K2 ltac:(lia) A) as [E' A'].
  destruct (run_ops ops m1), (run_ops ops s1). cbn [fst snd] in *. by subst.
Qed.

(** C5: the SQLite store implements the in-memory store: from stores with the
    same graph and ledger, any sequence of commits, quarantines and blast-radius
    computations gives the same results and again the same graph and ledger, as
    long as the traversal depth exceeds the number of nodes there can be. *)
Theorem sqlite_refines_memory ops (m : Memory.state) (s : db) :
  Memory.wf m → wf s → length (nodes s) + length ops < depth_limit s →
  agree m s →
  (run_ops ops m).1 = (run_ops ops s).1 ∧ agree (run_ops ops m).2 (run_ops ops s).2.
Proof. exact (run_ops_agree ops m s). Qed.

Definition demo_ops : list graph_op :=
  [OpCommit (bare_node "b" <| covers := ["sum"] |>); OpBlast "a";
   OpQuarantine (QuarantineEvent "e" "t" "a" [] "d" None None None None None None None None) ["a"];
   OpCommit (bare_node "b")].

Lemma demo_agree : agree (demo_state <| Memory.quarantine_ledger := [] |>) (demo_db 99).
Proof.
  split; [|intros x; cbn; by rewrite !elem_of_nil].
  intros k. change (dict_get k demo_dag = dict_get k (get_dag (demo_db 99))).
  assert (get_dag (demo_db 99) = demo_dag) as -> by (by vm_compute). done.
Qed.

Lemma sqlite_refines_memory_witness :
  (run_ops demo_ops (demo_state <| Memory.quarantine_ledger := [] |>)).1
    = [Inserted true; Radius ["a"; "b"; "sum"]; Done; Inserted false] ∧
  (run_ops demo_ops (demo_state <| Memory.quarantine_ledger := [] |>)).1 = (run_ops demo_ops (demo_db 99)).1.
Proof.
  split; [by vm_compute|].
  refine (proj1 (sqlite_refines_memory demo_ops _ (demo_db 99) _ (demo_db_wf 99) _ demo_agree)).
  - destruct demo_state_wf as [A B C]. split; [exact A|exact B|constructor].
  - vm_compute. lia.
Defined.
