(* ===== verification/Payload.v ===== *)
(** * Stored payloads

    What a SQL backend writes for an object is the text of [json.dumps], and
    what it hands out is the result of [json.loads].  [Sqlite] keeps the objects
    themselves; this file gives the text tables behind them and shows that the
    operations on text and the operations on objects correspond.

    [JsonCodec] says how an object of a given kind is laid out as JSON, with the
    law that reading the layout gives the object.  An absent key and a key that
    holds [null] are read the same way, as [.get] does.  A number needs the text
    of its [repr], which is a parameter. *)
From Stdlib Require Import Ascii Qreduction.
From stdpp Require Import pretty.
From S2P Require Import Prelude Dict Types Encoding Timeparse Json Datetime Graph Lineage Interface Memory Sqlite.

(** ** Layouts *)
Class FloatRepr := float_repr : Q → string.

Class JsonCodec (A : Type) := {
  to_json : A → json;
  of_json : json → option A;
  of_to_json a : of_json (to_json a) = Some a;
  to_json_not_null a : to_json a ≠ JNull }.

(** [o[k]] and [o.get(k)] *)
Definition get `{JsonCodec A} (k : string) (o : dict json) : option A := dict_get k o ≫= of_json.

Definition opt_get `{JsonCodec A} (k : string) (o : dict json) : option (option A) :=
  match dict_get k o with
  | None | Some JNull => Some None
  | Some v => Some <$> of_json v
  end.

Definition fields := list (string * option json).

(** The entries of an object that are there. *)
Definition entries (f : fields) : dict json := omap (λ kv, pair kv.1 <$> kv.2) f.

Lemma entries_cons k v (f : fields) :
  entries ((k, v) :: f) = match v with Some v => (k, v) :: entries f | None => entries f end.
Proof. by destruct v. Qed.

Lemma entries_get (f : fields) k : NoDup f.*1 → dict_get k (entries f) = mjoin (dict_get k f).
Proof.
  induction f as [|[k' v] f IH]; [done|]. rewrite fmap_cons. intros [Hk Hn]%NoDup_cons. cbn in Hk.
  rewrite entries_cons. destruct v as [v|]; cbn [dict_get]; (case_decide; [|by apply IH]); [done|].
  subst. rewrite IH by done. destruct (dict_get k' f) as [v|] eqn:E; [|done].
  destruct Hk. by eapply dict_keys_elem, dict_get_Some_elem.
Qed.

Lemma entries_keys (f : fields) : NoDup f.*1 → NoDup (entries f).*1.
Proof.
  intros Hn. apply (sublist_NoDup _ f.*1); [done|]. clear Hn.
  induction f as [|[k v] f IH]; [done|]. rewrite entries_cons. destruct v; cbn; by constructor.
Qed.

Section reading.
Context `{JsonCodec A}.

Lemma get_entries (f : fields) k (a : A) :
  NoDup f.*1 → dict_get k f = Some (Some (to_json a)) → get k (entries f) = Some a.
Proof. intros Hn Hk. unfold get. rewrite entries_get, Hk by done. apply of_to_json. Qed.

Lemma opt_get_entries (f : fields) k (a : option A) :
  NoDup f.*1 → dict_get k f = Some (to_json <$> a) → opt_get k (entries f) = Some a.
Proof.
  intros Hn Hk. unfold opt_get. rewrite entries_get, Hk by done. destruct a as [a|]; [|done]. cbn.
  pose proof (to_json_not_null a). destruct (to_json a) eqn:E; try done; by rewrite <-E, of_to_json.
Qed.
End reading.

(** Reads the fields of a layout one after the other. *)
Ltac field := first [reflexivity | apply (bool_decide_unpack _); vm_compute; exact I].
Ltac read_fields :=
  repeat first [erewrite get_entries by field | erewrite opt_get_entries by field]; cbn [mbind option_bind].

(** ** Layouts of basic values *)
#[export] Instance string_codec : JsonCodec string.
Proof. by refine {| to_json := JStr; of_json j := match j with JStr s => Some s | _ => None end |}. Defined.

#[export] Instance content_codec : JsonCodec (dict json).
Proof. by refine {| to_json := JObj; of_json j := match j with JObj o => Some o | _ => None end |}. Defined.

#[export] Instance bool_codec : JsonCodec bool.
Proof. by refine {| to_json := JBool; of_json j := match j with JBool b => Some b | _ => None end |}. Defined.

#[export] Instance float_codec `{FloatRepr} : JsonCodec Q.
Proof.
  by refine {| to_json q := JNum q (float_repr q); of_json j := match j with JNum q _ => Some q | _ => None end |}.
Defined.

#[export] Instance nat_codec : JsonCodec nat.
Proof.
  refine {| to_json n := JNum (inject_Z (Z.of_nat n)) (pretty n);
            of_json j := match j with JNum q _ => Some (Z.to_nat (Qnum q)) | _ => None end |}; [|done].
  intros n. change (Some (Z.to_nat (Z.of_nat n)) = Some n). by rewrite Nat2Z.id.
Defined.

#[export] Instance list_codec `{JsonCodec A} : JsonCodec (list A).
Proof.
  refine {| to_json l := JArr (to_json <$> l); of_json j := match j with JArr l => mapM of_json l | _ => None end |};
    [|done].
  intros l. apply mapM_fmap_Some. intros a. apply of_to_json.
Defined.

(** ** Layouts of the stored objects *)
Definition object (f : fields) : json := JObj (entries f).
Definition read_object {A} (read : dict json → option A) (j : json) : option A :=
  match j with JObj o => read o | _ => None end.

Ltac layout := intros []; cbn [object read_object]; read_fields; reflexivity.

#[export] Instance commitment_codec : JsonCodec commitment.
Proof.
  refine {| to_json c := object [("parent_node_id", Some (to_json (parent_node_id c)));
                                 ("parent_content_hash", to_json <$> parent_content_hash c);
                                 ("edge_class", to_json <$> edge_class c)];
            of_json := read_object (λ o,
              p ← get "parent_node_id" o; h ← opt_get "parent_content_hash" o; e ← opt_get "edge_class" o;
              Some (Commitment p h e)) |}; [layout|done].
Defined.

#[export] Instance nhi_codec : JsonCodec nhi.
Proof.
  refine {| to_json i := object [("identity_id", to_json <$> identity_id i);
                                 ("session_token", to_json <$> session_token i);
                                 ("expires_at_utc", to_json <$> nhi_expires_at_utc i)];
            of_json := read_object (λ o,
              i ← opt_get "identity_id" o; t ← opt_get "session_token" o; e ← opt_get "expires_at_utc" o;
              Some (Nhi i t e)) |}; [layout|done].
Defined.

#[export] Instance boundary_codec : JsonCodec evidence_boundary.
Proof.
  refine {| to_json b := object [("boundary_id", Some (to_json (boundary_id b)));
                                 ("fixed_at_utc", Some (to_json (fixed_at_utc b)));
                                 ("boundary_digest", Some (to_json (boundary_digest b)))];
            of_json := read_object (λ o,
              i ← get "boundary_id" o; t ← get "fixed_at_utc" o; d ← get "boundary_digest" o;
              Some (EvidenceBoundary i t d)) |}; [layout|done].
Defined.

#[export] Instance summarizer_codec : JsonCodec summarizer_info.
Proof.
  refine {| to_json s := object [("method_id", to_json <$> method_id s);
                                 ("config_digest", to_json <$> config_digest s);
                                 ("resolved_model", to_json <$> resolved_model s);
                                 ("generation_params_digest", to_json <$> generation_params_digest s)];
            of_json := read_object (λ o,
              m ← opt_get "method_id" o; c ← opt_get "config_digest" o; r ← opt_get "resolved_model" o;
              g ← opt_get "generation_params_digest" o;
              Some (Summarizer m c r g)) |}; [layout|done].
Defined.

#[export] Instance checkpoint_codec : JsonCodec checkpoint_record.
Proof.
  refine {| to_json c := object [("checkpoint_id", Some (to_json (checkpoint_id c)));
                                 ("target_node_id", Some (to_json (target_node_id c)));
                                 ("declared_at_utc", Some (to_json (declared_at_utc c)));
                                 ("snapshot_data", Some (to_json (snapshot_data c)))];
            of_json := read_object (λ o,
              i ← get "checkpoint_id" o; t ← get "target_node_id" o; d ← get "declared_at_utc" o;
              s ← get "snapshot_data" o;
              Some (Checkpoint i t d s)) |}; [layout|done].
Defined.

#[export] Instance substitute_codec : JsonCodec substitute_declaration.
Proof.
  refine {| to_json d := object [("target_node_id", Some (to_json (sub_target_node_id d)));
                                 ("substitute_source_id", Some (to_json (substitute_source_id d)));
                                 ("declared_at_utc", Some (to_json (sub_declared_at_utc d)));
                                 ("declared_by", Some (to_json (declared_by d)))];
            of_json := read_object (λ o,
              t ← get "target_node_id" o; s ← get "substitute_source_id" o; d ← get "declared_at_utc" o;
              b ← get "declared_by" o;
              Some (SubstituteDeclaration t s d b)) |}; [layout|done].
Defined.

#[export] Instance event_codec : JsonCodec quarantine_event.
Proof.
  refine {| to_json e := object [("quarantine_event_id", Some (to_json (quarantine_event_id e)));
              ("detected_at_utc", Some (to_json (qe_detected_at_utc e)));
              ("poisoned_root_id", Some (to_json (poisoned_root_id e)));
              ("computed_blast_radius_C_p", Some (to_json (computed_blast_radius_C_p e)));
              ("monotonic_ledger_digest_post_transition",
                Some (to_json (monotonic_ledger_digest_post_transition e)));
              ("designator_identity", to_json <$> designator_identity e);
              ("designation_reason", to_json <$> designation_reason e);
              ("detector_source", to_json <$> detector_source e);
              ("max_traversal_depth", to_json <$> max_traversal_depth e);
              ("continuity_available", to_json <$> continuity_available e);
              ("replacement_node_id", to_json <$> replacement_node_id e);
              ("replacement_for", to_json <$> replacement_for e);
              ("replacement_mechanism", to_json <$> replacement_mechanism e)];
            of_json := read_object (λ o,
              i ← get "quarantine_event_id" o; t ← get "detected_at_utc" o; r ← get "poisoned_root_id" o;
              c ← get "computed_blast_radius_C_p" o; d ← get "monotonic_ledger_digest_post_transition" o;
              di ← opt_get "designator_identity" o; dr ← opt_get "designation_reason" o;
              ds ← opt_get "detector_source" o; m ← opt_get "max_traversal_depth" o;
              ca ← opt_get "continuity_available" o; rn ← opt_get "replacement_node_id" o;
              rf ← opt_get "replacement_for" o; rm ← opt_get "replacement_mechanism" o;
              Some (QuarantineEvent i t r c d di dr ds m ca rn rf rm)) |}; [layout|done].
Defined.

#[export] Instance node_codec `{FloatRepr} : JsonCodec node.
Proof.
  refine {| to_json n := object [("payload_id", Some (to_json (payload_id n)));
              ("node_type", to_json <$> node_type n);
              ("timestamp_utc", to_json <$> timestamp_utc n);
              ("ephemeral_nhi", to_json <$> ephemeral_nhi n);
              ("declared_evidence_boundary", to_json <$> declared_evidence_boundary n);
              ("state_content", to_json <$> state_content n);
              ("content_digest_sha256", to_json <$> content_digest_sha256 n);
              ("agent_signature", to_json <$> agent_signature n);
              ("signature_algorithm", to_json <$> signature_algorithm n);
              ("covers", Some (to_json (covers n)));
              ("covers_interval_gap", to_json <$> covers_interval_gap n);
              ("parent_dependency_commitments", Some (to_json (parent_dependency_commitments n)));
              ("summarizer", to_json <$> summarizer n);
              ("criticality_weight", to_json <$> criticality_weight n);
              ("retry_of", to_json <$> retry_of n)];
            of_json := read_object (λ o,
              i ← get "payload_id" o; nt ← opt_get "node_type" o; t ← opt_get "timestamp_utc" o;
              nh ← opt_get "ephemeral_nhi" o; eb ← opt_get "declared_evidence_boundary" o;
              sc ← opt_get "state_content" o; cd ← opt_get "content_digest_sha256" o;
              sg ← opt_get "agent_signature" o; sa ← opt_get "signature_algorithm" o;
              cv ← opt_get "covers" o; gap ← opt_get "covers_interval_gap" o;
              ps ← opt_get "parent_dependency_commitments" o; sm ← opt_get "summarizer" o;
              w ← opt_get "criticality_weight" o; r ← opt_get "retry_of" o;
              Some (Node i nt t nh eb sc cd sg sa (default [] cv) gap (default [] ps) sm w r)) |}; [|done].
  intros []. cbn [object read_object]. read_fields.
  erewrite (opt_get_entries _ "covers" (Some _)) by field. cbn [mbind option_bind].
  read_fields. erewrite (opt_get_entries _ "parent_dependency_commitments" (Some _)) by field.
  cbn [mbind option_bind]. read_fields. reflexivity.
Defined.

(** ** What can be stored

    The text of a number must be its value's; the texts of whole numbers are. *)
Definition storable `{JsonCodec A} (a : A) : Prop := json_ok (to_json a).

Lemma object_ok (f : fields) :
  NoDup f.*1 → Forall (λ kv, from_option json_ok True kv.2) f → json_ok (object f).
Proof.
  intros Hn Hf. apply json_ok_obj. split; [by apply entries_keys|]. clear Hn.
  induction Hf as [|[k [v|]] f Hv _ IH]; [constructor| |]; rewrite entries_cons; [by constructor|done].
Qed.

Lemma storable_list `{JsonCodec A} (l : list A) : Forall storable l → storable l.
Proof. intros Hl. apply json_ok_arr, Forall_fmap. exact Hl. Qed.

Lemma storable_strings (l : list string) : storable l.
Proof. apply storable_list, Forall_forall. done. Qed.

Lemma storable_opt `{JsonCodec A} (a : option A) :
  from_option storable True a → from_option json_ok True (to_json <$> a).
Proof. by destruct a. Qed.

(** *** Whole numbers *)
Local Open Scope Z_scope.

Lemma digits_value_snoc l c : digits_value (l ++ [c]) = 10 * digits_value l + (ascii_z c - 48).
Proof. unfold digits_value. by rewrite fold_left_app. Qed.

Lemma pretty_char_digit (d : N) :
  (d < 10)%N → is_digit (pretty_N_char d) = true ∧ ascii_z (pretty_N_char d) = Z.of_N d + 48.
Proof.
  intros Hd. assert (d = 0 ∨ d = 1 ∨ d = 2 ∨ d = 3 ∨ d = 4 ∨ d = 5 ∨ d = 6 ∨ d = 7 ∨ d = 8 ∨ d = 9)%N
    as Hc by lia. repeat (destruct Hc as [->|Hc]; [done|]). by subst.
Qed.

(** The digits that [pretty] puts in front of an accumulator. *)
Definition digits_of (l : list ascii) (x : N) : Prop :=
  forallb is_digit l = true ∧ digits_value l = Z.of_N x ∧ ∃ c l', l = c :: l' ∧ c ≠ "0"%char.

Lemma pretty_digits x : (0 < x)%N → ∀ s, ∃ l, chars (pretty_N_go x s) = l ++ chars s ∧ digits_of l x.
Proof.
  induction (N.lt_wf_0 x) as [x _ IH]. intros Hx s. rewrite pretty_N_go_step by done.
  pose proof (N.mod_lt x 10 ltac:(done)) as Hm. pose proof (N.div_mod x 10 ltac:(done)) as Hdm.
  destruct (pretty_char_digit (x mod 10) Hm) as [Hd Hv].
  destruct (decide (x / 10 = 0)%N) as [E|E].
  - rewrite E, pretty_N_go_0. exists [pretty_N_char (x mod 10)]. split; [done|].
    repeat split; [cbn; by rewrite Hd|unfold digits_value; cbn [fold_left]; rewrite Hv; clear -Hdm E; rewrite E in Hdm; generalize dependent (x mod 10)%N; intros; lia|].
    eexists _, _. split; [done|]. intros Hc. rewrite Hc in Hv. change (ascii_z "0"%char) with 48 in Hv. clear -Hv Hdm E Hx; rewrite E in Hdm; generalize dependent (x mod 10)%N; intros; lia.
  - destruct (IH (x / 10)%N ltac:(apply N.div_lt; lia) ltac:(by apply N.neq_0_lt_0) (String.String (pretty_N_char (x mod 10)) s))
      as (l & -> & Hl & Hlv & c & l' & -> & Hc).
    exists ((c :: l') ++ [pretty_N_char (x mod 10)]). split; [by rewrite <-app_assoc|].
    repeat split; [by rewrite forallb_app, Hl; cbn; rewrite Hd|rewrite digits_value_snoc, Hlv, Hv; lia|].
    by exists c, (l' ++ [pretty_N_char (x mod 10)]).
Qed.

Lemma Qred_inject_Z z : Qred (inject_Z z) = inject_Z z.
Proof.
  unfold Qred, inject_Z. pose proof (Z.ggcd_gcd z 1) as Hg. pose proof (Z.ggcd_correct_divisors z 1) as Hd.
  destruct (Z.ggcd z 1) as [g [a b]]. cbn in *. rewrite Z.gcd_1_r in Hg. subst g.
  rewrite !Z.mul_1_l in Hd. by destruct Hd as [-> <-].
Qed.

Lemma number_value_digits l x : digits_of l x → number_value l = Some (inject_Z (Z.of_N x)).
Proof.
  intros (Hd & Hv & c & l' & -> & Hc). unfold number_value.
  assert (c ≠ "-"%char) as Hm by (intros ->; discriminate Hd).
  assert (match c :: l' with "-"%char :: l => (-1, l) | _ => (1, c :: l') end = (1, c :: l')) as ->.
  { destruct c as [[] [] [] [] [] [] [] []]; done || by destruct Hm. }
  pose proof (span_all is_digit (c :: l') [] Hd ltac:(done)) as Hs. rewrite app_nil_r in Hs. rewrite Hs.
  cbn [exponent_value mbind option_bind head andb orb].
  rewrite (bool_decide_eq_false_2 (c :: l' = [])) by done.
  rewrite (bool_decide_eq_false_2 (Some c = Some "0"%char)) by congruence. cbn [andb orb].
  rewrite app_nil_r, Hv. f_equal.
  replace (1 * Z.of_N x * 10 ^ (0 - Z.of_nat (length []))) with (Z.of_N x) by (cbn; lia).
  apply Qred_inject_Z.
Qed.

Lemma storable_nat (n : nat) : storable n.
Proof.
  unfold storable. destruct n as [|n]; [by repeat split; left|].
  change (pretty (S n)) with (pretty_N_go (N.of_nat (S n)) ""). remember (S n) as m. cbn [to_json nat_codec json_ok].
  assert (pretty m = pretty_N_go (N.of_nat m) "") as -> by by subst.
  destruct (pretty_digits (N.of_nat m) ltac:(lia) "") as (l & El & Hl). rewrite app_nil_r in El.
  rewrite El. split; [by rewrite (number_value_digits l _ Hl), nat_N_Z|].
  destruct Hl as (Hd & _ & c & l' & -> & _). split; [|by left; apply andb_true_iff in Hd as [? _]].
  apply forallb_forall. intros x Hx. rewrite forallb_forall in Hd. unfold number_char. by rewrite Hd.
Qed.

(** *** Objects *)
Ltac solve_keys := apply (bool_decide_unpack _); vm_compute; exact I.
Ltac solve_storable :=
  apply object_ok; [solve_keys|];
  repeat apply Forall_cons_2; try apply Forall_nil_2; cbn [snd from_option]; try apply storable_opt;
  try (first [exact I | apply storable_strings | by match goal with |- from_option _ _ ?o => destruct o end]).

Lemma storable_event (e : quarantine_event) : storable e.
Proof. destruct e as [????????[m|]]; solve_storable. apply (storable_nat m). Qed.

Lemma storable_substitute (d : substitute_declaration) : storable d.
Proof. destruct d. solve_storable. Qed.

Lemma storable_checkpoint (c : checkpoint_record) : storable (snapshot_data c) → storable c.
Proof. destruct c. intros Hc. by solve_storable. Qed.

Lemma storable_commitment (c : commitment) : storable c.
Proof. destruct c. solve_storable. Qed.

Lemma storable_nhi (i : nhi) : storable i.
Proof. destruct i. solve_storable. Qed.

Lemma storable_boundary (b : evidence_boundary) : storable b.
Proof. destruct b. solve_storable. Qed.

Lemma storable_summarizer (s : summarizer_info) : storable s.
Proof. destruct s. solve_storable. Qed.

Lemma from_option_storable `{JsonCodec A} (o : option A) : (∀ a : A, storable a) → from_option storable True o.
Proof. destruct o; cbn; auto. Qed.

(** A payload can be stored when its content can and its weight has the right text. *)
Lemma storable_node `{FloatRepr} (n : node) :
  from_option storable True (state_content n) → from_option storable True (criticality_weight n) → storable n.
Proof.
  destruct n. intros Hc Hw. solve_storable; try done.
  - apply from_option_storable, storable_nhi.
  - apply from_option_storable, storable_boundary.
  - apply from_option_storable, storable_strings.
  - apply storable_list, Forall_forall. intros c _. apply storable_commitment.
  - apply from_option_storable, storable_summarizer.
Qed.

(** ** Text rows *)
Section text.
Context `{JsonCodec A}.

Definition text (a : A) : string := dumps false (to_json a).
Definition parse (t : string) : option A := j ← loads t; of_json j.

Lemma parse_text a : storable a → parse (text a) = Some a.
Proof. intros Ha. unfold parse, text. rewrite loads_dumps by done. apply of_to_json. Qed.

(** [{row[0]: json.loads(row[1]) for row in rows}] *)
Definition read_rows (rows : dict string) : option (dict A) :=
  mapM (λ row, pair row.1 <$> parse row.2) rows.

Lemma read_rows_text (d : dict A) : Forall (λ kv, storable kv.2) d → read_rows (dict_map text d) = Some d.
Proof.
  unfold read_rows, dict_map. induction 1 as [|[k a] d Ha _ IH]; [done|]. rewrite fmap_cons.
  cbn [mapM prod_map fst snd]. rewrite parse_text by done. cbn [fmap option_fmap option_map mbind option_bind].
  by rewrite IH.
Qed.
End text.

(** ** The text tables of the SQLite backend *)
Section tables.
Context `{FloatRepr}.

Record text_tables := TextTables {
  nodes_text : dict string;
  events_text : dict string;
  checkpoints_text : dict string;
  substitutes_text : dict string;
  text_depth_limit : nat }.

#[export] Instance text_tables_rebuild : Rebuild text_tables := λ t,
  TextTables (nodes_text t) (events_text t) (checkpoints_text t) (substitutes_text t) (text_depth_limit t).

(** The operations that write an object. *)
Inductive row_op :=
  | CommitNode (payload : node)
  | LogEvent (event : quarantine_event)
  | ApplyQuarantine (event : quarantine_event) (c_p : list string)
  | AddCheckpoint (checkpoint : checkpoint_record)
  | AddSubstitute (declaration : substitute_declaration).

(* src: src/sqlite_backend.py 252-261 SqliteStateBackend.commit_node *)
Definition commit_node_text (payload : node) (t : text_tables) : text_tables :=
  t <| nodes_text ::= insert_or_ignore (payload_id payload) (text payload) |>.

(* src: src/sqlite_backend.py SqliteStateBackend.log_quarantine_event *)
Definition log_event_text (event : quarantine_event) (t : text_tables) : text_tables :=
  t <| events_text ::= insert_or_replace (quarantine_event_id event) (text event) |>.

(* src: src/sqlite_backend.py SqliteStateBackend.apply_quarantine_transaction *)
Definition apply_quarantine_text (event : quarantine_event) (t : text_tables) : text_tables :=
  log_event_text (event <| max_traversal_depth := Some (text_depth_limit t) |>) t.

(* src: src/sqlite_backend.py SqliteStateBackend.add_checkpoint *)
Definition add_checkpoint_text (checkpoint : checkpoint_record) (t : text_tables) : text_tables :=
  t <| checkpoints_text ::= insert_or_replace (checkpoint_id checkpoint) (text checkpoint) |>.

(* src: src/sqlite_backend.py SqliteStateBackend.add_substitute_declaration *)
Definition add_substitute_text (declaration : substitute_declaration) (t : text_tables) : text_tables :=
  t <| substitutes_text ::= insert_or_replace (sub_target_node_id declaration) (text declaration) |>.

(* src: src/sqlite_backend.py SqliteStateBackend.get_dag *)
Definition get_dag_text (t : text_tables) : option (dict node) := read_rows (nodes_text t).

(* src: src/sqlite_backend.py SqliteStateBackend.get_quarantine_events *)
Definition get_quarantine_events_text (t : text_tables) : option (list quarantine_event) :=
  dict_values <$> read_rows (events_text t).

(* src: src/sqlite_backend.py SqliteStateBackend.get_checkpoints *)
Definition get_checkpoints_text (t : text_tables) : option (dict checkpoint_record) :=
  read_rows (checkpoints_text t).

(* src: src/sqlite_backend.py SqliteStateBackend.get_substitute_declarations *)
Definition get_substitute_declarations_text (t : text_tables) : option (dict substitute_declaration) :=
  read_rows (substitutes_text t).

Definition text_step (op : row_op) (t : text_tables) : text_tables :=
  match op with
  | CommitNode payload => commit_node_text payload t
  | LogEvent event => log_event_text event t
  | ApplyQuarantine event _ => apply_quarantine_text event t
  | AddCheckpoint checkpoint => add_checkpoint_text checkpoint t
  | AddSubstitute declaration => add_substitute_text declaration t
  end.

Definition object_step (op : row_op) (s : db) : db :=
  match op with
  | CommitNode payload => (commit_node payload s).2
  | LogEvent event => log_quarantine_event event s
  | ApplyQuarantine event c_p => (apply_quarantine_transaction event c_p s).2
  | AddCheckpoint checkpoint => add_checkpoint checkpoint s
  | AddSubstitute declaration => add_substitute_declaration declaration s
  end.

(** What has to hold of the written object. *)
Definition op_storable (op : row_op) : Prop :=
  match op with
  | CommitNode payload =>
    from_option storable True (state_content payload) ∧ from_option storable True (criticality_weight payload)
  | AddCheckpoint checkpoint => storable (snapshot_data checkpoint)
  | _ => True
  end.

(** The text tables of a store of objects. *)
Definition text_of (s : db) : text_tables :=
  TextTables (dict_map text (Sqlite.get_dag s)) (dict_map text (t_events s)) (dict_map text (t_checkpoints s))
    (dict_map text (t_substitutes s)) (depth_limit s).

Definition rows_storable (s : db) : Prop :=
  Forall (λ kv, storable kv.2) (Sqlite.get_dag s) ∧ Forall (λ kv, storable kv.2) (t_checkpoints s).

Lemma ledger_only c_p s :
  let s' := fold_left (λ s node_id, add_to_quarantine_ledger node_id s) c_p s in
  nodes s' = nodes s ∧ t_events s' = t_events s ∧ t_checkpoints s' = t_checkpoints s ∧
  t_substitutes s' = t_substitutes s ∧ depth_limit s' = depth_limit s.
Proof.
  revert s. induction c_p as [|c c_p IH]; intros s; [done|].
  destruct (IH (add_to_quarantine_ledger c s)) as (Hn & He & Hc & Hs & Hd). cbn [fold_left].
  rewrite Hn, He, Hc, Hs, Hd. done.
Qed.

Lemma commit_node_dag payload s :
  Sqlite.get_dag (commit_node payload s).2 = insert_or_ignore (payload_id payload) payload (Sqlite.get_dag s).
Proof.
  unfold commit_node, Sqlite.get_dag. destruct (dict_mem (payload_id payload) (nodes s)) eqn:E; cbn.
  - apply dict_mem_true in E. unfold insert_or_ignore. rewrite dict_keys_map. by case_decide.
  - apply (insert_or_ignore_map payload_json).
Qed.

Lemma commit_node_other payload s :
  let s' := (commit_node payload s).2 in
  t_events s' = t_events s ∧ t_checkpoints s' = t_checkpoints s ∧
  t_substitutes s' = t_substitutes s ∧ depth_limit s' = depth_limit s.
Proof. unfold commit_node. by destruct (dict_mem _ _). Qed.

Lemma log_event_text_of event s : log_event_text event (text_of s) = text_of (log_quarantine_event event s).
Proof.
  unfold log_event_text, log_quarantine_event, text_of at 2. cbn [field_update rebuild t_events].
  by rewrite insert_or_replace_map.
Qed.

Lemma text_step_object op s : text_step op (text_of s) = text_of (object_step op s).
Proof.
  destruct op as [payload|event|event c_p|cp|decl]; cbn [text_step object_step].
  - unfold text_of at 2. rewrite commit_node_dag. destruct (commit_node_other payload s) as (-> & -> & -> & ->).
    by rewrite insert_or_ignore_map.
  - apply log_event_text_of.
  - unfold apply_quarantine_text, apply_quarantine_transaction. cbn [snd]. rewrite log_event_text_of.
    unfold text_of, get_dag. cbn [text_depth_limit].
    destruct (ledger_only c_p (log_quarantine_event
      (event <| max_traversal_depth := Some (depth_limit s) |>) s)) as (-> & -> & -> & -> & ->). done.
  - unfold add_checkpoint, text_of at 2. cbn [field_update rebuild t_checkpoints]. by rewrite insert_or_replace_map.
  - unfold add_substitute_declaration, text_of at 2. cbn [field_update rebuild t_substitutes].
    by rewrite insert_or_replace_map.
Qed.

(** *** Every row stays readable *)
Lemma insert_or_ignore_forall {V} (P : V → Prop) k v (d : dict V) :
  P v → Forall (λ kv, P kv.2) d → Forall (λ kv, P kv.2) (insert_or_ignore k v d).
Proof. intros Hv Hd. unfold insert_or_ignore. case_decide; [done|]. apply Forall_app_2; [done|]. by repeat constructor. Qed.

Lemma insert_or_replace_forall {V} (P : V → Prop) k v (d : dict V) :
  P v → Forall (λ kv, P kv.2) d → Forall (λ kv, P kv.2) (insert_or_replace k v d).
Proof.
  intros Hv Hd. apply Forall_app_2; [|by repeat constructor]. rewrite !Forall_forall in *.
  intros kv [Hkv _]%list_elem_of_In%filter_In. by apply Hd, list_elem_of_In.
Qed.

Lemma object_step_storable op s : op_storable op → rows_storable s → rows_storable (object_step op s).
Proof.
  unfold rows_storable. intros Hop [Hn Hc]. destruct op as [payload|event|event c_p|cp|decl]; cbn [object_step].
  - rewrite commit_node_dag. destruct (commit_node_other payload s) as (_ & -> & _). split; [|done].
    apply insert_or_ignore_forall; [|done]. by apply storable_node; apply Hop.
  - done.
  - unfold get_dag, apply_quarantine_transaction. cbn [snd].
    destruct (ledger_only c_p (log_quarantine_event
      (event <| max_traversal_depth := Some (depth_limit s) |>) s)) as (-> & _ & -> & _). done.
  - split; [done|]. apply insert_or_replace_forall; [|done]. by apply storable_checkpoint.
  - done.
Qed.

Definition text_steps (ops : list row_op) (t : text_tables) : text_tables :=
  fold_left (λ t op, text_step op t) ops t.
Definition object_steps (ops : list row_op) (s : db) : db := fold_left (λ s op, object_step op s) ops s.

Lemma text_steps_objects ops s : text_steps ops (text_of s) = text_of (object_steps ops s).
Proof.
  revert s. induction ops as [|op ops IH]; intros s; [done|]. cbn. rewrite text_step_object. apply IH.
Qed.

Lemma object_steps_storable ops s :
  Forall op_storable ops → rows_storable s → rows_storable (object_steps ops s).
Proof.
  revert s. induction ops as [|op ops IH]; intros s; [done|]. intros [Hop Hops]%Forall_cons Hs.
  apply IH; [done|]. by apply object_step_storable.
Qed.

(** C31: whatever sequence of payloads, quarantine events, checkpoints and
    declarations is written as JSON text to the SQLite tables, starting from an
    empty database, reading the text back gives exactly the objects: the graph,
    the events, the checkpoints and the declarations of the object store after
    the same operations. *)
Theorem stored_text_reads_back (max_traversal_depth : nat) (ops : list row_op)
    (Hops : Forall op_storable ops) :
  let t := text_steps ops (text_of (empty_db max_traversal_depth)) in
  let s := object_steps ops (empty_db max_traversal_depth) in
  get_dag_text t = Some (get_dag s) ∧
  get_quarantine_events_text t = Some (dict_values (t_events s)) ∧
  get_checkpoints_text t = Some (t_checkpoints s) ∧
  get_substitute_declarations_text t = Some (t_substitutes s).
Proof.
  cbv zeta. rewrite text_steps_objects.
  destruct (object_steps_storable ops (empty_db max_traversal_depth) Hops ltac:(done)) as [Hn Hc].
  unfold get_dag_text, get_quarantine_events_text, get_checkpoints_text, get_substitute_declarations_text.
  cbn [text_of nodes_text events_text checkpoints_text substitutes_text].
  rewrite !read_rows_text; [done| |done| |done]; apply Forall_forall; intros kv _.
  - apply storable_substitute.
  - apply storable_event.
Qed.
End tables.

Definition half_repr : FloatRepr := λ _, "0.5".

Definition stored_example : node :=
  bare_node "n1" <| criticality_weight := Some (1 # 2)%Q |>
                 <| state_content := Some [("k", JArr [JStr (char 34 +:+ char 200); JBool true])] |>.

Lemma stored_text_reads_back_witness :
  let t := text_steps (H:=half_repr) [CommitNode stored_example; CommitNode (bare_node "n1")]
             (text_of (H:=half_repr) (empty_db 10)) in
  get_dag_text (H:=half_repr) t = Some [("n1", stored_example)].
Proof.
  apply (stored_text_reads_back (H:=half_repr) 10 [CommitNode stored_example; CommitNode (bare_node "n1")]).
  repeat constructor. apply (bool_decide_unpack _). vm_compute. exact I.
Defined.
