(* ===== verification/Jsonschema.v ===== *)
(** * The request schemas ([schemas/])

    [/submit-candidate] checks a body against [state_write_payload.json] before
    it looks at it.  A schema is the tree of its keywords; [conforms] is what
    Draft 2020-12 says of the keywords that the documents use.  [format] is an
    annotation for a validator that is built without a format checker, as the
    gateway's is, and [default], [title] and [description] always are, so the
    four are left out.

    [reads] relates a schema with a type of the development: every value the
    schema accepts is read as a value of the type. *)
From Stdlib Require Import Ascii.
From S2P Require Import Prelude Dict Types Encoding Timeparse Json Graph Lineage Interface Memory Sqlite Payload.

(** ** Schemas *)
Inductive json_type := TObject | TArray | TString | TNumber.

(** The one pattern of the documents. *)
Inductive pattern := Hex64.

Inductive schema := Schema {
  s_type : option json_type;
  s_enum : option (list json);
  s_const : option json;
  s_pattern : option pattern;
  s_minimum : option Q;
  s_maximum : option Q;
  s_minItems : nat;
  s_uniqueItems : bool;
  s_items : option schema;
  s_required : list string;
  s_properties : list (string * schema);
  s_additionalProperties : bool }.

#[export] Instance schema_rebuild : Rebuild schema := λ s,
  Schema (s_type s) (s_enum s) (s_const s) (s_pattern s) (s_minimum s) (s_maximum s) (s_minItems s)
    (s_uniqueItems s) (s_items s) (s_required s) (s_properties s) (s_additionalProperties s).

(** [{"type": t}] *)
Definition typed_schema (t : json_type) : schema :=
  Schema (Some t) None None None None None 0 false None [] [] true.

(** ** What a schema accepts *)
Definition has_type (t : json_type) (j : json) : bool :=
  match t, j with
  | TObject, JObj _ | TArray, JArr _ | TString, JStr _ | TNumber, JNum _ _ => true
  | _, _ => false
  end.

(** [==] of the parsed values *)
Fixpoint json_eqb (a b : json) : bool :=
  match a, b with
  | JNull, JNull => true
  | JBool x, JBool y => Bool.eqb x y
  | JNum p _, JNum q _ => Qeq_bool p q
  | JStr s, JStr t => bool_decide (s = t)
  | JArr l, JArr m =>
    (fix go l m := match l, m with
      | [], [] => true | x :: l, y :: m => json_eqb x y && go l m | _, _ => false end) l m
  | JObj o, JObj p =>
    bool_decide (length o = length p) &&
    (fix go o := match o with
      | [] => true
      | (k, v) :: o => match dict_get k p with Some w => json_eqb v w | None => false end && go o end) o
  | _, _ => false
  end.

Fixpoint distinct (l : list json) : bool :=
  match l with [] => true | x :: l => negb (existsb (json_eqb x) l) && distinct l end.

Definition is_hex_digit (c : ascii) : bool :=
  let z := ascii_z c in
  ((48 <=? z) && (z <=? 57) || (97 <=? z) && (z <=? 102) || (65 <=? z) && (z <=? 70))%Z.

(** [re.search("^[a-fA-F0-9]{64}$", s)]: the dollar also matches before a final
    line feed. *)
Definition matches (p : pattern) (s : string) : bool :=
  let '(digits, rest) := span is_hex_digit (chars s) in
  bool_decide (length digits = 64) && (bool_decide (rest = []) || bool_decide (rest = [z_ascii 10])).

(** [if x: ..] on a keyword that may be missing *)
Definition if_given {A} (o : option A) (check : A → bool) : bool :=
  match o with Some a => check a | None => true end.

Fixpoint conforms (s : schema) (j : json) {struct s} : bool :=
  match s with
  | Schema ty en co pa mi ma mn un it rq pr ad =>
    if_given ty (λ t, has_type t j) && if_given en (existsb (json_eqb j)) && if_given co (json_eqb j) &&
    match j with
    | JStr t => if_given pa (λ p, matches p t)
    | JNum q _ => if_given mi (λ m, Qle_bool m q) && if_given ma (λ m, Qle_bool q m)
    | JArr l =>
      (mn <=? length l) && (negb un || distinct l) &&
      match it with Some s' => forallb (conforms s') l | None => true end
    | JObj o =>
      forallb (λ k, dict_mem k o) rq && (ad || forallb (λ kv, dict_mem kv.1 pr) o) &&
      (fix go pr := match pr with
        | [] => true
        | (k, s') :: pr => match dict_get k o with Some v => conforms s' v | None => true end && go pr end) pr
    | _ => true
    end
  end.

(** ** The documents *)
Definition string_s : schema := typed_schema TString.
Definition hex64_s : schema := string_s <| s_pattern := Some Hex64 |>.
Definition strings_s : schema := typed_schema TArray <| s_items := Some string_s |>.
Definition one_of (l : list string) : schema := string_s <| s_enum := Some (JStr <$> l) |>.
Definition object_s (required : list string) (properties : list (string * schema)) : schema :=
  typed_schema TObject <| s_required := required |> <| s_properties := properties |>.

(* src: schemas/state_write_payload.json 48-56 ephemeral_nhi *)
Definition nhi_s : schema :=
  object_s ["identity_id"; "session_token"; "expires_at_utc"]
    [("identity_id", string_s); ("session_token", string_s); ("expires_at_utc", string_s)].

(* src: schemas/state_write_payload.json 57-65 declared_evidence_boundary *)
Definition boundary_s : schema :=
  object_s ["boundary_id"; "fixed_at_utc"; "boundary_digest"]
    [("boundary_id", string_s); ("fixed_at_utc", string_s); ("boundary_digest", hex64_s)].

(* src: schemas/state_write_payload.json 68-80 parent_dependency_commitments *)
Definition commitment_s : schema :=
  object_s ["parent_node_id"; "parent_content_hash"]
    [("parent_node_id", string_s); ("parent_content_hash", hex64_s);
     ("edge_class", one_of ["MATERIAL"; "INCIDENTAL"; "CARRIED"])].

(* src: schemas/state_write_payload.json 32-38 summarizer *)
Definition summarizer_s : schema :=
  object_s [] [("method_id", string_s); ("config_digest", string_s)].

(* src: schemas/state_write_payload.json 1-113 GASC_StateWritePayload *)
Definition state_write_payload : schema :=
  object_s ["payload_id"; "timestamp_utc"; "ephemeral_nhi"; "declared_evidence_boundary";
            "parent_dependency_commitments"; "state_content"; "content_digest_sha256"; "agent_signature";
            "signature_algorithm"]
    [("node_type", one_of ["STANDARD"; "COMPACTION"]); ("covers", strings_s); ("covers_interval_gap", strings_s);
     ("summarizer", summarizer_s); ("payload_id", string_s); ("timestamp_utc", string_s); ("ephemeral_nhi", nhi_s);
     ("declared_evidence_boundary", boundary_s);
     ("parent_dependency_commitments",
       typed_schema TArray <| s_items := Some commitment_s |> <| s_minItems := 1 |>);
     ("state_content", typed_schema TObject); ("content_digest_sha256", hex64_s); ("agent_signature", string_s);
     ("signature_algorithm", string_s <| s_const := Some (JStr "ECDSA-P256-SHA256") |>);
     ("criticality_weight", typed_schema TNumber <| s_minimum := Some 0%Q |> <| s_maximum := Some 1%Q |>);
     ("retry_of", string_s)]
    <| s_additionalProperties := false |>.

(* src: schemas/quarantine_event.json 1-35 GASC_QuarantineEvent *)
Definition quarantine_event_s : schema :=
  object_s ["quarantine_event_id"; "detected_at_utc"; "poisoned_root_id"; "computed_blast_radius_C_p";
            "monotonic_ledger_digest_post_transition"]
    [("quarantine_event_id", string_s); ("detected_at_utc", string_s); ("poisoned_root_id", string_s);
     ("computed_blast_radius_C_p", strings_s <| s_minItems := 1 |> <| s_uniqueItems := true |>);
     ("independent_snapshot_hash", hex64_s); ("monotonic_ledger_digest_post_transition", hex64_s)]
    <| s_additionalProperties := false |>.

(** ** What acceptance says *)
Lemma conforms_type s t j : conforms s j = true → s_type s = Some t → has_type t j = true.
Proof. destruct s. cbn. rewrite !andb_true_iff. by intros [[[Ht _] _] _] ->. Qed.

Lemma conforms_enum s l j : conforms s j = true → s_enum s = Some l → existsb (json_eqb j) l = true.
Proof. destruct s. cbn. rewrite !andb_true_iff. by intros [[[_ He] _] _] ->. Qed.

Lemma conforms_const s c j : conforms s j = true → s_const s = Some c → json_eqb j c = true.
Proof. destruct s. cbn. rewrite !andb_true_iff. by intros [[_ Hc] _] ->. Qed.

Lemma conforms_pattern s p t : conforms s (JStr t) = true → s_pattern s = Some p → matches p t = true.
Proof. destruct s. cbn. rewrite !andb_true_iff. by intros [_ Hp] ->. Qed.

Lemma conforms_range s q t lo hi :
  conforms s (JNum q t) = true → s_minimum s = Some lo → s_maximum s = Some hi → (lo <= q <= hi)%Q.
Proof. destruct s. cbn. rewrite !andb_true_iff. intros [_ [Hl Hh]] -> ->. by rewrite <-!Qle_bool_iff. Qed.

Lemma conforms_array s l :
  conforms s (JArr l) = true →
  s_minItems s ≤ length l ∧ ∀ s', s_items s = Some s' → ∀ x, x ∈ l → conforms s' x = true.
Proof.
  destruct s. cbn. rewrite !andb_true_iff. intros [_ [[Hm _] Hi]]. split; [by apply Nat.leb_le|].
  intros s' -> x Hx%list_elem_of_In. by eapply forallb_forall in Hx.
Qed.

Lemma conforms_object s o :
  conforms s (JObj o) = true →
  (∀ k, k ∈ s_required s → k ∈ dict_keys o) ∧
  (s_additionalProperties s = false → ∀ k, k ∈ dict_keys o → k ∈ dict_keys (s_properties s)) ∧
  (∀ k s' v, dict_get k (s_properties s) = Some s' → dict_get k o = Some v → conforms s' v = true).
Proof.
  destruct s as [ty en co pa mi ma mn un it rq pr ad]. cbn. rewrite !andb_true_iff.
  intros [_ [[Hr Ha] Hp]]. rewrite forallb_forall in Hr. split_and!.
  - intros k Hk%list_elem_of_In. by apply dict_mem_true, Hr.
  - intros -> k Hk. apply dict_get_is_Some in Hk as [v Hv%dict_get_Some_elem%list_elem_of_In].
    cbn in Ha. rewrite forallb_forall in Ha. by apply dict_mem_true, (Ha (k, v)).
  - clear Hr Ha. induction pr as [|[k' s''] pr IH]; intros k s' v; [done|].
    apply andb_true_iff in Hp as [Hh Ht]. cbn [dict_get]. case_decide as Hk.
    + intros [= <-] Hv. by rewrite <-Hk, Hv in Hh.
    + by apply IH.
Qed.

(** The converse for an object. *)
Lemma conforms_object_intro s o :
  s_type s = Some TObject → s_enum s = None → s_const s = None →
  Forall (λ k, is_Some (dict_get k o)) (s_required s) →
  (s_additionalProperties s = true ∨ Forall (λ k, k ∈ dict_keys (s_properties s)) (dict_keys o)) →
  Forall (λ ks, from_option (λ v, conforms ks.2 v = true) True (dict_get ks.1 o)) (s_properties s) →
  conforms s (JObj o) = true.
Proof.
  destruct s as [ty en co pa mi ma mn un it rq pr ad]. cbn. intros -> -> -> Hr Ha Hp. cbn. rewrite !andb_true_iff.
  split_and!.
  - apply forallb_forall. intros k Hk%list_elem_of_In. apply dict_mem_true, dict_get_is_Some.
    by eapply Forall_forall in Hr.
  - destruct Ha as [-> |Ha]; [done|]. apply orb_true_iff. right. apply forallb_forall.
    intros [k v] Hk%list_elem_of_In. apply dict_mem_true. eapply Forall_forall in Ha; [done|by eapply dict_keys_elem].
  - clear Hr Ha. induction Hp as [|[k s'] pr Hk _ IH]; [done|]. cbn in Hk. destruct (dict_get k o); cbn in Hk;
      by rewrite ?Hk, IH.
Qed.

Lemma conforms_hex64 t : matches Hex64 t = true → conforms hex64_s (JStr t) = true.
Proof. intros Ht. cbn -[matches]. by rewrite Ht. Qed.

Lemma conforms_one_of l t : t ∈ l → conforms (one_of l) (JStr t) = true.
Proof.
  intros Ht. change ((true && existsb (json_eqb (JStr t)) (JStr <$> l) && true) && true = true).
  assert (existsb (json_eqb (JStr t)) (JStr <$> l) = true) as ->; [|done].
  apply existsb_exists. exists (JStr t). split; [by apply list_elem_of_In, list_elem_of_fmap_2|by apply bool_decide_eq_true].
Qed.

Lemma conforms_list s s' l :
  s_type s = Some TArray → s_enum s = None → s_const s = None → s_uniqueItems s = false → s_items s = Some s' →
  s_minItems s ≤ length l → Forall (λ x, conforms s' x = true) l → conforms s (JArr l) = true.
Proof.
  destruct s as [ty en co pa mi ma mn un it rq pr ad]. cbn. intros -> -> -> -> -> Hn Hl. cbn.
  rewrite (proj2 (Nat.leb_le _ _) Hn). apply forallb_forall. intros x Hx%list_elem_of_In.
  by eapply Forall_forall in Hl.
Qed.

(** ** Schemas and types *)

(** [rd(j)] is a value with the property [P], for every [j] that [s] accepts. *)
Definition reads {A} (s : schema) (rd : json → option A) (P : A → Prop) : Prop :=
  ∀ j, conforms s j = true → j ≠ JNull ∧ ∃ a, rd j = Some a ∧ P a.

Definition read_string (j : json) : option string := match j with JStr s => Some s | _ => None end.
Definition read_number (j : json) : option Q := match j with JNum q _ => Some q | _ => None end.
Definition read_dict (j : json) : option (dict json) := match j with JObj o => Some o | _ => None end.
Definition read_list {A} (rd : json → option A) (j : json) : option (list A) :=
  match j with JArr l => mapM rd l | _ => None end.

(** [o[k]] and [o.get(k)] *)
Definition field_of {A} (rd : json → option A) (k : string) (o : dict json) : option A := dict_get k o ≫= rd.
Definition opt_field {A} (rd : json → option A) (k : string) (o : dict json) : option (option A) :=
  match dict_get k o with
  | None | Some JNull => Some None
  | Some v => Some <$> rd v
  end.

Section reads.
Context {A : Type}.
Implicit Types (s : schema) (P : A → Prop).

Lemma reads_impl s (rd : json → option A) P P' : (∀ a, P a → P' a) → reads s rd P → reads s rd P'.
Proof. intros HP Hr j Hj. destruct (Hr j Hj) as [? (a & ? & ?)]. eauto. Qed.

Lemma reads_list s s' (rd : json → option A) P :
  s_type s = Some TArray → s_items s = Some s' → reads s' rd P →
  reads s (read_list rd) (λ l, Forall P l ∧ s_minItems s ≤ length l).
Proof.
  intros Ht Hi Hr j Hj. pose proof (conforms_type _ _ _ Hj Ht) as Hty. destruct j as [| | | |l|]; try done.
  apply conforms_array in Hj as [Hn Hl]. split; [done|]. specialize (Hl _ Hi).
  assert (∃ l', mapM rd l = Some l' ∧ Forall P l' ∧ length l' = length l) as (l' & Hl' & HF & Hlen).
  { clear Hn Hty. induction l as [|x l IH]; [by exists []|]. destruct (Hr x) as [_ (a & Ha & HPa)]; [apply Hl; by left|].
    destruct IH as (l' & E & HF & Hlen); [intros; apply Hl; by right|]. exists (a :: l'). cbn. rewrite Ha, E. cbn.
    split; [done|]. split; [by constructor|by rewrite Hlen]. }
  exists l'. rewrite Hlen. by split.
Qed.

Lemma reads_object s (rd : dict json → option A) P :
  s_type s = Some TObject → (∀ o, conforms s (JObj o) = true → ∃ a, rd o = Some a ∧ P a) → reads s (read_object rd) P.
Proof.
  intros Ht Hr j Hj. pose proof (conforms_type _ _ _ Hj Ht) as Hty. destruct j as [| | | | |o]; try done.
  split; [done|by apply Hr].
Qed.

Lemma required_field s o k s' (rd : json → option A) P :
  conforms s (JObj o) = true → k ∈ s_required s → dict_get k (s_properties s) = Some s' → reads s' rd P →
  ∃ a, field_of rd k o = Some a ∧ P a.
Proof.
  intros Ho Hk Hs Hr. apply conforms_object in Ho as (Hreq & _ & Hp).
  destruct (proj2 (dict_get_is_Some k o) (Hreq k Hk)) as [v Hv].
  destruct (Hr v (Hp k s' v Hs Hv)) as [_ (a & Ha & HP)]. exists a. unfold field_of. by rewrite Hv.
Qed.

Lemma optional_field s o k s' (rd : json → option A) P :
  conforms s (JObj o) = true → dict_get k (s_properties s) = Some s' → reads s' rd P →
  ∃ a, opt_field rd k o = Some a ∧ (k ∈ s_required s → is_Some a) ∧ from_option P True a.
Proof.
  intros Ho Hs Hr. apply conforms_object in Ho as (Hreq & _ & Hp). unfold opt_field.
  destruct (dict_get k o) as [v|] eqn:Hv.
  - destruct (Hr v (Hp k s' v Hs Hv)) as [Hnn (a & Ha & HP)]. exists (Some a). rewrite Ha. by destruct v.
  - exists None. split_and!; [done| |done]. intros Hk%Hreq. by apply dict_get_None in Hv.
Qed.
End reads.

Lemma reads_string s : s_type s = Some TString → reads s read_string (λ t, conforms s (JStr t) = true).
Proof.
  intros Ht j Hj. pose proof (conforms_type _ _ _ Hj Ht) as Hty. destruct j; try done. split; [done|]. by eexists.
Qed.

Lemma reads_any_string s : s_type s = Some TString → reads s read_string (λ _, True).
Proof. intros Ht. by eapply reads_impl, reads_string. Qed.

Lemma reads_hex64 : reads hex64_s read_string (λ t, matches Hex64 t = true).
Proof. eapply reads_impl, reads_string; [|done]. intros t Ht. by apply (conforms_pattern hex64_s). Qed.

Lemma json_eqb_str j t : json_eqb j (JStr t) = true → j = JStr t.
Proof. destruct j; try done. cbn. by intros ->%bool_decide_eq_true. Qed.

Lemma reads_one_of l : reads (one_of l) read_string (λ t, t ∈ l).
Proof.
  eapply reads_impl, reads_string; [|done]. intros t Ht. apply (conforms_enum _ (JStr <$> l)) in Ht; [|done].
  apply existsb_exists in Ht as (x & Hx%list_elem_of_In & He). apply list_elem_of_fmap in Hx as (u & -> & Hu).
  apply json_eqb_str in He as [= ->]. done.
Qed.

Lemma reads_const s t : s_type s = Some TString → s_const s = Some (JStr t) → reads s read_string (λ u, u = t).
Proof.
  intros Ht Hc. eapply reads_impl, reads_string; [|done]. intros u Hu.
  apply (conforms_const _ (JStr t)) in Hu; [|done]. by apply json_eqb_str in Hu as [= ->].
Qed.

Lemma reads_content s : s_type s = Some TObject → reads s read_dict (λ _, True).
Proof.
  intros Ht j Hj. pose proof (conforms_type _ _ _ Hj Ht) as Hty. destruct j; try done. split; [done|]. by eexists.
Qed.

Lemma reads_number s lo hi :
  s_type s = Some TNumber → s_minimum s = Some lo → s_maximum s = Some hi →
  reads s read_number (λ q, (lo <= q <= hi)%Q).
Proof.
  intros Ht Hl Hh j Hj. pose proof (conforms_type _ _ _ Hj Ht) as Hty. destruct j; try done. split; [done|].
  eexists. split; [done|]. by eapply conforms_range.
Qed.

(** ** The payload in an accepted body

    Entries that the schema does not name are dropped: a nested object may have
    more, and nothing reads them of a submitted payload. *)
Definition read_nhi : json → option nhi := read_object (λ o,
  i ← opt_field read_string "identity_id" o; t ← opt_field read_string "session_token" o;
  e ← opt_field read_string "expires_at_utc" o;
  Some (Nhi i t e)).

Definition read_boundary : json → option evidence_boundary := read_object (λ o,
  i ← field_of read_string "boundary_id" o; t ← field_of read_string "fixed_at_utc" o;
  d ← field_of read_string "boundary_digest" o;
  Some (EvidenceBoundary i t d)).

Definition read_commitment : json → option commitment := read_object (λ o,
  p ← field_of read_string "parent_node_id" o; h ← opt_field read_string "parent_content_hash" o;
  c ← opt_field read_string "edge_class" o;
  Some (Commitment p h c)).

Definition read_summarizer : json → option summarizer_info := read_object (λ o,
  m ← opt_field read_string "method_id" o; c ← opt_field read_string "config_digest" o;
  Some (Summarizer m c None None)).

Definition read_payload : json → option node := read_object (λ o,
  i ← field_of read_string "payload_id" o;
  nt ← opt_field read_string "node_type" o;
  t ← opt_field read_string "timestamp_utc" o;
  nh ← opt_field read_nhi "ephemeral_nhi" o;
  eb ← opt_field read_boundary "declared_evidence_boundary" o;
  sc ← opt_field read_dict "state_content" o;
  cd ← opt_field read_string "content_digest_sha256" o;
  sg ← opt_field read_string "agent_signature" o;
  sa ← opt_field read_string "signature_algorithm" o;
  cv ← opt_field (read_list read_string) "covers" o;
  gap ← opt_field (read_list read_string) "covers_interval_gap" o;
  ps ← opt_field (read_list read_commitment) "parent_dependency_commitments" o;
  sm ← opt_field read_summarizer "summarizer" o;
  w ← opt_field read_number "criticality_weight" o;
  r ← opt_field read_string "retry_of" o;
  Some (Node i nt t nh eb sc cd sg sa (default [] cv) gap (default [] ps) sm w r)).

(** What the code takes for granted of a payload. *)
Definition full_nhi (i : nhi) : Prop :=
  is_Some (identity_id i) ∧ is_Some (session_token i) ∧ is_Some (nhi_expires_at_utc i).

Definition sealed_boundary (b : evidence_boundary) : Prop := matches Hex64 (boundary_digest b) = true.

Definition hashed_commitment (c : commitment) : Prop :=
  (∃ h, parent_content_hash c = Some h ∧ matches Hex64 h = true) ∧
  from_option (λ e, e ∈ ["MATERIAL"; "INCIDENTAL"; "CARRIED"]) True (edge_class c).

(** [o] is there and has the property [P]. *)
Definition has {A} (o : option A) (P : A → Prop) : Prop := ∃ a, o = Some a ∧ P a.

Record typed_payload (n : node) : Prop := {
  tp_node_type : from_option (λ t, t ∈ ["STANDARD"; "COMPACTION"]) True (node_type n);
  tp_timestamp : is_Some (timestamp_utc n);
  tp_nhi : has (ephemeral_nhi n) full_nhi;
  tp_boundary : has (declared_evidence_boundary n) sealed_boundary;
  tp_content : is_Some (state_content n);
  tp_digest : has (content_digest_sha256 n) (λ d, matches Hex64 d = true);
  tp_signature : is_Some (agent_signature n);
  tp_algorithm : signature_algorithm n = Some "ECDSA-P256-SHA256";
  tp_parents : parent_dependency_commitments n ≠ [];
  tp_commitments : Forall hashed_commitment (parent_dependency_commitments n);
  tp_weight : from_option (λ w, 0 <= w <= 1)%Q True (criticality_weight n) }.

(** Reads the next field of an object by its schema. *)
Ltac next_field H k r :=
  let a := fresh "a" in let E := fresh "E" in let R := fresh "R" in let P := fresh "P" in
  lazymatch goal with
  | |- context [field_of _ k _] =>
    destruct (required_field _ _ k _ _ _ H ltac:(apply (bool_decide_unpack _); exact I) eq_refl r) as (a & E & P)
  | |- context [opt_field _ k _] =>
    destruct (optional_field _ _ k _ _ _ H eq_refl r) as (a & E & R & P);
    try (specialize (R ltac:(apply (bool_decide_unpack _); exact I)))
  end;
  rewrite E; cbn [mbind option_bind].

Lemma some_has {A} (o : option A) (P : A → Prop) : is_Some o → from_option P True o → has o P.
Proof. intros [a ->] HP. by exists a. Qed.

Lemma reads_nhi : reads nhi_s read_nhi full_nhi.
Proof.
  apply reads_object; [done|]. intros o H.
  next_field H "identity_id" (reads_any_string string_s eq_refl).
  next_field H "session_token" (reads_any_string string_s eq_refl).
  next_field H "expires_at_utc" (reads_any_string string_s eq_refl).
  eexists. split; [done|]. by split_and!.
Qed.

Lemma reads_boundary : reads boundary_s read_boundary sealed_boundary.
Proof.
  apply reads_object; [done|]. intros o H.
  next_field H "boundary_id" (reads_any_string string_s eq_refl).
  next_field H "fixed_at_utc" (reads_any_string string_s eq_refl).
  next_field H "boundary_digest" reads_hex64.
  eexists. by split.
Qed.

Lemma reads_commitment : reads commitment_s read_commitment hashed_commitment.
Proof.
  apply reads_object; [done|]. intros o H.
  next_field H "parent_node_id" (reads_any_string string_s eq_refl).
  next_field H "parent_content_hash" reads_hex64.
  next_field H "edge_class" (reads_one_of ["MATERIAL"; "INCIDENTAL"; "CARRIED"]).
  eexists. split; [done|]. split; [by apply some_has|done].
Qed.

Lemma reads_summarizer : reads summarizer_s read_summarizer (λ _, True).
Proof.
  apply reads_object; [done|]. intros o H.
  next_field H "method_id" (reads_any_string string_s eq_refl).
  next_field H "config_digest" (reads_any_string string_s eq_refl).
  by eexists.
Qed.

Lemma reads_strings : reads strings_s (read_list read_string) (λ _, True).
Proof. eapply reads_impl, (reads_list _ string_s); [done..|by apply reads_any_string]. Qed.

(** Every body the schema accepts is read as a payload of the right type. *)
Lemma reads_payload : reads state_write_payload read_payload typed_payload.
Proof.
  apply reads_object; [done|]. intros o H.
  next_field H "payload_id" (reads_any_string string_s eq_refl).
  next_field H "node_type" (reads_one_of ["STANDARD"; "COMPACTION"]).
  next_field H "timestamp_utc" (reads_any_string string_s eq_refl).
  next_field H "ephemeral_nhi" reads_nhi.
  next_field H "declared_evidence_boundary" reads_boundary.
  next_field H "state_content" (reads_content (typed_schema TObject) eq_refl).
  next_field H "content_digest_sha256" reads_hex64.
  next_field H "agent_signature" (reads_any_string string_s eq_refl).
  next_field H "signature_algorithm" (reads_const (string_s <| s_const := Some (JStr "ECDSA-P256-SHA256") |>) _ eq_refl eq_refl).
  next_field H "covers" reads_strings.
  next_field H "covers_interval_gap" reads_strings.
  next_field H "parent_dependency_commitments"
    (reads_list (typed_schema TArray <| s_items := Some commitment_s |> <| s_minItems := 1 |>) _ _ _ eq_refl eq_refl reads_commitment).
  next_field H "summarizer" reads_summarizer.
  next_field H "criticality_weight"
    (reads_number (typed_schema TNumber <| s_minimum := Some 0%Q |> <| s_maximum := Some 1%Q |>) _ _ eq_refl eq_refl eq_refl).
  next_field H "retry_of" (reads_any_string string_s eq_refl).
  eexists. split; [done|]. repeat match goal with Hs : is_Some ?a |- _ => destruct Hs as [? ->]; cbn in * end.
  match goal with HP : Forall _ _ ∧ _ |- _ => destruct HP as [Hps Hlen] end.
  split; cbn; try done; try (eexists; by split); [by f_equal|by intros ->; cbn in Hlen; lia].
Qed.

(** ** Digests have the shape that the schema asks for *)
Section hex_digests.
Local Open Scope Z_scope.

Lemma hex_digit_is_hex d : 0 ≤ d < 16 → is_hex_digit (hex_digit d) = true.
Proof.
  intros Hd. unfold is_hex_digit, hex_digit.
  destruct (d <? 10) eqn:E; rewrite ascii_z_ascii by (unfold is_byte; lia);
    rewrite !orb_true_iff, !andb_true_iff, !Z.leb_le; lia.
Qed.

Lemma span_all_true (p : ascii → bool) l : Forall (λ c, p c = true) l → span p l = (l, []).
Proof. induction 1 as [|c l Hc _ IH]; [done|]. cbn. by rewrite Hc, IH. Qed.

Lemma matches_hex_list l : Forall (λ c, is_hex_digit c = true) l → length l = 64%nat → matches Hex64 (String.string_of_list_ascii l) = true.
Proof.
  intros Hl Hn. unfold matches, chars. rewrite String.list_ascii_of_string_of_list_ascii, span_all_true by done.
  by rewrite (bool_decide_eq_true_2 _ Hn).
Qed.

Lemma length_bind_const {A B} (f : A → list B) n l : (∀ x, length (f x) = n) → length (l ≫= f) = (length l * n)%nat.
Proof. intros Hf. induction l as [|x l IH]; [done|]. rewrite bind_cons, length_app, Hf, IH. cbn. lia. Qed.

Lemma matches_hex bs : Forall is_byte bs → length bs = 32%nat → matches Hex64 (hex bs) = true.
Proof.
  intros Hb Hn. apply matches_hex_list.
  - apply Forall_bind. eapply Forall_impl; [exact Hb|]. intros b [Hl Hh]. cbv beta.
    constructor; [apply hex_digit_is_hex|constructor; [by apply hex_digit_is_hex, Z.mod_pos_bound|constructor]].
    split; [by apply Z.div_pos|by apply Z.div_lt_upper_bound].
  - rewrite (length_bind_const _ 2) by done. lia.
Qed.

Lemma sha_round_length st kw : length st = 8%nat → length (sha_round st kw) = 8%nat.
Proof. intros Hs. by do 9 (destruct st as [|? st]; try done). Qed.

Lemma sha_compress_length st ws : length st = 8%nat → length (sha_compress st ws) = 8%nat.
Proof.
  intros Hs. unfold sha_compress. rewrite length_zip_with, Hs.
  enough (length (fold_left sha_round (zip sha_k (reverse (sha_extend 48 (reverse ws)))) st) = 8%nat) as -> by done.
  apply (fold_left_inv (λ st, length st = 8%nat)); [done|]. intros; by apply sha_round_length.
Qed.

Lemma sha256_length bs : length (sha256 bs) = 32%nat.
Proof.
  assert (∀ fuel st ws, length st = 8%nat → length (sha_blocks fuel st ws) = 8%nat) as Hb.
  { induction fuel as [|fuel IH]; intros st ws Hs; [done|]. destruct ws as [|w ws]; [done|].
    cbn [sha_blocks]. by apply IH, sha_compress_length. }
  unfold sha256. rewrite (length_bind_const _ 4) by (intros; apply length_int_to_bytes). by rewrite Hb.
Qed.

Lemma matches_sha256 text : matches Hex64 (sha256_hex text) = true.
Proof.
  apply matches_hex; [|apply sha256_length].
  unfold sha256. apply Forall_bind, Forall_true. intros. apply is_byte_int_to_bytes.
Qed.
End hex_digests.
