(* ===== verification/Postgres.v ===== *)
(** * The PostgreSQL backend ([PostgresStateBackend])

    The tables of the SQLite backend with typed columns: a [TIMESTAMPTZ] is an
    instant ([Z], microseconds), a [JSONB] column holds a value, which the
    driver's codec writes with [json.dumps] and reads with [json.loads].  A
    table with a text primary key is a dictionary; [ON CONFLICT DO UPDATE]
    rewrites the named columns of the row that is there.  The order in which
    rows without [ORDER BY] come back is taken to be that of insertion.

    Unlike the other backends this one can raise inside a method: a text that
    is no timestamp, a text where the driver wants a [datetime], an identifier
    that is taken, a [JSONB] value that is not the expected object. *)
From S2P Require Import Prelude Dict Datetime Types Encoding Timeparse Graph Cte Lineage Memory Sqlite Interface.

(** What the database and its driver decide: the instant a [str] given for a
    [TIMESTAMPTZ] parameter stands for, if the driver takes it at all; the value
    a [REAL] column keeps of a number; the order of [ORDER BY] on text, which is
    that of the database's collation. *)
Class PgDriver := {
  text_for_timestamptz : string → option Z;
  real : Q → Q;
  order_by : ∀ {A}, (A → string) → list A → list A }.

(** asyncpg encodes a [TIMESTAMPTZ] parameter from a [datetime] only; another
    type is a [DataError]. *)
Class AsyncpgTyped `{PgDriver} := text_rejected s : text_for_timestamptz s = None.

Record pg_effect := PgEffect { pe_node_id : string; pe_effect_type : string; pe_recorded_at : Z }.

Record pg_horizon := PgHorizon {
  ph_admitted_at : Z;
  ph_trust_expires : Z;
  ph_predecessor_id : string;
  ph_renewal_count : Z }.

#[export] Instance pg_horizon_rebuild : Rebuild pg_horizon := λ h,
  PgHorizon (ph_admitted_at h) (ph_trust_expires h) (ph_predecessor_id h) (ph_renewal_count h).

Record pg_recurrence := PgRecurrence {
  pr_node_id : string;
  pr_recurrence_class : string;
  pr_detected_at : Z;
  pr_signal_source : string;
  pr_event : recurrence_event }.

#[export] Instance pg_recurrence_rebuild : Rebuild pg_recurrence := λ r,
  PgRecurrence (pr_node_id r) (pr_recurrence_class r) (pr_detected_at r) (pr_signal_source r) (pr_event r).

Record pg_signal := PgSignal {
  pg_signal_source : string;
  pg_signal_node_id : string;
  pg_signal_kind : string;
  pg_outcome : string;
  pg_recorded_at : Z }.

Record pg_withdrawal := PgWithdrawal {
  pw_withdrawn_at : Z;
  pw_triggering_event_id : string;
  pw_reason : string }.

Record pg_calibration := PgCalibration {
  pc_run_at : Z;
  pc_seeded_count : Z;
  pc_detected_count : Z;
  pc_sensitivity_floor : Q;
  pc_monitored_period : dict json }.

#[export] Instance pg_calibration_rebuild : Rebuild pg_calibration := λ c,
  PgCalibration (pc_run_at c) (pc_seeded_count c) (pc_detected_count c) (pc_sensitivity_floor c)
    (pc_monitored_period c).

(** [evaluated_at_utc] of the decision is kept as an instant. *)
Record pg_shadow := PgShadow { psd_evaluated_at : Z; psd_decision : shadow_decision }.

Record pg_evidence := PgEvidence {
  pev_pre_state_digest : string;
  pev_post_state_digest : string;
  pev_gate_evidence : json;
  pev_recorded_at : Z }.

Record pg_exposure := PgExposure {
  px_node_id : string;
  px_substitute_status : string;
  px_exposed_at : Z;
  px_quarantine_non_empty : bool;
  px_record : json }.

(* src: src/postgres_backend.py PostgresStateBackend.init_db *)
Record pg := Pg {
  p_nodes : dict node_row;
  p_edges : list edge_row;
  p_ledger : list string;
  p_events : dict quarantine_event;
  p_repairs : dict repair_record;
  p_checkpoints : dict checkpoint_record;
  p_effects : dict pg_effect;
  p_horizon : dict pg_horizon;
  p_recurrence : dict pg_recurrence;
  p_signals : list pg_signal;
  p_withdrawals : dict pg_withdrawal;
  p_calibrations : dict pg_calibration;
  p_shadow : dict pg_shadow;
  p_evidence : dict pg_evidence;
  p_exposures : dict pg_exposure;
  p_substitutes : dict substitute_declaration;
  p_detector : dict (detector_event * Z);
  p_tainted : list (rejection * Z);
  p_depth : nat }.

#[export] Instance pg_rebuild : Rebuild pg := λ s,
  Pg (p_nodes s) (p_edges s) (p_ledger s) (p_events s) (p_repairs s) (p_checkpoints s) (p_effects s)
    (p_horizon s) (p_recurrence s) (p_signals s) (p_withdrawals s) (p_calibrations s) (p_shadow s)
    (p_evidence s) (p_exposures s) (p_substitutes s) (p_detector s) (p_tainted s) (p_depth s).

(* src: src/postgres_backend.py PostgresStateBackend.__init__ *)
Definition empty_pg (max_traversal_depth : nat) : pg :=
  Pg [] [] [] [] [] [] [] [] [] [] [] [] [] [] [] [] [] [] max_traversal_depth.

(** ** Graph and ledger *)
(* src: src/postgres_backend.py PostgresStateBackend.get_dag *)
Definition pg_get_dag (s : pg) : dict node := dict_map payload_json (p_nodes s).

(** The status ["INSERT 0 0"] says that the identifier was taken. *)
(* src: src/postgres_backend.py PostgresStateBackend.commit_node *)
Definition pg_commit_node (payload : node) (s : pg) : bool * pg :=
  if dict_mem (payload_id payload) (p_nodes s) then (false, s)
  else
    let row := NodeRow payload (default "" (content_digest_sha256 payload)) (commitment_of payload) in
    (true, s <| p_nodes ::= insert_or_ignore (payload_id payload) row |>
             <| p_edges ::= fold_left (λ es e, insert_edge e es) (edges_of payload) |>).

(* src: src/postgres_backend.py PostgresStateBackend.nodes_exist *)
Definition pg_nodes_exist (node_ids : list string) (s : pg) : dict bool :=
  membership (λ k, dict_mem k (p_nodes s)) node_ids.

(* src: src/postgres_backend.py PostgresStateBackend.get_node_content_hashes *)
Definition pg_get_node_content_hashes (node_ids : list string) (s : pg) : dict string :=
  dict_map content_hash (List.filter (λ kv, kv.1 ∈? node_ids) (p_nodes s)).

(* src: src/postgres_backend.py PostgresStateBackend.are_quarantined *)
Definition pg_are_quarantined (node_ids : list string) (s : pg) : dict bool :=
  membership (λ k, k ∈? p_ledger s) node_ids.

(* src: src/postgres_backend.py PostgresStateBackend.log_quarantine_event *)
Definition pg_log_quarantine_event (event : quarantine_event) (s : pg) : pg :=
  s <| p_events ::= overwrite (quarantine_event_id event) event |>.

(* src: src/postgres_backend.py PostgresStateBackend.add_to_quarantine_ledger *)
Definition pg_add_to_quarantine_ledger (node_id : string) (s : pg) : pg :=
  s <| p_ledger ::= add_new node_id |>.

(* src: src/postgres_backend.py PostgresStateBackend.apply_quarantine_transaction *)
Definition pg_apply_quarantine_transaction (event : quarantine_event) (c_p : list string) (s : pg)
    : quarantine_event * pg :=
  let event := event <| max_traversal_depth := Some (p_depth s) |> in
  (event, fold_left (λ s node_id, pg_add_to_quarantine_ledger node_id s) c_p (pg_log_quarantine_event event s)).

(* src: src/postgres_backend.py PostgresStateBackend.get_quarantine_events *)
Definition pg_get_quarantine_events (s : pg) : list quarantine_event := dict_values (p_events s).

(** ** Blast radius *)

(** The recursive query; an edge row per node and depth bounds its rounds. *)
(* src: src/postgres_backend.py 411-425 PostgresStateBackend.compute_blast_radius *)
Definition blast_query (root : string) (s : pg) : list string :=
  depth_query (adjacency (p_edges s)) (p_depth s) (S (length (p_edges s)) * S (p_depth s)) root.

(* src: src/postgres_backend.py 427-435 PostgresStateBackend.compute_blast_radius *)
Definition pg_affected_compactions (c_p : list string) (s : pg) : list string :=
  distinct (child_id <$>
    List.filter (λ e, (parent_id e ∈? c_p) && bool_decide (row_class e = "CARRIED")) (p_edges s)).

(* src: src/postgres_backend.py PostgresStateBackend._set_repair_candidate *)
Definition pg_set_repair_candidate (node_id : string) (data : repair_record) (s : pg) : pg :=
  s <| p_repairs ::= overwrite node_id data |>.

(* src: src/postgres_backend.py PostgresStateBackend.has_external_effects *)
Definition pg_has_external_effects (node_ids : list string) (s : pg) : bool :=
  existsb (λ e, pe_node_id e ∈? node_ids) (dict_values (p_effects s)).

(** The plan for a compaction; one that is not in the graph covers nothing. *)
(* src: src/postgres_backend.py 442-494 PostgresStateBackend.compute_blast_radius *)
Definition pg_plan_compaction (semantic_rollback : bool) (dag : dict node)
    (checkpoints : dict checkpoint_record) (c_p : list string) (s : pg) (comp_node : string) : pg :=
  if terminal (dict_get comp_node (p_repairs s)) then s
  else
    let n := default (bare_node comp_node) (dict_get comp_node dag) in
    pg_set_repair_candidate comp_node (plan_repair semantic_rollback checkpoints c_p n) s.

(* src: src/postgres_backend.py PostgresStateBackend.compute_blast_radius *)
Definition pg_compute_blast_radius (poisoned_root_id : string) (s : pg) : list string * pg :=
  let c_p := sorted (blast_query poisoned_root_id s) in
  (c_p, fold_left
          (pg_plan_compaction (pg_has_external_effects c_p s) (pg_get_dag s) (p_checkpoints s) c_p)
          (pg_affected_compactions c_p s) s).

(** ** Repairs, checkpoints, effects *)
(* src: src/postgres_backend.py PostgresStateBackend.update_repair_candidate *)
Definition pg_update_repair_candidate (node_id : string) (data : repair_record) (s : pg) : pg :=
  pg_set_repair_candidate node_id data s.

(* src: src/postgres_backend.py PostgresStateBackend.add_checkpoint *)
Definition pg_add_checkpoint (checkpoint : checkpoint_record) (s : pg) : pg :=
  s <| p_checkpoints ::= overwrite (checkpoint_id checkpoint) checkpoint |>.

(** On conflict only the node changes. *)
(* src: src/postgres_backend.py PostgresStateBackend.add_external_effect *)
Definition pg_add_external_effect (idempotency_key node_id effect_type : string) (now : Z) (s : pg) : pg :=
  s <| p_effects ::= upsert idempotency_key
    (λ e, PgEffect node_id (pe_effect_type e) (pe_recorded_at e)) (PgEffect node_id effect_type now) |>.

(* src: src/postgres_backend.py PostgresStateBackend.check_external_effect *)
Definition pg_check_external_effect (idempotency_key : string) (s : pg) : bool :=
  dict_mem idempotency_key (p_effects s).

(** ** Digests *)
(* src: src/postgres_backend.py PostgresStateBackend.compute_quarantine_digest *)
Definition pg_compute_quarantine_digest (additional_node_ids : list string) (s : pg) : string :=
  list_digest (sorted (fold_left (λ l x, add_new x l) additional_node_ids (p_ledger s))).

(** Existing covered nodes, what they reach downwards and what upwards. *)
(* src: src/postgres_backend.py PostgresStateBackend.compute_covers_interval_gap *)
Definition pg_covers_gap (covers : list string) (s : pg) : list string :=
  match covers with
  | [] => []
  | _ =>
    let base := List.filter (λ c, dict_mem c (p_nodes s)) (distinct covers) in
    let fuel := length base + length (p_edges s) in
    let descendants := with_recursive (adjacency (p_edges s)) fuel base in
    let ancestors := with_recursive (edge_parents (p_edges s)) fuel base in
    sorted (List.filter (λ x, (x ∈? ancestors) && negb (x ∈? base)) descendants)
  end.

Section postgres.
Context {D : PgDriver}.

(* src: src/postgres_backend.py PostgresStateBackend.compute_state_digest *)
Definition pg_compute_state_digest (s : pg) : string :=
  let rows := order_by fst (dict_map commitment_digest (p_nodes s)) in
  let q_nodes := order_by id (p_ledger s) in
  sha256_hex (json_dumps (JObj
    [("nodes", JArr ((λ kv, JArr [JStr kv.1; JStr kv.2]) <$> rows)); ("quarantine", JArr (JStr <$> q_nodes))])).

(** ** Reintegration *)

(** The evidence is dumped before the column's codec dumps it again: the value
    that is stored is a string. *)
Definition gate_json (g : string * bool * string) : json :=
  let '(gate, passed, evaluated_at_utc) := g in
  JObj [("gate", JStr gate); ("passed", JBool passed); ("evaluated_at_utc", JStr evaluated_at_utc)].

(* src: src/postgres_backend.py PostgresStateBackend.record_reintegration_evidence *)
Definition pg_record_reintegration_evidence (node_id pre_digest post_digest : string)
    (gates : list (string * bool * string)) (now : Z) (s : pg) : pg :=
  s <| p_evidence ::= overwrite node_id
    (PgEvidence pre_digest post_digest (JStr (dumps false (JArr (gate_json <$> gates)))) now) |>.

(** A second reintegration of a node keeps its renewal count. *)
(* src: src/postgres_backend.py PostgresStateBackend.record_reintegration *)
Definition pg_record_reintegration (node_id predecessor_id : string) (horizon_seconds now : Z) (s : pg) : pg :=
  let expires := plus_seconds now horizon_seconds in
  s <| p_horizon ::= upsert node_id
    (λ h, h <| ph_admitted_at := now |> <| ph_trust_expires := expires |> <| ph_predecessor_id := predecessor_id |>)
    (PgHorizon now expires predecessor_id 0) |>.

(* src: src/postgres_backend.py PostgresStateBackend.get_active_horizon_set *)
Definition pg_get_active_horizon_set (now : Z) (s : pg) : dict horizon_record :=
  dict_map (λ h, Horizon None (strftime_z (ph_trust_expires h)) (ph_predecessor_id h) (ph_renewal_count h))
    (List.filter (λ kv, (now <? ph_trust_expires kv.2)%Z) (p_horizon s)).

(* src: src/postgres_backend.py PostgresStateBackend.get_expired_horizon_set *)
Definition pg_get_expired_horizon_set (now : Z) (s : pg) : list string :=
  dict_keys (List.filter (λ kv, (ph_trust_expires kv.2 <=? now)%Z) (p_horizon s)).

(* src: src/postgres_backend.py PostgresStateBackend.renew_trust *)
Definition pg_renew_trust (node_id : string) (horizon_seconds now : Z) (s : pg) : pg :=
  s <| p_horizon ::= update_row node_id
    (λ h, h <| ph_trust_expires := plus_seconds now horizon_seconds |>
            <| ph_renewal_count := (ph_renewal_count h + 1)%Z |>) |>.

(** ** Withdrawals, calibration, signals, decisions *)
Fixpoint pg_withdraw_all (event_id : string) (now : Z) (i : nat) (w_r : list string)
    (l : dict pg_withdrawal) : dict pg_withdrawal :=
  match w_r with
  | [] => l
  | node_id :: w_r =>
    let reason := if decide (i = 0) then "DIRECTLY_IMPLICATED" else "UNEXAMINED_DEPENDENT" in
    pg_withdraw_all event_id now (S i) w_r (insert_or_ignore node_id (PgWithdrawal now event_id reason) l)
  end.

(* src: src/postgres_backend.py PostgresStateBackend.apply_withdrawal_transaction *)
Definition pg_apply_withdrawal_transaction (event : recurrence_event) (w_r : list string) (now : Z) (s : pg) : pg :=
  s <| p_recurrence ::= upsert (re_event_id event) (λ r, r <| pr_event := event |>)
         (PgRecurrence (re_node_id event) (recurrence_class event) now (re_signal_source event) event) |>
    <| p_withdrawals ::= pg_withdraw_all (re_event_id event) now 0 w_r |>.

(* src: src/postgres_backend.py PostgresStateBackend.get_withdrawal_ledger *)
Definition pg_get_withdrawal_ledger (s : pg) : dict withdrawal_record :=
  dict_map (λ w, Withdrawal (strftime_z (pw_withdrawn_at w)) (pw_triggering_event_id w) (pw_reason w))
    (p_withdrawals s).

(** On conflict only the time of the run changes. *)
(* src: src/postgres_backend.py PostgresStateBackend.record_calibration_run *)
Definition pg_record_calibration_run (run : calibration_run) (s : pg) : option pg :=
  run_at ← parse_utc (run_at_utc run);
  Some (s <| p_calibrations ::= upsert (run_id run) (λ c, c <| pc_run_at := run_at |>)
    (PgCalibration run_at (seeded_count run) (detected_count run) (real (sensitivity_floor run))
       (monitored_period run)) |>).

(* src: src/postgres_backend.py PostgresStateBackend.get_calibration_runs *)
Definition pg_get_calibration_runs (s : pg) : list calibration_run :=
  (λ kv, CalibrationRun kv.1 (strftime_z (pc_run_at kv.2)) (pc_seeded_count kv.2) (pc_detected_count kv.2)
           (pc_sensitivity_floor kv.2) (pc_monitored_period kv.2)) <$> p_calibrations s.

(* src: src/postgres_backend.py PostgresStateBackend.record_signal_attempt *)
Definition pg_record_signal_attempt (signal_source node_id signal_kind outcome : string) (now : Z) (s : pg) : pg :=
  s <| p_signals ::= λ l, l ++ [PgSignal signal_source node_id signal_kind outcome now] |>.

(* src: src/postgres_backend.py PostgresStateBackend.count_recent_signals *)
Definition pg_count_recent_signals (signal_source since_utc : string) (s : pg) : option Z :=
  since ← parse_utc since_utc;
  Some (count_if (λ a, bool_decide (pg_signal_source a = signal_source) && (since <? pg_recorded_at a)%Z) (p_signals s)).

(* src: src/postgres_backend.py PostgresStateBackend.count_recent_signals_global *)
Definition pg_count_recent_signals_global (since_utc : string) (s : pg) : option Z :=
  since ← parse_utc since_utc;
  Some (count_if (λ a, (since <? pg_recorded_at a)%Z) (p_signals s)).

(* src: src/postgres_backend.py PostgresStateBackend.get_signal_outcome_counts *)
Definition pg_get_signal_outcome_counts (s : pg) : dict Z :=
  (λ o, (o, count_if (λ a, bool_decide (pg_outcome a = o)) (p_signals s))) <$> distinct (pg_outcome <$> p_signals s).

(** A plain [INSERT] into a table with a primary key. *)
(* src: src/postgres_backend.py PostgresStateBackend.record_shadow_decision *)
Definition pg_record_shadow_decision (d : shadow_decision) (s : pg) : option pg :=
  eval_time ← parse_utc (evaluated_at_utc d);
  if dict_mem (decision_id d) (p_shadow s) then None
  else Some (s <| p_shadow ::= λ l, l ++ [(decision_id d, PgShadow eval_time d)] |>).

(* src: src/governor_service.py 2279-2283 get_shadow_report *)
Definition pg_shadow_decision_counts (s : pg) : Z * Z :=
  (Z.of_nat (length (p_shadow s)), count_if (λ r, would_have_blocked (psd_decision r)) (dict_values (p_shadow s))).

(** ** Continuity *)

(** Like the evidence, the record is dumped twice: the column keeps a string. *)
(* src: src/postgres_backend.py PostgresStateBackend.record_continuity_exposure *)
Definition pg_record_continuity_exposure (exposure_id node_id substitute_status : string)
    (quarantine_non_empty : bool) (exposure_record : dict json) (now : Z) (s : pg) : pg :=
  s <| p_exposures ::= insert_or_ignore exposure_id
    (PgExposure node_id substitute_status now quarantine_non_empty (JStr (dumps false (JObj exposure_record)))) |>.

Definition by_instant_le {A} (time : A → Z) (a b : A) : Prop := (time a ≤ time b)%Z.
#[export] Instance by_instant_le_dec {A} (time : A → Z) : RelDecision (by_instant_le time) :=
  λ a b, decide (time a ≤ time b)%Z.

(* src: src/postgres_backend.py PostgresStateBackend.get_continuity_exposures *)
Definition pg_get_continuity_exposures (s : pg) : list exposure :=
  (λ kv, Exposure kv.1 (px_node_id kv.2) (px_substitute_status kv.2) (iso_z (px_exposed_at kv.2))
           (px_quarantine_non_empty kv.2) (px_record kv.2))
    <$> merge_sort (by_instant_le (λ kv, px_exposed_at kv.2)) (p_exposures s).

(* src: src/postgres_backend.py PostgresStateBackend.add_substitute_declaration *)
Definition pg_add_substitute_declaration (declaration : substitute_declaration) (s : pg) : pg :=
  s <| p_substitutes ::= overwrite (sub_target_node_id declaration) declaration |>.

(* src: src/postgres_backend.py PostgresStateBackend.record_detector_event *)
Definition pg_record_detector_event (event : detector_event) (now : Z) (s : pg) : pg :=
  s <| p_detector ::= insert_or_ignore (de_event_id event) (event, now) |>.

(* src: src/postgres_backend.py PostgresStateBackend.get_detector_events *)
Definition pg_get_detector_events (s : pg) : list detector_event :=
  (merge_sort (by_instant_le snd) (dict_values (p_detector s))).*1.

(* src: src/postgres_backend.py PostgresStateBackend.get_critical_dependents *)
Definition pg_get_critical_dependents (quarantined_node_ids : list string) (s : pg) : list critical_dependent :=
  match quarantined_node_ids with
  | [] => []
  | _ => critical_dependents (pg_get_dag s) quarantined_node_ids
  end.

(** ** Tainted actions *)

(** The caller passes the time as text. *)
(* src: src/postgres_backend.py PostgresStateBackend.record_tainted_rejection *)
Definition pg_record_tainted_rejection (node_id parent_id rejected_at_utc author_identity : string) (s : pg)
    : option pg :=
  rejected_at ← text_for_timestamptz rejected_at_utc;
  Some (s <| p_tainted ::= λ l, l ++ [(new_rejection node_id parent_id rejected_at_utc author_identity, rejected_at)] |>).

Definition update_tainted (p : rejection → bool) (f : rejection → rejection) : list (rejection * Z) → list (rejection * Z) :=
  update_where (λ r, p r.1) (λ r, (f r.1, r.2)).

(* src: src/postgres_backend.py PostgresStateBackend.record_tainted_offer *)
Definition pg_record_tainted_offer (rejection_node_id rep_id rep_type : string) (s : pg) : pg :=
  s <| p_tainted ::= update_tainted
    (λ r, bool_decide (rej_node_id r = rejection_node_id) && negb (offered r))
    (λ r, r <| offered := true |> <| offered_replacement := Some rep_id |> <| replacement_type := Some rep_type |>) |>.

(* src: src/postgres_backend.py PostgresStateBackend.record_tainted_completion *)
Definition pg_record_tainted_completion (rejection_node_id completed_by_node_id : string) (s : pg) : pg :=
  s <| p_tainted ::= update_tainted
    (λ r, bool_decide (rej_node_id r = rejection_node_id) && negb (completed r))
    (complete_rejection completed_by_node_id) |>.

(* src: src/postgres_backend.py PostgresStateBackend.check_retry_completion *)
Definition pg_check_retry_completion (payload : node) (s : pg) : pg :=
  fold_left (λ s r, pg_record_tainted_completion (rej_node_id r) (payload_id payload) s)
    (List.filter (completes payload) (p_tainted s).*1) s.

(* src: src/postgres_backend.py PostgresStateBackend.get_tainted_action_stats *)
Definition pg_get_tainted_action_stats (s : pg) : tainted_action_stats := tainted_action_stats_of (p_tainted s).*1.

(** [exposure_record or {}] *)
Definition or_empty (j : json) : json :=
  match j with
  | JNull | JBool false => JObj []
  | JStr t => if decide (t = "") then JObj [] else j
  | JArr [] => JObj []
  | JNum q _ => if Qeq_bool q 0%Q then JObj [] else j
  | _ => j
  end.

(** What one candidate gives: an exception, nothing, or a replacement. *)
(* src: src/postgres_backend.py 985-1026 PostgresStateBackend.find_continuity_replacement *)
Definition pg_replacement_for (s : pg) (candidate : string) : option (option replacement) :=
  match List.find (λ kv, replays (pg_get_dag s) candidate (px_node_id kv.2)) (p_exposures s) with
  | Some (exposure_id, e) =>
    mechanism ← json_get "mechanism" (or_empty (px_record e));
    Some (Some (Replacement (px_node_id e) candidate (Some exposure_id)
                  (Some (default "unknown" (json_str mechanism)))))
  | None => Some (declared_replacement (pg_get_dag s) (p_substitutes s) (p_ledger s) candidate)
  end.

Fixpoint try_first {A B} (f : A → option (option B)) (l : list A) : option (option B) :=
  match l with
  | [] => Some None
  | x :: l => y ← f x; match y with Some b => Some (Some b) | None => try_first f l end
  end.

(* src: src/postgres_backend.py PostgresStateBackend.find_continuity_replacement *)
Definition pg_find_continuity_replacement (tainted_node_id : string) (s : pg) : option (option replacement) :=
  let parents := edge_parents (p_edges s) in
  let fuel := ancestor_fuel parents (p_ledger s) in
  let candidates := (quarantined_ancestors parents (p_ledger s) fuel [] [tainted_node_id] []).2 in
  try_first (pg_replacement_for s) candidates.

(** The evidence of reintegrations is not deleted. *)
(* src: src/postgres_backend.py PostgresStateBackend.reset *)
Definition pg_reset (s : pg) : pg :=
  let cleared := empty_pg (p_depth s) <| p_evidence := p_evidence s |> in
  (pg_commit_node (bare_node "clean-parent-1") cleared).2 <| p_ledger ::= add_new "quarantined-node-A" |>.

#[export] Instance pg_backend : Backend pg := {|
  traversal_depth := λ s, Some (p_depth s);
  get_dag := pg_get_dag;
  get_quarantine_ledger := p_ledger;
  get_repair_candidates := p_repairs;
  update_repair_candidate := pg_update_repair_candidate;
  commit_node := pg_commit_node;
  log_quarantine_event := pg_log_quarantine_event;
  add_to_quarantine_ledger := pg_add_to_quarantine_ledger;
  apply_quarantine_transaction := pg_apply_quarantine_transaction;
  get_quarantine_events := pg_get_quarantine_events;
  compute_blast_radius := pg_compute_blast_radius;
  add_checkpoint := pg_add_checkpoint;
  get_checkpoints := p_checkpoints;
  add_external_effect := pg_add_external_effect;
  check_external_effect := pg_check_external_effect;
  has_external_effects := pg_has_external_effects;
  reset := pg_reset;
  record_reintegration := pg_record_reintegration;
  record_reintegration_evidence := pg_record_reintegration_evidence;
  get_active_horizon_set := pg_get_active_horizon_set;
  get_expired_horizon_set := pg_get_expired_horizon_set;
  renew_trust := pg_renew_trust;
  apply_withdrawal_transaction := pg_apply_withdrawal_transaction;
  get_withdrawal_ledger := pg_get_withdrawal_ledger;
  record_calibration_run := pg_record_calibration_run;
  get_calibration_runs := pg_get_calibration_runs;
  record_signal_attempt := pg_record_signal_attempt;
  count_recent_signals := pg_count_recent_signals;
  count_recent_signals_global := pg_count_recent_signals_global;
  get_signal_outcome_counts := pg_get_signal_outcome_counts;
  record_shadow_decision := pg_record_shadow_decision;
  shadow_decision_counts := pg_shadow_decision_counts;
  nodes_exist := pg_nodes_exist;
  are_quarantined := pg_are_quarantined;
  get_node_content_hashes := pg_get_node_content_hashes;
  covers_gap := pg_covers_gap;
  compute_quarantine_digest := pg_compute_quarantine_digest;
  compute_state_digest := λ _, pg_compute_state_digest;
  record_continuity_exposure := pg_record_continuity_exposure;
  get_continuity_exposures := pg_get_continuity_exposures;
  add_substitute_declaration := pg_add_substitute_declaration;
  get_substitute_declarations := p_substitutes;
  record_detector_event := pg_record_detector_event;
  get_detector_events := pg_get_detector_events;
  get_critical_dependents := pg_get_critical_dependents;
  record_tainted_rejection := pg_record_tainted_rejection;
  record_tainted_offer := pg_record_tainted_offer;
  record_tainted_completion := pg_record_tainted_completion;
  check_retry_completion := pg_check_retry_completion;
  get_tainted_action_stats := pg_get_tainted_action_stats;
  find_continuity_replacement := pg_find_continuity_replacement;
  alias_repair_candidate := λ _ _ s, s;
  alias_quarantine_event := λ _ s, s;
  alias_detector_event := λ _ s, s |}.
End postgres.

(** ** The graph tables are those of the SQLite backend *)
Definition core_db (s : pg) : db :=
  empty_db (p_depth s) <| nodes := p_nodes s |> <| edges := p_edges s |> <| t_ledger := p_ledger s |>.

Definition pg_wf (s : pg) : Prop := wf (core_db s).

(** Nothing but the tables of the graph and the ledger matters to [pg_wf]. *)
Record same_tables (s s' : pg) : Prop := {
  st_nodes : p_nodes s' = p_nodes s;
  st_edges : p_edges s' = p_edges s;
  st_ledger : p_ledger s' = p_ledger s;
  st_depth : p_depth s' = p_depth s }.

#[export] Instance same_tables_preorder : PreOrder same_tables.
Proof. split; [done|]. intros ??? [] []. split; congruence. Qed.

Lemma same_tables_core s s' : same_tables s s' → core_db s' = core_db s.
Proof. intros [N E L T]. unfold core_db. by rewrite N, E, L, T. Qed.

Lemma pg_wf_empty depth : pg_wf (empty_pg depth).
Proof. apply wf_empty. Qed.

Lemma core_commit n s :
  core_db (pg_commit_node n s).2 = (Sqlite.commit_node n (core_db s)).2 ∧
  (pg_commit_node n s).1 = (Sqlite.commit_node n (core_db s)).1.
Proof. unfold pg_commit_node, Sqlite.commit_node. cbn [nodes core_db field_update]. by destruct (dict_mem _ _). Qed.

Lemma pg_quarantine_all ids s :
  let s' := fold_left (λ s node_id, pg_add_to_quarantine_ledger node_id s) ids s in
  core_db s' = core_db s <| t_ledger := fold_left (λ l x, add_new x l) ids (p_ledger s) |>.
Proof.
  revert s; induction ids as [|x ids IH]; intros s; [done|]. cbn [fold_left]. cbn zeta in *. by rewrite IH.
Qed.

Lemma core_quarantine e c s :
  core_db (pg_apply_quarantine_transaction e c s).2
    = core_db s <| t_ledger := fold_left (λ l x, add_new x l) c (p_ledger s) |>.
Proof. cbn. by rewrite pg_quarantine_all. Qed.

Lemma pg_plan_all_tables sr dag cps c_p ks s :
  same_tables s (fold_left (pg_plan_compaction sr dag cps c_p) ks s).
Proof.
  apply (fold_left_rel same_tables). intros a k _. unfold pg_plan_compaction, pg_set_repair_candidate.
  by case_match.
Qed.

Lemma blast_query_spec root s :
  pg_wf s → NoDup (blast_query root s) ∧
  ∀ x, x ∈ blast_query root s ↔ bsteps (edge (children (pg_get_dag s))) (p_depth s) root x.
Proof.
  intros W. unfold blast_query.
  destruct (depth_query_spec (adjacency (p_edges s)) (p_depth s) (child_id <$> p_edges s) root
    (S (length (p_edges s)) * S (p_depth s))) as [N I].
  - intros x y Hy. unfold adjacency in Hy. apply list_elem_of_fmap in Hy as (e & -> & [He _]%elem_of_bfilter).
    by apply list_elem_of_fmap_2.
  - by rewrite length_fmap.
  - split; [done|]. intros x. rewrite I.
    pose proof (adjacency_children (core_db s) W) as Ha.
    split; apply bsteps_edge_ext; intros a b; by rewrite (Ha a b).
Qed.

Lemma pg_check_retry_tables n s : same_tables s (pg_check_retry_completion n s).
Proof. apply (fold_left_rel same_tables). done. Qed.

Section laws.
Context {D : PgDriver}.

Lemma same_tables_frame s s' : same_tables s s' → pg_wf s → pg_wf s' ∧ same_core s s'.
Proof.
  intros T W. split; [unfold pg_wf; by rewrite (same_tables_core _ _ T)|]. destruct T as [N E L T'].
  split; cbn; [unfold pg_get_dag; by rewrite N|done|by rewrite T'].
Qed.

Ltac pg_frame := intros; apply same_tables_frame; [done|assumption].

#[export] Instance pg_laws : BackendLaws pg.
Proof.
  refine {| store_ok := pg_wf |}.
  - intros s W. exact (wf_dag_ok _ W).
  - intros s W. exact (wf_ledger _ W).
  - intros s k n W. exact (dag_key (core_db s) k n W).
  - intros n s W. unfold pg_wf. cbn. rewrite (proj1 (core_commit n s)). by apply db_wf_commit.
  - intros n s W. cbn. rewrite (proj2 (core_commit n s)). exact (commit_node_new n (core_db s) W).
  - intros n s k W. pose proof (commit_node_dag n (core_db s) k W) as H. cbn in *.
    rewrite <-(proj1 (core_commit n s)) in H. exact H.
  - intros n s. cbn. unfold pg_commit_node. by destruct (dict_mem _ _).
  - intros n s. cbn. unfold pg_commit_node. by destruct (dict_mem _ _).
  - intros n s _. cbn. unfold pg_get_dag, pg_commit_node, dict_mem. rewrite dict_get_map. by destruct (dict_get _ _).
  - intros e c s [A B C E F]. unfold pg_wf. cbn. rewrite pg_quarantine_all.
    split; [exact A|exact B|by apply NoDup_fold_add_new|exact E|exact F].
  - intros e c s x. etrans; [|apply (elem_of_fold_add_new c (p_ledger s))].
    by rewrite <-(f_equal t_ledger (core_quarantine e c s) : _ = fold_left _ c (p_ledger s)).
  - intros e c s. exact (f_equal Sqlite.get_dag (core_quarantine e c s)).
  - intros e c s. cbn. f_equal. exact (f_equal depth_limit (core_quarantine e c s)).
  - done.
  - intros r s W. cbn. eapply same_tables_frame; [apply pg_plan_all_tables|done].
  - intros r s W. cbn. eapply same_tables_frame; [apply pg_plan_all_tables|done].
  - intros r s W. eexists. split; [|reflexivity]. by apply blast_query_spec.
  - intros r s x W. cbn. by rewrite elem_of_sorted, (proj2 (blast_query_spec r s W)).
  - intros ids s k W. exact (nodes_exist_spec ids (core_db s) k W).
  - intros ids s k. exact (are_quarantined_spec ids (core_db s) k).
  - intros ids s k W. exact (content_hashes_spec ids (core_db s) k W).
  - pg_frame.
  - pg_frame.
  - pg_frame.
  - pg_frame.
  - pg_frame.
  - pg_frame.
  - pg_frame.
  - intros r s s' W. cbn -[parse_utc]. unfold pg_record_calibration_run. destruct (parse_utc _); [|done].
    intros [= <-]. pg_frame.
  - pg_frame.
  - intros d s s' W. cbn -[parse_utc]. unfold pg_record_shadow_decision. destruct (parse_utc _); [|done].
    cbn [mbind option_bind]. destruct (dict_mem _ _); [done|]. intros [= <-]. pg_frame.
  - pg_frame.
  - pg_frame.
  - pg_frame.
  - intros a b c d s s' W. cbn -[text_for_timestamptz]. unfold pg_record_tainted_rejection. destruct (text_for_timestamptz _); [|done].
    intros [= <-]. pg_frame.
  - pg_frame.
  - pg_frame.
  - intros n s W. apply same_tables_frame; [apply pg_check_retry_tables|done].
  - pg_frame.
  - pg_frame.
  - pg_frame.
Defined.
End laws.

(** ** A concrete driver: typed as asyncpg is, exact [REAL] columns, the "C"
    collation *)
Definition by_text_le {A} (f : A → string) (a b : A) : Prop := String.le (f a) (f b).
#[export] Instance by_text_le_dec {A} (f : A → string) : RelDecision (by_text_le f) :=
  λ a b, decide (String.le (f a) (f b)).

Definition demo_driver : PgDriver := {|
  text_for_timestamptz := λ _, None;
  real := id;
  order_by := λ A f, merge_sort (by_text_le f) |}.

#[export] Instance demo_driver_typed : AsyncpgTyped (H:=demo_driver).
Proof. done. Qed.
