(* ===== verification/Refinement.v ===== *)
(** * The PostgreSQL store refines the SQLite store

    Histories of graph, quarantine, trust, withdrawal and signal operations give
    the same answers on both SQL backends.  The two keep time differently, text
    against instants, compute blast radii differently, a walk against a
    recursive query, and write rows differently, [INSERT OR REPLACE] against
    [ON CONFLICT]; the simulation relation says what their tables share. *)
From S2P Require Import Prelude Dict Datetime Types Encoding Timeparse Graph Cte Lineage Memory Sqlite Postgres Interface.

(** ** What a caller can ask and is told *)
Inductive store_op :=
  | OnGraph (op : graph_op)
  | Reintegrate (node_id predecessor_id : string) (horizon_seconds now : Z)
  | Renew (node_id : string) (horizon_seconds now : Z)
  | Withdraw (event : recurrence_event) (w_r : list string) (now : Z)
  | Signal (source node_id kind outcome : string) (now : Z)
  | AskExist (ids : list string)
  | AskQuarantined (ids : list string)
  | AskDigest (ids : list string)
  | AskActive (now : Z)
  | AskExpired (now : Z)
  | AskRecent (source : string) (since : Z)
  | AskRecentGlobal (since : Z)
  | AskWithdrawn (node_id : string).

Inductive store_answer :=
  | GraphAnswer (o : observation)
  | Written
  | Flags (l : list bool)
  | Nodes (l : list string)
  | Text (s : string)
  | Count (n : option Z)
  | Withdrawn (w : option (string * string)).

Definition step_op {St} `{Backend St} (op : store_op) (s : St) : store_answer * St :=
  match op with
  | OnGraph op => let '(o, s) := run_op op s in (GraphAnswer o, s)
  | Reintegrate n p h now => (Written, record_reintegration n p h now s)
  | Renew n h now => (Written, renew_trust n h now s)
  | Withdraw e w_r now => (Written, apply_withdrawal_transaction e w_r now s)
  | Signal src n k o now => (Written, record_signal_attempt src n k o now s)
  | AskExist ids => (Flags ((λ k, flag k (nodes_exist ids s)) <$> ids), s)
  | AskQuarantined ids => (Flags ((λ k, flag k (are_quarantined ids s)) <$> ids), s)
  | AskDigest ids => (Text (compute_quarantine_digest ids s), s)
  | AskActive now => (Nodes (sorted (dict_keys (get_active_horizon_set now s))), s)
  | AskExpired now => (Nodes (sorted (get_expired_horizon_set now s)), s)
  | AskRecent src since => (Count (count_recent_signals src (iso_z since) s), s)
  | AskRecentGlobal since => (Count (count_recent_signals_global (iso_z since) s), s)
  | AskWithdrawn n =>
    (Withdrawn ((λ w, (triggering_event_id w, withdrawal_reason w)) <$> dict_get n (get_withdrawal_ledger s)), s)
  end.

Fixpoint step_ops {St} `{Backend St} (ops : list store_op) (s : St) : list store_answer * St :=
  match ops with
  | [] => ([], s)
  | op :: ops => let '(a, s) := step_op op s in let '(l, s) := step_ops ops s in (a :: l, s)
  end.

(** Every instant that is read or computed is one a [datetime] can hold. *)
Definition in_time (op : store_op) : Prop :=
  match op with
  | Reintegrate _ _ h now | Renew _ h now => in_range (plus_seconds now h)
  | Signal _ _ _ _ now | AskActive now | AskExpired now => in_range now
  | AskRecent _ since | AskRecentGlobal since => in_range since
  | _ => True
  end.

(** ** The simulation relation *)
Definition same_horizon (h : horizon_record) (h' : pg_horizon) : Prop :=
  in_range (ph_trust_expires h') ∧ trust_expires_utc h = iso_z (ph_trust_expires h') ∧
  predecessor_id h = ph_predecessor_id h'.

Definition same_signal (a : signal_attempt) (a' : pg_signal) : Prop :=
  in_range (pg_recorded_at a') ∧
  a = SignalAttempt (pg_signal_source a') (pg_signal_node_id a') (pg_signal_kind a') (pg_outcome a')
        (iso_z (pg_recorded_at a')).

Definition same_withdrawal (w : withdrawal_record) (w' : pg_withdrawal) : Prop :=
  triggering_event_id w = pw_triggering_event_id w' ∧ withdrawal_reason w = pw_reason w'.

(** The tables besides the graph and the ledger. *)
Record matches (s : db) (p : pg) : Prop := {
  ma_depth : depth_limit s = p_depth p;
  ma_horizon_ok : dict_ok (t_horizon s) ∧ dict_ok (p_horizon p);
  ma_horizon k : option_Forall2 same_horizon (dict_get k (t_horizon s)) (dict_get k (p_horizon p));
  ma_signals : Forall2 same_signal (t_signals s) (p_signals p);
  ma_withdrawals k :
    option_Forall2 same_withdrawal (dict_get k (t_withdrawals s)) (dict_get k (p_withdrawals p)) }.

Record simulates `{PgDriver} (s : db) (p : pg) : Prop := {
  sim_ok : wf s ∧ pg_wf p;
  sim_agree : agree s p;
  sim_matches : matches s p }.

(** *** Horizons *)
Lemma elem_of_kept {V} (p : V → bool) (d : dict V) k :
  dict_ok d → k ∈ dict_keys (List.filter (λ kv, p kv.2) d) ↔ ∃ v, dict_get k d = Some v ∧ p v = true.
Proof.
  intros Hd. rewrite <-dict_get_is_Some, dict_get_filter by done. destruct (dict_get k d) as [v|].
  - destruct (p v) eqn:E; split; [eauto|eauto|by intros []|intros (? & [= <-] & ?); congruence].
  - split; [by intros []|by intros (? & ? & _)].
Qed.

(** Tables whose rows correspond keep corresponding rows. *)
Lemma same_kept {V W} (R : V → W → Prop) (p : V → bool) (q : W → bool) (d : dict V) (e : dict W) :
  dict_ok d → dict_ok e → (∀ k, option_Forall2 R (dict_get k d) (dict_get k e)) →
  (∀ v w, R v w → p v = q w) →
  sorted (dict_keys (List.filter (λ kv, p kv.2) d)) = sorted (dict_keys (List.filter (λ kv, q kv.2) e)).
Proof.
  intros Hd He HR Hpq. apply sorted_set_ext; [by apply dict_ok_filter..|]. intros k.
  rewrite !elem_of_kept by done. specialize (HR k). split; intros (v & Hv & Hp); rewrite Hv in HR; inversion HR as [? ? Hvw|]; subst.
  - exists y. split; [done|]. by rewrite <-(Hpq _ _ Hvw).
  - eexists. split; [done|]. by rewrite (Hpq _ _ Hvw).
Qed.

Lemma active_same now s p :
  in_range now → matches s p →
  sorted (dict_keys (Sqlite.get_active_horizon_set now s)) = sorted (dict_keys (pg_get_active_horizon_set now p)).
Proof.
  intros Hn M. unfold Sqlite.get_active_horizon_set, pg_get_active_horizon_set. rewrite !dict_keys_map.
  destruct (ma_horizon_ok _ _ M). apply (same_kept same_horizon (λ h, str_lt (iso_z now) (trust_expires_utc h))
    (λ h, (now <? ph_trust_expires h)%Z)); [done..|apply (ma_horizon _ _ M)|].
  intros h h' (Hr & -> & _). by apply iso_z_lt.
Qed.

Lemma expired_same now s p :
  in_range now → matches s p →
  sorted (Sqlite.get_expired_horizon_set now s) = sorted (pg_get_expired_horizon_set now p).
Proof.
  intros Hn M. destruct (ma_horizon_ok _ _ M).
  apply (same_kept same_horizon (λ h, str_le (trust_expires_utc h) (iso_z now))
    (λ h, (ph_trust_expires h <=? now)%Z)); [done..|apply (ma_horizon _ _ M)|].
  intros h h' (Hr & -> & _). by apply iso_z_le.
Qed.

Lemma reintegrate_matches n pred h now s p :
  in_range (plus_seconds now h) → matches s p →
  matches (Sqlite.record_reintegration n pred h now s) (pg_record_reintegration n pred h now p).
Proof.
  intros Hr [D [K1 K2] H S W]. split; [done| |intros k|done|done]; cbn.
  - split; [by apply insert_or_replace_ok|by apply upsert_ok].
  - rewrite insert_or_replace_get, upsert_get. case_decide; [|done].
    constructor. unfold same_horizon. destruct (dict_get n (p_horizon p)); by cbn.
Qed.

Lemma renew_matches n h now s p :
  in_range (plus_seconds now h) → matches s p →
  matches (Sqlite.renew_trust n h now s) (pg_renew_trust n h now p).
Proof.
  intros Hr [D [K1 K2] H S W]. split; [done| |intros k|done|done]; cbn.
  - unfold dict_ok. by rewrite !update_row_keys.
  - rewrite !update_row_get. specialize (H k). destruct H as [a b (? & ? & ?)|]; [|constructor].
    cbn. case_decide; constructor; done.
Qed.

(** *** Signals and withdrawals *)
Lemma count_same {A B} (R : A → B → Prop) (f : A → bool) (g : B → bool) l m :
  Forall2 R l m → (∀ a b, R a b → f a = g b) → count_if f l = count_if g m.
Proof.
  intros HR Hfg. unfold count_if. f_equal. induction HR as [|a b l m Hab _ IH]; [done|]. cbn.
  rewrite (Hfg a b Hab). destruct (g b); cbn; by rewrite IH.
Qed.

Lemma recent_same src since s p :
  in_range since → matches s p →
  pg_count_recent_signals src (iso_z since) p = Some (Sqlite.count_recent_signals src (iso_z since) s) ∧
  pg_count_recent_signals_global (iso_z since) p = Some (Sqlite.count_recent_signals_global (iso_z since) s).
Proof.
  intros Hs M. unfold pg_count_recent_signals, pg_count_recent_signals_global.
  rewrite parse_utc_iso_z by done. cbn [mbind option_bind].
  split; f_equal; symmetry; apply (count_same same_signal _ _ _ _ (ma_signals _ _ M)); intros a b [Hr ->]; cbn [att_signal_source att_recorded_at_utc].
  - by rewrite iso_z_lt.
  - by apply iso_z_lt.
Qed.

Lemma signal_matches src n k o now s p :
  in_range now → matches s p →
  matches (Sqlite.record_signal_attempt src n k o now s) (pg_record_signal_attempt src n k o now p).
Proof.
  intros Hr [D K H S W]. split; [done|done|done| |done]. cbn.
  apply Forall2_app; [done|]. by constructor.
Qed.

Lemma withdraw_all_same event now i w_r d e :
  (∀ k, option_Forall2 same_withdrawal (dict_get k d) (dict_get k e)) →
  ∀ k, option_Forall2 same_withdrawal (dict_get k (Sqlite.withdraw_all event now i w_r d))
         (dict_get k (pg_withdraw_all (re_event_id event) now i w_r e)).
Proof.
  revert i d e; induction w_r as [|x w_r IH]; intros i d e H; [done|]. apply IH. intros k.
  rewrite !insert_or_ignore_get. specialize (H k). destruct H; [by constructor|].
  case_decide; [|constructor]. by constructor.
Qed.

Lemma withdraw_matches event w_r now s p :
  matches s p →
  matches (Sqlite.apply_withdrawal_transaction event w_r now s) (pg_apply_withdrawal_transaction event w_r now p).
Proof. intros [D K H S W]. split; [done..|]. cbn. by apply withdraw_all_same. Qed.

(** *** The graph *)

(** Graph operations leave the other tables alone. *)
Lemma graph_op_other_tables op (s : db) :
  let s' := (run_op op s).2 in
  depth_limit s' = depth_limit s ∧ t_horizon s' = t_horizon s ∧ t_signals s' = t_signals s ∧
  t_withdrawals s' = t_withdrawals s.
Proof.
  destruct op as [n|e c|r]; cbn.
  - unfold Sqlite.commit_node. by destruct (dict_mem _ _).
  - apply (fold_left_inv (λ s', depth_limit s' = depth_limit s ∧ t_horizon s' = t_horizon s ∧
      t_signals s' = t_signals s ∧ t_withdrawals s' = t_withdrawals s)); [done|]. by intros a b _ (<- & <- & <- & <-).
  - apply (fold_left_inv (λ s', depth_limit s' = depth_limit s ∧ t_horizon s' = t_horizon s ∧
      t_signals s' = t_signals s ∧ t_withdrawals s' = t_withdrawals s)); [done|].
    intros a k _ (<- & <- & <- & <-). unfold Sqlite.plan_compaction. by repeat case_match.
Qed.

Section refinement.
Context {D : PgDriver}.

Lemma pg_graph_op_other_tables op (p : pg) :
  let p' := (run_op op p).2 in
  p_depth p' = p_depth p ∧ p_horizon p' = p_horizon p ∧ p_signals p' = p_signals p ∧
  p_withdrawals p' = p_withdrawals p.
Proof.
  destruct op as [n|e c|r]; cbn.
  - unfold pg_commit_node. by destruct (dict_mem _ _).
  - apply (fold_left_inv (λ p', p_depth p' = p_depth p ∧ p_horizon p' = p_horizon p ∧
      p_signals p' = p_signals p ∧ p_withdrawals p' = p_withdrawals p)); [done|]. by intros a b _ (<- & <- & <- & <-).
  - apply (fold_left_inv (λ p', p_depth p' = p_depth p ∧ p_horizon p' = p_horizon p ∧
      p_signals p' = p_signals p ∧ p_withdrawals p' = p_withdrawals p)); [done|].
    intros a k _ (<- & <- & <- & <-). unfold pg_plan_compaction. by case_match.
Qed.

Lemma graph_op_matches op s p : matches s p → matches (run_op op s).2 (run_op op p).2.
Proof.
  intros [Dp K H S W]. destruct (graph_op_other_tables op s) as (D1 & H1 & S1 & W1).
  destruct (pg_graph_op_other_tables op p) as (D2 & H2 & S2 & W2).
  split; rewrite ?D1, ?D2, ?H1, ?H2, ?S1, ?S2, ?W1, ?W2; done.
Qed.

(** With the same limit both radii stop at the same distance. *)
Lemma radius_same root s p :
  store_ok s → store_ok p → agree s p → depth_limit s = p_depth p →
  (Interface.compute_blast_radius root s).1 = (Interface.compute_blast_radius root p).1.
Proof.
  intros Hs Hp [Dg _] Hd. destruct (blast_sorted root s Hs) as (l & Nl & El), (blast_sorted root p Hp) as (m & Nm & Em).
  rewrite El, Em. apply sorted_set_ext; [done..|]. intros x.
  rewrite <-(elem_of_sorted l), <-(elem_of_sorted m), <-El, <-Em, !blast_spec by done. cbn [traversal_depth sqlite_backend pg_backend].
  rewrite Hd. pose proof (dag_ok s Hs). pose proof (dag_ok p Hp).
  split; apply bsteps_edge_ext; intros a b; rewrite !elem_of_children by done; by setoid_rewrite Dg.
Qed.

Lemma graph_op_simulates op s p :
  simulates s p → (run_op op s).1 = (run_op op p).1 ∧ simulates (run_op op s).2 (run_op op p).2.
Proof.
  intros [[Hs Hp] Hag M]. change (store_ok s) in Hs. change (store_ok p) in Hp.
  pose proof (graph_op_matches op s p M) as M'.
  cut ((run_op op s).1 = (run_op op p).1 ∧ agree (run_op op s).2 (run_op op p).2 ∧
    store_ok (run_op op s).2 ∧ store_ok (run_op op p).2).
  { intros (E & A & K1 & K2). split; [done|]. by split. }
  clear M'. destruct op as [n|e c|r]; cbn [run_op].
  - destruct (agree_commit s p n Hs Hp Hag) as [E1 E2].
    pose proof (commit_node_ok n s Hs) as K1. pose proof (commit_node_ok n p Hp) as K2.
    destruct (Interface.commit_node n s), (Interface.commit_node n p). cbn in *. by subst.
  - split_and!; [done|by apply agree_quarantine|by apply quarantine_ok..].
  - pose proof (radius_same r s p Hs Hp Hag (ma_depth _ _ M)) as E1.
    pose proof (blast_ok r s Hs) as K1. pose proof (blast_ok r p Hp) as K2.
    destruct Hag as [Dg L], (blast_core r s Hs) as [Ds Ls _], (blast_core r p Hp) as [Dq Lp _].
    assert (agree (Interface.compute_blast_radius r s).2 (Interface.compute_blast_radius r p).2) as E2
      by (split; intros; rewrite ?Ds, ?Dq, ?Ls, ?Lp; done).
    destruct (Interface.compute_blast_radius r s), (Interface.compute_blast_radius r p). cbn in *. by subst.
Qed.

(** *** Questions about nodes *)
Lemma flags_same {St1 St2} `{BackendLaws St1, BackendLaws St2} (a : St1) (b : St2) ids :
  store_ok a → store_ok b → agree a b →
  ((λ k, flag k (nodes_exist ids a)) <$> ids) = ((λ k, flag k (nodes_exist ids b)) <$> ids) ∧
  ((λ k, flag k (are_quarantined ids a)) <$> ids) = ((λ k, flag k (are_quarantined ids b)) <$> ids).
Proof.
  intros Ha Hb [Dg L]. split; apply Forall_fmap_ext_1, Forall_forall; intros k Hk.
  - rewrite !nodes_exist_spec by done. unfold dict_mem. by rewrite Dg.
  - rewrite !are_quarantined_spec by done. by apply bool_decide_ext.
Qed.

Lemma digest_same ids s p :
  wf s → pg_wf p → agree s p →
  Sqlite.compute_quarantine_digest ids s = pg_compute_quarantine_digest ids p.
Proof.
  intros Hs Hp [_ L]. unfold Sqlite.compute_quarantine_digest, pg_compute_quarantine_digest. f_equal.
  apply sorted_set_ext; [apply NoDup_fold_add_new, (wf_ledger _ Hs)|apply NoDup_fold_add_new, (wf_ledger _ Hp)|].
  intros x. rewrite !elem_of_fold_add_new. by rewrite (L x).
Qed.

(** A write that leaves the graph and the ledger alone. *)
Lemma side_write_simulates (s s' : db) (p p' : pg) :
  simulates s p → store_ok s' ∧ same_core s s' → store_ok p' ∧ same_core p p' → matches s' p' → simulates s' p'.
Proof.
  intros [_ [Dg L] _] [Hs [D1 L1 _]] [Hp [D2 L2 _]] M. split; [done| |done].
  split; intros; by rewrite ?D1, ?D2, ?L1, ?L2.
Qed.

Lemma step_op_simulates op s p :
  in_time op → simulates s p →
  (step_op op s).1 = (step_op op p).1 ∧ simulates (step_op op s).2 (step_op op p).2.
Proof.
  intros Ht Hsim. pose proof Hsim as [[Hs Hp] Hag M].
  assert (store_ok s) as Ks by exact Hs. assert (store_ok p) as Kp by exact Hp.
  destruct op; cbn [step_op fst snd in_time] in *.
  - destruct (graph_op_simulates op s p Hsim) as [E S].
    destruct (run_op op s), (run_op op p). cbn in *. by subst.
  - split; [done|]. apply (side_write_simulates s _ p); [done|by apply record_reintegration_frame..|by apply reintegrate_matches].
  - split; [done|]. apply (side_write_simulates s _ p); [done|by apply renew_trust_frame..|by apply renew_matches].
  - split; [done|]. apply (side_write_simulates s _ p); [done|by apply apply_withdrawal_transaction_frame..|by apply withdraw_matches].
  - split; [done|]. apply (side_write_simulates s _ p); [done|by apply record_signal_attempt_frame..|by apply signal_matches].
  - by rewrite (proj1 (flags_same s p ids Ks Kp Hag)).
  - by rewrite (proj2 (flags_same s p ids Ks Kp Hag)).
  - split; [|done]. f_equal. by apply digest_same.
  - split; [|done]. f_equal. by apply active_same.
  - split; [|done]. f_equal. by apply expired_same.
  - split; [|done]. f_equal. exact (eq_sym (proj1 (recent_same source since s p Ht M))).
  - split; [|done]. f_equal. exact (eq_sym (proj2 (recent_same "" since s p Ht M))).
  - split; [|done]. f_equal. cbn. unfold pg_get_withdrawal_ledger. rewrite dict_get_map.
    pose proof (ma_withdrawals _ _ M node_id) as H. destruct H as [w w' [Ha Hb]|]; [|done]. cbn. by rewrite Ha, Hb.
Qed.


Lemma simulates_empty depth : simulates (empty_db depth) (empty_pg depth).
Proof.
  split; [split; [apply wf_empty|apply pg_wf_empty]|by split|].
  split; [done|split; constructor|intros; constructor|constructor|intros; constructor].
Qed.
End refinement.

Definition demo_history : list store_op :=
  let t := (739616 * 86400 * us_per_second)%Z in
  let at_second (n : Z) := (t + n * us_per_second)%Z in
  [OnGraph (OpCommit (bare_node "root"));
   OnGraph (OpCommit (bare_node "a" <| parent_dependency_commitments := [Commitment "root" None None] |>));
   OnGraph (OpBlast "root"); OnGraph (OpQuarantine
     (QuarantineEvent "e" "t" "root" [] "d" None None None None None None None None) ["a"; "root"]);
   AskQuarantined ["a"; "x"]; Reintegrate "b" "a" 3600 t; Reintegrate "c" "a" 10 (at_second 1%Z);
   Renew "b" 3600 (at_second 5%Z); AskActive (at_second 11%Z); AskExpired (at_second 11%Z);
   Signal "bob" "a" "designation" "PENDING" t; Signal "bob" "a" "designation" "PENDING" (at_second 9%Z);
   AskRecent "bob" (at_second 5%Z); AskRecentGlobal (at_second (-1)%Z);
   Withdraw (RecurrenceEvent "r" "b" "FUNCTIONAL_FAILURE" "t" "bob" [] false None) ["b"; "c"] (at_second 12%Z);
   AskWithdrawn "c"].

