(* ===== verification/Schema.v ===== *)
(** * The PostgreSQL schema: the migration and [init_db]

    The schema is written twice: as an Alembic migration, which fails when
    something is already there, and as the [CREATE .. IF NOT EXISTS] statements
    that [PostgresStateBackend.init_db] runs at every start.  A catalog holds the
    tables and the indexes by name; the indexes that PostgreSQL makes for
    primary keys are part of their tables. *)
From S2P Require Import Prelude Dict.

Inductive pg_type := TEXT | JSONB | TIMESTAMPTZ | INTEGER | SERIAL | REAL | DOUBLE_PRECISION | BOOLEAN.
#[export] Instance pg_type_eq_dec : EqDecision pg_type.
Proof. solve_decision. Defined.

Record column := Column { col_name : string; col_type : pg_type; not_null : bool; col_default : option string }.
#[export] Instance column_eq_dec : EqDecision column.
Proof. solve_decision. Defined.

Record table := Table { primary_key : list string; columns : list column }.
#[export] Instance table_eq_dec : EqDecision table.
Proof. solve_decision. Defined.

Record index := Index { on_table : string; on_columns : list string }.
#[export] Instance index_eq_dec : EqDecision index.
Proof. solve_decision. Defined.

Record catalog := Catalog { tables : dict table; indexes : dict index }.

(** ** Statements *)
Inductive ddl :=
  | CreateTable (if_not_exists : bool) (name : string) (t : table)
  | CreateIndex (if_not_exists : bool) (name : string) (i : index)
  | DropTable (name : string)
  | DropIndex (name : string).

(** Tables and indexes share their names. *)
Definition taken (name : string) (c : catalog) : bool := dict_mem name (tables c) || dict_mem name (indexes c).

Definition has_columns (i : index) (c : catalog) : bool :=
  match dict_get (on_table i) (tables c) with
  | Some t => forallb (λ k, existsb (λ col, bool_decide (col_name col = k)) (columns t)) (on_columns i)
  | None => false
  end.

Definition without {V} (name : string) (d : dict V) : dict V :=
  List.filter (λ kv, negb (bool_decide (kv.1 = name))) d.

Definition exec (s : ddl) (c : catalog) : option catalog :=
  match s with
  | CreateTable if_not_exists name t =>
    if taken name c then (if if_not_exists then Some c else None)
    else Some (Catalog (tables c ++ [(name, t)]) (indexes c))
  | CreateIndex if_not_exists name i =>
    if taken name c then (if if_not_exists then Some c else None)
    else if has_columns i c then Some (Catalog (tables c) (indexes c ++ [(name, i)])) else None
  | DropTable name =>
    if dict_mem name (tables c)
    then Some (Catalog (without name (tables c))
                 (List.filter (λ kv, negb (bool_decide (on_table kv.2 = name))) (indexes c)))
    else None
  | DropIndex name =>
    if dict_mem name (indexes c) then Some (Catalog (tables c) (without name (indexes c))) else None
  end.

Fixpoint run (ss : list ddl) (c : catalog) : option catalog :=
  match ss with [] => Some c | s :: ss => c ← exec s c; run ss c end.

(** ** The columns of both versions *)
Definition key (name : string) : column := Column name TEXT true None.
Definition required (name : string) (t : pg_type) : column := Column name t true None.
Definition nullable (name : string) (t : pg_type) : column := Column name t false None.
Definition defaulted (name : string) (t : pg_type) (notnull : bool) (d : string) : column := Column name t notnull (Some d).

(* src: migrations/versions/66b1e27d6667_initial_schema.py upgrade *)
Definition upgrade : list ddl := [
  CreateTable false "nodes" (Table ["node_id"]
    [key "node_id"; required "payload_json" JSONB; nullable "content_hash" TEXT; nullable "commitment" TEXT]);
  CreateTable false "edges" (Table ["child_id"; "parent_id"]
    [required "child_id" TEXT; required "parent_id" TEXT; nullable "edge_class" TEXT]);
  CreateIndex false "idx_edges_parent_id" (Index "edges" ["parent_id"]);
  CreateTable false "quarantine_ledger" (Table ["node_id"] [key "node_id"]);
  CreateTable false "quarantine_events" (Table ["event_id"] [key "event_id"; required "event_json" JSONB]);
  CreateTable false "repair_candidates" (Table ["node_id"] [key "node_id"; required "candidate_json" JSONB]);
  CreateTable false "checkpoints" (Table ["checkpoint_id"] [key "checkpoint_id"; required "checkpoint_json" JSONB]);
  CreateTable false "external_effects" (Table ["idempotency_key"]
    [key "idempotency_key"; required "node_id" TEXT; required "effect_type" TEXT; required "recorded_at_utc" TIMESTAMPTZ]);
  CreateTable false "reintegration_horizon" (Table ["node_id"]
    [key "node_id"; required "admitted_at_utc" TIMESTAMPTZ; required "trust_expires_utc" TIMESTAMPTZ;
     required "predecessor_id" TEXT; defaulted "renewal_count" INTEGER true "0"]);
  CreateIndex false "idx_horizon_expiry" (Index "reintegration_horizon" ["trust_expires_utc"]);
  CreateTable false "recurrence_events" (Table ["event_id"]
    [key "event_id"; required "node_id" TEXT; required "recurrence_class" TEXT; required "detected_at_utc" TIMESTAMPTZ;
     required "signal_source" TEXT; defaulted "outcome" TEXT true "PROCESSED"; required "event_json" JSONB]);
  CreateTable false "signal_attempts" (Table ["id"]
    [required "id" SERIAL; required "signal_source" TEXT; required "node_id" TEXT; required "signal_kind" TEXT;
     required "outcome" TEXT; required "recorded_at_utc" TIMESTAMPTZ]);
  CreateIndex false "idx_signal_attempts_source" (Index "signal_attempts" ["signal_source"; "recorded_at_utc"]);
  CreateIndex false "idx_signal_attempts_time" (Index "signal_attempts" ["recorded_at_utc"]);
  CreateTable false "withdrawal_ledger" (Table ["node_id"]
    [key "node_id"; required "withdrawn_at_utc" TIMESTAMPTZ; required "triggering_event_id" TEXT;
     required "withdrawal_reason" TEXT]);
  CreateTable false "calibration_runs" (Table ["run_id"]
    [key "run_id"; required "run_at_utc" TIMESTAMPTZ; required "seeded_count" INTEGER; required "detected_count" INTEGER;
     required "sensitivity_floor" DOUBLE_PRECISION; required "monitored_period_json" JSONB]);
  CreateTable false "shadow_decisions" (Table ["decision_id"]
    [key "decision_id"; required "node_id" TEXT; required "evaluated_at_utc" TIMESTAMPTZ;
     required "would_have_blocked" BOOLEAN; nullable "reason" TEXT; required "parent_status_json" JSONB;
     required "policy_bundle_digest" TEXT; nullable "writer_identity" TEXT]);
  CreateIndex false "idx_shadow_evaluated" (Index "shadow_decisions" ["evaluated_at_utc"]);
  CreateIndex false "idx_shadow_blocked" (Index "shadow_decisions" ["would_have_blocked"]) ].

(* src: migrations/versions/66b1e27d6667_initial_schema.py downgrade *)
Definition downgrade : list ddl := [
  DropTable "shadow_decisions"; DropTable "calibration_runs"; DropTable "withdrawal_ledger";
  DropTable "signal_attempts"; DropTable "recurrence_events"; DropTable "reintegration_horizon";
  DropTable "external_effects"; DropTable "checkpoints"; DropTable "repair_candidates";
  DropTable "quarantine_events"; DropTable "quarantine_ledger"; DropIndex "idx_edges_parent_id";
  DropTable "edges"; DropTable "nodes" ].

(* src: src/postgres_backend.py PostgresStateBackend.init_db *)
Definition init_db : list ddl := [
  CreateTable true "nodes" (Table ["node_id"]
    [key "node_id"; required "payload_json" JSONB; nullable "content_hash" TEXT; nullable "commitment" TEXT]);
  CreateTable true "edges" (Table ["child_id"; "parent_id"]
    [required "child_id" TEXT; required "parent_id" TEXT; nullable "edge_class" TEXT]);
  CreateIndex true "idx_edges_parent_id" (Index "edges" ["parent_id"]);
  CreateTable true "quarantine_ledger" (Table ["node_id"] [key "node_id"]);
  CreateTable true "quarantine_events" (Table ["event_id"] [key "event_id"; required "event_json" JSONB]);
  CreateTable true "repair_candidates" (Table ["node_id"] [key "node_id"; required "candidate_json" JSONB]);
  CreateTable true "checkpoints" (Table ["checkpoint_id"] [key "checkpoint_id"; required "checkpoint_json" JSONB]);
  CreateTable true "external_effects" (Table ["idempotency_key"]
    [key "idempotency_key"; required "node_id" TEXT; required "effect_type" TEXT; required "recorded_at_utc" TIMESTAMPTZ]);
  CreateTable true "reintegration_horizon" (Table ["node_id"]
    [key "node_id"; required "admitted_at_utc" TIMESTAMPTZ; required "trust_expires_utc" TIMESTAMPTZ;
     required "predecessor_id" TEXT; defaulted "renewal_count" INTEGER false "0"]);
  CreateIndex true "idx_horizon_expiry" (Index "reintegration_horizon" ["trust_expires_utc"]);
  CreateTable true "recurrence_events" (Table ["event_id"]
    [key "event_id"; required "node_id" TEXT; required "recurrence_class" TEXT; required "detected_at_utc" TIMESTAMPTZ;
     required "signal_source" TEXT; defaulted "outcome" TEXT true "PROCESSED"; required "event_json" JSONB]);
  CreateTable true "signal_attempts" (Table ["id"]
    [required "id" SERIAL; required "signal_source" TEXT; required "node_id" TEXT; required "signal_kind" TEXT;
     required "outcome" TEXT; required "recorded_at_utc" TIMESTAMPTZ]);
  CreateIndex true "idx_signal_attempts_source" (Index "signal_attempts" ["signal_source"; "recorded_at_utc"]);
  CreateIndex true "idx_signal_attempts_time" (Index "signal_attempts" ["recorded_at_utc"]);
  CreateTable true "withdrawal_ledger" (Table ["node_id"]
    [key "node_id"; required "withdrawn_at_utc" TIMESTAMPTZ; required "triggering_event_id" TEXT;
     required "withdrawal_reason" TEXT]);
  CreateTable true "calibration_runs" (Table ["run_id"]
    [key "run_id"; required "run_at_utc" TIMESTAMPTZ; required "seeded_count" INTEGER; required "detected_count" INTEGER;
     required "sensitivity_floor" REAL; required "monitored_period_json" JSONB]);
  CreateTable true "shadow_decisions" (Table ["decision_id"]
    [key "decision_id"; required "node_id" TEXT; required "evaluated_at_utc" TIMESTAMPTZ;
     required "would_have_blocked" BOOLEAN; nullable "reason" TEXT; required "parent_status_json" JSONB;
     required "policy_bundle_digest" TEXT; nullable "writer_identity" TEXT]);
  CreateIndex true "idx_shadow_evaluated" (Index "shadow_decisions" ["evaluated_at_utc"]);
  CreateIndex true "idx_shadow_blocked" (Index "shadow_decisions" ["would_have_blocked"]);
  CreateTable true "reintegration_evidence" (Table ["node_id"]
    [key "node_id"; required "pre_state_digest" TEXT; required "post_state_digest" TEXT;
     required "gate_evidence_json" JSONB; required "recorded_at_utc" TIMESTAMPTZ]);
  CreateTable true "continuity_exposures" (Table ["exposure_id"]
    [key "exposure_id"; required "node_id" TEXT; required "substitute_status" TEXT; required "exposed_at_utc" TIMESTAMPTZ;
     defaulted "quarantine_non_empty" BOOLEAN true "FALSE"; required "exposure_record_json" JSONB]);
  CreateTable true "substitute_declarations" (Table ["target_node_id"]
    [key "target_node_id"; required "declaration_json" JSONB]);
  CreateTable true "detector_events" (Table ["event_id"]
    [key "event_id"; required "event_json" JSONB; defaulted "received_at_utc" TIMESTAMPTZ true "NOW()"]);
  CreateTable true "tainted_rejections" (Table []
    [required "node_id" TEXT; required "tainted_parent_id" TEXT; required "rejected_at_utc" TIMESTAMPTZ;
     defaulted "author_identity" TEXT false ""; defaulted "served" BOOLEAN false "FALSE";
     nullable "served_by_exposure_id" TEXT; defaulted "offered" BOOLEAN false "FALSE";
     nullable "offered_replacement" TEXT; nullable "replacement_type" TEXT;
     defaulted "completed" BOOLEAN false "FALSE"; nullable "completed_by" TEXT]);
  CreateIndex true "idx_tainted_rejections_node_served" (Index "tainted_rejections" ["node_id"; "served"]) ].

(** ** Statements and the rest of the catalog *)
Definition empty_catalog : catalog := Catalog [] [].

(** The names a statement mentions. *)
Definition mentioned (s : ddl) : list string :=
  match s with
  | CreateTable _ name _ | DropTable name | DropIndex name => [name]
  | CreateIndex _ name i => [name; on_table i]
  end.

(** Every index is on a table of the catalog. *)
Definition catalog_ok (c : catalog) : Prop := ∀ kv, kv ∈ indexes c → dict_mem (on_table kv.2) (tables c) = true.

Definition join (c1 c2 : catalog) : catalog := Catalog (tables c1 ++ tables c2) (indexes c1 ++ indexes c2).

Lemma taken_false name c : taken name c = false ↔ dict_get name (tables c) = None ∧ dict_get name (indexes c) = None.
Proof. unfold taken. rewrite orb_false_iff, !dict_mem_false, !dict_get_None. done. Qed.

Lemma dict_mem_app {V} name (d1 d2 : dict V) : dict_get name d1 = None → dict_mem name (d1 ++ d2) = dict_mem name d2.
Proof. intros H. unfold dict_mem. by rewrite dict_get_app, H. Qed.

Lemma without_app {V} name (d1 d2 : dict V) : dict_get name d1 = None → without name (d1 ++ d2) = d1 ++ without name d2.
Proof.
  intros H. unfold without. rewrite List.filter_app. f_equal. apply dict_get_None in H.
  induction d1 as [|[k v] d1 IH]; [done|]. cbn in *. apply not_elem_of_cons in H as [Hk H].
  rewrite bool_decide_eq_false_2 by done. cbn. by rewrite IH.
Qed.

Lemma taken_join name c1 c2 : taken name c1 = false → taken name (join c1 c2) = taken name c2.
Proof. intros [H1 H2]%taken_false. unfold taken, join. cbn. by rewrite !dict_mem_app. Qed.

Lemma indexes_kept name c1 c2 :
  catalog_ok c1 → dict_get name (tables c1) = None →
  List.filter (λ kv, negb (bool_decide (on_table kv.2 = name))) (indexes c1 ++ indexes c2) =
  indexes c1 ++ List.filter (λ kv, negb (bool_decide (on_table kv.2 = name))) (indexes c2).
Proof.
  intros Hok H. rewrite List.filter_app. f_equal. unfold catalog_ok in Hok. revert Hok.
  induction (indexes c1) as [|kv l IH]; [done|]. intros Hok. cbn [List.filter].
  rewrite bool_decide_eq_false_2, IH; [done|intros; apply Hok; by right|].
  intros Hn. specialize (Hok kv ltac:(by left)). rewrite Hn in Hok. unfold dict_mem in Hok. by rewrite H in Hok.
Qed.

(** A statement about names that a catalog does not have leaves it alone. *)
Lemma exec_frame s c1 c2 c2' :
  catalog_ok c1 → (∀ name, name ∈ mentioned s → taken name c1 = false) →
  exec s c2 = Some c2' → exec s (join c1 c2) = Some (join c1 c2').
Proof.
  intros Hok Hm. destruct s as [ine name t|ine name i|name|name]; cbn [exec mentioned] in *.
  - rewrite taken_join by set_solver. case_match; [destruct ine|]; intros [= <-]; [done|].
    unfold join. cbn. by rewrite app_assoc.
  - rewrite taken_join by set_solver. case_match; [destruct ine; by intros [= <-]|].
    destruct (proj1 (taken_false _ _) (Hm (on_table i) ltac:(set_solver))) as [Hi _].
    assert (has_columns i (join c1 c2) = has_columns i c2) as ->.
    { unfold has_columns, join. cbn. by rewrite dict_get_app, Hi. }
    destruct (has_columns i c2); intros [= <-]. unfold join. cbn. by rewrite app_assoc.
  - destruct (proj1 (taken_false _ _) (Hm name ltac:(set_solver))) as [Ht _].
    unfold join at 1. cbn [tables]. rewrite dict_mem_app by done. case_match; intros [= <-].
    unfold join. cbn [tables indexes]. by rewrite without_app, indexes_kept.
  - destruct (proj1 (taken_false _ _) (Hm name ltac:(set_solver))) as [_ Hx].
    unfold join at 1. cbn [indexes]. rewrite dict_mem_app by done. case_match; intros [= <-].
    unfold join. cbn [tables indexes]. by rewrite without_app.
Qed.

Lemma run_frame ss c1 c2 c2' :
  catalog_ok c1 → (∀ name, name ∈ ss ≫= mentioned → taken name c1 = false) →
  run ss c2 = Some c2' → run ss (join c1 c2) = Some (join c1 c2').
Proof.
  intros Hok. revert c2. induction ss as [|s ss IH]; intros c2 Hm; [by intros [= <-]|]. cbn [run].
  destruct (exec s c2) as [c3|] eqn:E; [|done]. cbn [mbind option_bind]. intros Hr.
  rewrite (exec_frame s c1 c2 c3) by (done || (intros; apply Hm; rewrite bind_cons; set_solver)).
  cbn [mbind option_bind]. apply IH; [|done]. intros. apply Hm. rewrite bind_cons. set_solver.
Qed.

Lemma join_empty c : join c empty_catalog = c.
Proof. unfold join. cbn. rewrite !app_nil_r. by destruct c. Qed.

(** ** [CREATE .. IF NOT EXISTS] *)
Definition if_missing (s : ddl) : option string :=
  match s with CreateTable true name _ | CreateIndex true name _ => Some name | _ => None end.

Lemma exec_if_missing s name c c' :
  if_missing s = Some name → exec s c = Some c' →
  taken name c' = true ∧ (∀ n, taken n c = true → taken n c' = true) ∧
  (∀ n t, dict_get n (tables c) = Some t → dict_get n (tables c') = Some t).
Proof.
  destruct s as [[] n0 t0|[] n0 i0| |]; intros [= <-]; cbn [exec]; destruct (taken n0 c) eqn:Et.
  1, 3: by intros [= <-].
  - intros [= <-]. unfold taken, dict_mem. cbn. split_and!.
    + rewrite dict_get_app. destruct (dict_get n0 (tables c)); cbn; [done|]. by rewrite decide_True.
    + intros n. rewrite dict_get_app. by destruct (dict_get n (tables c)), (dict_get n (indexes c)); rewrite ?orb_true_r.
    + intros n t Hn. by rewrite dict_get_app, Hn.
  - destruct (has_columns i0 c); intros [= <-]. unfold taken, dict_mem. cbn. split_and!; [| |done].
    + rewrite dict_get_app. destruct (dict_get n0 (indexes c)); cbn; rewrite ?orb_true_r; [done|].
      by rewrite decide_True, orb_true_r.
    + intros n. rewrite dict_get_app. by destruct (dict_get n (tables c)), (dict_get n (indexes c)); rewrite ?orb_true_r.
Qed.

Lemma run_if_missing ss c c' :
  Forall (λ s, is_Some (if_missing s)) ss → run ss c = Some c' →
  Forall (λ s, ∀ name, if_missing s = Some name → taken name c' = true) ss ∧
  (∀ n, taken n c = true → taken n c' = true) ∧
  (∀ n t, dict_get n (tables c) = Some t → dict_get n (tables c') = Some t).
Proof.
  intros Hs. revert c. induction Hs as [|s ss [name Hn] _ IH]; intros c; [by intros [= <-]|].
  cbn [run]. destruct (exec s c) as [c1|] eqn:E; [|done]. cbn [mbind option_bind]. intros Hr.
  destruct (exec_if_missing s name c c1 Hn E) as (Ht & Hm & Hg). destruct (IH c1 Hr) as (Hall & Hm' & Hg').
  split_and!; [|by auto..]. constructor; [|done]. intros name' Hn'. rewrite Hn in Hn'. injection Hn' as <-. auto.
Qed.

Lemma run_taken ss c :
  Forall (λ s, is_Some (if_missing s)) ss →
  Forall (λ s, ∀ name, if_missing s = Some name → taken name c = true) ss → run ss c = Some c.
Proof.
  induction 1 as [|s ss [name Hn] _ IH]; [done|]. intros [Ht Hall]%Forall_cons. cbn [run].
  specialize (Ht name Hn). destruct s as [[] n t|[] n i| |]; try done; injection Hn as ->; cbn [exec];
    rewrite Ht; cbn [mbind option_bind]; by apply IH.
Qed.

Lemma round_trip_empty : ∃ u, run upgrade empty_catalog = Some u ∧ run downgrade u = Some empty_catalog.
Proof. exists (default empty_catalog (run upgrade empty_catalog)). by split; vm_compute. Qed.

(** ** Properties *)

(** C34: the migration can be undone: on any catalog that uses none of its names,
    [upgrade] succeeds, and [downgrade] afterwards succeeds and gives the catalog
    back as it was, the other tables and indexes in their places. *)
Theorem migration_round_trip (c : catalog)
    (Hok : catalog_ok c) (Hfree : ∀ name, name ∈ (upgrade ++ downgrade) ≫= mentioned → taken name c = false) :
  ∃ c', run upgrade c = Some c' ∧ run downgrade c' = Some c.
Proof.
  destruct round_trip_empty as (u & Hu & Hd).
  exists (join c u). rewrite bind_app in Hfree. split.
  - rewrite <-(join_empty c) at 1. apply run_frame; [done| |done]. intros n Hn. apply Hfree, elem_of_app. by left.
  - rewrite <-(join_empty c) at 2. apply run_frame; [done| |done]. intros n Hn. apply Hfree, elem_of_app. by right.
Qed.

(** [init_db] may run at every start: once it has succeeded, running it again
    changes nothing, and no table that was there is altered. *)
Theorem init_db_idempotent (c c' : catalog) (Hrun : run init_db c = Some c') :
  run init_db c' = Some c' ∧ ∀ n t, dict_get n (tables c) = Some t → dict_get n (tables c') = Some t.
Proof.
  assert (Forall (λ s, is_Some (if_missing s)) init_db) as Hs by (repeat constructor; by eexists).
  destruct (run_if_missing init_db c c' Hs Hrun) as (Hall & _ & Hkeep). split; [by apply run_taken|done].
Qed.

Definition schema_of (ss : list ddl) : dict table := default [] (tables <$> run ss empty_catalog).

(** The tables of the first schema that the second one has differently. *)
Definition differing (a b : dict table) : list string :=
  dict_keys (List.filter (λ kv, match dict_get kv.1 b with Some t => negb (bool_decide (t = kv.2)) | None => false end) a).
Definition missing (a b : dict table) : list string :=
  dict_keys (List.filter (λ kv, negb (dict_mem kv.1 b)) a).

(** The two versions of the schema have drifted apart: the migration lacks
    five tables of [init_db] and types two others differently; after a start of
    the gateway the migration can no longer be applied; and after both, undoing
    the migration leaves the five tables behind. *)
Theorem schema_drift :
  missing (schema_of init_db) (schema_of upgrade) =
    ["reintegration_evidence"; "continuity_exposures"; "substitute_declarations"; "detector_events"; "tainted_rejections"] ∧
  differing (schema_of init_db) (schema_of upgrade) = ["reintegration_horizon"; "calibration_runs"] ∧
  run (init_db ++ upgrade) empty_catalog = None ∧
  dict_keys (schema_of (upgrade ++ init_db ++ downgrade)) =
    ["reintegration_evidence"; "continuity_exposures"; "substitute_declarations"; "detector_events"; "tainted_rejections"].
Proof. by vm_compute. Qed.

(** ** Witnesses *)
Definition other_catalog : catalog :=
  Catalog [("alembic_version", Table ["version_num"] [key "version_num"])] [("idx_version", Index "alembic_version" ["version_num"])].

Lemma migration_round_trip_witness : ∃ c', run upgrade other_catalog = Some c' ∧ run downgrade c' = Some other_catalog.
Proof.
  apply migration_round_trip.
  - intros kv ->%list_elem_of_singleton. reflexivity.
  - apply Forall_forall. vm_compute. repeat constructor.
Defined.

Lemma init_db_idempotent_witness :
  let c := Catalog (schema_of init_db) [] in is_Some (run init_db c) ∧
  ∀ c', run init_db c = Some c' → run init_db c' = Some c'.
Proof. split; [by eexists|]. intros c' Hr. exact (proj1 (init_db_idempotent _ c' Hr)). Defined.
