(* ===== verification/Migrations.v ===== *)
(** * Running the migrations ([migrations/env.py])

    Alembic loads [env.py], which finds the database and runs the migration
    steps: offline as a script, online in one transaction of the database that
    the URL names.  Which statements a command needs is Alembic's computation
    from the version table; it is a parameter. *)
From S2P Require Import Prelude Dict Schema.

(** The statements of [context.run_migrations()] against a database, and without
    one. *)
Class AlembicPlan := {
  online_plan : catalog → list ddl;
  offline_plan : list ddl }.

(** The environment variables, the URL of [alembic.ini], and the mode. *)
Record invocation := Invocation {
  environ : dict string;
  ini_url : option string;
  is_offline_mode : bool }.

(** The databases that can be reached, by URL. *)
Definition servers : Type := dict catalog.

Inductive alembic_error := NoUrl | CannotConnect | StatementFailed.

Inductive env_outcome := Script (statements : list ddl) | Migrated (s : servers) | Failed (e : alembic_error) (s : servers).

(* src: migrations/env.py get_url *)
Definition get_url (i : invocation) : option string :=
  match dict_get "POSTGRES_DSN" (environ i) with Some dsn => Some dsn | None => ini_url i end.

Section runs.
Context `{AlembicPlan}.

(** Neither [context.configure] nor [create_engine] takes an empty URL. *)
Definition usable (url : option string) : option string :=
  match url with Some u => if decide (u = "") then None else Some u | None => None end.

(* src: migrations/env.py run_migrations_offline *)
Definition run_migrations_offline (i : invocation) (s : servers) : env_outcome :=
  match usable (get_url i) with
  | None => Failed NoUrl s
  | Some _ => Script offline_plan
  end.

(** [context.begin_transaction()] undoes the statements before one that fails. *)
(* src: migrations/env.py run_migrations_online *)
Definition run_migrations_online (i : invocation) (s : servers) : env_outcome :=
  match usable (get_url i) with
  | None => Failed NoUrl s
  | Some url =>
    match dict_get url s with
    | None => Failed CannotConnect s
    | Some c =>
      match run (online_plan c) c with
      | Some c' => Migrated (dict_set url c' s)
      | None => Failed StatementFailed s
      end
    end
  end.

(* src: migrations/env.py 78-81 <module> *)
Definition env_main (i : invocation) (s : servers) : env_outcome :=
  if is_offline_mode i then run_migrations_offline i s else run_migrations_online i s.

(** A run changes the one database that [POSTGRES_DSN] names, or else
    [alembic.ini], and that one by all the statements or not at all. *)
Lemma env_main_changes_one_database i s :
  match env_main i s with
  | Script _ => is_offline_mode i = true
  | Failed _ s' => s' = s
  | Migrated s' => ∃ url c c', get_url i = Some url ∧ dict_get url s = Some c ∧ run (online_plan c) c = Some c' ∧
      ∀ u, dict_get u s' = if decide (u = url) then Some c' else dict_get u s
  end.
Proof.
  unfold env_main. destruct (is_offline_mode i) eqn:Ho.
  - unfold run_migrations_offline. by destruct (usable _).
  - unfold run_migrations_online. destruct (usable (get_url i)) as [url|] eqn:Hu; [|done].
    destruct (dict_get url s) as [c|] eqn:Hc; [|done]. destruct (run (online_plan c) c) as [c'|] eqn:Hr; [|done].
    exists url, c, c'. split_and!; [|done..|].
    + unfold usable in Hu. destruct (get_url i) as [u|]; [|done]. by case_decide; simplify_eq.
    + intros u. apply dict_get_set.
Qed.

(** An empty [POSTGRES_DSN] hides the URL of [alembic.ini]. *)
Lemma empty_dsn_fails i s :
  dict_get "POSTGRES_DSN" (environ i) = Some "" → env_main i s = Failed NoUrl s.
Proof.
  intros Hd. unfold env_main, run_migrations_offline, run_migrations_online, get_url. rewrite Hd. cbn.
  by destruct (is_offline_mode i).
Qed.
End runs.

(** A fresh database gets the tables of the migration; a second run of the same
    statements fails and leaves them. *)
Definition first_revision : AlembicPlan := {| online_plan := λ _, upgrade; offline_plan := upgrade |}.
Definition ci : invocation := Invocation [] (Some "postgresql://localhost/gasc") false.

Lemma upgrade_runs_once :
  ∃ s, env_main (H:=first_revision) ci [("postgresql://localhost/gasc", Catalog [] [])] = Migrated s ∧
    env_main (H:=first_revision) ci s = Failed StatementFailed s.
Proof. eexists. split; [by vm_compute|]. by vm_compute. Qed.
