(* ===== verification/Advisory.v ===== *)
(** * Advisory locks over a connection pool ([postgres_backend.py])

    [advisory_shared] and [advisory_exclusive] are offered to deployments of
    several gateways.  Each takes a connection from the backend's pool, locks on
    it, runs the caller's body, which takes further connections from the same
    pool for its own statements, then unlocks and gives the connection back.
    The tasks of one process and its pool are a step relation; PostgreSQL grants
    a lock only when it is compatible with the locks that are held.  The result
    is how many tasks a pool of a given size supports. *)
From S2P Require Import Prelude Lineage.

Inductive mode := Shared | Exclusive.
#[export] Instance mode_eq_dec : EqDecision mode.
Proof. solve_decision. Defined.

(** Where a task is: outside; with a connection, waiting for the lock; inside
    its body with statements still to run; running one on a connection of its
    own; done with them. *)
Inductive place := Outside | Locking (m : mode) | Inside (m : mode) | Running (m : mode) | Finished (m : mode).
#[export] Instance place_eq_dec : EqDecision place.
Proof. solve_decision. Defined.

Record pool := Pool { free : nat; places : list place }.

(* src: src/postgres_backend.py 65-71 PostgresStateBackend._get_pool *)
Definition fresh_pool (max_size tasks : nat) : pool := Pool max_size (replicate tasks Outside).

(** The mode in which a task holds the lock. *)
Definition holds (p : place) : option mode :=
  match p with Inside m | Running m | Finished m => Some m | Outside | Locking _ => None end.

(** The connections a task has. *)
Definition connections (p : place) : nat :=
  match p with Outside => 0 | Locking _ | Inside _ | Finished _ => 1 | Running _ => 2 end.

(** PostgreSQL's conflict table for the two modes. *)
Definition compatible (m : mode) (held : option mode) : bool :=
  match m, held with
  | _, None => true
  | Shared, Some Shared => true
  | _, _ => false
  end.

Definition grantable (m : mode) (ps : list place) : bool := forallb (λ p, compatible m (holds p)) ps.

Definition move (i : nat) (p : place) (s : pool) : pool := Pool (free s) (<[i := p]> (places s)).

(** [await pool.acquire()]: the task waits while no connection is free. *)
Definition take_connection (s : pool) : option pool :=
  match free s with O => None | S n => Some (Pool n (places s)) end.
Definition give_connection (s : pool) : pool := Pool (S (free s)) (places s).

(* src: src/postgres_backend.py 86-87 PostgresStateBackend.advisory_shared *)
Definition enter (m : mode) (i : nat) (s : pool) : option pool :=
  if bool_decide (places s !! i = Some Outside) then move i (Locking m) <$> take_connection s else None.

(** [SELECT pg_advisory_lock($1)]; [work] says whether the body has statements. *)
(* src: src/postgres_backend.py 89-91 PostgresStateBackend.advisory_shared *)
Definition lock (work : bool) (m : mode) (i : nat) (s : pool) : option pool :=
  if bool_decide (places s !! i = Some (Locking m)) && grantable m (places s)
  then Some (move i (if work then Inside m else Finished m) s) else None.

(** A statement of the body: every method of the backend starts with
    [async with pool.acquire() as conn].  A body has one statement under way at
    a time. *)
(* src: src/postgres_backend.py 379-380 PostgresStateBackend.add_to_quarantine_ledger *)
Definition begin_statement (m : mode) (i : nat) (s : pool) : option pool :=
  if bool_decide (places s !! i = Some (Inside m)) then move i (Running m) <$> take_connection s else None.

Definition end_statement (more : bool) (m : mode) (i : nat) (s : pool) : option pool :=
  if bool_decide (places s !! i = Some (Running m))
  then Some (give_connection (move i (if more then Inside m else Finished m) s)) else None.

(** Unlock, then give the connection back. *)
(* src: src/postgres_backend.py 94-99 PostgresStateBackend.advisory_shared *)
Definition leave (m : mode) (i : nat) (s : pool) : option pool :=
  if bool_decide (places s !! i = Some (Finished m)) then Some (give_connection (move i Outside s)) else None.

(** The two context managers around a body without statements. *)
(* src: src/postgres_backend.py PostgresStateBackend.advisory_shared *)
Definition advisory_shared (i : nat) (s : pool) : option pool :=
  s ← enter Shared i s; s ← lock false Shared i s; leave Shared i s.

(* src: src/postgres_backend.py PostgresStateBackend.advisory_exclusive *)
Definition advisory_exclusive (i : nat) (s : pool) : option pool :=
  s ← enter Exclusive i s; s ← lock false Exclusive i s; leave Exclusive i s.

(** A task that is under way gets one step further. *)
Inductive advance : pool → pool → Prop :=
  | ad_lock work m i s s' : lock work m i s = Some s' → advance s s'
  | ad_begin m i s s' : begin_statement m i s = Some s' → advance s s'
  | ad_end more m i s s' : end_statement more m i s = Some s' → advance s s'
  | ad_leave m i s s' : leave m i s = Some s' → advance s s'.

Inductive pool_step : pool → pool → Prop :=
  | ps_enter m i s s' : enter m i s = Some s' → pool_step s s'
  | ps_advance s s' : advance s s' → pool_step s s'.

(** ** Accounting and exclusion *)
Definition held_connections (ps : list place) : nat := sum_list_with connections ps.

(** Next to a task that holds the lock exclusively no task holds it. *)
Definition exclusive_ok (ps : list place) : Prop := ∀ i j p q,
  ps !! i = Some p → ps !! j = Some q → holds p = Some Exclusive → i ≠ j → holds q = None.

Record pool_inv (max_size : nat) (s : pool) : Prop := {
  pi_connections : free s + held_connections (places s) = max_size;
  pi_exclusive : exclusive_ok (places s) }.

Lemma held_insert (ps : list place) i p q :
  ps !! i = Some p → held_connections (<[i := q]> ps) + connections p = held_connections ps + connections q.
Proof.
  unfold held_connections. revert i. induction ps as [|x ps IH]; intros [|i] Hi; simplify_eq/=; [lia|].
  specialize (IH i Hi). lia.
Qed.

(** A task that holds no more than it did before does not disturb exclusion. *)
Lemma exclusion_move ps i p q :
  exclusive_ok ps →
  ps !! i = Some p → (holds q = holds p ∨ holds q = None) →
  exclusive_ok (<[i := q]> ps).
Proof.
  intros Hex Hi Hq j k a b Hj Hk Ha Hne.
  apply list_lookup_insert_Some in Hj as [(-> & -> & _)|[Hij Hj]];
    apply list_lookup_insert_Some in Hk as [(-> & -> & _)|[Hik Hk]]; try done.
  - eapply Hex; [exact Hi|exact Hk| |done]. destruct Hq as [<-|Hq]; [done|congruence].
  - destruct Hq as [->| ->]; [|done]. eapply Hex; [exact Hj|exact Hi|exact Ha|done].
  - eapply Hex; [exact Hj|exact Hk|exact Ha|done].
Qed.

Lemma grantable_none m ps j q :
  grantable m ps = true → ps !! j = Some q → compatible m (holds q) = true.
Proof. unfold grantable. rewrite forallb_forall. intros Hg Hj. apply Hg, list_elem_of_In. by eapply list_elem_of_lookup_2. Qed.

Lemma exclusion_lock ps i m q :
  exclusive_ok ps →
  grantable m ps = true →
  holds q = Some m → exclusive_ok (<[i := q]> ps).
Proof.
  intros Hex Hg Hq j k a b Hj Hk Ha Hne.
  apply list_lookup_insert_Some in Hj as [(-> & -> & _)|[Hij Hj]];
    apply list_lookup_insert_Some in Hk as [(-> & -> & _)|[Hik Hk]]; try done.
  - rewrite Hq in Ha. injection Ha as ->. pose proof (grantable_none _ _ _ _ Hg Hk) as Hc. by destruct (holds b) as [[]|].
  - pose proof (grantable_none _ _ _ _ Hg Hj) as Hc. rewrite Ha in Hc. by destruct m.
  - eapply Hex; [exact Hj|exact Hk|exact Ha|done].
Qed.

Lemma pool_inv_step max_size s s' : pool_inv max_size s → pool_step s s' → pool_inv max_size s'.
Proof.
  intros [Hc Hex] Hs.
  destruct Hs as [m i s s' H|s s' [work m i s1 s1' H|m i s1 s1' H|more m i s1 s1' H|m i s1 s1' H]];
    unfold enter, lock, begin_statement, end_statement, leave, take_connection, give_connection, move in H;
    (case_bool_decide as Hi; [|done]); cbn [andb] in H.
  all: try match type of H with context [grantable ?m ?p] => destruct (grantable m p) eqn:Hg; [|discriminate H] end.
  - destruct (free _) as [|n] eqn:Hf in H; [done|]. injection H as <-. split; cbn.
    + pose proof (held_insert _ _ _ (Locking m) Hi). unfold held_connections in *. cbn in *. lia.
    + eapply exclusion_move; [exact Hex|exact Hi|by right].
  - injection H as <-. split; cbn.
    + pose proof (held_insert _ _ _ (if work then Inside m else Finished m) Hi). destruct work; unfold held_connections in *; cbn in *; lia.
    + apply (exclusion_lock _ _ m); [done|done|by destruct work].
  - destruct (free _) as [|n] eqn:Hf in H; [done|]. injection H as <-. split; cbn.
    + pose proof (held_insert _ _ _ (Running m) Hi). unfold held_connections in *. cbn in *. lia.
    + eapply exclusion_move; [exact Hex|exact Hi|by left].
  - injection H as <-. split; cbn.
    + pose proof (held_insert _ _ _ (if more then Inside m else Finished m) Hi). destruct more; unfold held_connections in *; cbn in *; lia.
    + eapply exclusion_move; [exact Hex|exact Hi|left; by destruct more].
  - injection H as <-. split; cbn.
    + pose proof (held_insert _ _ _ Outside Hi). unfold held_connections in *. cbn in *. lia.
    + eapply exclusion_move; [exact Hex|exact Hi|by right].
Qed.

Lemma held_outside n : held_connections (replicate n Outside) = 0.
Proof. unfold held_connections. by induction n. Qed.

Lemma pool_inv_reachable max_size n s : rtc pool_step (fresh_pool max_size n) s → pool_inv max_size s.
Proof.
  intros Hr. assert (pool_inv max_size (fresh_pool max_size n)) as I.
  { split; cbn; [rewrite held_outside; lia|]. intros i j p q [-> _]%lookup_replicate. done. }
  revert I. induction Hr; [done|]. eauto using pool_inv_step.
Qed.

Lemma pool_step_length s s' : pool_step s s' → length (places s') = length (places s).
Proof.
  intros Hs.
  destruct Hs as [m i s s' H|s s' [work m i s1 s1' H|m i s1 s1' H|more m i s1 s1' H|m i s1 s1' H]];
    unfold enter, lock, begin_statement, end_statement, leave, take_connection, give_connection, move in H;
    case_bool_decide; try done; cbn [andb] in H; repeat case_match; simplify_eq/=; by rewrite length_insert.
Qed.

Lemma reachable_length max_size n s : rtc pool_step (fresh_pool max_size n) s → length (places s) = n.
Proof.
  intros Hr. assert (length (places (fresh_pool max_size n)) = n) as Hl by apply length_replicate.
  revert Hl. induction Hr as [|x y z Hxy _ IH]; [done|]. intros Hl. apply IH. by rewrite (pool_step_length _ _ Hxy).
Qed.

(** ** Enough connections *)
Lemma held_at_most_one (ps : list place) :
  Forall (λ p, connections p ≤ 1) ps → held_connections ps ≤ length ps.
Proof. unfold held_connections. induction 1; cbn in *; lia. Qed.

(** A task that is under way advances as long as a connection is free. *)
Lemma advance_with_free s i p :
  free s ≠ 0 → places s !! i = Some p → p ≠ Outside → (∀ m, p ≠ Locking m) → ∃ s', advance s s'.
Proof.
  intros Hf Hi Ho Hl. destruct (free s) as [|n] eqn:En; [done|]. destruct p as [|m|m|m|m]; try done.
  - by destruct (Hl m).
  - eexists. eapply (ad_begin m i). unfold begin_statement, take_connection. by rewrite bool_decide_eq_true_2, En by done.
  - eexists. eapply (ad_end false m i). unfold end_statement. by rewrite bool_decide_eq_true_2 by done.
  - eexists. eapply (ad_leave m i). unfold leave. by rewrite bool_decide_eq_true_2 by done.
Qed.

Lemma advance_finishing s i p m : places s !! i = Some p → p = Running m ∨ p = Finished m → ∃ s', advance s s'.
Proof.
  intros Hi [->| ->]; eexists.
  - eapply (ad_end false m i). unfold end_statement. by rewrite bool_decide_eq_true_2 by done.
  - eapply (ad_leave m i). unfold leave. by rewrite bool_decide_eq_true_2 by done.
Qed.

Lemma some_task_advances max_size n s i p :
  n < max_size → rtc pool_step (fresh_pool max_size n) s → places s !! i = Some p → p ≠ Outside →
  ∃ s', advance s s'.
Proof.
  intros Hn Hr Hi Hp. destruct (pool_inv_reachable _ _ _ Hr) as [Hc _]. pose proof (reachable_length _ _ _ Hr) as Hl.
  destruct (decide (Forall (λ p, connections p ≤ 1) (places s))) as [Hone|Hone].
  - apply held_at_most_one in Hone. assert (free s ≠ 0) as Hf by lia.
    destruct (decide (Forall (λ p, p = Outside ∨ p = Locking Shared ∨ p = Locking Exclusive) (places s))) as [Hall|Hall].
    + rewrite Forall_forall in Hall. destruct (Hall p) as [->|Hm]; [by eapply list_elem_of_lookup_2|done|].
      assert (∃ m, p = Locking m) as [m ->] by (destruct Hm; eauto).
      exists (move i (Inside m) s). eapply (ad_lock true m i). unfold lock. rewrite bool_decide_eq_true_2 by done.
      assert (grantable m (places s) = true) as ->; [|done].
      apply forallb_forall. intros q Hq%list_elem_of_In. destruct (Hall q Hq) as [->|[->| ->]]; by destruct m.
    + apply not_Forall_Exists, Exists_exists in Hall as (q & [j Hj]%list_elem_of_lookup & Hq); [|apply _].
      apply (advance_with_free s j q Hf Hj); [naive_solver|]. intros [] ->; naive_solver.
  - apply not_Forall_Exists, Exists_exists in Hone as (q & [j Hj]%list_elem_of_lookup & Hq); [|intros x; apply _].
    destruct q as [|m|m|m|m]; cbn in Hq; try lia. by apply (advance_finishing s j (Running m) m Hj); left.
Qed.

(** ** Not enough *)
Definition crowd (max_size n k : nat) : pool :=
  Pool (max_size - k) (replicate k (Inside Shared) ++ replicate (n - k) Outside).

Lemma crowd_step max_size n k :
  k < max_size → k < n → rtc pool_step (crowd max_size n k) (crowd max_size n (S k)).
Proof.
  intros Hm Hn. destruct (n - k) as [|r] eqn:Er; [lia|].
  assert (∀ p q, <[k := q]> (replicate k (Inside Shared) ++ p :: replicate r Outside) =
    replicate k (Inside Shared) ++ q :: replicate r Outside) as Hins.
  { intros p q. rewrite insert_app_r_alt, length_replicate, Nat.sub_diag by (rewrite length_replicate; lia). done. }
  assert (∀ p, (replicate k (Inside Shared) ++ p :: replicate r Outside) !! k = Some p) as Hlook.
  { intros p. rewrite lookup_app_r, length_replicate, Nat.sub_diag by (rewrite length_replicate; lia). done. }
  set (mid := Pool (max_size - S k) (replicate k (Inside Shared) ++ Locking Shared :: replicate r Outside)).
  eapply rtc_l with mid; [|eapply rtc_l with (crowd max_size n (S k)); [|apply rtc_refl]].
  - eapply (ps_enter Shared k). unfold enter, take_connection, crowd. cbn [places free]. rewrite Er.
    cbn [replicate]. rewrite bool_decide_eq_true_2 by apply Hlook.
    destruct (max_size - k) as [|f] eqn:Ef; [lia|]. cbn. unfold move, mid. cbn. rewrite Hins.
    by replace (max_size - S k) with f by lia.
  - apply ps_advance. eapply (ad_lock true Shared k). unfold lock, mid. cbn [places].
    rewrite bool_decide_eq_true_2 by apply Hlook.
    assert (grantable Shared (replicate k (Inside Shared) ++ Locking Shared :: replicate r Outside) = true) as ->.
    { apply forallb_forall. intros p Hp%list_elem_of_In. apply elem_of_app in Hp as [Hp|Hp].
      - by apply elem_of_replicate in Hp as [-> _].
      - apply elem_of_cons in Hp as [->|Hp]; [done|]. by apply elem_of_replicate in Hp as [-> _]. }
    cbn [andb]. unfold move, crowd. cbn [free places]. rewrite Hins. replace (n - S k) with r by lia.
    do 2 f_equal. by rewrite replicate_S_end, <-app_assoc.
Qed.

Lemma crowd_reachable max_size n k : k ≤ max_size → k ≤ n → rtc pool_step (fresh_pool max_size n) (crowd max_size n k).
Proof.
  induction k as [|k IH]; intros Hm Hn.
  - unfold crowd, fresh_pool. cbn [replicate app]. rewrite !Nat.sub_0_r. apply rtc_refl.
  - etrans; [apply IH; lia|]. apply crowd_step; lia.
Qed.

Lemma crowd_stuck max_size n s' : ¬ pool_step (crowd max_size n max_size) s'.
Proof.
  assert (∀ i p, places (crowd max_size n max_size) !! i = Some p → p = Inside Shared ∨ p = Outside) as Hp.
  { intros i p Hi%list_elem_of_lookup_2. cbn in Hi.
    apply elem_of_app in Hi as [Hi|Hi]; apply elem_of_replicate in Hi as [-> _]; auto. }
  assert (take_connection (crowd max_size n max_size) = None) as Hf
    by (unfold take_connection, crowd; cbn [free]; by rewrite Nat.sub_diag).
  intros Hs.
  inversion Hs as [m i ? ? H|? ? Ha]; subst; [|inversion Ha as [work m i ? ? H|m i ? ? H|more m i ? ? H|m i ? ? H]; subst];
    unfold enter, lock, begin_statement, end_statement, leave in H; rewrite ?Hf in H;
    (case_bool_decide as Hi; [|done]); try done; by destruct (Hp _ _ Hi).
Qed.

(** ** Properties *)

(** At any time every connection is free or with a task, and a task that holds
    the lock exclusively is the only one to hold it. *)
Lemma advisory_locks_exclude max_size n s :
  rtc pool_step (fresh_pool max_size n) s →
  free s + held_connections (places s) = max_size ∧ exclusive_ok (places s).
Proof. by intros [? ?]%pool_inv_reachable. Qed.

(** C37: how many tasks a pool supports: with fewer tasks than connections some
    task under way can always go on; with as many tasks as connections, or more,
    all connections can end up with tasks that hold the lock and wait for
    another connection, and then nothing ever happens again. *)
Theorem advisory_pool_bound (max_size n : nat) :
  (n < max_size → ∀ s i p, rtc pool_step (fresh_pool max_size n) s → places s !! i = Some p → p ≠ Outside →
     ∃ s', advance s s') ∧
  (0 < max_size ≤ n → ∃ s, rtc pool_step (fresh_pool max_size n) s ∧ places s !! 0 = Some (Inside Shared) ∧
     ∀ s', ¬ pool_step s s').
Proof.
  split.
  - intros Hn s i p. by apply some_task_advances.
  - intros [H0 Hn]. exists (crowd max_size n max_size). split_and!; [by apply crowd_reachable| |apply crowd_stuck].
    destruct max_size; [lia|done].
Qed.

Example advisory_uncontended : advisory_shared 0 (fresh_pool 10 3) = Some (fresh_pool 10 3) ∧
  advisory_exclusive 2 (fresh_pool 10 3) = Some (fresh_pool 10 3).
Proof. done. Qed.
