(* ===== verification/Pool.v ===== *)
(** * The connection pool of the PostgreSQL backend

    [_get_pool] keeps one pool for the running event loop: it is created at the
    first use, and discarded when another loop asks.  Between its awaits a task
    runs alone, so a step is the code up to the next [await]: the tests at the
    start of [_get_pool], the end of [create_pool], and the two ends of
    [close].  Any number of tasks on any number of loops take such steps. *)
From S2P Require Import Prelude.

(** What became of a pool that was created. *)
Inductive fate := Open | Terminated | Closed.
#[export] Instance fate_eq_dec : EqDecision fate.
Proof. solve_decision. Defined.

Record pool_info := PoolInfo { made_on : nat; pool_fate : fate }.

(** Pools are numbered as they are made.  [creating]: the loops of the tasks
    that await [create_pool]; [closing]: the pools whose [close] is awaited. *)
Record pool_state := PoolState {
  pool : option nat;
  pool_loop : option nat;
  made : list pool_info;
  creating : list nat;
  closing : list nat }.

#[export] Instance pool_state_rebuild : Rebuild pool_state := λ s,
  PoolState (pool s) (pool_loop s) (made s) (creating s) (closing s).

(* src: src/postgres_backend.py 39-40 PostgresStateBackend.__init__ *)
Definition no_pool : pool_state := PoolState None None [] [] [].

(** A pool that is closed already is not terminated again. *)
Definition terminate (i : pool_info) : pool_info :=
  match pool_fate i with Open => PoolInfo (made_on i) Terminated | _ => i end.
Definition shut (i : pool_info) : pool_info := PoolInfo (made_on i) Closed.

(** A pool of another loop is dropped. *)
(* src: src/postgres_backend.py 56-64 PostgresStateBackend._get_pool *)
Definition discard_foreign (current_loop : nat) (s : pool_state) : pool_state :=
  match pool s with
  | Some p =>
    if decide (pool_loop s = Some current_loop) then s
    else s <| made ::= alter terminate p |> <| pool := None |>
  | None => s
  end.

(** Up to the answer, or to the [await] of [create_pool]. *)
(* src: src/postgres_backend.py 55-71 PostgresStateBackend._get_pool *)
Definition get_pool (current_loop : nat) (s : pool_state) : option nat * pool_state :=
  let s := discard_foreign current_loop s in
  match pool s with
  | Some p => (Some p, s)
  | None => (None, s <| creating ::= cons current_loop |>)
  end.

(** [create_pool] is done for the task at position [i]. *)
(* src: src/postgres_backend.py 66-71 PostgresStateBackend._get_pool *)
Definition pool_created (i : nat) (s : pool_state) : option (nat * nat * pool_state) :=
  current_loop ← creating s !! i;
  let p := length (made s) in
  Some (current_loop, p,
    s <| made := made s ++ [PoolInfo current_loop Open] |> <| pool := Some p |>
      <| pool_loop := Some current_loop |> <| creating ::= delete i |>).

(** It failed, or the task was cancelled. *)
Definition creation_failed (i : nat) (s : pool_state) : pool_state := s <| creating ::= delete i |>.

(* src: src/postgres_backend.py 73-75 PostgresStateBackend.close *)
Definition close_begin (s : pool_state) : pool_state :=
  match pool s with Some p => s <| closing ::= cons p |> | None => s end.

(** [pool.close()] is done: the pool the backend has by now is forgotten,
    whether it is the one that was closed or not. *)
(* src: src/postgres_backend.py 75-76 PostgresStateBackend.close *)
Definition close_end (i : nat) (s : pool_state) : option pool_state :=
  p ← closing s !! i;
  Some (s <| made ::= alter shut p |> <| pool := None |> <| closing ::= delete i |>).

Definition close_failed (i : nat) (s : pool_state) : pool_state := s <| closing ::= delete i |>.

(** What a step shows: a task on a loop got a pool, or nothing. *)
Inductive seen := Got (loop p : nat) | Nothing.

Inductive pool_step : pool_state → seen → pool_state → Prop :=
  | step_have l s p s' : get_pool l s = (Some p, s') → pool_step s (Got l p) s'
  | step_await l s s' : get_pool l s = (None, s') → pool_step s Nothing s'
  | step_created i s l p s' : pool_created i s = Some (l, p, s') → pool_step s (Got l p) s'
  | step_failed i s : pool_step s Nothing (creation_failed i s)
  | step_close s : pool_step s Nothing (close_begin s)
  | step_closed i s s' : close_end i s = Some s' → pool_step s Nothing s'
  | step_not_closed i s : pool_step s Nothing (close_failed i s).

Inductive pool_run : pool_state → list seen → pool_state → Prop :=
  | run_nil s : pool_run s [] s
  | run_step s e s' es s'' : pool_step s e s' → pool_run s' es s'' → pool_run s (e :: es) s''.

(** ** The pool that is kept fits the loop that is kept *)
Definition pool_inv (s : pool_state) : Prop :=
  ∀ p, pool s = Some p → ∃ l, made s !! p = Some (PoolInfo l Open) ∧ pool_loop s = Some l.

Lemma discard_foreign_inv l s : pool_inv s → pool_inv (discard_foreign l s).
Proof.
  intros I. unfold discard_foreign. destruct (pool s) as [p|] eqn:Hp; [|exact I]. case_decide; [exact I|done].
Qed.

Lemma discard_foreign_pool l s p :
  pool_inv s → pool (discard_foreign l s) = Some p →
  discard_foreign l s = s ∧ pool s = Some p ∧ made s !! p = Some (PoolInfo l Open).
Proof.
  intros I. unfold discard_foreign. destruct (pool s) as [q|] eqn:Hq; [|congruence].
  case_decide as Hl; [|done]. rewrite Hq. intros [= ->]. destruct (I p Hq) as (l' & Hm & Hl').
  rewrite Hl in Hl'. by injection Hl' as <-.
Qed.

Lemma get_pool_inv l s : pool_inv s → pool_inv (get_pool l s).2.
Proof.
  intros I%(discard_foreign_inv l). unfold get_pool. destruct (pool (discard_foreign l s)) eqn:E; [done|].
  intros p. cbn. congruence.
Qed.

Lemma pool_created_fits i s l p s' :
  pool_created i s = Some (l, p, s') → pool s' = Some p ∧ made s' !! p = Some (PoolInfo l Open) ∧ pool_loop s' = Some l.
Proof.
  unfold pool_created. destruct (creating s !! i); [|done]. intros [= <- <- <-]. cbn.
  by rewrite lookup_app_r, Nat.sub_diag.
Qed.

Lemma pool_step_inv s e s' : pool_inv s → pool_step s e s' → pool_inv s'.
Proof.
  intros I Hs. inversion Hs as [l ? p ? Hg|l ? ? Hg|i ? l p ? Hc|i ?|?|i ? ? Hc|i ?]; subst; clear Hs.
  - pose proof (get_pool_inv l s I) as J. by rewrite Hg in J.
  - pose proof (get_pool_inv l s I) as J. by rewrite Hg in J.
  - apply pool_created_fits in Hc as (Hp & Hm & Hl). intros q Hq. rewrite Hp in Hq. injection Hq as <-. eauto.
  - exact I.
  - unfold close_begin. by destruct (pool s).
  - unfold close_end in Hc. destruct (closing s !! i); [|done]. by injection Hc as <-.
  - exact I.
Qed.

Lemma pool_run_inv s es s' : pool_inv s → pool_run s es s' → pool_inv s'.
Proof. intros I Hr. induction Hr; eauto using pool_step_inv. Qed.

(** However tasks on any number of event loops interleave their uses and
    closings of the pool, and whatever creations and closings fail, the pool
    that a task gets was made on the task's own loop, and at that moment it has
    been neither terminated nor closed and is the one the backend keeps. *)
Theorem pool_answers_fit es s l p s' :
  pool_run no_pool es s → pool_step s (Got l p) s' →
  made s' !! p = Some (PoolInfo l Open) ∧ pool s' = Some p.
Proof.
  intros Hr Hs. assert (pool_inv s) as I by (by eapply pool_run_inv; [|exact Hr]).
  inversion Hs as [? ? ? ? Hg| |? ? ? ? ? Hc| | | |]; subst.
  - unfold get_pool in Hg. destruct (pool (discard_foreign l s)) as [q|] eqn:Hq; [|done]. injection Hg as -> <-.
    destruct (discard_foreign_pool l s p I Hq) as (-> & ? & ?). done.
  - by apply pool_created_fits in Hc as (? & ? & _).
Qed.

(** ** One pool or many *)

(** A pool that is there is the answer to all further calls from its loop:
    after [init_db] at start-up no other is made. *)
Lemma warm_pool_is_kept l p s : pool s = Some p → pool_loop s = Some l → get_pool l s = (Some p, s).
Proof. intros Hp Hl. unfold get_pool, discard_foreign. rewrite Hp, decide_True by done. by rewrite Hp. Qed.

(** [n] tasks of one loop that ask before the first pool is ready. *)
Fixpoint ask_all (l n : nat) (s : pool_state) : pool_state :=
  match n with O => s | S n => (get_pool l (ask_all l n s)).2 end.

Fixpoint create_all (n : nat) (s : pool_state) : option pool_state :=
  match n with O => Some s | S n => s ← create_all n s; snd <$> pool_created 0 s end.

Lemma ask_all_waits l n : ask_all l n no_pool = no_pool <| creating := replicate n l |>.
Proof. induction n as [|n IH]; [done|]. cbn [ask_all]. by rewrite IH. Qed.

Lemma create_all_waits l n m :
  create_all n (no_pool <| creating := replicate (n + m) l |>) =
    Some (PoolState (match n with O => None | S k => Some k end) (match n with O => None | S _ => Some l end)
            (replicate n (PoolInfo l Open)) (replicate m l) []).
Proof.
  revert m. induction n as [|n IH]; intros m; [done|]. cbn [create_all].
  replace (S n + m) with (n + S m) by lia. rewrite IH. unfold pool_created. cbn. rewrite length_replicate. do 2 f_equal.
  change (PoolInfo l Open :: replicate n (PoolInfo l Open)) with (replicate (S n) (PoolInfo l Open)).
  by rewrite replicate_S_end.
Qed.

(** The first uses are not serialised: [n] tasks make [n] pools of up to ten
    connections, the backend keeps the last, and no step closes the others. *)
Lemma cold_start_makes_a_pool_each l n :
  create_all (S n) (ask_all l (S n) no_pool) =
    Some (PoolState (Some n) (Some l) (replicate (S n) (PoolInfo l Open)) [] []).
Proof. rewrite ask_all_waits. pose proof (create_all_waits l (S n) 0) as H. by rewrite Nat.add_0_r in H. Qed.

(** A pool that the backend does not keep stays open. *)
Lemma lost_pool_stays_open s es s' p i :
  pool_run s es s' → pool_inv s → made s !! p = Some i → pool s ≠ Some p → (p ∉ closing s) →
  made s' !! p = Some i ∧ pool s' ≠ Some p.
Proof.
  intros Hr. revert i. induction Hr as [|s e s1 es s2 Hs Hr IH]; [done|]. intros i I Hp Hk Hc.
  assert (made s1 !! p = Some i ∧ pool s1 ≠ Some p ∧ p ∉ closing s1) as (Hp1 & Hk1 & Hc1).
  { assert (∀ l, made (discard_foreign l s) !! p = Some i ∧ pool (discard_foreign l s) ≠ Some p ∧
      closing (discard_foreign l s) = closing s) as Hd.
    { intros l. unfold discard_foreign. destruct (pool s) as [q|] eqn:Hq; [|split_and!; congruence].
      case_decide; [split_and!; congruence|]. cbn. rewrite list_lookup_alter_ne by congruence. done. }
    inversion Hs as [l ? q ? Hg|l ? ? Hg|j ? l q ? Hj|j ?|?|j ? ? Hj|j ?]; subst.
    - unfold get_pool in Hg. destruct (Hd l) as (? & ? & Hcl). destruct (pool (discard_foreign l s)) eqn:E; [|done].
      injection Hg as _ <-. rewrite Hcl, E. by split_and!.
    - unfold get_pool in Hg. destruct (Hd l) as (? & ? & Hcl). destruct (pool (discard_foreign l s)) eqn:E; [done|].
      injection Hg as <-. cbn. rewrite Hcl, E. by split_and!.
    - unfold pool_created in Hj. destruct (creating s !! j); [|done]. injection Hj as <- <- <-. cbn.
      split_and!; [by apply lookup_app_l_Some| |done]. apply lookup_lt_Some in Hp. intros [= <-]. lia.
    - done.
    - unfold close_begin. destruct (pool s) as [q|] eqn:Hq; cbn; rewrite ?Hq; [|done].
      split_and!; [done|done|]. intros [->|?]%elem_of_cons; [done|done].
    - unfold close_end in Hj. destruct (closing s !! j) as [q|] eqn:Hq; [|done]. injection Hj as <-. cbn.
      assert (q ≠ p) by (intros ->; by apply Hc, (list_elem_of_lookup_2 _ j)).
      rewrite list_lookup_alter_ne by done. split_and!; [done|done|]. by intros ?%list_elem_of_delete_inv.
    - cbn. split_and!; [done|done|]. by intros ?%list_elem_of_delete_inv. }
  apply (IH i); [|done..]. by eapply pool_step_inv.
Qed.

(** Two loops: the second terminates the pool of the first and gets its own. *)
Lemma pool_answers_fit_witness :
  ∃ s s', pool_run no_pool [Nothing; Got 0 0; Got 0 0; Nothing] s ∧ pool_step s (Got 1 1) s' ∧
    made s' !! 1 = Some (PoolInfo 1 Open) ∧ made s' !! 0 = Some (PoolInfo 0 Terminated).
Proof.
  set (s1 := (get_pool 0 no_pool).2). set (s2 := PoolState (Some 0) (Some 0) [PoolInfo 0 Open] [] []).
  set (s3 := (get_pool 1 s2).2). set (s4 := PoolState (Some 1) (Some 1) [PoolInfo 0 Terminated; PoolInfo 1 Open] [] []).
  assert (pool_run no_pool [Nothing; Got 0 0; Got 0 0; Nothing] s3) as Hr.
  { apply (run_step _ _ s1); [by apply (step_await 0)|]. apply (run_step _ _ s2); [by apply (step_created 0)|].
    apply (run_step _ _ s2); [by apply (step_have 0)|]. apply (run_step _ _ s3); [by apply (step_await 1)|]. constructor. }
  assert (pool_step s3 (Got 1 1) s4) as Hs by (by apply (step_created 0)).
  exists s3, s4. destruct (pool_answers_fit _ _ _ _ _ Hr Hs) as [Hm _]. by split_and!.
Defined.
