(* ===== verification/World.v ===== *)
(** * The world a handler runs in

    A handler is a function of the world to an outcome and a new world: it
    returns, raises, or waits forever.  The world has the store, the one
    setting that handlers overwrite, whether this task holds the admission lock
    exclusively, and a counter that numbers the readings of what is outside the
    program: the clock, [uuid4], fresh keys, the policy engine and the recovery
    adapter.  [Env] gives those readings; it also has the operations of the
    [cryptography] and [PyJWT] packages. *)
From S2P Require Import Prelude Dict Types Encoding Datetime Graph Lineage Interface.

(** ** Policy inputs ([evaluate_admission] builds them) *)
Record parent_status := ParentStatus { ps_id : string; ps_exists : bool; ps_quarantined : bool }.

Record integrity_input := IntegrityInput {
  write_request : node;
  parent_statuses : list parent_status }.

Record reintegration_input := ReintegrationInput {
  new_candidate_node_id : string;
  target_replaced_node_id : string;
  admissible_frontier_parent_ids : list string;
  justification : option json;
  quarantine_set_Q : list string;
  auth_context : dict json;
  request_timestamp_epoch : Z;
  verifier_execution_status : json }.

Inductive policy_input :=
  | Combined (i : integrity_input) (v : reintegration_input)
  | Integrity (i : integrity_input)
  | Verification (v : reintegration_input).

(** What the three ways to run OPA can answer. *)
Inductive wasm_reply := WasmResults (l : list json) | WasmRuntimeError | WasmException.
Inductive process_reply := Exited (code : Z) (stdout : option json).
Inductive rest_reply := Responded (status : Z) (body : option json) | TransportError.

(** The answer of the recovery adapter: [None] in the body when the JSON has no
    candidate. *)
Inductive adapter_reply := AdapterResponded (status : Z) (candidate : option node) | AdapterTimeout | AdapterFailed.

(* src: src/recovery_adapter.py ReconstructRequest *)
Record adapter_request := AdapterRequest {
  graph_snapshot : dict node;
  rq_quarantine_ledger : list string;
  rq_poisoned_root_id : string;
  compaction_covers : list string;
  requested_frontier : list string;
  rq_method : option string;
  rq_checkpoint : option checkpoint_record }.

(** ** The outside *)
Class Env := {
  cfg : settings;
  payload_size_limit : Z;
  env_text : PayloadText;
  (** the clock, [uuid.uuid4] and [ec.generate_private_key] *)
  clock : nat → Z;
  fresh_uuid : nat → string;
  key_pair : Type;
  fresh_key : nat → key_pair;
  (** [cryptography]: elliptic-curve keys and signatures *)
  public_key : Type;
  public_numbers : key_pair → Z * Z;
  load_numbers : Z → Z → option public_key;
  load_encoded_point : list Z → option public_key;
  encode_dss_signature : Z → Z → list Z;
  ecdsa_verify : public_key → list Z → list Z → bool;
  ecdsa_sign : key_pair → list Z → Z * Z;
  (** [jwt.decode(token, key, algorithms=["ES256"])] *)
  jwt_decode : string → string → option (dict json);
  (** OPA *)
  path_exists : string → bool;
  has_wasmtime : bool;
  opa_wasm : nat → string → policy_input → wasm_reply;
  opa_process : nat → bool → string → policy_input → process_reply;
  opa_rest : nat → string → string → policy_input → rest_reply;
  (** the recovery adapter *)
  adapter_post : nat → string → adapter_request → adapter_reply;
  (** the order in which a set is iterated *)
  set_order : list string → list string }.

(** ** Outcomes and worlds *)
(* src: src/governor_service.py PolicyEvaluationError *)
Inductive exn :=
  | HTTPException (status : Z) (detail : string)
  | PolicyEvaluationError
  | ReadTimeout
  | OtherException.

Inductive outcome (A : Type) := Ret (a : A) | Raise (e : exn) | Hang.
Arguments Ret {A} _.
Arguments Raise {A} _.
Arguments Hang {A}.

Record world (St : Type) := World {
  w_db : St;
  w_adapter_key : option string;
  w_exclusive : bool;
  w_tick : nat }.
Arguments World {St} _ _ _ _.
Arguments w_db {St} _.
Arguments w_adapter_key {St} _.
Arguments w_exclusive {St} _.
Arguments w_tick {St} _.

#[export] Instance world_rebuild {St} : Rebuild (world St) := λ w,
  World (w_db w) (w_adapter_key w) (w_exclusive w) (w_tick w).

Definition M (St A : Type) : Type := world St → outcome A * world St.

#[export] Instance M_ret {St} : MRet (M St) := λ A a w, (Ret a, w).
#[export] Instance M_bind {St} : MBind (M St) := λ A B f m w,
  match m w with
  | (Ret a, w') => f a w'
  | (Raise e, w') => (Raise e, w')
  | (Hang, w') => (Hang, w')
  end.

Section primitives.
Context {St : Type}.

Definition raise {A} (e : exn) : M St A := λ w, (Raise e, w).
Definition http {A} (status : Z) (detail : string) : M St A := raise (HTTPException status detail).

(** A method of the backend that reads, writes, or does both. *)
Definition query {A} (f : St → A) : M St A := λ w, (Ret (f (w_db w)), w).
Definition update (f : St → St) : M St () := λ w, (Ret (), w <| w_db ::= f |>).
Definition call {A} (f : St → A * St) : M St A := λ w,
  let '(a, s) := f (w_db w) in (Ret a, w <| w_db := s |>).

(** The same for a method that can raise. *)
Definition try_query {A} (f : St → option A) : M St A := λ w,
  match f (w_db w) with Some a => (Ret a, w) | None => (Raise OtherException, w) end.
Definition try_update (f : St → option St) : M St () := λ w,
  match f (w_db w) with Some s => (Ret (), w <| w_db := s |>) | None => (Raise OtherException, w) end.

Definition read_adapter_key : M St (option string) := λ w, (Ret (w_adapter_key w), w).
Definition set_adapter_key (k : string) : M St () := λ w, (Ret (), w <| w_adapter_key := Some k |>).

(** A reading of the outside. *)
Definition reading {A} (f : nat → A) : M St A := λ w, (Ret (f (w_tick w)), w <| w_tick ::= S |>).

Definition require (b : bool) (status : Z) (detail : string) : M St () :=
  if b then mret () else http status detail.

Definition when (b : bool) (m : M St ()) : M St () := if b then m else mret ().

(** [try: m except ..] *)
Definition catch {A} (m : M St A) (handler : exn → M St A) : M St A := λ w,
  match m w with (Raise e, w') => handler e w' | r => r end.

Fixpoint for_each {A} (l : list A) (f : A → M St ()) : M St () :=
  match l with [] => mret () | x :: l => f x ≫= λ _, for_each l f end.

(** A loop that threads a value. *)
Fixpoint for_fold {A B} (l : list A) (b : B) (f : B → A → M St B) : M St B :=
  match l with [] => mret b | x :: l => f b x ≫= λ b, for_fold l b f end.

(** ** The admission lock, as one task sees it

    Shared access requested by the task that holds the lock exclusively is
    never granted: the writer flag is cleared only when that task leaves. *)
(* src: src/governor_service.py _admission_shared *)
Definition admission_shared {A} (body : M St A) : M St A := λ w,
  if w_exclusive w then (Hang, w) else body w.

(* src: src/governor_service.py _admission_exclusive *)
Definition admission_exclusive {A} (body : M St A) : M St A := λ w,
  if w_exclusive w then (Hang, w) else
  match body (w <| w_exclusive := true |>) with
  | (Hang, w') => (Hang, w')
  | (r, w') => (r, w' <| w_exclusive := false |>)
  end.

(** [async with backend.transaction()]: kept when the body returns, undone
    when it raises, and not yet committed while the body waits. *)
Definition transaction `{Transactional St} {A} (body : M St A) : M St A := λ w,
  match body w with
  | (Ret a, w') => (Ret a, w')
  | (r, w') => (r, w' <| w_db ::= on_exception (w_db w) |>)
  end.
End primitives.

Section readings.
Context {St : Type} `{Env}.
Definition now : M St Z := reading clock.
Definition uuid4 : M St string := reading fresh_uuid.
Definition generate_private_key : M St key_pair := reading fresh_key.
End readings.

(** ** Inversion: what a run that returned went through *)
Section inversion.
Context {St : Type}.
Implicit Types (w : world St).

Lemma bind_Ret {A B} (m : M St A) (f : A → M St B) w b w2 :
  (m ≫= f) w = (Ret b, w2) → ∃ a w1, m w = (Ret a, w1) ∧ f a w1 = (Ret b, w2).
Proof. unfold mbind, M_bind. destruct (m w) as [[a|e|] w1]; [eauto|done..]. Qed.

Lemma mret_Ret {A} (a a' : A) w w' : (mret a : M St A) w = (Ret a', w') → a' = a ∧ w' = w.
Proof. by intros [= -> ->]. Qed.

Lemma query_Ret {A} (f : St → A) w a w' : query f w = (Ret a, w') → a = f (w_db w) ∧ w' = w.
Proof. by intros [= -> ->]. Qed.

Lemma reading_Ret {A} (f : nat → A) w a w' :
  reading f w = (Ret a, w') → a = f (w_tick w) ∧ w' = w <| w_tick ::= S |>.
Proof. by intros [= -> ->]. Qed.

Lemma update_Ret (f : St → St) w u w' : update f w = (Ret u, w') → w' = w <| w_db ::= f |>.
Proof. by intros [= _ ->]. Qed.

Lemma call_Ret {A} (f : St → A * St) w a w' :
  call f w = (Ret a, w') → a = (f (w_db w)).1 ∧ w' = w <| w_db := (f (w_db w)).2 |>.
Proof. unfold call. destruct (f (w_db w)). by intros [= <- <-]. Qed.

Lemma try_query_Ret {A} (f : St → option A) w a w' :
  try_query f w = (Ret a, w') → f (w_db w) = Some a ∧ w' = w.
Proof. unfold try_query. destruct (f (w_db w)); by intros [= -> ->]. Qed.

Lemma try_update_Ret (f : St → option St) w u w' :
  try_update f w = (Ret u, w') → ∃ s, f (w_db w) = Some s ∧ w' = w <| w_db := s |>.
Proof. unfold try_update. destruct (f (w_db w)); intros [=]; subst; eauto. Qed.

Lemma require_Ret b st d w u w' : require b st d w = (Ret u, w') → b = true ∧ w' = w.
Proof. destruct b; by intros [=]. Qed.

Lemma http_Ret {A} st d w (a : A) w' : http st d w = (Ret a, w') → False.
Proof. done. Qed.

Lemma shared_Ret {A} (m : M St A) w a w' : admission_shared m w = (Ret a, w') → m w = (Ret a, w').
Proof. unfold admission_shared. by destruct (w_exclusive w). Qed.

Lemma exclusive_Ret {A} (m : M St A) w a w' :
  admission_exclusive m w = (Ret a, w') →
  ∃ w1, m (w <| w_exclusive := true |>) = (Ret a, w1) ∧ w' = w1 <| w_exclusive := false |>.
Proof.
  unfold admission_exclusive. destruct (w_exclusive w); [done|].
  destruct (m _) as [[a'|e|] w1]; [|done..]. intros [= -> <-]. eauto.
Qed.

Lemma transaction_Ret `{Transactional St} {A} (m : M St A) w a w' :
  transaction m w = (Ret a, w') → m w = (Ret a, w').
Proof. unfold transaction. by destruct (m w) as [[a'|e|] w1]. Qed.

Lemma run_eq {A} (m : M St A) w o : (m w).1 = o → m w = (o, (m w).2).
Proof. intros <-. apply surjective_pairing. Qed.

(** [total m]: always returns, and leaves the lock as it was. *)
Definition total {A} (m : M St A) : Prop := ∀ w, ∃ a w', m w = (Ret a, w') ∧ w_exclusive w' = w_exclusive w.

Lemma total_bind {A B} (m : M St A) (f : A → M St B) : total m → (∀ a, total (f a)) → total (m ≫= f).
Proof.
  intros Hm Hf w. unfold mbind, M_bind. destruct (Hm w) as (a & w1 & -> & E1).
  destruct (Hf a w1) as (b & w2 & -> & E2). exists b, w2. by rewrite E2.
Qed.

Lemma total_mret {A} (a : A) : total (mret a : M St A).
Proof. intros w. by eexists _, _. Qed.
Lemma total_query {A} (f : St → A) : total (query f).
Proof. intros w. by eexists _, _. Qed.
Lemma total_update f : total (update f).
Proof. intros w. by eexists _, _. Qed.
Lemma total_call {A} (f : St → A * St) : total (call f).
Proof. intros w. unfold call. destruct (f (w_db w)). by eexists _, _. Qed.
Lemma total_reading {A} (f : nat → A) : total (reading f).
Proof. intros w. by eexists _, _. Qed.
Lemma total_when b m : total m → total (when b m).
Proof. destruct b; [done|]. intros _. apply total_mret. Qed.
Lemma total_for_each {A} (l : list A) f : (∀ x, total (f x)) → total (for_each l f).
Proof. intros Hf. induction l; cbn; [apply total_mret|]. by apply total_bind. Qed.

(** [silent m]: the store is never written. *)
Definition silent {A} (m : M St A) : Prop := ∀ w, w_db (m w).2 = w_db w.

(** [atomic m]: a run that does not return leaves the store as it found it. *)
Definition atomic {A} (m : M St A) : Prop :=
  ∀ w, match m w with (Ret _, _) => True | (_, w') => w_db w' = w_db w end.

Lemma silent_bind {A B} (m : M St A) (f : A → M St B) : silent m → (∀ a, silent (f a)) → silent (m ≫= f).
Proof.
  intros Hm Hf w. unfold mbind, M_bind. specialize (Hm w). destruct (m w) as [[a|e|] w1]; [|done..].
  rewrite Hf. exact Hm.
Qed.

Lemma silent_mret {A} (a : A) : silent (mret a : M St A).
Proof. done. Qed.
Lemma silent_raise {A} e : silent (raise e : M St A).
Proof. done. Qed.
Lemma silent_query {A} (f : St → A) : silent (query f).
Proof. done. Qed.
Lemma silent_try_query {A} (f : St → option A) : silent (try_query f).
Proof. intros w. unfold try_query. by destruct (f (w_db w)). Qed.
Lemma silent_reading {A} (f : nat → A) : silent (reading f).
Proof. done. Qed.
Lemma silent_require b st d : silent (require b st d).
Proof. by destruct b. Qed.
Lemma silent_catch {A} (m : M St A) h : silent m → (∀ e, silent (h e)) → silent (catch m h).
Proof.
  intros Hm Hh w. unfold catch. specialize (Hm w). destruct (m w) as [[a|e|] w1]; [done| |done].
  rewrite Hh. exact Hm.
Qed.
Lemma silent_set_adapter_key k : silent (set_adapter_key k).
Proof. done. Qed.
Lemma silent_read_adapter_key : silent read_adapter_key.
Proof. done. Qed.

Lemma silent_run {A} (m : M St A) w o w' : silent m → m w = (o, w') → w_db w' = w_db w.
Proof. intros Hm E. specialize (Hm w). by rewrite E in Hm. Qed.

Lemma silent_atomic {A} (m : M St A) : silent m → atomic m.
Proof. intros Hm w. specialize (Hm w). by destruct (m w) as [[]]. Qed.

Lemma atomic_bind {A B} (m : M St A) (f : A → M St B) :
  silent m → (∀ a, atomic (f a)) → atomic (m ≫= f).
Proof.
  intros Hm Hf w. unfold mbind, M_bind. specialize (Hm w).
  destruct (m w) as [[a|e'|] w1]; [|done..]. cbn in Hm. rewrite <-Hm. apply Hf.
Qed.

Lemma atomic_transaction `{RollbackLaws St} {A} (m : M St A) : atomic (transaction m).
Proof.
  intros w. unfold transaction. destruct (m w) as [[a|e'|] w1]; [done|..]; cbn; apply (rollback (St:=St)).
Qed.

Lemma atomic_shared {A} (m : M St A) : atomic m → atomic (admission_shared m).
Proof. intros Hm w. unfold admission_shared. destruct (w_exclusive w); [done|apply Hm]. Qed.

Lemma atomic_exclusive {A} (m : M St A) : atomic m → atomic (admission_exclusive m).
Proof.
  intros Hm w. unfold admission_exclusive. destruct (w_exclusive w); [done|].
  match goal with |- context [m ?w1] => specialize (Hm w1); by destruct (m w1) as [[] w'] end.
Qed.
End inversion.

Create HintDb total.
#[export] Hint Resolve total_bind total_mret total_query total_update total_call total_reading total_when
  total_for_each : total.
Ltac solve_total := repeat (cbv zeta; first [progress intros | case_match | solve [eauto 3 with total] | simple apply total_bind | simple apply total_when | simple apply total_for_each]).

Create HintDb silent.
#[export] Hint Resolve silent_bind silent_mret silent_raise silent_query silent_try_query silent_reading silent_require
  silent_catch silent_set_adapter_key silent_read_adapter_key : silent.
Ltac solve_silent := repeat (cbv zeta; first [progress intros | case_match | solve [eauto 4 with silent] | simple apply silent_bind | simple apply silent_catch]).

(** Follows a run that returned through one primitive step. *)
Ltac inv_ret H :=
  lazymatch type of H with
  | (_ ≫= _) _ = (Ret _, _) => apply bind_Ret in H as (? & ? & ? & H)
  | mret _ _ = (Ret _, _) => apply mret_Ret in H as [? ?]; subst
  | query _ _ = (Ret _, _) => apply query_Ret in H as [? ?]; subst
  | reading _ _ = (Ret _, _) => apply reading_Ret in H as [? ?]; subst
  | update _ _ = (Ret _, _) => apply update_Ret in H; subst
  | try_query _ _ = (Ret _, _) => apply try_query_Ret in H as [? ?]; subst
  | try_update _ _ = (Ret _, _) => apply try_update_Ret in H as (? & ? & ?); subst
  | call _ _ = (Ret _, _) => apply call_Ret in H as [? ?]; subst
  | require _ _ _ _ = (Ret _, _) => apply require_Ret in H as [? ?]; subst
  | http _ _ _ = (Ret _, _) => destruct (http_Ret _ _ _ _ _ H)
  | raise _ _ = (Ret _, _) => discriminate H
  | admission_shared _ _ = (Ret _, _) => apply shared_Ret in H
  | admission_exclusive _ _ = (Ret _, _) => apply exclusive_Ret in H as (? & H & ?); subst
  | transaction _ _ = (Ret _, _) => apply transaction_Ret in H
  end.
Ltac inv_rets := repeat match goal with H : _ _ = (Ret _, _) |- _ => inv_ret H end.

(** ** Reasoning: relations that every step respects

    [respects R m]: whatever way [m] ends, the store stays well formed and the
    stores before and after are related. *)
Section respects.
Context {St : Type} `{BackendLaws St}.
Variable (R : St → St → Prop).
Context `{!PreOrder R}.

Definition respects {A} (m : M St A) : Prop :=
  ∀ w, store_ok (w_db w) → store_ok (w_db (m w).2) ∧ R (w_db w) (w_db (m w).2).

Lemma respects_run {A} (m : M St A) w o w' :
  respects m → m w = (o, w') → store_ok (w_db w) → store_ok (w_db w') ∧ R (w_db w) (w_db w').
Proof. intros Hm E Hw. specialize (Hm w Hw). by rewrite E in Hm. Qed.

Lemma respects_ret {A} (a : A) : respects (mret a).
Proof. by intros w Hw. Qed.

Lemma respects_bind {A B} (m : M St A) (f : A → M St B) :
  respects m → (∀ a, respects (f a)) → respects (m ≫= f).
Proof.
  intros Hm Hf w Hw. unfold mbind, M_bind. destruct (Hm w Hw) as [Hok HR].
  destruct (m w) as [[a|e|] w'] eqn:E; cbn [fst snd] in *; [|done..].
  destruct (Hf a w' Hok). split; [done|by etrans].
Qed.

Lemma respects_raise {A} e : respects (raise (A:=A) e).
Proof. by intros w Hw. Qed.

Lemma respects_query {A} (f : St → A) : respects (query f).
Proof. by intros w Hw. Qed.

Lemma respects_update (f : St → St) :
  (∀ s, store_ok s → store_ok (f s) ∧ R s (f s)) → respects (update f).
Proof. intros Hf w Hw. by apply Hf. Qed.

Lemma respects_call {A} (f : St → A * St) :
  (∀ s, store_ok s → store_ok (f s).2 ∧ R s (f s).2) → respects (call f).
Proof.
  intros Hf w Hw. unfold call. specialize (Hf _ Hw). by destruct (f (w_db w)).
Qed.

Lemma respects_try_query {A} (f : St → option A) : respects (try_query f).
Proof. intros w Hw. unfold try_query. by destruct (f (w_db w)). Qed.

Lemma respects_try_update (f : St → option St) :
  (∀ s s', store_ok s → f s = Some s' → store_ok s' ∧ R s s') → respects (try_update f).
Proof. intros Hf w Hw. unfold try_update. destruct (f (w_db w)) eqn:E; [by apply Hf|done]. Qed.

Lemma respects_read_adapter_key : respects read_adapter_key.
Proof. by intros w Hw. Qed.

Lemma respects_set_adapter_key k : respects (set_adapter_key k).
Proof. by intros w Hw. Qed.

Lemma respects_reading {A} (f : nat → A) : respects (reading f).
Proof. by intros w Hw. Qed.

Lemma respects_require b st d : respects (require b st d).
Proof. destruct b; by intros w Hw. Qed.

Lemma respects_when b m : respects m → respects (when b m).
Proof. destruct b; [done|]. by intros _ w Hw. Qed.

Lemma respects_catch {A} (m : M St A) h : respects m → (∀ e, respects (h e)) → respects (catch m h).
Proof.
  intros Hm Hh w Hw. unfold catch. destruct (Hm w Hw) as [Hok HR].
  destruct (m w) as [[a|e|] w'] eqn:E; cbn [fst snd] in *; [done| |done].
  destruct (Hh e w' Hok). split; [done|by etrans].
Qed.

Lemma respects_for_each {A} (l : list A) f : (∀ x, respects (f x)) → respects (for_each l f).
Proof.
  intros Hf. induction l; cbn [for_each]; [apply respects_ret|]. by apply respects_bind.
Qed.

Lemma respects_for_fold {A B} (l : list A) (b : B) f :
  (∀ b x, respects (f b x)) → respects (for_fold l b f).
Proof.
  intros Hf. revert b; induction l; intros b; cbn [for_fold]; [apply respects_ret|]. by apply respects_bind.
Qed.

Lemma respects_shared {A} (m : M St A) : respects m → respects (admission_shared m).
Proof. intros Hm w Hw. unfold admission_shared. destruct (w_exclusive w); [done|by apply Hm]. Qed.

Lemma respects_exclusive {A} (m : M St A) : respects m → respects (admission_exclusive m).
Proof.
  intros Hm w Hw. unfold admission_exclusive. destruct (w_exclusive w); [done|].
  match goal with |- context [m ?w1] =>
    specialize (Hm w1 Hw); destruct (m w1) as [[a|e|] w']; exact Hm end.
Qed.

Lemma respects_transaction `{RollbackLaws St} {A} (m : M St A) : respects m → respects (transaction m).
Proof.
  intros Hm w Hw. unfold transaction. specialize (Hm w Hw).
  destruct (m w) as [[a|e|] w']; [done|..]; cbn; by rewrite rollback.
Qed.
End respects.

(** A relation that only looks at the graph and the ledger. *)
Class CoreRelation {St} `{Backend St} (R : St → St → Prop) := core_related s s' : same_core s s' → R s s'.

#[export] Instance evolves_core {St} `{Backend St} : CoreRelation (St:=St) evolves.
Proof. intros s s'. apply same_core_evolves. Qed.

#[export] Instance same_core_core {St} `{Backend St} : CoreRelation (St:=St) same_core.
Proof. by intros s s'. Qed.

Section frames.
Context {St : Type} `{BackendLaws St} (R : St → St → Prop) `{!PreOrder R, !CoreRelation R}.

Lemma respects_frame (f : St → St) :
  (∀ s, store_ok s → store_ok (f s) ∧ same_core s (f s)) → respects R (update f).
Proof. intros Hf. apply respects_update. intros s Hs. destruct (Hf s Hs). split; [done|by apply core_related]. Qed.

Lemma respects_try_frame (f : St → option St) :
  (∀ s s', store_ok s → f s = Some s' → store_ok s' ∧ same_core s s') → respects R (try_update f).
Proof.
  intros Hf. apply respects_try_update; [done|]. intros s s' Hs E. destruct (Hf s s' Hs E).
  split; [done|by apply core_related].
Qed.

Lemma respects_blast r : respects R (call (compute_blast_radius r)).
Proof. apply respects_call. intros s Hs. split; [by apply blast_ok|by apply core_related, blast_core]. Qed.
End frames.

Lemma respects_commit_node {St} `{BackendLaws St} n : respects (St:=St) evolves (call (commit_node n)).
Proof. apply respects_call. intros s Hs. split; eauto with gasc. Qed.

Lemma respects_quarantine {St} `{BackendLaws St} e c :
  respects (St:=St) evolves (call (apply_quarantine_transaction e c)).
Proof. apply respects_call. intros s Hs. split; eauto with gasc. Qed.

(** Splits a handler into its primitive steps. *)
Ltac respects_step :=
  first
    [ progress intros
    | simple apply respects_bind | simple apply respects_ret | simple apply respects_raise
    | simple apply respects_query | simple apply respects_try_query | simple apply respects_read_adapter_key
    | simple apply respects_set_adapter_key | simple apply respects_reading
    | simple apply respects_require | simple apply respects_when | simple apply respects_catch
    | simple apply respects_for_each | simple apply respects_for_fold
    | simple apply respects_shared | simple apply respects_exclusive | simple apply respects_transaction
    | simple apply respects_frame | simple apply respects_try_frame | simple apply respects_blast
    | case_match ]; try apply _.

(** The lemmas of the components' own steps. *)
Create HintDb respects.
#[export] Hint Extern 1 (PreOrder _) => apply _ : respects.
#[export] Hint Extern 1 (CoreRelation _) => apply _ : respects.
#[export] Hint Resolve respects_commit_node respects_quarantine : respects.

Ltac solve_respects :=
  repeat (cbv zeta; first [respects_step | solve [eauto 3 with respects] | solve [eauto with gasc]]).
