(* ===== verification/Crypto.v ===== *)
(** * Keys, signatures and tokens

    The security checks of the gateway: loading a hexadecimal public key,
    normalising a signature to DER, checking a payload's digest and signature,
    and checking session and role tokens.  Elliptic-curve arithmetic and JWT
    decoding belong to the [cryptography] and [PyJWT] packages and come from
    [Env]. *)
From S2P Require Import Prelude Dict Types Encoding Interface World.

Local Open Scope Z_scope.

(** An HTTP request as the handlers see it: the [Authorization] header. *)
Record request := Request { authorization : option string }.

(** [s.split(" ")[1]] of a string that starts with ["Bearer "] *)
Fixpoint until_space (l : list Ascii.ascii) : list Ascii.ascii :=
  match l with [] => [] | a :: l => if ascii_z a =? 32 then [] else a :: until_space l end.

Definition bearer_token (header : string) : option string :=
  if String.prefix "Bearer " header then
    Some (String.string_of_list_ascii (until_space (drop 7 (String.list_ascii_of_string header))))
  else None.

Section crypto.
Context `{E : Env}.

(* src: src/governor_service.py _load_public_key *)
Definition load_public_key (public_key_hex : string) : option public_key :=
  match fromhex public_key_hex with
  | None => None
  | Some raw =>
    if decide (length raw = 64%nat) then
      load_numbers (int_from_bytes (take 32 raw)) (int_from_bytes (drop 32 raw))
    else if decide (length raw = 65%nat ∧ head raw = Some 4) then load_encoded_point raw
    else None
  end.

(* src: src/governor_service.py _raw_signature_to_der *)
Definition raw_signature_to_der (signature_hex : string) : option (list Z) :=
  match fromhex signature_hex with
  | None => None
  | Some raw =>
    if decide (length raw = 64%nat) then
      Some (encode_dss_signature (int_from_bytes (take 32 raw)) (int_from_bytes (drop 32 raw)))
    else if decide (head raw = Some 48) then Some raw
    else None
  end.

(** The digest a payload is bound to. *)
Definition content_digest (state_content : dict json) : string := sha256_hex (json_dumps (JObj state_content)).

(** [public_key.verify(der, data, ECDSA(SHA256()))] in a [try]: any exception is [False] *)
(* src: src/governor_service.py 1035-1041 verify_cryptographic_signature *)
Definition verify_with (public_key_hex signature_hex : option string) (data : string) : bool :=
  match public_key_hex, signature_hex with
  | Some k, Some s =>
    match load_public_key k, raw_signature_to_der s with
    | Some pk, Some der => ecdsa_verify pk der (encode data)
    | _, _ => false
    end
  | _, _ => false
  end.

(* src: src/governor_service.py verify_cryptographic_signature *)
Definition verify_cryptographic_signature (payload : node) : bool :=
  if negb (truthy (agent_signature payload)) then false
  else
    let actual_hash := content_digest (content_of payload) in
    if bool_decide (content_digest_sha256 payload = Some actual_hash) then
      verify_with (identity_of payload) (agent_signature payload) actual_hash
    else false.

(** [x.to_bytes(32, "big") + y.to_bytes(32, "big")] in hexadecimal: how the
    gateway writes a key it made and a signature of its own. *)
(* src: src/governor_service.py 1617-1620 _attempt_reconstruction *)
Definition raw_hex (xy : Z * Z) : string := hex (int_to_bytes 32 xy.1 ++ int_to_bytes 32 xy.2).

Definition public_hex (k : key_pair) : string := raw_hex (public_numbers k).
Definition sign_hex (k : key_pair) (data : string) : string := raw_hex (ecdsa_sign k (encode data)).

(** ** Tokens *)
Context {St : Type}.

(** [claims.get("sub") == payload_identity] *)
Definition same_subject (sub : option json) (identity : option string) : bool :=
  match sub, identity with
  | Some (JStr s), Some t => bool_decide (s = t)
  | None, None | Some JNull, None => true
  | _, _ => false
  end.

(* src: src/governor_service.py verify_nhi_jwt *)
Definition verify_nhi_jwt (token payload_identity : option string) : M St (dict json) :=
  match token ≫= λ t, jwt_decode t (JWT_PUBLIC_KEY cfg) with
  | None => http 401 "Invalid Session Token"
  | Some claims =>
    if same_subject (dict_get "sub" claims) payload_identity then mret claims
    else http 401 "Invalid Session Token: JWT subject does not match payload identity"
  end.

(* src: src/governor_service.py verify_role_jwt *)
Definition verify_role_jwt (rq : request) (required_role : string) : M St (dict json) :=
  match authorization rq ≫= bearer_token with
  | None => http 401 "Missing or invalid token"
  | Some token =>
    match jwt_decode token (JWT_PUBLIC_KEY cfg) with
    | None => http 401 "Unauthorized"
    | Some claims =>
      if json_is_str required_role (dict_get "role" claims) then mret claims
      else http 401 "Unauthorized: missing role"
    end
  end.

(** ** Facts *)
Lemma raw_hex_fromhex xy :
  fromhex (raw_hex xy) = Some (int_to_bytes 32 xy.1 ++ int_to_bytes 32 xy.2).
Proof. apply fromhex_hex, Forall_app. split; apply is_byte_int_to_bytes. Qed.

Lemma raw_hex_nonempty xy : raw_hex xy ≠ "".
Proof.
  intros H. pose proof (raw_hex_fromhex xy) as Hf. rewrite H in Hf.
  apply (f_equal (λ o, length (default [] o))) in Hf.
  change (0%nat = length (int_to_bytes 32 xy.1 ++ int_to_bytes 32 xy.2)) in Hf.
  by rewrite length_app, !length_int_to_bytes in Hf.
Qed.

Definition in_field (z : Z) : Prop := 0 ≤ z < 2 ^ 256.

Lemma raw_split x y :
  in_field x → in_field y →
  let raw := int_to_bytes 32 x ++ int_to_bytes 32 y in
  length raw = 64%nat ∧ int_from_bytes (take 32 raw) = x ∧ int_from_bytes (drop 32 raw) = y.
Proof.
  intros Hx Hy raw. unfold raw.
  rewrite length_app, take_app_length', drop_app_length', !length_int_to_bytes
    by by rewrite length_int_to_bytes.
  split_and!; [done|by apply int_from_to_bytes..].
Qed.

(** A key and a signature that the gateway writes in hexadecimal are read
    back as the numbers they came from. *)
Lemma load_public_hex k x y :
  public_numbers k = (x, y) → in_field x → in_field y →
  load_public_key (public_hex k) = load_numbers x y.
Proof.
  intros Hk Hx Hy. unfold load_public_key, public_hex. rewrite raw_hex_fromhex, Hk. cbn [fst snd].
  destruct (raw_split x y Hx Hy) as (L & X & Y). by rewrite decide_True, X, Y by done.
Qed.

Lemma der_sign_hex k data r s :
  ecdsa_sign k (encode data) = (r, s) → in_field r → in_field s →
  raw_signature_to_der (sign_hex k data) = Some (encode_dss_signature r s).
Proof.
  intros Hk Hx Hy. unfold raw_signature_to_der, sign_hex. rewrite raw_hex_fromhex, Hk. cbn [fst snd].
  destruct (raw_split r s Hx Hy) as (L & X & Y). by rewrite decide_True, X, Y by done.
Qed.

Lemma verify_signature_digest n :
  verify_cryptographic_signature n = true →
  content_digest_sha256 n = Some (content_digest (content_of n)) ∧
  verify_with (identity_of n) (agent_signature n) (content_digest (content_of n)) = true.
Proof.
  unfold verify_cryptographic_signature. destruct (negb _); [done|].
  case_bool_decide; [|done]. done.
Qed.
End crypto.

(** What the gateway relies on of the signature scheme: a signature made with a
    key verifies under the public key of the same numbers. *)
Class SignaturesVerify `{E : Env} := {
  numbers_in_field k : in_field (public_numbers k).1 ∧ in_field (public_numbers k).2;
  signature_in_field k data : in_field (ecdsa_sign k data).1 ∧ in_field (ecdsa_sign k data).2;
  signature_verifies k data :
    ∃ pk, load_numbers (public_numbers k).1 (public_numbers k).2 = Some pk ∧
      ecdsa_verify pk (encode_dss_signature (ecdsa_sign k data).1 (ecdsa_sign k data).2) data = true }.

Lemma own_signature_verifies `{SignaturesVerify} k data :
  verify_with (Some (public_hex k)) (Some (sign_hex k data)) data = true.
Proof.
  unfold verify_with. destruct (numbers_in_field k) as [Hx Hy].
  destruct (signature_in_field k (encode data)) as [Hr Hs].
  destruct (signature_verifies k (encode data)) as (pk & Hpk & Hv).
  rewrite (load_public_hex k (public_numbers k).1 (public_numbers k).2), Hpk by (done || by destruct (public_numbers k)).
  rewrite (der_sign_hex k data (ecdsa_sign k (encode data)).1 (ecdsa_sign k (encode data)).2);
    [done|by destruct (ecdsa_sign k _)|done..].
Qed.
