(* ===== verification/Policy.v ===== *)
(** * The admission policies and their evaluation

    The Rego rules, the four ways the gateway asks OPA for a decision, and
    [evaluate_admission], which asks for the combined policy first and falls
    back to the two separate ones.  OPA itself is outside: its replies come
    from [Env], and [faithful_engine] says what a working engine answers. *)
From S2P Require Import Prelude Dict Types Encoding Datetime Interface World.

Local Open Scope Z_scope.

(** ** The Rego rules *)
Definition declared_dependencies_resolved (i : integrity_input) : bool := forallb ps_exists (parent_statuses i).
Definition any_parent_quarantined (i : integrity_input) : bool := existsb ps_quarantined (parent_statuses i).

(* src: policies/gasc_quarantine_integrity.rego 7-28 allow_state_write *)
Definition allow_state_write (i : integrity_input) : bool :=
  declared_dependencies_resolved i && negb (any_parent_quarantined i)
  && match declared_evidence_boundary (write_request i) with
     | Some b => negb (bool_decide (fixed_at_utc b = ""))
     | None => false
     end.

(** An expression in a rule body holds unless it is undefined or [false]. *)
Definition rego_holds (j : option json) : bool :=
  match j with None | Some (JBool false) => false | Some _ => true end.

(** [j > n]: values of different types are ordered null, boolean, number,
    string, array, object. *)
Definition rego_gt (j : option json) (n : Z) : bool :=
  match j with
  | None | Some JNull | Some (JBool _) => false
  | Some (JNum q _) => negb (Qle_bool q (inject_Z n))
  | Some _ => true
  end.

Definition json_is_true (j : option json) : bool := match j with Some (JBool b) => b | _ => false end.

Definition has_evaluative_planner_output (v : reintegration_input) : bool := rego_holds (justification v).

Definition fresh_identity_valid (v : reintegration_input) : bool :=
  negb (bool_decide (new_candidate_node_id v = target_replaced_node_id v)).

Definition frontier_contains_quarantined_ancestors (v : reintegration_input) : bool :=
  existsb (λ p, p ∈? quarantine_set_Q v) (admissible_frontier_parent_ids v).

Definition ephemeral_identity_valid (v : reintegration_input) : bool :=
  json_is_true (dict_get "is_nhi" (auth_context v))
  && rego_gt (dict_get "expires_at_epoch" (auth_context v)) (request_timestamp_epoch v)
  && json_is_str "agent:state:reconstruct" (dict_get "scope" (auth_context v)).

(* src: policies/gasc_verification_separation.rego 8-42 allow_reintegration *)
Definition allow_reintegration (v : reintegration_input) : bool :=
  negb (has_evaluative_planner_output v) && fresh_identity_valid v
  && negb (frontier_contains_quarantined_ancestors v) && ephemeral_identity_valid v
  && json_is_str "PASSED" (Some (verifier_execution_status v)).

(* src: policies/gasc_verification_separation.rego 44-51 is_irreducible *)
Definition is_irreducible (v : reintegration_input) : bool :=
  frontier_contains_quarantined_ancestors v
  || json_is_str "FAILED_UNRESOLVABLE_DEPENDENCY" (Some (verifier_execution_status v)).

(* src: policies/gasc_admission_combined.rego 79-83 result *)
Definition admission_result (i : integrity_input) (v : reintegration_input) : dict json :=
  [("allow_state_write", JBool (allow_state_write i));
   ("allow_reintegration", JBool (allow_reintegration v));
   ("is_irreducible", JBool (is_irreducible v))].

(** The value of the query that the gateway sends with each input. *)
Definition rego_value (input : policy_input) : json :=
  match input with
  | Combined i v => JObj (admission_result i v)
  | Integrity i => JBool (allow_state_write i)
  | Verification v => JBool (allow_reintegration v)
  end.

(** ** Python on JSON values *)

(** [bool(j)] *)
Definition py_truthy (j : json) : bool :=
  match j with
  | JNull => false
  | JBool b => b
  | JNum q _ => negb (Qeq_bool q 0%Q)
  | JStr s => negb (bool_decide (s = ""))
  | JArr l => match l with [] => false | _ => true end
  | JObj o => match o with [] => false | _ => true end
  end.

Fixpoint is_infix (fuel : nat) (k s : string) : bool :=
  String.prefix k s ||
  match fuel, s with S fuel, String.String _ s => is_infix fuel k s | _, _ => false end.

(** [key in j]; [None] is [TypeError] *)
Definition py_in (key : string) (j : json) : option bool :=
  match j with
  | JObj o => Some (dict_mem key o)
  | JArr l => Some (existsb (λ x, json_is_str key (Some x)) l)
  | JStr s => Some (is_infix (String.length s) key s)
  | _ => None
  end.

(** [output.get("result", [{}])[0].get("expressions", [{}])[0].get("value", False)] *)
Inductive extracted := Value (j : json) | LookupFailed | WrongType.

Definition first_of (key : string) (j : json) : extracted :=
  match j with
  | JObj o =>
    match dict_get key o with
    | None => Value (JObj [])
    | Some (JArr []) => LookupFailed
    | Some (JArr (x :: _)) => Value x
    | Some _ => WrongType
    end
  | _ => WrongType
  end.

Definition extract_value (output : json) : extracted :=
  match first_of "result" output with
  | Value r =>
    match first_of "expressions" r with
    | Value (JObj o) => Value (default (JBool false) (dict_get "value" o))
    | Value _ => WrongType
    | e => e
    end
  | e => e
  end.

(** ** [evaluate_opa_policy] *)
Inductive decision := Admit | TaintedParent (poisoned_root : string) | LineageInvalid | SeparationFailed.

Definition admitted (d : decision) : bool := match d with Admit => true | _ => false end.

(** [decision.get("reason", "")] *)
Definition reason_of (d : decision) : string :=
  match d with
  | Admit => ""
  | TaintedParent _ => "TAINTED_PARENT"
  | LineageInvalid => "Lineage or Monotonicity Invalid"
  | SeparationFailed => "Verification Separation Policy Failed"
  end.

Section policy.
Context `{E : Env} {St : Type}.

Definition policy_error {A} : M St A := raise PolicyEvaluationError.
Definition other_error {A} : M St A := raise OtherException.

(** A dictionary passes through when it has both keys, else the one it has. *)
(* src: src/governor_service.py 1081-1091 evaluate_opa_policy *)
Definition pick_rule (o : dict json) : json :=
  match dict_get "allow_state_write" o, dict_get "allow_reintegration" o with
  | Some _, Some _ => JObj o
  | Some w, None => w
  | None, Some r => r
  | None, None => JBool false
  end.

(* src: src/governor_service.py 1062-1091 evaluate_opa_policy *)
Definition read_wasm (r : wasm_reply) : M St json :=
  match r with
  | WasmRuntimeError => policy_error
  | WasmException => other_error
  | WasmResults [] => policy_error
  | WasmResults (JObj o :: _) =>
    match default (JBool false) (dict_get "result" o) with
    | JBool b => mret (JBool b)
    | JObj res => mret (pick_rule res)
    | _ => mret (JBool false)
    end
  | WasmResults (_ :: _) => other_error
  end.

(** With the bundle, output that cannot be read is not a policy error. *)
(* src: src/governor_service.py 1093-1103 evaluate_opa_policy *)
Definition read_bundle_process (r : process_reply) : M St json :=
  match r with
  | Exited code out =>
    if negb (code =? 0) then policy_error
    else match extract_value <$> out with Some (Value j) => mret j | _ => other_error end
  end.

(* src: src/governor_service.py 1105-1121 evaluate_opa_policy *)
Definition read_rest (r : rest_reply) : M St json :=
  match r with
  | Responded 200 (Some body) =>
    match body with
    | JObj o =>
      let result := default (JObj []) (dict_get "result" o) in
      match py_in "allow_state_write" result, py_in "allow_reintegration" result with
      | Some w, Some g =>
        if w && g then mret result
        else if w || g then match result with JObj res => mret (pick_rule res) | _ => policy_error end
        else mret (JBool false)
      | _, _ => policy_error
      end
    | _ => policy_error
    end
  | _ => policy_error
  end.

(* src: src/governor_service.py 1123-1138 evaluate_opa_policy *)
Definition read_local_process (r : process_reply) : M St json :=
  match r with
  | Exited code out =>
    if negb (code =? 0) then policy_error
    else
      match extract_value <$> out with
      | Some (Value j) => mret j
      | Some WrongType => other_error
      | Some LookupFailed | None => policy_error
      end
  end.

(* src: src/governor_service.py evaluate_opa_policy *)
Definition evaluate_opa_policy (policy_package query : string) (input : policy_input) : M St json :=
  match OPA_POLICY_BUNDLE cfg with
  | Some bundle =>
    if negb (bool_decide (bundle = "")) && path_exists bundle then
      if has_wasmtime && String.prefix "msaw." (String.string_of_list_ascii (reverse (String.list_ascii_of_string bundle)))
      then reading (λ n, opa_wasm n query input) ≫= read_wasm
      else reading (λ n, opa_process n true query input) ≫= read_bundle_process
    else if truthy (OPA_URL cfg) then reading (λ n, opa_rest n policy_package query input) ≫= read_rest
    else reading (λ n, opa_process n false query input) ≫= read_local_process
  | None =>
    if truthy (OPA_URL cfg) then reading (λ n, opa_rest n policy_package query input) ≫= read_rest
    else reading (λ n, opa_process n false query input) ≫= read_local_process
  end.

(** ** [evaluate_admission] *)
Definition statuses (parent_ids : list string) (exists_map quarantined_map : dict bool) : list parent_status :=
  (λ pid, ParentStatus pid (flag pid exists_map) (flag pid quarantined_map)) <$> parent_ids.

Definition tainted_of (parent_ids : list string) (quarantined_map : dict bool) : list string :=
  List.filter (λ pid, flag pid quarantined_map) parent_ids.

Definition integrity_input_of (payload : node) (parent_ids : list string)
    (exists_map quarantined_map : dict bool) : integrity_input :=
  IntegrityInput payload (statuses parent_ids exists_map quarantined_map).

Definition reintegration_input_of (payload : node) (parent_ids : list string)
    (quarantined_map : dict bool) (auth_context : dict json) (t : Z) : reintegration_input :=
  {| new_candidate_node_id := payload_id payload;
     target_replaced_node_id := "none";
     admissible_frontier_parent_ids := parent_ids;
     justification := dict_get "justification" (content_of payload);
     quarantine_set_Q := tainted_of parent_ids quarantined_map;
     auth_context := auth_context;
     request_timestamp_epoch := unix_timestamp t;
     verifier_execution_status := default (JStr "PENDING") (dict_get "verifier_execution_status" auth_context) |}.

Definition refusal (parent_ids : list string) (quarantined_map : dict bool) : decision :=
  match tainted_of parent_ids quarantined_map with
  | t :: _ => TaintedParent t
  | [] => LineageInvalid
  end.

Definition get_truthy (key : string) (o : dict json) : bool :=
  match dict_get key o with Some j => py_truthy j | None => false end.

(** [except PolicyEvaluationError: pass]; the other exceptions escape. *)
Definition policy_error_as {A} (a : A) (e : exn) : M St A :=
  match e with PolicyEvaluationError => mret a | e => raise e end.

(* src: src/governor_service.py 1199-1248 evaluate_admission *)
Definition ask_policies (parent_ids : list string) (quarantined_map : dict bool)
    (i : integrity_input) (v : reintegration_input) : M St decision :=
  combined ← catch
    (r ← evaluate_opa_policy "gasc/governor/admission" "data.gasc.governor.admission.result" (Combined i v);
     mret (match r with JObj o => Some o | _ => None end))
    (policy_error_as None);
  match combined with
  | Some o =>
    if negb (get_truthy "allow_state_write" o) then mret (refusal parent_ids quarantined_map)
    else if negb (get_truthy "allow_reintegration" o) then mret SeparationFailed
    else mret Admit
  | None =>
    w ← evaluate_opa_policy "gasc/governor/integrity" "data.gasc.governor.integrity.allow_state_write" (Integrity i);
    if negb (py_truthy w) then mret (refusal parent_ids quarantined_map)
    else
      r ← evaluate_opa_policy "gasc/governor/verification"
            "data.gasc.governor.verification.allow_reintegration" (Verification v);
      if negb (py_truthy r) then mret SeparationFailed else mret Admit
  end.

(* src: src/governor_service.py evaluate_admission *)
Definition evaluate_admission (payload : node) (parent_ids : list string)
    (exists_map quarantined_map : dict bool) (auth_context : dict json) : M St decision :=
  t ← now;
  ask_policies parent_ids quarantined_map
    (integrity_input_of payload parent_ids exists_map quarantined_map)
    (reintegration_input_of payload parent_ids quarantined_map auth_context t).

(** What the rules decide. *)
Definition rules_decision (payload : node) (parent_ids : list string)
    (exists_map quarantined_map : dict bool) (auth_context : dict json) (t : Z) : decision :=
  if negb (allow_state_write (integrity_input_of payload parent_ids exists_map quarantined_map))
  then refusal parent_ids quarantined_map
  else if negb (allow_reintegration (reintegration_input_of payload parent_ids quarantined_map auth_context t))
  then SeparationFailed
  else Admit.
End policy.

(** ** A working engine

    Each way of running OPA fails visibly or answers with the value of the
    rules, in the shape OPA documents: a result set of one expression for
    [opa eval], a list of result sets for WASM, and the package's document for
    the REST API. *)
Definition rest_document (input : policy_input) : dict json :=
  match input with
  | Combined i v => admission_result i v
  | Integrity i => [("allow_state_write", JBool (allow_state_write i))]
  | Verification v =>
    [("allow_reintegration", JBool (allow_reintegration v)); ("is_irreducible", JBool (is_irreducible v))]
  end.

Definition eval_output (j : json) : json :=
  JObj [("result", JArr [JObj [("expressions", JArr [JObj [("value", j)]])]])].

Record faithful_engine `{E : Env} : Prop := {
  faithful_wasm n q input :
    match opa_wasm n q input with WasmResults l => l = [JObj [("result", rego_value input)]] | _ => True end;
  faithful_process n b q input :
    match opa_process n b q input with Exited code out => code = 0 → out = Some (eval_output (rego_value input)) end;
  faithful_rest n p q input :
    match opa_rest n p q input with
    | Responded status body => status = 200 → body = Some (JObj [("result", JObj (rest_document input))])
    | TransportError => True
    end }.

Section soundness.
Context `{E : Env} {St : Type}.
Implicit Types (w : world St).

(** Every path returns the value of the rules or raises; only the counter of
    readings moves. *)
Definition returns_rego (input : policy_input) (m : M St json) : Prop :=
  ∀ w, w_db (m w).2 = w_db w ∧
    match (m w).1 with Ret j => j = rego_value input | Raise _ => True | Hang => False end.

Lemma pick_rule_rego input : pick_rule (rest_document input) = rego_value input.
Proof. by destruct input. Qed.

Lemma evaluate_opa_policy_rego package query input :
  faithful_engine → returns_rego input (evaluate_opa_policy package query input).
Proof.
  intros [FW FP FR].
  assert (returns_rego input (reading (λ n, opa_wasm n query input) ≫= read_wasm)) as HW.
  { intros w. unfold mbind, M_bind, reading. cbn. specialize (FW (w_tick w) query input).
    destruct (opa_wasm _ _ _); subst; [|done..]. by destruct input. }
  assert (returns_rego input (reading (λ n, opa_process n true query input) ≫= read_bundle_process)) as HB.
  { intros w. unfold mbind, M_bind, reading. cbn. specialize (FP (w_tick w) true query input).
    destruct (opa_process _ _ _ _) as [code out]. unfold read_bundle_process.
    destruct (Z.eqb_spec code 0); [|done]. by rewrite FP. }
  assert (returns_rego input (reading (λ n, opa_process n false query input) ≫= read_local_process)) as HL.
  { intros w. unfold mbind, M_bind, reading. cbn. specialize (FP (w_tick w) false query input).
    destruct (opa_process _ _ _ _) as [code out]. unfold read_local_process.
    destruct (Z.eqb_spec code 0); [|done]. by rewrite FP. }
  assert (returns_rego input (reading (λ n, opa_rest n package query input) ≫= read_rest)) as HR.
  { intros w. unfold mbind, M_bind, reading. cbn. specialize (FR (w_tick w) package query input).
    destruct (opa_rest _ _ _ _) as [status body|]; [|done].
    destruct (decide (status = 200)) as [->|Hne].
    - rewrite FR by done. by destruct input.
    - unfold read_rest. repeat case_match; subst; done. }
  unfold evaluate_opa_policy. repeat case_match; done.
Qed.

Lemma get_truthy_write i v : get_truthy "allow_state_write" (admission_result i v) = allow_state_write i.
Proof. done. Qed.

Lemma get_truthy_reintegration i v :
  get_truthy "allow_reintegration" (admission_result i v) = allow_reintegration v.
Proof. done. Qed.

Definition decided (parent_ids : list string) (qm : dict bool) (i : integrity_input)
    (v : reintegration_input) : decision :=
  if negb (allow_state_write i) then refusal parent_ids qm
  else if negb (allow_reintegration v) then SeparationFailed
  else Admit.

Lemma ask_policies_rules parent_ids qm i v w o w' :
  faithful_engine → ask_policies parent_ids qm i v w = (o, w') →
  w_db w' = w_db w ∧
  match o with Ret d => d = decided parent_ids qm i v | Raise _ => True | Hang => False end.
Proof.
  intros HF. unfold ask_policies, catch, mbind, M_bind, mret, M_ret.
  match goal with |- context [evaluate_opa_policy ?p ?q (Combined i v) w] =>
    destruct (evaluate_opa_policy_rego p q (Combined i v) HF w) as [Hdb Hr];
    destruct (evaluate_opa_policy p q (Combined i v) w) as [[j|e|] w1] end; cbn [fst snd] in Hdb, Hr.
  - subst j. cbn [rego_value]. rewrite get_truthy_write, get_truthy_reintegration, <-Hdb. unfold decided.
    destruct (allow_state_write i), (allow_reintegration v); intros; by simplify_eq/=.
  - rewrite <-Hdb. clear Hdb Hr. destruct e; [intros; by simplify_eq/=| |intros; by simplify_eq/=..]. cbn.
    match goal with |- context [evaluate_opa_policy ?p ?q (Integrity i) w1] =>
      destruct (evaluate_opa_policy_rego p q (Integrity i) HF w1) as [Hdb Hr];
      destruct (evaluate_opa_policy p q (Integrity i) w1) as [[j|e|] w2] end; cbn [fst snd] in Hdb, Hr;
      [|intros; by simplify_eq/=..].
    subst j. cbn. rewrite <-Hdb. clear Hdb. unfold decided.
    destruct (allow_state_write i); cbn; [|intros; by simplify_eq/=].
    match goal with |- context [evaluate_opa_policy ?p ?q (Verification v) w2] =>
      destruct (evaluate_opa_policy_rego p q (Verification v) HF w2) as [Hdb Hr];
      destruct (evaluate_opa_policy p q (Verification v) w2) as [[j|e|] w3] end; cbn [fst snd] in Hdb, Hr;
      [|intros; by simplify_eq/=..].
    subst j. cbn. rewrite <-Hdb. destruct (allow_reintegration v); intros; by simplify_eq/=.
  - done.
Qed.

(** Whichever policies answer, the decision is that of the rules: the
    combined policy and the two-call fallback agree. *)
Lemma evaluate_admission_rules payload parent_ids em qm auth w o w' :
  faithful_engine →
  evaluate_admission payload parent_ids em qm auth w = (o, w') →
  w_db w' = w_db w ∧
  match o with
  | Ret d => d = rules_decision payload parent_ids em qm auth (clock (w_tick w))
  | Raise _ => True
  | Hang => False
  end.
Proof. intros HF E0. exact (ask_policies_rules _ _ _ _ _ _ _ HF E0). Qed.

Lemma flag_statuses_all parent_ids em qm pid :
  forallb ps_exists (statuses parent_ids em qm) = true → pid ∈ parent_ids → flag pid em = true.
Proof.
  rewrite forallb_forall. intros H Hin. apply (H (ParentStatus pid (flag pid em) (flag pid qm))).
  apply list_elem_of_In. unfold statuses. apply list_elem_of_fmap. eauto.
Qed.

Lemma flag_statuses_none parent_ids em qm pid :
  existsb ps_quarantined (statuses parent_ids em qm) = false → pid ∈ parent_ids → flag pid qm = false.
Proof.
  intros H Hin. destruct (flag pid qm) eqn:Hq; [|done].
  rewrite <-H. symmetry. apply existsb_exists. exists (ParentStatus pid (flag pid em) (flag pid qm)).
  split; [|done]. apply list_elem_of_In. unfold statuses. apply list_elem_of_fmap. eauto.
Qed.

(** What an admission guarantees. *)
Lemma rules_admit payload parent_ids em qm auth t :
  rules_decision payload parent_ids em qm auth t = Admit →
  (∀ pid, pid ∈ parent_ids → flag pid em = true ∧ flag pid qm = false) ∧
  (∃ b, declared_evidence_boundary payload = Some b ∧ fixed_at_utc b ≠ "") ∧
  rego_holds (dict_get "justification" (content_of payload)) = false ∧
  payload_id payload ≠ "none" ∧
  json_is_true (dict_get "is_nhi" auth) = true ∧
  rego_gt (dict_get "expires_at_epoch" auth) (unix_timestamp t) = true ∧
  dict_get "scope" auth = Some (JStr "agent:state:reconstruct") ∧
  dict_get "verifier_execution_status" auth = Some (JStr "PASSED").
Proof.
  unfold rules_decision. destruct (allow_state_write _) eqn:Hw; cbn [negb];
    [|unfold refusal; by destruct (tainted_of _ _)].
  destruct (allow_reintegration _) eqn:Hr; cbn [negb]; [|done]. intros _.
  unfold allow_state_write, declared_dependencies_resolved, any_parent_quarantined in Hw. cbn in Hw.
  rewrite !andb_true_iff, negb_true_iff in Hw. destruct Hw as [[He Hq] Hb].
  unfold allow_reintegration, has_evaluative_planner_output, fresh_identity_valid, ephemeral_identity_valid in Hr.
  cbn [justification new_candidate_node_id target_replaced_node_id auth_context request_timestamp_epoch
       reintegration_input_of] in Hr.
  rewrite !andb_true_iff, !negb_true_iff, bool_decide_eq_false in Hr.
  destruct Hr as [[[[Hj Hf] _] [[Hn Hx] Hs]] Hp].
  apply json_is_str_true in Hs.
  split_and!; try done.
  - intros pid Hpid. split; [by eapply flag_statuses_all|by eapply flag_statuses_none].
  - destruct (declared_evidence_boundary payload) as [b|]; [|done].
    rewrite negb_true_iff, bool_decide_eq_false in Hb. eauto.
  - apply json_is_str_true in Hp. cbn in Hp.
    destruct (dict_get "verifier_execution_status" auth); simplify_eq/=; congruence.
Qed.
End soundness.
