(* ===== verification/Wasm.v ===== *)
(** * The WebAssembly policy engine ([wasm_engine.py])

    [OpaWasmEngine] drives a policy that OPA compiled to WebAssembly: it copies
    the input's JSON text into the module's memory, calls the module's exports
    one after the other, and reads the result's JSON text back.

    The module itself is compiled from the policies by OPA and is a parameter:
    [Exports] gives its memory and exported functions as Python sees them, and
    [OpaAbi] states what OPA's documentation says of each of them.  [program] is
    the policy that was compiled. *)
From Stdlib Require Import Ascii.
From S2P Require Import Prelude Dict Types Encoding Timeparse Json Interface World Policy.
Local Open Scope Z_scope.

(** ** UTF-8, for code points below 256 *)
Definition utf8_char (c : ascii) : list Z :=
  let z := ascii_z c in if z <? 128 then [z] else [192 + z / 64; 128 + z mod 64].

(** [text.encode("utf-8")] *)
Definition utf8_encode (s : string) : list Z := chars s ≫= utf8_char.

(** [mem.decode("utf-8")]; [None] when the bytes are not UTF-8 or are a
    character outside the model's strings. *)
Fixpoint utf8_decode (l : list Z) : option (list ascii) :=
  match l with
  | [] => Some []
  | b :: l =>
    if (0 <=? b) && (b <? 128) then cons (z_ascii b) <$> utf8_decode l
    else match l with
         | b' :: l =>
           if ((b =? 194) || (b =? 195)) && (128 <=? b') && (b' <? 192)
           then cons (z_ascii (64 * (b - 192) + (b' - 128))) <$> utf8_decode l else None
         | [] => None
         end
  end.

Lemma utf8_decode_char c l : utf8_decode (utf8_char c ++ l) = cons c <$> utf8_decode l.
Proof. destruct c as [[] [] [] [] [] [] [] []]; reflexivity. Qed.

Lemma utf8_decode_encode s : utf8_decode (utf8_encode s) = Some (chars s).
Proof.
  unfold utf8_encode. induction (chars s) as [|c l IH]; [done|]. rewrite bind_cons, utf8_decode_char. by rewrite IH.
Qed.

(** ** Linear memory *)

(** [ctypes.memmove(ptr + addr, bs, len(bs))] inside the memory *)
Definition poke (addr : Z) (bs mem : list Z) : list Z :=
  take (Z.to_nat addr) mem ++ bs ++ drop (Z.to_nat addr + length bs) mem.

Definition peek (addr len : Z) (mem : list Z) : list Z := take (Z.to_nat len) (drop (Z.to_nat addr) mem).

Fixpoint until_nul (l : list Z) : list Z :=
  match l with b :: l => if b =? 0 then [] else b :: until_nul l | [] => [] end.

(** [ctypes.string_at(ptr + addr)] *)
Definition string_at (addr : Z) (mem : list Z) : list Z := until_nul (drop (Z.to_nat addr) mem).

Lemma peek_poke addr bs mem :
  0 ≤ addr → addr + Z.of_nat (length bs) ≤ Z.of_nat (length mem) →
  peek addr (Z.of_nat (length bs)) (poke addr bs mem) = bs.
Proof.
  intros H0 Hlen. unfold peek, poke. rewrite drop_app_length' by (rewrite length_take; lia).
  by rewrite take_app_length' by lia.
Qed.

(** ** The exports of a compiled policy

    [None] is a trap: wasmtime raises, and whatever happened to the module stays. *)
Class Exports (S : Type) := {
  memory : S → list Z;
  set_memory : list Z → S → S;
  opa_malloc : Z → S → option Z * S;
  opa_json_parse : Z → Z → S → option Z * S;
  opa_json_dump : Z → S → option Z * S;
  opa_eval_ctx_new : S → option Z * S;
  opa_eval_ctx_set_input : Z → Z → S → option () * S;
  opa_eval_ctx_set_entrypoint : option (Z → Z → S → option () * S);
  eval : Z → S → option Z * S;
  opa_eval_ctx_get_result : Z → S → option Z * S;
  entrypoints_export : option (S → option Z * S) }.

(** ** Python's side *)
Inductive answer (A : Type) := Done (a : A) | RuntimeErr | OtherErr.
Arguments Done {A} _.
Arguments RuntimeErr {A}.
Arguments OtherErr {A}.

Definition W (S A : Type) : Type := S → answer A * S.

#[export] Instance W_ret {S} : MRet (W S) := λ A a s, (Done a, s).
#[export] Instance W_bind {S} : MBind (W S) := λ A B f m s,
  match m s with
  | (Done a, s') => f a s'
  | (RuntimeErr, s') => (RuntimeErr, s')
  | (OtherErr, s') => (OtherErr, s')
  end.

(** [s.replace(old, new)] for a non-empty [old] *)
Fixpoint replace_list (fuel : nat) (old new l : list ascii) : list ascii :=
  match fuel, l with
  | S fuel, c :: l' =>
    if bool_decide (take (length old) l = old) then new ++ replace_list fuel old new (drop (length old) l)
    else c :: replace_list fuel old new l'
  | _, _ => l
  end.

Definition replace (old new s : string) : string :=
  String.string_of_list_ascii (replace_list (String.length s) (chars old) (chars new) (chars s)).

Section engine.
Context {S : Type} `{Exports S}.

(** A call of an export. *)
Definition call_export {A} (f : S → option A * S) : W S A := λ s,
  match f s with (Some a, s) => (Done a, s) | (None, s) => (OtherErr, s) end.

Definition of_option {A} (o : option A) : W S A := λ s,
  match o with Some a => (Done a, s) | None => (OtherErr, s) end.

Definition read_memory : W S (list Z) := λ s, (Done (memory s), s).
Definition update_memory (f : list Z → list Z) : W S () := λ s, (Done (), set_memory (f (memory s)) s).

Definition throw_runtime {A} : W S A := λ s, (RuntimeErr, s).
Definition throw {A} : W S A := λ s, (OtherErr, s).

(* src: src/wasm_engine.py OpaWasmEngine._write_string *)
Definition write_string (text : string) : W S (Z * Z) :=
  let encoded := utf8_encode text in
  addr ← call_export (opa_malloc (Z.of_nat (length encoded)));
  _ ← update_memory (poke addr encoded);
  mret (addr, Z.of_nat (length encoded)).

(* src: src/wasm_engine.py OpaWasmEngine._read_string *)
Definition read_string (addr : Z) : W S string :=
  mem ← read_memory;
  l ← of_option (utf8_decode (string_at addr mem));
  mret (String.string_of_list_ascii l).

(** The entry points of the module, as its JSON document gives them. *)
(* src: src/wasm_engine.py 39-47 OpaWasmEngine.__init__ *)
Definition init_engine : W S json :=
  match entrypoints_export with
  | None => mret (JObj [])
  | Some f =>
    ep_addr ← call_export f;
    ep_dump_addr ← call_export (opa_json_dump ep_addr);
    ep_str ← read_string ep_dump_addr;
    if bool_decide (ep_str = "") then mret (JObj []) else of_option (loads ep_str)
  end.

(* src: src/wasm_engine.py 86-86 OpaWasmEngine.evaluate *)
Definition ep_key (entrypoint_name : string) : string := replace "." "/" (replace "data." "" entrypoint_name).

(** [self.entrypoints[ep_key]], handed to a function of integers *)
Definition entry_index (k : string) (entrypoints : json) : option Z :=
  match entrypoints with
  | JObj o => match dict_get k o with Some (JNum q _) => if bool_decide (Qden q = 1%positive) then Some (Qnum q) else None
              | _ => None end
  | _ => None
  end.

(* src: src/wasm_engine.py 83-93 OpaWasmEngine.evaluate *)
Definition select_entrypoint (entrypoints : json) (entrypoint_name : option string) (ctx : Z) : W S () :=
  match entrypoint_name, opa_eval_ctx_set_entrypoint with
  | Some name, Some set_entrypoint =>
    if bool_decide (name = "") then mret ()
    else
      match py_in (ep_key name) entrypoints with
      | None => throw
      | Some false => throw_runtime
      | Some true =>
        i ← of_option (entry_index (ep_key name) entrypoints);
        call_export (set_entrypoint ctx i)
      end
  | _, _ => mret ()
  end.

(* src: src/wasm_engine.py 102-107 OpaWasmEngine.evaluate *)
Definition as_result_sets (parsed : json) : list json :=
  match parsed with JArr l => l | j => [JObj [("result", j)]] end.

(* src: src/wasm_engine.py OpaWasmEngine.evaluate *)
Definition evaluate (entrypoints : json) (input_dict : dict json) (entrypoint_name : option string)
    : W S (list json) :=
  let input_str := dumps false (JObj input_dict) in
  al ← write_string input_str;
  parsed_addr ← call_export (opa_json_parse al.1 al.2);
  if parsed_addr =? 0 then throw
  else
    ctx ← call_export opa_eval_ctx_new;
    _ ← call_export (opa_eval_ctx_set_input ctx parsed_addr);
    _ ← select_entrypoint entrypoints entrypoint_name ctx;
    _ ← call_export (eval ctx);
    result_addr ← call_export (opa_eval_ctx_get_result ctx);
    dump_addr ← call_export (opa_json_dump result_addr);
    result_str ← read_string dump_addr;
    parsed ← of_option (loads result_str);
    mret (as_result_sets parsed).

(** What the gateway makes of the engine's answer: only a [RuntimeError] is
    turned into a policy error. *)
(* src: src/governor_service.py 1073-1076 evaluate_opa_policy *)
Definition wasm_reply_of (a : answer (list json)) : wasm_reply :=
  match a with Done l => WasmResults l | RuntimeErr => WasmRuntimeError | OtherErr => WasmException end.
End engine.

(** ** The cache of engines *)
Record engine_of (S : Type) := Engine { store : S; entry_table : json }.
Arguments Engine {S} _ _.
Arguments store {S} _.
Arguments entry_table {S} _.

(** A bundle is loaded once; an engine whose evaluation failed stays in the
    cache in the state in which the failure left it. *)
(* src: src/governor_service.py 1068-1076 evaluate_opa_policy *)
Definition evaluate_cached {S} `{Exports S} (instantiate : string → option S) (bundle : string)
    (input_data : dict json) (q : string) (cache : dict (engine_of S)) : answer (list json) * dict (engine_of S) :=
  let found :=
    match dict_get bundle cache with
    | Some e => Some e
    | None =>
      s ← instantiate bundle;
      match init_engine s with (Done table, s) => Some (Engine s table) | _ => None end
    end in
  match found with
  | None => (OtherErr, cache)
  | Some e =>
    let '(a, s) := evaluate (entry_table e) input_data (Some q) (store e) in
    (a, dict_set bundle (Engine s (entry_table e)) cache)
  end.

(** The names the gateway uses are the entry points the policies are built with. *)
Example ep_keys :
  map ep_key ["data.gasc.governor.admission.result"; "data.gasc.governor.integrity.allow_state_write";
              "data.gasc.governor.verification.allow_reintegration"]
  = ["gasc/governor/admission/result"; "gasc/governor/integrity/allow_state_write";
     "gasc/governor/verification/allow_reintegration"].
Proof. vm_compute. reflexivity. Qed.

(** [replace] takes every occurrence of [data.] out, not only the first. *)
Example ep_key_metadata : ep_key "data.metadata.allow" = "metaallow".
Proof. vm_compute. reflexivity. Qed.

(** ** What OPA documents of its exports

    [program] maps an entry point and an input to the policy's value, which may
    be undefined.  [good] stores are those the exports leave behind. *)
Definition result_sets (v : option json) : list json :=
  match v with Some v => [JObj [("result", v)]] | None => [] end.

Class OpaAbi (S : Type) `{Exports S} (program : Z → json → option json) (table : dict json) := {
  good : S → Prop;
  value_at : S → Z → json → Prop;
  input_is : S → Z → json → Prop;
  entry_is : S → Z → Z → Prop;
  result_is : S → Z → json → Prop;
  set_entrypoint : Z → Z → S → option () * S;
  abi_set_entrypoint_export : opa_eval_ctx_set_entrypoint = Some set_entrypoint;
  entrypoints : S → option Z * S;
  abi_entrypoints_export : entrypoints_export = Some entrypoints;
  abi_memory mem s : memory (set_memory mem s) = mem;
  abi_malloc n s : good s → 0 ≤ n → ∃ a s', opa_malloc n s = (Some a, s') ∧
    0 ≤ a ∧ a + n ≤ Z.of_nat (length (memory s')) ∧
    ∀ bs, Z.of_nat (length bs) = n → good (set_memory (poke a bs (memory s')) s');
  abi_parse a n s t j : good s → peek a n (memory s) = utf8_encode t → loads t = Some j → json_ok j →
    ∃ v s', opa_json_parse a n s = (Some v, s') ∧ good s' ∧ v ≠ 0 ∧ value_at s' v j;
  abi_ctx_new s v j : good s → value_at s v j →
    ∃ c s', opa_eval_ctx_new s = (Some c, s') ∧ good s' ∧ value_at s' v j ∧ entry_is s' c 0;
  abi_set_input s c e v j : good s → value_at s v j → entry_is s c e →
    ∃ s', opa_eval_ctx_set_input c v s = (Some tt, s') ∧ good s' ∧ input_is s' c j ∧ entry_is s' c e;
  abi_set_entrypoint s c j e e' : good s → input_is s c j → entry_is s c e →
    ∃ s', set_entrypoint c e' s = (Some tt, s') ∧ good s' ∧ input_is s' c j ∧ entry_is s' c e';
  abi_eval s c j e : good s → input_is s c j → entry_is s c e →
    ∃ x s', eval c s = (Some x, s') ∧ good s' ∧ result_is s' c (JArr (result_sets (program e j)));
  abi_get_result s c j : good s → result_is s c j →
    ∃ r s', opa_eval_ctx_get_result c s = (Some r, s') ∧ good s' ∧ value_at s' r j;
  abi_dump s v j : good s → value_at s v j → ∃ a s' t, opa_json_dump v s = (Some a, s') ∧ good s' ∧
    string_at a (memory s') = utf8_encode t ∧ loads t = Some j;
  abi_entrypoints s : good s → ∃ a s', entrypoints s = (Some a, s') ∧ good s' ∧ value_at s' a (JObj table) }.

Section abi.
Context {S : Type} `{OpaAbi S program table}.
Implicit Types (s : S) (cache : dict (engine_of S)).

Lemma read_string_at a s t : string_at a (memory s) = utf8_encode t → read_string a s = (Done t, s).
Proof.
  intros Ht. unfold read_string, read_memory, of_option, mbind, W_bind, mret, W_ret.
  rewrite Ht, utf8_decode_encode. by rewrite String.string_of_list_ascii_of_string.
Qed.

Lemma write_string_good text s : good s →
  ∃ a n s', write_string text s = (Done (a, n), s') ∧ good s' ∧ peek a n (memory s') = utf8_encode text.
Proof.
  intros Hs. unfold write_string, call_export, update_memory, mbind, W_bind, mret, W_ret.
  destruct (abi_malloc (Z.of_nat (length (utf8_encode text))) s Hs ltac:(lia)) as (a & s1 & -> & Ha & Hlen & Hg).
  eexists _, _, _. split; [done|]. split; [by apply Hg|]. rewrite abi_memory. by apply peek_poke.
Qed.

Lemma entry_index_in k i o : entry_index k (JObj o) = Some i → py_in k (JObj o) = Some true.
Proof. cbn. unfold dict_mem. by destruct (dict_get k o). Qed.

(** One call after the other. *)
Lemma W_bind_done {A B} (m : W S A) (f : A → W S B) s a s' : m s = (Done a, s') → (m ≫= f) s = f a s'.
Proof. intros E. unfold mbind, W_bind. by rewrite E. Qed.

Lemma call_export_done {A} (f : S → option A * S) s a s' : f s = (Some a, s') → call_export f s = (Done a, s').
Proof. intros E. unfold call_export. by rewrite E. Qed.

Ltac step E := erewrite W_bind_done by (first [exact E | by apply call_export_done, E]).

Lemma select_entrypoint_good name i s c j :
  name ≠ "" → entry_index (ep_key name) (JObj table) = Some i → good s → input_is s c j → entry_is s c 0 →
  ∃ s', select_entrypoint (JObj table) (Some name) c s = (Done (), s') ∧ good s' ∧ input_is s' c j ∧ entry_is s' c i.
Proof.
  intros Hne Hi Hs Hj He. unfold select_entrypoint. rewrite abi_set_entrypoint_export, bool_decide_eq_false_2 by done.
  rewrite (entry_index_in _ _ _ Hi), Hi.
  destruct (abi_set_entrypoint s c j 0 i Hs Hj He) as (s' & E & ?). exists s'. split; [|done].
  erewrite W_bind_done by done. by apply call_export_done.
Qed.

(** The value of the policy comes back, whatever the module has evaluated before. *)
Lemma evaluate_good name i (input : dict json) s :
  name ≠ "" → entry_index (ep_key name) (JObj table) = Some i → json_ok (JObj input) → good s →
  ∃ s', evaluate (JObj table) input (Some name) s = (Done (result_sets (program i (JObj input))), s') ∧ good s'.
Proof.
  intros Hne Hi Hok Hs. unfold evaluate.
  destruct (write_string_good (dumps false (JObj input)) s Hs) as (a & n & s1 & E1 & G1 & Hp). step E1. cbn [fst snd].
  destruct (abi_parse a n s1 _ _ G1 Hp (loads_dumps _ Hok) Hok) as (v & s2 & E2 & G2 & Hv & Hval). step E2.
  rewrite (proj2 (Z.eqb_neq v 0) Hv).
  destruct (abi_ctx_new s2 v _ G2 Hval) as (c & s3 & E3 & G3 & Hval3 & He3). step E3.
  destruct (abi_set_input s3 c 0 v _ G3 Hval3 He3) as (s4 & E4 & G4 & Hin & He4). step E4.
  destruct (select_entrypoint_good name i s4 c _ Hne Hi G4 Hin He4) as (s5 & E5 & G5 & Hin5 & He5). step E5.
  destruct (abi_eval s5 c _ i G5 Hin5 He5) as (x & s6 & E6 & G6 & Hr). step E6.
  destruct (abi_get_result s6 c _ G6 Hr) as (r & s7 & E7 & G7 & Hval7). step E7.
  destruct (abi_dump s7 r _ G7 Hval7) as (d & s8 & t & E8 & H8 & Ht & Hl). step E8.
  erewrite W_bind_done by (by apply read_string_at, Ht). exists s8. split; [|done].
  unfold of_option, mbind, W_bind. by rewrite Hl.
Qed.

Lemma init_engine_good s : good s → loads "" = None → ∃ s', init_engine s = (Done (JObj table), s') ∧ good s'.
Proof.
  intros Hs Hempty. unfold init_engine. rewrite abi_entrypoints_export.
  destruct (abi_entrypoints s Hs) as (a & s1 & E1 & G1 & Hv). step E1.
  destruct (abi_dump s1 a _ G1 Hv) as (d & s2 & t & E2 & G2 & Ht & Hl). step E2.
  erewrite W_bind_done by (by apply read_string_at, Ht).
  rewrite bool_decide_eq_false_2 by congruence. exists s2. split; [|done]. unfold of_option. by rewrite Hl.
Qed.
End abi.

(** Queries to one bundle, one after the other (the engine lock is held for each). *)
Fixpoint evaluate_all {S} `{Exports S} (instantiate : string → option S) (bundle : string)
    (qs : list (dict json * string)) (cache : dict (engine_of S)) : list (answer (list json)) :=
  match qs with
  | [] => []
  | (input_data, q) :: qs =>
    let '(a, cache) := evaluate_cached instantiate bundle input_data q cache in
    a :: evaluate_all instantiate bundle qs cache
  end.

Definition known_entry (table : dict json) (q : string) : Prop :=
  q ≠ "" ∧ is_Some (entry_index (ep_key q) (JObj table)).

Section cached.
Context {S : Type} `{OpaAbi S program table} (instantiate : string → option S) (bundle : string).

Definition policy_value (q : string) (input_data : dict json) : list json :=
  result_sets (i ← entry_index (ep_key q) (JObj table); program i (JObj input_data)).

(** The bundle's engine, when there is one, is a good one. *)
Definition cache_good (cache : dict (engine_of S)) : Prop :=
  match dict_get bundle cache with
  | Some e => good (store e) ∧ entry_table e = JObj table
  | None => True
  end.

Lemma evaluate_cached_good input_data q cache :
  (∃ s, instantiate bundle = Some s ∧ good s) → cache_good cache →
  known_entry table q → json_ok (JObj input_data) →
  ∃ cache', evaluate_cached instantiate bundle input_data q cache = (Done (policy_value q input_data), cache') ∧
    cache_good cache'.
Proof.
  intros (s0 & Hi & Hs0) Hc (Hne & i & He) Hok. unfold evaluate_cached, policy_value. rewrite He. cbn [mbind option_bind].
  assert (∃ s, match dict_get bundle cache with
               | Some e => Some e
               | None => s ← instantiate bundle;
                 match init_engine s with (Done table, s) => Some (Engine s table) | _ => None end
               end = Some (Engine s (JObj table)) ∧ good s) as (s & -> & Hs).
  { unfold cache_good in Hc. destruct (dict_get bundle cache) as [[s t]|].
    - destruct Hc as [Hs Ht]. cbn in *. subst t. by exists s.
    - rewrite Hi. cbn [mbind option_bind]. destruct (init_engine_good s0 Hs0 eq_refl) as (s & -> & Hs). by exists s. }
  cbn [entry_table store]. destruct (evaluate_good q i input_data s Hne He Hok Hs) as (s' & -> & Hs').
  eexists. split; [done|]. unfold cache_good. by rewrite dict_get_set_eq.
Qed.


(** What [faithful_engine] asks of the WASM path: when the compiled policy has
    the value of the rules on the input, so has the gateway's reply. *)
Lemma engine_reply_rego (layout : policy_input → dict json) q i input s :
  q ≠ "" → entry_index (ep_key q) (JObj table) = Some i → json_ok (JObj (layout input)) → good s →
  program i (JObj (layout input)) = Some (rego_value input) →
  wasm_reply_of (evaluate (JObj table) (layout input) (Some q) s).1 = WasmResults [JObj [("result", rego_value input)]].
Proof.
  intros Hq Hi Hok Hs Hp. destruct (evaluate_good q i (layout input) s Hq Hi Hok Hs) as (s' & -> & _).
  cbn [fst wasm_reply_of]. by rewrite Hp.
Qed.
End cached.

(** ** A module to try it on

    One policy, which holds exactly on the empty input. *)
Record toy := Toy {
  toy_memory : list Z; toy_values : list json; toy_input : json; toy_entry : Z; toy_result : Z }.

#[export] Instance toy_rebuild : Rebuild toy := λ s,
  Toy (toy_memory s) (toy_values s) (toy_input s) (toy_entry s) (toy_result s).

Definition new_value (j : json) (s : toy) : Z * toy :=
  (1 + Z.of_nat (length (toy_values s)), s <| toy_values ::= λ l, l ++ [j] |>).

Definition toy_value (s : toy) (v : Z) : option json := toy_values s !! Z.to_nat (v - 1).

Definition toy_program (e : Z) (j : json) : option json :=
  if e =? 1 then Some (JBool (match j with JObj [] => true | _ => false end)) else None.

Definition toy_table : dict json := [("p/allow", JNum 1%Q "1")].

Definition toy_set_entrypoint (c e : Z) (s : toy) : option () * toy := (Some tt, s <| toy_entry := e |>).
Definition toy_entrypoints (s : toy) : option Z * toy :=
  let '(v, s) := new_value (JObj toy_table) s in (Some v, s).

#[export] Instance toy_exports : Exports toy := {
  memory := toy_memory;
  set_memory mem s := s <| toy_memory := mem |>;
  opa_malloc n s := (Some (Z.of_nat (length (toy_memory s))), s <| toy_memory ::= λ m, m ++ replicate (Z.to_nat n) 0 |>);
  opa_json_parse a n s :=
    match (l ← utf8_decode (peek a n (toy_memory s)); loads (String.string_of_list_ascii l)) with
    | Some j => let '(v, s) := new_value j s in (Some v, s)
    | None => (Some 0, s)
    end;
  opa_json_dump v s :=
    match toy_value s v with
    | Some j => (Some (Z.of_nat (length (toy_memory s))),
                 s <| toy_memory ::= λ m, m ++ utf8_encode (dumps false j) ++ [0] |>)
    | None => (None, s)
    end;
  opa_eval_ctx_new s := (Some 1, s <| toy_entry := 0 |>);
  opa_eval_ctx_set_input c v s :=
    match toy_value s v with Some j => (Some tt, s <| toy_input := j |>) | None => (None, s) end;
  opa_eval_ctx_set_entrypoint := Some toy_set_entrypoint;
  eval c s :=
    let '(r, s) := new_value (JArr (result_sets (toy_program (toy_entry s) (toy_input s)))) s in
    (Some 0, s <| toy_result := r |>);
  opa_eval_ctx_get_result c s := (Some (toy_result s), s);
  entrypoints_export := Some toy_entrypoints }.

Lemma until_nul_app l r : Forall (λ b, b ≠ 0) l → until_nul (l ++ 0 :: r) = l.
Proof. induction 1 as [|b l Hb _ IH]; [done|]. cbn. rewrite IH. by destruct (Z.eqb_spec b 0). Qed.

Lemma utf8_no_nul t : no_nul (chars t) → Forall (λ b, b ≠ 0) (utf8_encode t).
Proof.
  intros Ht. apply Forall_bind. eapply Forall_impl; [exact Ht|]. intros c Hc.
  destruct c as [[] [] [] [] [] [] [] []]; first [by destruct Hc|by repeat constructor].
Qed.

Lemma string_at_end mem t r :
  no_nul (chars t) → string_at (Z.of_nat (length mem)) (mem ++ utf8_encode t ++ 0 :: r) = utf8_encode t.
Proof.
  intros Ht. unfold string_at. rewrite Nat2Z.id, drop_app_length. by apply until_nul_app, utf8_no_nul.
Qed.

Lemma toy_value_new j s : toy_value (new_value j s).2 (new_value j s).1 = Some j.
Proof.
  unfold toy_value, new_value. cbn [fst snd field_update rebuild toy_values].
  replace (Z.to_nat (1 + Z.of_nat (length (toy_values s)) - 1)) with (length (toy_values s)) by lia.
  by rewrite lookup_app_r, Nat.sub_diag.
Qed.

Lemma toy_result_ok e j : json_ok (JArr (result_sets (toy_program e j))).
Proof. unfold toy_program. case_match; cbn; [|done]. repeat split; by repeat constructor; set_solver. Qed.

Definition toy_good (s : toy) : Prop := Forall json_ok (toy_values s).
Definition toy_holds (s : toy) (v : Z) (j : json) : Prop := v ≠ 0 ∧ toy_value s v = Some j.

Lemma new_value_good j s : json_ok j → toy_good s → toy_good (new_value j s).2.
Proof. intros Hj Hs. apply Forall_app_2; [done|]. by repeat constructor. Qed.

Lemma new_value_holds j s : toy_holds (new_value j s).2 (new_value j s).1 j.
Proof. split; [cbn; lia|apply toy_value_new]. Qed.

#[export] Instance toy_abi : OpaAbi toy toy_program toy_table.
Proof.
  refine {|
    good := toy_good; value_at := toy_holds; input_is s c j := toy_input s = j; entry_is s c e := toy_entry s = e;
    result_is s c j := toy_holds s (toy_result s) j;
    set_entrypoint := toy_set_entrypoint; abi_set_entrypoint_export := eq_refl;
    entrypoints := toy_entrypoints; abi_entrypoints_export := eq_refl |}; [done|..].
  - intros n s Hs Hn. eexists _, _. split; [done|]. cbn. rewrite length_app, length_replicate. split; [lia|].
    split; [lia|]. intros bs _. exact Hs.
  - intros a n s t j Hs Hp Hl Hj. eexists _, _. cbn [opa_json_parse toy_exports memory] in *.
    rewrite Hp, utf8_decode_encode. cbn [mbind option_bind]. rewrite String.string_of_list_ascii_of_string, Hl.
    split; [done|]. split; [by apply (new_value_good j s)|]. split; [lia|apply (new_value_holds j s)].
  - intros s v j Hs Hv. by eexists _, _.
  - intros s c e v j Hs [Hv Hj] He. cbn. rewrite Hj. by eexists.
  - intros s c j e e' Hs Hj He. by eexists.
  - intros s c j e Hs Hj He. eexists _, _. split; [done|]. cbn [toy_exports]. rewrite Hj, He.
    split; [apply (new_value_good _ s (toy_result_ok e j) Hs)|apply (new_value_holds _ s)].
  - intros s c j Hs Hr. by eexists _, _.
  - intros s v j Hs [_ Hv]. cbn. rewrite Hv. eexists _, _, (dumps false j). split; [done|]. split; [exact Hs|].
    assert (json_ok j) as Hj by (eapply Forall_lookup_1; [exact Hs|exact Hv]).
    split; [|by apply loads_dumps]. by apply string_at_end, dumps_no_nul.
  - intros s Hs. eexists _, _. split; [done|]. split; [|apply (new_value_holds _ s)].
    apply (new_value_good _ s); [|done]. split; [apply NoDup_singleton|]. repeat split. by left.
Defined.

