(* ===== verification/Linker.v ===== *)
(** * Loading a policy module ([OpaWasmEngine.__init__])

    Before the entry points are read ([Wasm.init_engine]) the engine offers the
    module what OPA's ABI lets it import, instantiates it and looks its exports
    up.  The module's own interface is a parameter. *)
From S2P Require Import Prelude.

(** What a module imports or is offered: a function over 32-bit integers with
    its numbers of parameters and results, or a memory with its limits in pages
    of 64 KiB. *)
Inductive extern :=
  | WFunc (params results : nat)
  | WMemory (least : nat) (most : option nat).

Record wasm_module := WasmModule {
  imports : list (string * string * extern);
  exports : list string }.

(* src: src/wasm_engine.py 15-25 OpaWasmEngine.__init__ *)
Definition linker : list (string * string * extern) := [
  ("env", "opa_abort", WFunc 1 0);
  ("env", "opa_println", WFunc 1 0);
  ("env", "opa_builtin0", WFunc 2 1);
  ("env", "opa_builtin1", WFunc 3 1);
  ("env", "opa_builtin2", WFunc 4 1);
  ("env", "opa_builtin3", WFunc 5 1);
  ("env", "opa_builtin4", WFunc 6 1);
  ("env", "memory", WMemory 2 None)].

(** Import matching: functions have the same type; an offered memory is at least
    as large as asked for, and bounded when a bound is asked for. *)
Definition extern_matches (offered asked : extern) : bool :=
  match offered, asked with
  | WFunc p r, WFunc p' r' => (p =? p') && (r =? r')
  | WMemory l m, WMemory l' m' =>
    (l' <=? l) && match m', m with
                  | None, _ => true
                  | Some b', Some b => b <=? b'
                  | Some _, None => false
                  end
  | _, _ => false
  end.

(* src: src/wasm_engine.py 27-27 OpaWasmEngine.__init__ *)
Definition instantiates (m : wasm_module) : bool :=
  forallb (λ i, existsb (λ o, bool_decide (o.1 = i.1) && extern_matches o.2 i.2) linker) (imports m).

(** The exports that are subscripted; two more are optional. *)
(* src: src/wasm_engine.py 29-37 OpaWasmEngine.__init__ *)
Definition required_exports : list string := [
  "opa_malloc"; "opa_json_parse"; "opa_json_dump"; "opa_eval_ctx_new"; "opa_eval_ctx_set_input"; "eval";
  "opa_eval_ctx_get_result"].

(** Whether the constructor gets as far as the entry points. *)
(* src: src/wasm_engine.py 5-37 OpaWasmEngine.__init__ *)
Definition loads_module (m : wasm_module) : bool :=
  instantiates m && forallb (λ e, bool_decide (e ∈ exports m)) required_exports.

(* src: src/wasm_engine.py OpaWasmEngine._opa_abort *)
Definition opa_abort (addr : Z) : option () := None.

(* src: src/wasm_engine.py OpaWasmEngine._opa_println *)
Definition opa_println (addr : Z) : option () := Some ().

(** Built-in functions that OPA does not compile are all answered with the
    address 0. *)
(* src: src/wasm_engine.py 17-21 OpaWasmEngine.__init__ *)
Definition opa_builtin (args : list Z) : option Z := Some 0%Z.

(** What OPA documents for a compiled policy: the imports above, with the memory
    that its data needs. *)
Definition opa_imports (pages : nat) : list (string * string * extern) := [
  ("env", "memory", WMemory pages None);
  ("env", "opa_abort", WFunc 1 0); ("env", "opa_println", WFunc 1 0); ("env", "opa_builtin0", WFunc 2 1);
  ("env", "opa_builtin1", WFunc 3 1); ("env", "opa_builtin2", WFunc 4 1); ("env", "opa_builtin3", WFunc 5 1);
  ("env", "opa_builtin4", WFunc 6 1)].

(** A policy of OPA's ABI is loaded exactly when it asks for at most two pages
    of memory. *)
Lemma opa_policy_loads pages exports' :
  required_exports ⊆ exports' → loads_module (WasmModule (opa_imports pages) exports') = (pages <=? 2).
Proof.
  intros He. unfold loads_module.
  assert (forallb (λ e, bool_decide (e ∈ exports')) required_exports = true) as Hx.
  { apply forallb_forall. intros e Hin. apply bool_decide_eq_true_2, He, list_elem_of_In, Hin. }
  cbn [exports]. rewrite Hx, andb_true_r. unfold instantiates. cbn [imports]. vm_compute. by destruct pages as [|[|[]]].
Qed.
