(* ===== verification/Admission.v ===== *)
(** * Admission: [/submit-candidate] and the recurrence hook

    The handler checks the request, then decides and writes inside the shared
    admission lock and one transaction.  The JSON body arrives parsed and
    checked against the schema ([body] says how that ended).  A [return] inside
    the transaction keeps its writes, a raised [HTTPException] undoes them. *)
From S2P Require Import Prelude Dict Types Encoding Datetime Graph Lineage Interface World Crypto Policy.

(** ** [process_recurrence] (R6) *)
Section recurrence.
Context `{E : Env} {St : Type} `{Backend St}.

(* src: src/r6_utils.py process_recurrence *)
Definition process_recurrence (node_id recurrence_class signal_source : string) (evidence : dict json)
    : M St () :=
  w_r ← call (compute_blast_radius node_id);
  event_id ← uuid4;
  t ← now;
  let event := RecurrenceEvent event_id node_id recurrence_class (iso_z t) signal_source evidence false None in
  if (MAX_WITHDRAWAL_AMPLIFICATION cfg <? Z.of_nat (length w_r))%Z then
    let event := event <| escalated := true |>
                       <| escalation_reason := Some "MAX_WITHDRAWAL_AMPLIFICATION_EXCEEDED" |> in
    t ← now; update (apply_withdrawal_transaction event [] t)
  else
    t ← now; update (apply_withdrawal_transaction event w_r t).

(** The hook of [/submit-candidate], [/designate] and [/detector]: every
    reintegrated node whose trust still runs and that is hit. *)
(* src: src/governor_service.py 1371-1375 submit_candidate *)
Definition recurrence_hook (c_p : list string) (recurrence_class : string) : M St () :=
  t ← now;
  active_horizons ← query (get_active_horizon_set t);
  for_each c_p (λ n, when (dict_mem n active_horizons)
    (process_recurrence n recurrence_class "internal_hook" [])).
End recurrence.

(** ** [/submit-candidate] *)
Inductive body := NotJson | SchemaInvalid (names_signature_algorithm : bool) | Parsed (payload : node).

Inductive response :=
  | NullBody
  | Success (shadow idempotent : bool)
  | TaintedParentDetail (event : quarantine_event)
  | Detail (reason : string).

Record reply (A : Type) := Reply { status_code : Z; content : A }.
Arguments Reply {A} _ _.
Arguments status_code {A} _.
Arguments content {A} _.

Section submit.
Context `{E : Env} {St : Type} `{Backend St} `{Transactional St}.

Definition subject_or_unknown (claims : dict json) : string :=
  match dict_get "sub" claims with Some (JStr s) => s | _ => "unknown" end.

(** A compaction gets its interval gap, and must not cover
    a quarantined node. *)
(* src: src/governor_service.py 1327-1344 submit_candidate *)
Definition check_covers (payload : node) : M St node :=
  if bool_decide (node_type payload = Some "COMPACTION") then
    gap ← query (covers_gap (covers payload));
    let payload := payload <| covers_interval_gap := Some gap |> in
    match covers payload with
    | [] => mret payload
    | _ =>
      covers_quarantined ← query (are_quarantined (covers payload));
      match List.filter (λ cid, flag cid covers_quarantined) (covers payload) with
      | [] => mret payload
      | _ => http 403 "TAINTED_COVERS"
      end
    end
  else mret payload.

(* src: src/governor_service.py 1346-1352 submit_candidate *)
Definition decide_admission (payload : node) (exists_map quarantined_map : dict bool) (auth : dict json)
    : M St decision :=
  catch (evaluate_admission payload (parent_ids payload) exists_map quarantined_map auth)
    (λ e, match e with
          | PolicyEvaluationError => http 503 "Policy engine unavailable"
          | e => raise e
          end).

(** The rejection is counted, and the caller told of a replacement if there is
    one; a handler's later assignment into the event it got is an alias. *)
(* src: src/governor_service.py 1390-1415 submit_candidate *)
Definition offer_replacement (payload : node) (poisoned_root : string) (tainted_event : quarantine_event)
    : M St quarantine_event :=
  t ← now;
  try_update (record_tainted_rejection (payload_id payload) poisoned_root (iso_z t)
            (default "" (identity_of payload))) ≫= λ _,
  replacement ← try_query (find_continuity_replacement poisoned_root);
  match replacement with
  | Some r =>
    let tainted_event := tainted_event <| continuity_available := Some true |>
      <| replacement_node_id := Some (rep_node_id r) |> <| replacement_for := Some (rep_for r) |>
      <| replacement_mechanism := rep_mechanism r |> in
    update (alias_quarantine_event tainted_event) ≫= λ _,
    update (record_tainted_offer (payload_id payload) (rep_node_id r)
              (if decide (rep_for r = poisoned_root) then "direct" else "ancestor")) ≫= λ _,
    mret tainted_event
  | None =>
    let tainted_event := tainted_event <| continuity_available := Some false |> in
    update (alias_quarantine_event tainted_event) ≫= λ _,
    mret tainted_event
  end.

(** A rejected write with a tainted parent: recorded, quarantined, counted. *)
(* src: src/governor_service.py 1361-1415 submit_candidate *)
Definition quarantine_attempt (payload : node) (poisoned_root : string) : M St quarantine_event :=
  call (commit_node payload) ≫= λ _,
  c_p ← call (compute_blast_radius poisoned_root);
  recurrence_hook c_p "PROHIBITED_PATH" ≫= λ _,
  let new_quarantined := [payload_id payload] in
  digest ← query (compute_quarantine_digest (c_p ++ new_quarantined));
  event_id ← uuid4;
  t ← now;
  tainted_event ← call (apply_quarantine_transaction
    (QuarantineEvent event_id (iso_z t) poisoned_root c_p digest None None None None None None None None)
    new_quarantined);
  offer_replacement payload poisoned_root tainted_event.

(** REQ-001: a declared parent hash must match the stored one. *)
(* src: src/governor_service.py 1418-1428 submit_candidate *)
Definition hashes_match (payload : node) (content_hash_map : dict string) : bool :=
  forallb (λ p,
    let declared := default "" (parent_content_hash p) in
    let stored := default "" (dict_get (parent_node_id p) content_hash_map) in
    bool_decide (stored = "") || bool_decide (declared = stored))
    (parent_dependency_commitments payload).

Definition bundle_or_none : string :=
  match OPA_POLICY_BUNDLE cfg with Some b => if decide (b = "") then "none" else b | None => "none" end.

(* src: src/governor_service.py 1448-1457 submit_candidate *)
Definition audit (decision_id : string) (payload : node) (blocked : bool) (reason : string)
    (exists_map quarantined_map : dict bool) (writer_identity : string) : M St () :=
  t ← now;
  try_update (record_shadow_decision (ShadowDecision decision_id (payload_id payload) (iso_z t) blocked reason
    ((λ pid, (pid, flag pid exists_map, flag pid quarantined_map)) <$> parent_ids payload)
    bundle_or_none writer_identity)).

(** The body of the transaction.  In shadow mode the write is committed and
    the handler ends without a response of its own: the code that records
    the decision and builds the answer belongs to the other branch. *)
(* src: src/governor_service.py 1310-1489 submit_candidate *)
Definition admit_payload (payload : node) (auth : dict json) (decision_id writer_identity : string) : M St (reply response) :=
  id_quarantined ← query (are_quarantined [payload_id payload]);
  if flag (payload_id payload) id_quarantined then http 409 "payload_id is quarantined" else
  exists_map ← query (nodes_exist (parent_ids payload));
  quarantined_map ← query (are_quarantined (parent_ids payload));
  content_hash_map ← query (get_node_content_hashes (parent_ids payload));
  payload ← check_covers payload;
  decision ← decide_admission payload exists_map quarantined_map auth;
  if bool_decide (ENFORCEMENT_MODE cfg = "shadow") then
    call (commit_node payload) ≫= λ _, mret (Reply 200 NullBody)
  else
    match decision with
    | Admit =>
      require (hashes_match payload content_hash_map) 403 "Content hash mismatch" ≫= λ _,
      is_new ← call (commit_node payload);
      when is_new
        (audit decision_id payload false "admit" exists_map quarantined_map writer_identity ≫= λ _,
         update (check_retry_completion payload)) ≫= λ _,
      mret (Reply 200 (Success false (negb is_new)))
    | TaintedParent poisoned_root =>
      event ← quarantine_attempt payload poisoned_root;
      audit decision_id payload true (reason_of decision) exists_map quarantined_map writer_identity ≫= λ _,
      mret (Reply 403 (TaintedParentDetail event))
    | _ =>
      audit decision_id payload true (reason_of decision) exists_map quarantined_map writer_identity ≫= λ _,
      mret (Reply (match decision with SeparationFailed => 403 | _ => 400 end) (Detail (reason_of decision)))
    end.

(* src: src/governor_service.py 1252-1309 submit_candidate *)
Definition submit_candidate (body_length : Z) (b : body) : M St (reply response) :=
  require (body_length <=? payload_size_limit)%Z 413 "Payload exceeds maximum allowed size" ≫= λ _,
  match b with
  | NotJson => http 400 "Invalid JSON format"
  | SchemaInvalid true => http 400 "signature_algorithm is required and must be 'ECDSA-P256-SHA256'."
  | SchemaInvalid false => http 400 "Schema validation failed"
  | Parsed payload =>
    require (bool_decide (signature_algorithm payload = Some "ECDSA-P256-SHA256")) 400
      "Unsupported signature_algorithm" ≫= λ _,
    auth ← verify_nhi_jwt (session_token_of payload) (identity_of payload);
    require (verify_cryptographic_signature payload) 401 "Cryptographic signature verification failed" ≫= λ _,
    require (bool_decide (length (parent_ids payload) ≤ 256)) 400 "Too many declared parents" ≫= λ _,
    decision_id ← uuid4;
    admission_shared (transaction (admit_payload payload auth decision_id (subject_or_unknown auth)))
  end.

(** ** Unconditional writes *)
(* src: src/governor_service.py declare_external_effect *)
Definition declare_external_effect (rq : request) (idempotency_key node_id effect_type : string) : M St (reply response) :=
  verify_role_jwt rq "admin" ≫= λ _,
  t ← now;
  update (add_external_effect idempotency_key node_id effect_type t) ≫= λ _,
  mret (Reply 200 (Success false false)).

(* src: src/governor_service.py declare_checkpoint *)
Definition declare_checkpoint (rq : request) (cp : checkpoint_record) : M St (reply response) :=
  verify_role_jwt rq "admin" ≫= λ _,
  update (add_checkpoint cp) ≫= λ _,
  mret (Reply 200 (Success false false)).
End submit.

(** ** No handler loses a node or releases one from quarantine *)
Section evolution.
Context `{E : Env} {St : Type} `{BackendLaws St}.
Implicit Types (R : St → St → Prop).

Lemma verify_nhi_jwt_respects R `{!PreOrder R} t i : respects R (verify_nhi_jwt t i).
Proof. unfold verify_nhi_jwt, http. solve_respects. Qed.

Lemma verify_role_jwt_respects R `{!PreOrder R} rq role : respects R (verify_role_jwt rq role).
Proof. unfold verify_role_jwt, http. solve_respects. Qed.

Lemma evaluate_opa_policy_respects R `{!PreOrder R} p q i : respects R (evaluate_opa_policy p q i).
Proof.
  unfold evaluate_opa_policy, read_wasm, read_bundle_process, read_rest, read_local_process,
    policy_error, other_error. solve_respects.
Qed.
Hint Resolve evaluate_opa_policy_respects : respects.

Lemma evaluate_admission_respects R `{!PreOrder R} n ps em qm a :
  respects R (evaluate_admission n ps em qm a).
Proof. unfold evaluate_admission, ask_policies, policy_error_as, now. solve_respects. Qed.

Lemma process_recurrence_respects R `{!PreOrder R, !CoreRelation R} n c src ev :
  respects R (process_recurrence n c src ev).
Proof. unfold process_recurrence, uuid4, now. solve_respects. Qed.
Hint Resolve process_recurrence_respects : respects.

Lemma recurrence_hook_respects R `{!PreOrder R, !CoreRelation R} c_p c :
  respects R (recurrence_hook c_p c).
Proof. unfold recurrence_hook, now. solve_respects. Qed.
End evolution.
#[export] Hint Resolve verify_nhi_jwt_respects verify_role_jwt_respects evaluate_admission_respects
  process_recurrence_respects recurrence_hook_respects : respects.

Section evolution_submit.
Context `{E : Env} {St : Type} `{BackendLaws St} `{!Transactional St, !RollbackLaws St}.

Lemma offer_replacement_respects (R : St → St → Prop) `{!PreOrder R, !CoreRelation R} n r e :
  respects R (offer_replacement n r e).
Proof. unfold offer_replacement, now. solve_respects. Qed.
Hint Resolve offer_replacement_respects : respects.

Lemma quarantine_attempt_evolves n r : respects (St:=St) evolves (quarantine_attempt n r).
Proof. unfold quarantine_attempt, uuid4, now. solve_respects. Qed.
Hint Resolve quarantine_attempt_evolves : respects.

Lemma submit_candidate_evolves len b : respects (St:=St) evolves (submit_candidate len b).
Proof.
  unfold submit_candidate, admit_payload, check_covers, decide_admission, audit, http, uuid4, now.
  solve_respects.
Qed.
End evolution_submit.
