(* ===== verification/Recovery.v ===== *)
(** * Recovery after containment

    [_attempt_safe_continuity] serves the critical functions that a quarantine
    cut off, from a checkpoint (M4) or a declared substitute (M3), and
    [_attempt_reconstruction] rebuilds compactions that the blast radius
    computation left pending (R3 to R5).  Both only add nodes; both sign what
    they add with a fresh key and make that key the adapter key of the
    settings. *)
From S2P Require Import Prelude Dict Types Encoding Datetime Graph Lineage Interface World Crypto Policy Admission.

Definition zeros64 : string := "0000000000000000000000000000000000000000000000000000000000000000".
Definition e64 : string := "eeeeeeeeeeeeeeeeeeeeeeeeeeeeeeeeeeeeeeeeeeeeeeeeeeeeeeeeeeeeeeee".

Record replay := Replay {
  rp_node_id : string; rp_critical_function : string; rp_source : string; rp_exposure_id : string }.

Record continuity_results := ContinuityResults {
  checkpoint_replays : list replay;
  substitutions : list replay;
  escalations : list string;
  enabled : bool }.

#[export] Instance continuity_results_rebuild : Rebuild continuity_results := λ r,
  ContinuityResults (checkpoint_replays r) (substitutions r) (escalations r) (enabled r).

Section recovery.
Context `{E : Env} {St : Type} `{Backend St}.

(** ** Safe continuity (M3/M4) *)

(* src: src/governor_service.py 1730-1740 _attempt_safe_continuity *)
Definition relevant_tainted (dag : dict node) (q : list string) (dep : critical_dependent) : list string :=
  let own := if dep_node_id dep ∈? q then [dep_node_id dep] else [] in
  let parents := List.filter (λ p, p ∈? q)
    (parent_ids (default (bare_node (dep_node_id dep)) (dict_get (dep_node_id dep) dag))) in
  fold_left (λ l x, add_new x l) (tainted_parents dep ++ own ++ parents) [].

(** A checkpoint of a relevant tainted node, taken before containment, that
    mentions no quarantined node. *)
(* src: src/governor_service.py 1743-1760 _attempt_safe_continuity *)
Definition replayable (q relevant : list string) (containment_time : string) (cp : checkpoint_record) : bool :=
  (target_node_id cp ∈? relevant) && str_lt (declared_at_utc cp) containment_time
  && negb (bool_decide (dict_keys (snapshot_data cp) = []))
  && forallb (λ r, negb (r ∈? q)) (dict_keys (snapshot_data cp)).

(* src: src/governor_service.py 1776-1779 _attempt_safe_continuity *)
Definition clean_parents (dag : dict node) (q : list string) (node_id : string) : list string :=
  match List.filter (λ p, negb (p ∈? q))
          (parent_ids (default (bare_node node_id) (dict_get node_id dag))) with
  | [] => ["clean-parent-1"]
  | l => l
  end.

(** A node signed by the gateway with a key of its own. *)
(* src: src/governor_service.py 1781-1793 _attempt_safe_continuity *)
Definition continuity_node (id : string) (k : key_pair) (session : string) (t : Z) (containment_time : string)
    (content : dict json) (parents : list commitment) (weight : Q) : node :=
  let content_hash := content_digest content in
  {| payload_id := id; node_type := Some "STANDARD"; timestamp_utc := Some (iso_z t);
     ephemeral_nhi := Some (Nhi (Some (public_hex k)) (Some session) (Some "2099-01-01T00:00:00Z"));
     declared_evidence_boundary := Some (EvidenceBoundary ("cont-" +:+ id) containment_time zeros64);
     state_content := Some content; content_digest_sha256 := Some content_hash;
     agent_signature := Some (sign_hex k content_hash);
     signature_algorithm := Some "ECDSA-P256-SHA256"; covers := []; covers_interval_gap := None;
     parent_dependency_commitments := parents; summarizer := None;
     criticality_weight := Some weight; retry_of := None |}.

(* src: src/governor_service.py 1762-1806 _attempt_safe_continuity *)
Definition emit_replay (dag : dict node) (q : list string) (containment_time : string)
    (dep : critical_dependent) (cp_id : string) (cp : checkpoint_record) : M St replay :=
  k ← generate_private_key;
  u ← uuid4;
  t ← now;
  let replay_id := "continuity-cp-" +:+ u in
  let content := [("checkpoint_replay", JObj (snapshot_data cp)); ("source_checkpoint", JStr cp_id);
                  ("original_target", JStr (target_node_id cp))] in
  let parents := (λ p, Commitment p (Some e64) None) <$> clean_parents dag q (dep_node_id dep) in
  let payload := continuity_node replay_id k "continuity_m4" t containment_time content parents (dep_weight dep) in
  set_adapter_key (public_hex k) ≫= λ _,
  admission_shared (call (commit_node payload)) ≫= λ _,
  exposure_id ← uuid4;
  t ← now;
  update (Interface.record_continuity_exposure exposure_id replay_id "CHECKPOINT_REPLAY" true
    [("source_checkpoint", JStr cp_id); ("critical_node", JStr (dep_node_id dep)); ("mechanism", JStr "M4")] t) ≫= λ _,
  mret (Replay replay_id (dep_node_id dep) cp_id exposure_id).

(** A substitute declared before containment whose source is in the graph and
    not quarantined. *)
(* src: src/governor_service.py 1813-1826 _attempt_safe_continuity *)
Definition substitutable (dag : dict node) (q : list string) (containment_time : string)
    (d : substitute_declaration) : bool :=
  str_lt (sub_declared_at_utc d) containment_time
  && negb (bool_decide (substitute_source_id d = ""))
  && dict_mem (substitute_source_id d) dag && negb (substitute_source_id d ∈? q).

(* src: src/governor_service.py 1828-1867 _attempt_safe_continuity *)
Definition emit_substitute (dag : dict node) (containment_time : string) (dep : critical_dependent)
    (tainted_parent : string) (d : substitute_declaration) : M St replay :=
  k ← generate_private_key;
  u ← uuid4;
  t ← now;
  let sub_id := "continuity-sub-" +:+ u in
  let src := substitute_source_id d in
  let content := [("substituted_from", JStr src); ("original_target", JStr tainted_parent);
                  ("substitute_declaration", JStr (sub_declared_at_utc d))] in
  let hash := default e64 (dict_get src dag ≫= content_digest_sha256) in
  let payload := continuity_node sub_id k "continuity_m3" t containment_time content
                   [Commitment src (Some hash) None] (dep_weight dep) in
  set_adapter_key (public_hex k) ≫= λ _,
  admission_shared (call (commit_node payload)) ≫= λ _,
  exposure_id ← uuid4;
  t ← now;
  update (Interface.record_continuity_exposure exposure_id sub_id "BOUNDED_SUBSTITUTE" true
    [("substitute_source", JStr src); ("critical_node", JStr (dep_node_id dep)); ("mechanism", JStr "M3")] t) ≫= λ _,
  mret (Replay sub_id (dep_node_id dep) src exposure_id).

(** The declaration used for the first tainted parent that has a usable one. *)
Definition choose_substitute (dag : dict node) (q : list string) (containment_time : string)
    (subs : dict substitute_declaration) (relevant : list string) : option (string * substitute_declaration) :=
  first_some (λ p, match dict_get p subs with
                   | Some d => if substitutable dag q containment_time d then Some (p, d) else None
                   | None => None
                   end) (set_order relevant).

(* src: src/governor_service.py 1726-1870 _attempt_safe_continuity *)
Definition serve_dependent (dag : dict node) (q : list string) (cps : dict checkpoint_record)
    (subs : dict substitute_declaration) (containment_time : string) (res : continuity_results)
    (dep : critical_dependent) : M St continuity_results :=
  let relevant := relevant_tainted dag q dep in
  match List.find (λ kv, replayable q relevant containment_time kv.2) cps with
  | Some (cp_id, cp) =>
    r ← emit_replay dag q containment_time dep cp_id cp;
    mret (res <| checkpoint_replays ::= λ l, l ++ [r] |>)
  | None =>
    match choose_substitute dag q containment_time subs relevant with
    | Some (p, d) =>
      r ← emit_substitute dag containment_time dep p d;
      mret (res <| substitutions ::= λ l, l ++ [r] |>)
    | None => mret (res <| escalations ::= λ l, l ++ [dep_node_id dep] |>)
    end
  end.

(* src: src/governor_service.py 1699-1727 _attempt_safe_continuity *)
Definition attempt_safe_continuity (c_p : list string) (q_event : quarantine_event) : M St continuity_results :=
  let results := ContinuityResults [] [] [] (CONTINUITY_ENABLED cfg) in
  if negb (CONTINUITY_ENABLED cfg) then mret results else
  critical_deps ← query (get_critical_dependents c_p);
  match critical_deps with
  | [] => mret results
  | _ =>
    checkpoints ← query get_checkpoints;
    substitutes ← query get_substitute_declarations;
    q_ledger ← query get_quarantine_ledger;
    dag ← query get_dag;
    now ≫= λ _,
    for_fold critical_deps results
      (serve_dependent dag q_ledger checkpoints substitutes (qe_detected_at_utc q_event))
  end.

(** ** Reconstruction (R3-R5) *)

(* src: src/governor_service.py 1612-1647 _attempt_reconstruction *)
Definition inline_candidate (rc : repair_record) : M St node :=
  k ← generate_private_key;
  u ← uuid4;
  let snapshot := match repair_checkpoint rc with Some cp => snapshot_data cp | None => [] end in
  let content := [("data", JStr (dumps false (JObj snapshot))); ("reconstructed", JBool true)] in
  let content_hash := content_digest content in
  set_adapter_key (public_hex k) ≫= λ _,
  mret {| payload_id := "reconstructed-" +:+ u; node_type := Some "COMPACTION"; timestamp_utc := None;
          ephemeral_nhi := Some (Nhi (Some (public_hex k)) (Some "inline_adapter") None);
          declared_evidence_boundary := None; state_content := Some content;
          content_digest_sha256 := Some content_hash;
          agent_signature := Some (sign_hex k content_hash);
          signature_algorithm := Some "ECDSA-P256-SHA256"; covers := frontier rc;
          covers_interval_gap := None;
          parent_dependency_commitments :=
            (λ fn, Commitment fn (Some e64) (Some "COMPACTION")) <$> frontier rc;
          summarizer := None; criticality_weight := None; retry_of := None |}.

(* src: src/governor_service.py 1590-1611 _attempt_reconstruction *)
Definition adapter_candidate (url : string) (dag : dict node) (ledger : list string) (root : string)
    (compaction : node) (rc : repair_record) : M St (option node) :=
  let projection := prod_map id (λ n : node, n <| state_content := None |>) <$> dag in
  r ← reading (λ n, adapter_post n url (AdapterRequest projection ledger root (covers compaction)
                      (frontier rc) (repair_method rc) (repair_checkpoint rc)));
  match r with
  | AdapterResponded 200 candidate => mret candidate
  | AdapterResponded _ _ => mret None
  | AdapterTimeout => raise ReadTimeout
  | AdapterFailed => raise OtherException
  end.

Definition failed (rc : repair_record) (reason : string) : repair_record :=
  rc <| disposition := IRREDUCIBLE |> <| repair_reason := Some reason |>.

(** [set(a) == set(b)] *)
Definition same_set (a b : list string) : bool :=
  forallb (λ x, x ∈? b) a && forallb (λ x, x ∈? a) b.

(* src: src/governor_service.py 1674-1689 _attempt_reconstruction *)
Definition reintegrate (comp_node : string) (rc : repair_record) (candidate : node) : M St () :=
  t1 ← now; t2 ← now; t3 ← now; t4 ← now;
  let gates := [("signature_verification", true, iso_z t1); ("identity_verification", true, iso_z t2);
                ("frontier_verification", true, iso_z t3); ("quarantine_ancestry_check", true, iso_z t4)] in
  pre ← query (compute_state_digest env_text);
  admission_shared (call (commit_node candidate)) ≫= λ _,
  post ← query (compute_state_digest env_text);
  t ← now;
  update (record_reintegration (payload_id candidate) comp_node (CONTINUATION_HORIZON_SECONDS cfg) t) ≫= λ _,
  t ← now;
  update (record_reintegration_evidence (payload_id candidate) pre post gates t) ≫= λ _,
  update (update_repair_candidate comp_node
    (rc <| disposition := REDUCIBLE |> <| reconstructed_node_id := Some (payload_id candidate) |>)).

(* src: src/governor_service.py 1649-1672 _attempt_reconstruction *)
Definition check_candidate (comp_node : string) (rc : repair_record) (candidate : option node) : M St () :=
  match candidate with
  | None => update (update_repair_candidate comp_node (failed rc "backend_unavailable"))
  | Some c =>
    if negb (verify_cryptographic_signature c) then
      update (update_repair_candidate comp_node (failed rc "invalid_signature"))
    else
      adapter_key ← read_adapter_key;
      if negb (truthy adapter_key) || negb (bool_decide (identity_of c = adapter_key)) then
        update (update_repair_candidate comp_node (failed rc "invalid_identity"))
      else if negb (same_set (covers c) (frontier rc)) then
        update (update_repair_candidate comp_node (failed rc "frontier_mismatch"))
      else reintegrate comp_node rc c
  end.

(** One pending compaction; the graph and ledger are read once and reused. *)
(* src: src/governor_service.py 1578-1588 _attempt_reconstruction *)
Definition reconstruct_one (root : string) (dag : dict node) (ledger : list string)
    (comp_node : string) (rc : repair_record) : M St () :=
  match dict_get comp_node dag with
  | None => raise OtherException
  | Some compaction =>
    candidate ←
      match RECOVERY_ADAPTER_URL cfg with
      | Some url => if decide (url = "") then (c ← inline_candidate rc; mret (Some c))
                    else adapter_candidate url dag ledger root compaction rc
      | None => (c ← inline_candidate rc; mret (Some c))
      end;
    check_candidate comp_node rc candidate
  end.

(** An exception is only noted in the record the handler holds. *)
(* src: src/governor_service.py 1691-1696 _attempt_reconstruction *)
Definition give_up_on (comp_node : string) (rc : repair_record) (e : exn) : M St () :=
  update (alias_repair_candidate comp_node
    (failed rc (match e with ReadTimeout => "backend_timeout" | _ => "backend_unavailable" end))).

(* src: src/governor_service.py 1573-1696 _attempt_reconstruction *)
Definition attempt_reconstruction (poisoned_root_id : string) : M St () :=
  repair_candidates ← query get_repair_candidates;
  for_fold repair_candidates None (λ (cache : option (dict node * list string)) kv,
    let '(comp_node, rc) := kv in
    if bool_decide (disposition rc = PENDING_RECONSTRUCTION) then
      cache ← match cache with
              | Some c => mret c
              | None => dag ← query get_dag; ledger ← query get_quarantine_ledger; mret (dag, ledger)
              end;
      catch (reconstruct_one poisoned_root_id cache.1 cache.2 comp_node rc) (give_up_on comp_node rc) ≫= λ _,
      mret (Some cache)
    else mret cache) ≫= λ _,
  mret ().
End recovery.
