(* ===== verification/Detectors.v ===== *)
(** * Detector adapters

    [HumanReportAdapter] and [AMGAdapter] map a foreign event to the fields of
    a designation or say why the event is dropped. *)
From S2P Require Import Prelude Dict Types Encoding Datetime World Policy.

Local Open Scope Z_scope.

Definition to_lower_ascii (a : Ascii.ascii) : Ascii.ascii :=
  let c := ascii_z a in if (65 <=? c) && (c <=? 90) then z_ascii (c + 32) else a.

(** [s.lower()] on ASCII letters *)
Definition lower (s : string) : string :=
  String.string_of_list_ascii (to_lower_ascii <$> String.list_ascii_of_string s).

Inductive drop :=
  | MissingField (text : string)
  | ActionAllow
  | ActionRedact
  | IngressBlock (detector : json)
  | NotRetroactive (action operation : string) (detector : json).

Inductive ground :=
  | BaselineTampering (detector : string)
  | StoredQuarantine (operation : string)
  | SelfReinforcement (action : string)
  | RetireIf (snapshot : json).

Inductive designation_reason_text := HumanText (s : string) | Grounds (l : list ground).

(* src: src/governor_service.py DesignationEvent *)
Record designation := Designation {
  poisoned_node_id : string;
  dg_detected_at_utc : string;
  dg_source : string;
  confidence_score : Q;
  dg_reason : designation_reason_text }.

(** An adapter answers with a designation or a reason to drop the event; an
    exception of the adapter or of the event model escapes. *)
(* src: src/detectors/base.py 13-14 DetectorAdapter.to_designation *)
Inductive adapter_result := Designate (d : designation) | Drop (r : drop) | Fails.

(** [raw_event.get(k, default)] *)
Definition get_or (k : string) (d : json) (o : dict json) : json := default d (dict_get k o).

(** [datetime.fromtimestamp(q, tz=utc)]: rounded to microseconds, ties to even *)
Definition round_half_even (q : Q) : Z :=
  let n := Qnum q / Zpos (Qden q) in
  match Qcompare (q - inject_Z n)%Q (1 # 2)%Q with
  | Lt => n
  | Gt => n + 1
  | Eq => if Z.even n then n else n + 1
  end.

Definition unix_epoch : Z := 719162 * us_per_day.

Definition from_timestamp (q : Q) : option string :=
  let t := unix_epoch + round_half_even (q * inject_Z us_per_second)%Q in
  if (0 <=? t) && (t <? max_datetime) then Some (iso_z t) else None.

(** The texts; [format_json] is the value of an f-string field. *)
Definition ground_text (format_json : json → string) (g : ground) : string :=
  match g with
  | BaselineTampering d => "SHA-256 baseline tampering detected by " +:+ d
  | StoredQuarantine o => "quarantine of stored content (operation=" +:+ o +:+ ")"
  | SelfReinforcement a => "self-reinforcement loop detected (action=" +:+ a +:+ ")"
  | RetireIf j => "retire_if predicate fired (snapshot=" +:+ format_json j +:+ ")"
  end.

Definition drop_text (format_json : json → string) (r : drop) : string :=
  match r with
  | MissingField t => t
  | ActionAllow => "action=allow, no threat detected"
  | ActionRedact => "action=redact, content modified at ingress, not a designation"
  | IngressBlock d => "ingress block: AMG blocked write before storage (detector=" +:+ format_json d +:+ ")"
  | NotRetroactive a o d =>
    "event does not indicate retroactive detection (action=" +:+ a +:+ ", operation=" +:+ o
      +:+ ", detector=" +:+ format_json d +:+ ")"
  end.

Definition reason_text (format_json : json → string) (r : designation_reason_text) : string :=
  match r with
  | HumanText s => s
  | Grounds l => String.concat "; " (ground_text format_json <$> l)
  end.

Section adapters.
(** Python's [float] on text *)
Variable float_of_text : string → option Q.

(* src: src/detectors/human_report.py HumanReportAdapter.to_designation *)
Definition human_to_designation (raw_event : dict json) (t : Z) : adapter_result :=
  match dict_get "node_id" raw_event with
  | Some j =>
    if py_truthy j then
      let score :=
        match get_or "confidence_score" (JNum 1%Q "1.0") raw_event with
        | JNum q _ => Some q
        | JBool b => Some (if b then 1%Q else 0%Q)
        | JStr s => float_of_text s
        | _ => None
        end in
      match j, get_or "detected_at_utc" (JStr (iso_z t)) raw_event, score,
            get_or "reason" (JStr "Human-reported incident") raw_event with
      | JStr node_id, JStr at_utc, Some c, JStr r =>
        Designate (Designation node_id at_utc "human_report" c (HumanText r))
      | _, _, _, _ => Fails
      end
    else Drop (MissingField "missing required field: node_id")
  | None => Drop (MissingField "missing required field: node_id")
  end.
End adapters.

(** [raw_event.get("gasc_node_id") or metadata.get("gasc_node_id")] *)
(* src: src/detectors/amg.py 31-34 AMGAdapter.to_designation *)
Definition amg_node_id (raw_event : dict json) : option (option json) :=
  match dict_get "gasc_node_id" raw_event with
  | Some j =>
    if py_truthy j then Some (Some j)
    else match get_or "metadata" (JObj []) raw_event with JObj m => Some (dict_get "gasc_node_id" m) | _ => None end
  | None => match get_or "metadata" (JObj []) raw_event with JObj m => Some (dict_get "gasc_node_id" m) | _ => None end
  end.

(** [metadata.get("pre_snapshot_id")], needed only for lifecycle events *)
Definition pre_snapshot (raw_event : dict json) : option (option json) :=
  match get_or "metadata" (JObj []) raw_event with
  | JObj m => Some (match dict_get "pre_snapshot_id" m with
                    | Some j => if py_truthy j then Some j else None
                    | None => None
                    end)
  | _ => None
  end.

(** The grounds on which stored content is designated. *)
(* src: src/detectors/amg.py 45-69 AMGAdapter.to_designation *)
Definition amg_grounds (action operation detector : string) (snapshot : option json) : list ground :=
  (if bool_decide (detector = "protected_key") then [BaselineTampering detector] else [])
  ++ (if bool_decide (action = "quarantine") && negb (bool_decide (operation = "write")) then [StoredQuarantine operation] else [])
  ++ (if bool_decide (detector = "self_reinforcement") && negb (bool_decide (action = "block")) then [SelfReinforcement action] else [])
  ++ (if bool_decide (operation = "lifecycle")
      then match snapshot with Some j => [RetireIf j] | None => [] end else []).

(* src: src/detectors/amg.py 72-77 AMGAdapter.to_designation *)
Definition amg_confidence (severity : json) : Q :=
  match severity with
  | JStr s =>
    let s := lower s in
    if bool_decide (s = "critical") then 1%Q else if bool_decide (s = "high") then (9 # 10)%Q
    else if bool_decide (s = "medium") then (7 # 10)%Q else if bool_decide (s = "low") then (1 # 2)%Q
    else if bool_decide (s = "info") then (3 # 10)%Q else (7 # 10)%Q
  | _ => (7 # 10)%Q
  end.

(* src: src/detectors/amg.py 79-83 AMGAdapter.to_designation *)
Definition amg_detected_at (raw_event : dict json) (t : Z) : option string :=
  match dict_get "timestamp" raw_event with
  | Some (JNum q _) => from_timestamp q
  | Some (JBool b) => from_timestamp (if b then 1%Q else 0%Q)
  | _ => match get_or "detected_at_utc" (JStr (iso_z t)) raw_event with JStr s => Some s | _ => None end
  end.

(* src: src/detectors/amg.py AMGAdapter.to_designation *)
Definition amg_to_designation (raw_event : dict json) (t : Z) : adapter_result :=
  match get_or "action" (JStr "") raw_event, get_or "operation" (JStr "write") raw_event with
  | JStr action, JStr operation =>
    let action := lower action in
    let operation := lower operation in
    match amg_node_id raw_event with
    | None => Fails
    | Some node =>
      if negb (match node with Some j => py_truthy j | None => false end) then Drop (MissingField "no gasc_node_id in event or metadata")
      else if bool_decide (action = "allow") then Drop ActionAllow
      else if bool_decide (action = "redact") then Drop ActionRedact
      else if bool_decide (action = "block") && bool_decide (operation = "write") then
        Drop (IngressBlock (get_or "detector" (JStr "") raw_event))
      else
        match get_or "detector" (JStr "") raw_event with
        | JArr _ | JObj _ => Fails
        | d =>
          let detector := match d with JStr s => s | _ => "" end in
          match (if bool_decide (operation = "lifecycle") then pre_snapshot raw_event else Some None) with
          | None => Fails
          | Some snapshot =>
            match amg_grounds action operation detector snapshot with
            | [] => Drop (NotRetroactive action operation d)
            | gs =>
              match node, amg_detected_at raw_event t with
              | Some (JStr node_id), Some at_utc =>
                Designate (Designation node_id at_utc "amg_tamper_check"
                  (amg_confidence (get_or "severity" (JStr "medium") raw_event)) (Grounds gs))
              | _, _ => Fails
              end
            end
          end
        end
    end
  | _, _ => Fails
  end.

(** ** Properties *)

(** An AMG event designates a node exactly on one of the four grounds, and
    never when the write was stopped at ingress. *)
Lemma amg_designates raw t d :
  amg_to_designation raw t = Designate d →
  ∃ action operation detector,
    get_or "action" (JStr "") raw = JStr action ∧ get_or "operation" (JStr "write") raw = JStr operation ∧
    lower action ≠ "allow" ∧ lower action ≠ "redact" ∧
    ¬ (lower action = "block" ∧ lower operation = "write") ∧
    ∃ snapshot gs, amg_grounds (lower action) (lower operation) detector snapshot = gs ∧ gs ≠ [] ∧
      dg_reason d = Grounds gs ∧ poisoned_node_id d ≠ "".
Proof.
  unfold amg_to_designation. intros Hd.
  destruct (get_or "action" _ raw) as [| | |action| |] eqn:Ha; try done.
  destruct (get_or "operation" _ raw) as [| | |operation| |] eqn:Ho; try done.
  destruct (amg_node_id raw) as [nd|]; [|done].
  destruct (match nd with Some j => py_truthy j | None => false end) eqn:Hn; [|done]. cbn [negb] in Hd.
  case_bool_decide as H1; [done|]. case_bool_decide as H2; [done|].
  destruct (bool_decide (lower action = "block") && bool_decide (lower operation = "write")) eqn:Hb; [done|].
  rewrite andb_false_iff, !bool_decide_eq_false in Hb.
  exists action, operation, (match get_or "detector" (JStr "") raw with JStr s => s | _ => "" end).
  split_and!; [done..|naive_solver|].
  destruct (get_or "detector" (JStr "") raw) eqn:Hdet; try done;
    (destruct (if bool_decide (lower operation = "lifecycle") then _ else _) as [snap|]; [|done]);
    exists snap; (destruct (amg_grounds _ _ _ snap) eqn:Hg; [done|]);
    (destruct nd as [[| | |nid| |]|]; try done); (destruct (amg_detected_at raw t); [|done]);
    injection Hd as <-; eexists; (split_and!; [reflexivity|done|done|]);
    cbn in Hn |- *; rewrite negb_true_iff, bool_decide_eq_false in Hn; done.
Qed.

(** An AMG event becomes a designation only for a reason found in the event
    (a tampered baseline, a quarantine of stored content, a self-reinforcement
    loop that was not blocked, a fired retirement predicate), always with a
    node identifier, and never for an event that was allowed, redacted, or
    blocked before storage. *)
Theorem amg_designation_has_grounds raw t d :
  amg_to_designation raw t = Designate d →
  ∃ action operation detector,
    get_or "action" (JStr "") raw = JStr action ∧ get_or "operation" (JStr "write") raw = JStr operation ∧
    lower action ≠ "allow" ∧ lower action ≠ "redact" ∧
    ¬ (lower action = "block" ∧ lower operation = "write") ∧
    ∃ snapshot gs, amg_grounds (lower action) (lower operation) detector snapshot = gs ∧ gs ≠ [] ∧
      dg_reason d = Grounds gs ∧ poisoned_node_id d ≠ "".
Proof. apply amg_designates. Qed.

Lemma amg_designation_has_grounds_witness :
  let raw := [("action", JStr "QUARANTINE"); ("operation", JStr "read"); ("gasc_node_id", JStr "n");
              ("timestamp", JNum 0%Q "0")] in
  let d := Designation "n" "1970-01-01T00:00:00+00:00Z" "amg_tamper_check" (7 # 10) (Grounds [StoredQuarantine "read"]) in
  amg_to_designation raw 0 = Designate d ∧ poisoned_node_id d ≠ "".
Proof.
  intros raw d. assert (amg_to_designation raw 0 = Designate d) as Hd by (by vm_compute). split; [exact Hd|].
  destruct (amg_designation_has_grounds raw 0 d Hd) as (? & ? & ? & _ & _ & _ & _ & _ & ? & ? & _ & _ & _ & Hn).
  exact Hn.
Defined.
