(* ===== verification/Designation.v ===== *)
(** * Designation: [/designate] and [/detector/{source}]

    Both compute the blast radius of a poisoned node, withdraw reintegrated
    nodes it hits, and quarantine it, under the exclusive admission lock.
    [/designate] then runs continuity and reconstruction while it still holds
    the lock; [/detector] releases it first. *)
From S2P Require Import Prelude Dict Types Encoding Datetime Graph Lineage Interface World Crypto Policy Admission Recovery Detectors.

Inductive designation_outcome :=
  | NotFound
  | AlreadyQuarantined
  | Dropped (r : drop)
  | Designated (event : quarantine_event) (continuity : continuity_results).

Section designation.
Context `{E : Env} {St : Type} `{Backend St}.

(** The start of the window in which signals are counted. *)
Definition horizon_start (t : Z) : string := iso_z (plus_seconds t (- CONTINUATION_HORIZON_SECONDS cfg)).

(** The per-identity limit; the attempt is recorded either way. *)
(* src: src/governor_service.py 1890-1904 designate_poison *)
Definition limit_designations (designator_identity node_id : string) : M St () :=
  t ← now;
  per_identity_count ← try_query (count_recent_signals designator_identity (horizon_start t));
  t ← now;
  if (DESIGNATION_RATE_LIMIT cfg <=? per_identity_count)%Z then
    update (record_signal_attempt designator_identity node_id "designation" "RATE_LIMITED" t) ≫= λ _,
    http 429 "Rate limit exceeded for designations"
  else update (record_signal_attempt designator_identity node_id "designation" "PENDING" t).

(** Blast radius, recurrence hook and quarantine of a known, clean node. *)
(* src: src/governor_service.py 1921-1940 designate_poison *)
Definition contain (node_id designator_identity : string) (reason : string) (source : option string)
    : M St (list string * quarantine_event) :=
  c_p ← call (compute_blast_radius node_id);
  recurrence_hook c_p "RENEWED_DESIGNATION" ≫= λ _,
  digest ← query (compute_quarantine_digest c_p);
  event_id ← uuid4;
  t ← now;
  q_event ← call (apply_quarantine_transaction
    (QuarantineEvent event_id (iso_z t) node_id c_p digest (Some designator_identity) (Some reason)
       source None None None None None) c_p);
  mret (c_p, q_event).

(* src: src/governor_service.py 1912-1949 designate_poison *)
Definition designate_body (node_id reason designator_identity : string) : M St (reply designation_outcome) :=
  exists_map ← query (nodes_exist [node_id]);
  quarantined_map ← query (are_quarantined [node_id]);
  if negb (flag node_id exists_map) then mret (Reply 404 NotFound)
  else if flag node_id quarantined_map then mret (Reply 200 AlreadyQuarantined)
  else
    cq ← contain node_id designator_identity reason None;
    let '(c_p, q_event) := cq in
    continuity_results ← attempt_safe_continuity c_p q_event;
    attempt_reconstruction node_id ≫= λ _,
    mret (Reply 200 (Designated q_event continuity_results)).

(* src: src/governor_service.py 1885-1911 designate_poison *)
Definition designate_poison `{!Transactional St} (rq : request) (node_id reason : string)
    : M St (reply designation_outcome) :=
  claims ← verify_role_jwt rq "designator";
  let designator_identity := subject_or_unknown claims in
  limit_designations designator_identity node_id ≫= λ _,
  admission_exclusive (transaction (designate_body node_id reason designator_identity)).

(** ** [/detector/{source}] *)
Variable (float_of_text : string → option Q) (format_json : json → string).

(* src: src/detectors/__init__.py 5-8 DETECTOR_REGISTRY *)
Definition detector_registry (source : string) : option (dict json → Z → adapter_result) :=
  if decide (source = "human_report") then Some (human_to_designation float_of_text)
  else if decide (source = "amg") then Some amg_to_designation
  else None.

(* src: src/governor_service.py 2095-2101 ingest_detector_event *)
Definition raw_event_record (source : string) (raw_event : dict json) (fresh : string) (t : Z) : option detector_event :=
  let mk id := DetectorEvent id source raw_event (iso_z t) None None None in
  match dict_get "event_id" raw_event with
  | None => Some (mk fresh)
  | Some (JStr s) => Some (mk s)
  | Some (JNum _ s) => Some (mk s)
  | Some _ => None
  end.

(* src: src/governor_service.py 2131-2160 ingest_detector_event *)
Definition detector_contain (node_id reason designator_identity source : string)
    : M St (option (list string * quarantine_event)) :=
  exists_map ← query (nodes_exist [node_id]);
  quarantined_map ← query (are_quarantined [node_id]);
  if negb (flag node_id exists_map) then http 404 "Node ID not found in DAG"
  else if flag node_id quarantined_map then mret None
  else cq ← contain node_id designator_identity reason (Some source); mret (Some cq).

(* src: src/governor_service.py 2077-2173 ingest_detector_event *)
Definition ingest_detector_event (source : string) (rq : request) (raw_event : dict json)
    : M St (reply designation_outcome) :=
  claims ← verify_role_jwt rq "designator";
  match detector_registry source with
  | None => http 400 "Unknown detector source"
  | Some adapter =>
    fresh ← uuid4;
    t ← now;
    match raw_event_record source raw_event fresh t with
    | None => raise OtherException
    | Some record =>
      t ← now;
      update (record_detector_event record t) ≫= λ _,
      t ← now;
      match adapter raw_event t with
      | Fails => raise OtherException
      | Drop r =>
        update (alias_detector_event (record <| de_outcome := Some "dropped" |>
                  <| drop_reason := Some (drop_text format_json r) |>)) ≫= λ _,
        mret (Reply 200 (Dropped r))
      | Designate d =>
        let node_id := poisoned_node_id d in
        let identity := match dict_get "sub" claims with Some (JStr s) => s | _ => ("detector:" +:+ source)%string end in
        limit_designations identity node_id ≫= λ _,
        contained ← admission_exclusive (detector_contain node_id (reason_text format_json (dg_reason d)) identity source);
        match contained with
        | None => mret (Reply 200 AlreadyQuarantined)
        | Some (c_p, q_event) =>
          continuity_results ← attempt_safe_continuity c_p q_event;
          attempt_reconstruction node_id ≫= λ _,
          update (alias_detector_event (record <| de_outcome := Some "designated" |>
                    <| de_quarantine_event_id := Some (quarantine_event_id q_event) |>)) ≫= λ _,
          mret (Reply 200 (Designated q_event continuity_results))
        end
      end
    end
  end.
End designation.

Section evolution.
Context `{E : Env} {St : Type} `{BackendLaws St}.

Lemma emit_replay_evolves dag q ct dep id cp : respects (St:=St) evolves (emit_replay dag q ct dep id cp).
Proof. unfold emit_replay, generate_private_key, uuid4, now. solve_respects. Qed.

Lemma emit_substitute_evolves dag ct dep p d : respects (St:=St) evolves (emit_substitute dag ct dep p d).
Proof. unfold emit_substitute, generate_private_key, uuid4, now. solve_respects. Qed.
Hint Resolve emit_replay_evolves emit_substitute_evolves : respects.

Lemma attempt_safe_continuity_evolves c e : respects (St:=St) evolves (attempt_safe_continuity c e).
Proof. unfold attempt_safe_continuity, serve_dependent, now. solve_respects. Qed.

Lemma reintegrate_evolves n rc c : respects (St:=St) evolves (reintegrate n rc c).
Proof. unfold reintegrate, now. solve_respects. Qed.
Hint Resolve reintegrate_evolves : respects.

Lemma attempt_reconstruction_evolves r : respects (St:=St) evolves (attempt_reconstruction r).
Proof.
  unfold attempt_reconstruction, reconstruct_one, check_candidate, inline_candidate, adapter_candidate,
    give_up_on, generate_private_key, uuid4.
  solve_respects.
Qed.

Lemma contain_evolves n i r s : respects (St:=St) evolves (contain n i r s).
Proof. unfold contain, uuid4, now. solve_respects. Qed.

Lemma limit_designations_evolves i n : respects (St:=St) evolves (limit_designations i n).
Proof. unfold limit_designations, http, now. solve_respects. Qed.
End evolution.
#[export] Hint Resolve attempt_safe_continuity_evolves attempt_reconstruction_evolves contain_evolves
  limit_designations_evolves : respects.

Section evolution_handlers.
Context `{E : Env} {St : Type} `{BackendLaws St}.

Lemma designate_poison_evolves `{!Transactional St, !RollbackLaws St} rq n r :
  respects (St:=St) evolves (designate_poison rq n r).
Proof. unfold designate_poison, designate_body. solve_respects. Qed.

Lemma ingest_detector_event_evolves f g s rq raw :
  respects (St:=St) evolves (ingest_detector_event f g s rq raw).
Proof. unfold ingest_detector_event, detector_contain, http, uuid4, now. solve_respects. Qed.
End evolution_handlers.
