(* ===== verification/Routes.v ===== *)
(** * The other routes

    [/context-compacted], [/continuity-expose], [/declare-substitute],
    [/observe], [/renew-trust], [/calibrate], [/seed-root] and [/reset-db].
    None of them uses a transaction; [/context-compacted] takes the shared lock
    only around its commit. *)
From stdpp Require Import pretty.
From S2P Require Import Prelude Dict Types Encoding Datetime Graph Lineage Interface World Crypto Policy Admission Recovery Detectors Designation.

(* src: src/governor_service.py ContextCompactedEvent *)
Record compacted_event := CompactedEvent {
  compacted_node_ids : list string;
  compaction_node_id : string;
  ce_timestamp_utc : string;
  ce_ephemeral_nhi : nhi;
  ce_state_content : dict json;
  ce_agent_signature : string;
  ce_signature_algorithm : string;
  ce_method_id : string }.

(* src: src/governor_service.py ObserveEvent *)
Record observe_event := ObserveEvent {
  ob_node_id : string;
  ob_recurrence_class : string;
  ob_evidence : dict json;
  adapter_signature : option string }.

Section routes.
Context `{E : Env} {St : Type} `{Backend St}.

Definition ok : M St (reply response) := mret (Reply 200 (Success false false)).

(** ** [/context-compacted] *)

(** The commitments to the compacted nodes; [None] when one is missing. *)
(* src: src/governor_service.py 1508-1519 declare_context_compacted *)
Definition carried_commitments (dag : dict node) (ids : list string) : option (list commitment) :=
  mapM (λ nid, (λ n, Commitment nid (Some (default zeros64 (content_digest_sha256 n))) (Some "CARRIED"))
                 <$> dict_get nid dag) ids.

(* src: src/governor_service.py 1521-1544 declare_context_compacted *)
Definition compaction_payload (event : compacted_event) (parents : list commitment) : node :=
  {| payload_id := compaction_node_id event; node_type := Some "COMPACTION";
     timestamp_utc := Some (ce_timestamp_utc event); ephemeral_nhi := Some (ce_ephemeral_nhi event);
     declared_evidence_boundary := Some (EvidenceBoundary ("bnd-" +:+ compaction_node_id event)
                                           (ce_timestamp_utc event) zeros64);
     state_content := Some (ce_state_content event);
     content_digest_sha256 := Some (content_digest (ce_state_content event));
     agent_signature := Some (ce_agent_signature event);
     signature_algorithm := Some (ce_signature_algorithm event);
     covers := compacted_node_ids event; covers_interval_gap := None;
     parent_dependency_commitments := parents;
     summarizer := Some (Summarizer (Some (ce_method_id event)) (Some zeros64) None None);
     criticality_weight := None; retry_of := None |}.

(** Everything before the lock is taken. *)
(* src: src/governor_service.py 1503-1566 declare_context_compacted *)
Definition compaction_checks (event : compacted_event) : M St node :=
  dag ← query get_dag;
  match carried_commitments dag (compacted_node_ids event) with
  | None => http 400 "Compacted node not found in DAG"
  | Some parents =>
    let payload := compaction_payload event parents in
    verify_nhi_jwt (session_token_of payload) (identity_of payload) ≫= λ _,
    require (verify_cryptographic_signature payload) 401 "Cryptographic signature verification failed" ≫= λ _,
    covers_quarantined ← query (are_quarantined (compacted_node_ids event));
    match List.filter (λ cid, flag cid covers_quarantined) (compacted_node_ids event) with
    | [] => mret payload
    | _ => http 403 "TAINTED_COVERS"
    end
  end.

(* src: src/governor_service.py declare_context_compacted *)
Definition declare_context_compacted (event : compacted_event) : M St (reply response) :=
  payload ← compaction_checks event;
  admission_shared (call (commit_node payload)) ≫= λ _, ok.

(** ** Continuity *)
(* src: src/governor_service.py record_continuity_exposure *)
Definition continuity_expose (rq : request) (node_id substitute_status reason : option string)
    : M St (reply response) :=
  verify_role_jwt rq "designator" ≫= λ _,
  let status := default "ORIGINAL" substitute_status in
  match node_id with
  | None => http 400 "node_id required"
  | Some node_id =>
    require (negb (bool_decide (node_id = ""))) 400 "node_id required" ≫= λ _,
    require (status ∈? ["ORIGINAL"; "BOUNDED_SUBSTITUTE"; "DEGRADED"; "CHECKPOINT"]) 400
      "substitute_status must be one of: ORIGINAL, BOUNDED_SUBSTITUTE, DEGRADED, CHECKPOINT" ≫= λ _,
    q_ledger ← query get_quarantine_ledger;
    require (negb (node_id ∈? q_ledger)) 403 "Cannot expose quarantined node" ≫= λ _,
    exposure_id ← uuid4;
    t ← now;
    let size := Z.of_nat (length q_ledger) in
    update (record_continuity_exposure exposure_id node_id status (0 <? size)%Z
      [("node_id", JStr node_id); ("substitute_status", JStr status);
       ("quarantine_set_size", JNum (inject_Z size) (pretty size)); ("reason", JStr (default "" reason))] t) ≫= λ _,
    ok
  end.

(* src: src/governor_service.py declare_substitute *)
Definition declare_substitute (rq : request) (target_node_id substitute_source_id declared_at_utc : option string)
    : M St (reply response) :=
  verify_role_jwt rq "admin" ≫= λ _,
  match target_node_id, substitute_source_id, declared_at_utc with
  | Some target, Some source, Some declared =>
    require (negb (bool_decide (target = "")) && negb (bool_decide (source = ""))
             && negb (bool_decide (declared = ""))) 400
      "target_node_id, substitute_source_id, and declared_at_utc are required" ≫= λ _,
    exists_map ← query (nodes_exist [source]);
    require (flag source exists_map) 404 "Substitute source not found in DAG" ≫= λ _,
    quarantined_map ← query (are_quarantined [source]);
    require (negb (flag source quarantined_map)) 403 "Substitute source is quarantined" ≫= λ _,
    update (add_substitute_declaration (SubstituteDeclaration target source declared "admin")) ≫= λ _,
    ok
  | _, _, _ => http 400 "target_node_id, substitute_source_id, and declared_at_utc are required"
  end.

(** ** Recurrence signals *)
Definition reject_signal (source node_id detail : string) : M St () :=
  t ← now;
  update (record_signal_attempt source node_id "recurrence" "RATE_LIMITED" t) ≫= λ _,
  http 429 detail.

(** Both limits of [/observe]; an attempt under both is recorded as pending. *)
(* src: src/governor_service.py 2184-2209 observe_recurrence *)
Definition limit_signals (source node_id : string) : M St () :=
  t ← now;
  let start := horizon_start t in
  per_identity_count ← try_query (count_recent_signals source start);
  if (RECURRENCE_SIGNAL_RATE_LIMIT cfg <=? per_identity_count)%Z then
    reject_signal source node_id "Rate limit exceeded for recurrence signals"
  else
    global_count ← try_query (count_recent_signals_global start);
    if (RECURRENCE_SIGNAL_GLOBAL_LIMIT cfg <=? global_count)%Z then
      reject_signal source node_id "Global rate limit exceeded for recurrence signals"
    else
      t ← now;
      update (record_signal_attempt source node_id "recurrence" "PENDING" t).

(* src: src/governor_service.py 2211-2224 observe_recurrence *)
Definition check_adapter_signature (event : observe_event) : M St () :=
  if bool_decide (ob_recurrence_class event = "VERIFIER_CONTRADICTION") then
    require (truthy (adapter_signature event)) 403 "adapter_signature required for VERIFIER_CONTRADICTION" ≫= λ _,
    adapter_key ← read_adapter_key;
    require (truthy adapter_key) 500 "RECOVERY_ADAPTER_PUBLIC_KEY not configured" ≫= λ _,
    require (verify_with adapter_key (adapter_signature event) (ob_node_id event)) 403 "Invalid adapter signature"
  else mret ().

(* src: src/governor_service.py 2176-2228 observe_recurrence *)
Definition observe_recurrence (rq : request) (event : observe_event) : M St (reply response) :=
  claims ← verify_role_jwt rq "designator";
  let signal_source := subject_or_unknown claims in
  require (ob_recurrence_class event ∈? ["FUNCTIONAL_FAILURE"; "VERIFIER_CONTRADICTION"]) 400
    "Invalid recurrence class" ≫= λ _,
  limit_signals signal_source (ob_node_id event) ≫= λ _,
  check_adapter_signature event ≫= λ _,
  process_recurrence (ob_node_id event) (ob_recurrence_class event) signal_source (ob_evidence event) ≫= λ _,
  ok.

(** ** Trust, calibration, roots *)
(* src: src/governor_service.py 2230-2253 renew_trust *)
Definition renew_trust_route (rq : request) (node_id : string) : M St (reply response) :=
  verify_role_jwt rq "designator" ≫= λ _,
  q_ledger ← query get_quarantine_ledger;
  require (negb (node_id ∈? q_ledger)) 403 "Cannot renew trust: node is tainted" ≫= λ _,
  dag ← query get_dag;
  let pids := parent_ids (default (bare_node node_id) (dict_get node_id dag)) in
  quarantined_map ← query (are_quarantined pids);
  require (forallb (λ p, negb (flag p quarantined_map)) pids) 403
    "Cannot renew trust: parent(s) are now quarantined" ≫= λ _,
  t ← now;
  update (renew_trust node_id (CONTINUATION_HORIZON_SECONDS cfg) t) ≫= λ _,
  ok.

(* src: src/governor_service.py calibrate_harness *)
Definition calibrate_harness (rq : request) (run : calibration_run) : M St (reply response) :=
  verify_role_jwt rq "admin" ≫= λ _,
  require (DEBUG_MODE cfg) 403 "Calibration requires DEBUG_MODE" ≫= λ _,
  try_update (record_calibration_run run) ≫= λ _,
  ok.

(* src: src/governor_service.py reset_db *)
Definition reset_db (rq : request) : M St (reply response) :=
  verify_role_jwt rq "admin" ≫= λ _,
  require (DEBUG_MODE cfg) 403 "Debug endpoints disabled in production" ≫= λ _,
  update reset ≫= λ _,
  ok.

(** A root signed by a key made for it. *)
(* src: src/governor_service.py 2353-2380 seed_root *)
Definition seed_payload (root_id admin_identity : string) (k : key_pair) (t1 t2 : Z) : node :=
  let content := [("type", JStr "seed_root"); ("seeded_by", JStr admin_identity)] in
  let content_hash := content_digest content in
  {| payload_id := root_id; node_type := None; timestamp_utc := Some (isoformat t1);
     ephemeral_nhi := Some (Nhi (Some (public_hex k)) (Some "gateway_seed") (Some "9999-12-31T23:59:59Z"));
     declared_evidence_boundary := Some (EvidenceBoundary ("seed-" +:+ root_id) (isoformat t2) zeros64);
     state_content := Some content; content_digest_sha256 := Some content_hash;
     agent_signature := Some (sign_hex k content_hash);
     signature_algorithm := Some "ECDSA-P256-SHA256"; covers := []; covers_interval_gap := None;
     parent_dependency_commitments := []; summarizer := None; criticality_weight := None; retry_of := None |}.

(* src: src/governor_service.py seed_root *)
Definition seed_root (rq : request) (root_id : option string) : M St (reply response) :=
  claims ← verify_role_jwt rq "admin";
  match root_id with
  | None => http 400 "root_id required"
  | Some root_id =>
    require (negb (bool_decide (root_id = ""))) 400 "root_id required" ≫= λ _,
    exists_map ← query (nodes_exist [root_id]);
    require (negb (flag root_id exists_map)) 409 "Node already exists" ≫= λ _,
    k ← generate_private_key;
    t1 ← now;
    t2 ← now;
    call (commit_node (seed_payload root_id (subject_or_unknown claims) k t1 t2)) ≫= λ _,
    ok
  end.
End routes.

Section evolution.
Context `{E : Env} {St : Type} `{BackendLaws St}.

Lemma declare_context_compacted_evolves e : respects (St:=St) evolves (declare_context_compacted e).
Proof. unfold declare_context_compacted, compaction_checks, http, ok. solve_respects. Qed.

Lemma continuity_expose_same_core rq n st r : respects (St:=St) same_core (continuity_expose rq n st r).
Proof. unfold continuity_expose, http, uuid4, now, ok. solve_respects. Qed.

Lemma declare_substitute_same_core rq t s d : respects (St:=St) same_core (declare_substitute rq t s d).
Proof. unfold declare_substitute, http, ok. solve_respects. Qed.

Lemma observe_recurrence_same_core rq e : respects (St:=St) same_core (observe_recurrence rq e).
Proof.
  unfold observe_recurrence, limit_signals, check_adapter_signature, reject_signal, http, now, ok.
  solve_respects.
Qed.

Lemma renew_trust_route_same_core rq n : respects (St:=St) same_core (renew_trust_route rq n).
Proof. unfold renew_trust_route, now, ok. solve_respects. Qed.

Lemma calibrate_harness_same_core rq run : respects (St:=St) same_core (calibrate_harness rq run).
Proof. unfold calibrate_harness, ok. solve_respects. Qed.

Lemma declare_external_effect_same_core rq k n t :
  respects (St:=St) same_core (declare_external_effect rq k n t).
Proof. unfold declare_external_effect, now. solve_respects. Qed.

Lemma declare_checkpoint_same_core rq cp : respects (St:=St) same_core (declare_checkpoint rq cp).
Proof. unfold declare_checkpoint. solve_respects. Qed.

Lemma seed_root_evolves rq r : respects (St:=St) evolves (seed_root rq r).
Proof. unfold seed_root, http, generate_private_key, now, ok. solve_respects. Qed.
End evolution.
