(* ===== verification/Lock.v ===== *)
(** * The admission lock ([_AdmissionLock])

    The lock as a step relation over a list of tasks.  Each critical section of
    its internal mutex is one step; an attempt that does not succeed changes
    nothing and is retried.  A task that waits for exclusive access can be
    cancelled while it sleeps, which is before the [try] whose [finally] resets
    the flags. *)
From S2P Require Import Prelude Lineage.

Inductive pc := Idle | Reading | WaitingToWrite | Writing.
#[export] Instance pc_eq_dec : EqDecision pc.
Proof. solve_decision. Defined.

(* src: src/governor_service.py _AdmissionLock.__init__ *)
Record lock := Lock { readers : Z; writer : bool; write_requested : bool; tasks : list pc }.

#[export] Instance lock_rebuild : Rebuild lock := λ l,
  Lock (readers l) (writer l) (write_requested l) (tasks l).

Definition initial_lock (n : nat) : lock := Lock 0 false false (replicate n Idle).

(** ** The critical sections; [None] when the condition does not hold *)
Definition at_pc (i : nat) (p : pc) (l : lock) : bool := bool_decide (tasks l !! i = Some p).
Definition go (i : nat) (p : pc) (l : lock) : lock := l <| tasks ::= <[i := p]> |>.

(* src: src/governor_service.py 774-783 _AdmissionLock.shared *)
Definition enter_shared (i : nat) (l : lock) : option lock :=
  if at_pc i Idle l && negb (writer l) && negb (write_requested l)
  then Some (go i Reading (l <| readers := (readers l + 1)%Z |>)) else None.

(* src: src/governor_service.py 784-788 _AdmissionLock.shared *)
Definition leave_shared (i : nat) (l : lock) : option lock :=
  if at_pc i Reading l then Some (go i Idle (l <| readers := (readers l - 1)%Z |>)) else None.

(* src: src/governor_service.py 790-795 _AdmissionLock.exclusive *)
Definition request_exclusive (i : nat) (l : lock) : option lock :=
  if at_pc i Idle l then Some (go i WaitingToWrite (l <| write_requested := true |>)) else None.

(* src: src/governor_service.py 797-803 _AdmissionLock.exclusive *)
Definition enter_exclusive (i : nat) (l : lock) : option lock :=
  if at_pc i WaitingToWrite l && (readers l =? 0)%Z && negb (writer l)
  then Some (go i Writing (l <| writer := true |>)) else None.

(* src: src/governor_service.py 804-809 _AdmissionLock.exclusive *)
Definition leave_exclusive (i : nat) (l : lock) : option lock :=
  if at_pc i Writing l
  then Some (go i Idle (l <| writer := false |> <| write_requested := false |>)) else None.

(** [CancelledError] raised by [await asyncio.sleep(0)] in the waiting loop *)
Definition cancel_waiting (i : nat) (l : lock) : option lock :=
  if at_pc i WaitingToWrite l then Some (go i Idle l) else None.

Inductive orderly : lock → lock → Prop :=
  | step_enter_shared i l l' : enter_shared i l = Some l' → orderly l l'
  | step_leave_shared i l l' : leave_shared i l = Some l' → orderly l l'
  | step_request i l l' : request_exclusive i l = Some l' → orderly l l'
  | step_enter_exclusive i l l' : enter_exclusive i l = Some l' → orderly l l'
  | step_leave_exclusive i l l' : leave_exclusive i l = Some l' → orderly l l'.

Inductive step : lock → lock → Prop :=
  | step_orderly l l' : orderly l l' → step l l'
  | step_cancel i l l' : cancel_waiting i l = Some l' → step l l'.

Definition reachable (l : lock) : Prop := ∃ n, rtc step (initial_lock n) l.

(** Without a cancellation. *)
Definition orderly_reachable (l : lock) : Prop := ∃ n, rtc orderly (initial_lock n) l.

(** ** Invariant *)
Definition tasks_at (p : pc) (l : lock) : Z := count_if (λ q, bool_decide (q = p)) (tasks l).

Record lock_inv (l : lock) : Prop := {
  inv_readers : readers l = tasks_at Reading l;
  inv_writer : tasks_at Writing l = (if writer l then 1 else 0)%Z;
  inv_exclusive : writer l = true → readers l = 0%Z }.

Lemma count_insert (ts : list pc) i p q r :
  ts !! i = Some p →
  count_if (λ x, bool_decide (x = r)) (<[i := q]> ts) =
    (count_if (λ x, bool_decide (x = r)) ts - (if decide (p = r) then 1 else 0)
     + (if decide (q = r) then 1 else 0))%Z.
Proof.
  unfold count_if. revert i; induction ts as [|t ts IH]; intros [|i] Hi; simplify_eq/=.
  - repeat case_bool_decide; repeat case_decide; simplify_eq/=; lia.
  - specialize (IH i Hi). case_bool_decide; simpl; lia.
Qed.

Lemma at_pc_true i p l : at_pc i p l = true ↔ tasks l !! i = Some p.
Proof. apply bool_decide_eq_true. Qed.

Lemma count_nonneg {A} (p : A → bool) l : (0 ≤ count_if p l)%Z.
Proof. unfold count_if. lia. Qed.

(** A move of one task changes the two counts it leaves and joins. *)
Lemma tasks_at_go i p q r l :
  tasks l !! i = Some p →
  tasks_at r (go i q l) =
    (tasks_at r l - (if decide (p = r) then 1 else 0) + (if decide (q = r) then 1 else 0))%Z.
Proof. intros Hi. exact (count_insert (tasks l) i p q r Hi). Qed.

Lemma count_two (ts : list pc) i j p :
  i ≠ j → ts !! i = Some p → ts !! j = Some p → (2 ≤ count_if (λ q, bool_decide (q = p)) ts)%Z.
Proof.
  intros Hij Hi Hj. pose proof (count_insert ts i p (if decide (p = Idle) then Reading else Idle) p Hi) as E1.
  pose proof (count_insert (<[i := (if decide (p = Idle) then Reading else Idle)]> ts) j p
    (if decide (p = Idle) then Reading else Idle) p) as E2.
  rewrite list_lookup_insert_ne in E2 by done. specialize (E2 Hj).
  pose proof (count_nonneg (λ q, bool_decide (q = p))
    (<[j := (if decide (p = Idle) then Reading else Idle)]> (<[i := (if decide (p = Idle) then Reading else Idle)]> ts))).
  repeat case_decide; simplify_eq; lia.
Qed.

Lemma count_one (ts : list pc) i p :
  ts !! i = Some p → (1 ≤ count_if (λ q, bool_decide (q = p)) ts)%Z.
Proof.
  intros Hi. pose proof (count_insert ts i p (if decide (p = Idle) then Reading else Idle) p Hi) as E.
  pose proof (count_nonneg (λ q, bool_decide (q = p)) (<[i := (if decide (p = Idle) then Reading else Idle)]> ts)).
  repeat case_decide; simplify_eq; lia.
Qed.

Ltac lock_step H :=
  unfold enter_shared, leave_shared, request_exclusive, enter_exclusive, leave_exclusive, cancel_waiting in H;
  match type of H with (if ?c then _ else _) = _ => destruct c eqn:?Hc; [|done] end;
  injection H as <-;
  repeat match goal with Hc : _ && _ = true |- _ => apply andb_true_iff in Hc as [? ?] end;
  repeat match goal with Hc : at_pc _ _ _ = true |- _ => apply at_pc_true in Hc end.

Lemma lock_inv_step l l' : lock_inv l → step l l' → lock_inv l'.
Proof.
  intros [I1 I2 I3] Hs. pose proof (count_nonneg (λ q, bool_decide (q = Writing)) (tasks l)) as Hw.
  pose proof (count_nonneg (λ q, bool_decide (q = Reading)) (tasks l)) as Hr.
  fold (tasks_at Writing l) in Hw. fold (tasks_at Reading l) in Hr.
  destruct Hs as [? ? [i l l' H|i l l' H|i l l' H|i l l' H|i l l' H]|i l l' H]; lock_step H;
    match goal with Hi : tasks l !! i = Some ?p |- _ => pose proof (count_one _ _ _ Hi) as Hone end;
    repeat match goal with Hc : negb _ = true |- _ => apply negb_true_iff in Hc end;
    repeat match goal with Hc : (_ =? _)%Z = true |- _ => apply Z.eqb_eq in Hc end;
    (split; [erewrite tasks_at_go by eassumption; cbn|erewrite tasks_at_go by eassumption; cbn|cbn]);
    unfold tasks_at in *; cbn in *; destruct (writer l); simplify_eq/=; try lia; auto;
    intros _; specialize (I3 eq_refl); lia.
Qed.

Lemma lock_inv_initial n : lock_inv (initial_lock n).
Proof.
  assert (∀ p, p ≠ Idle → tasks_at p (initial_lock n) = 0%Z) as H.
  { intros p Hp. unfold tasks_at, count_if. cbn. induction n; [done|]. cbn. by case_bool_decide. }
  split; [by rewrite H|by rewrite H|done].
Qed.

Lemma reachable_inv l : reachable l → lock_inv l.
Proof.
  intros [n Hr]. pose proof (lock_inv_initial n) as I. induction Hr; [done|]. eauto using lock_inv_step.
Qed.

(** A writer is alone. *)
Lemma writer_alone l i j p :
  lock_inv l → tasks l !! i = Some Writing → i ≠ j → tasks l !! j = Some p → p ≠ Reading ∧ p ≠ Writing.
Proof.
  intros [I1 I2 I3] Hi Hij Hj. pose proof (count_one _ _ _ Hi) as H1. unfold tasks_at in *.
  destruct (writer l) eqn:W; [|lia]. specialize (I3 eq_refl). split; intros ->.
  - pose proof (count_one _ _ _ Hj). lia.
  - pose proof (count_two _ _ _ _ Hij Hi Hj). lia.
Qed.

(** A set request has its writer, as long as nobody is cancelled. *)
Definition requested_inv (l : lock) : Prop :=
  write_requested l = true → (1 ≤ tasks_at WaitingToWrite l + tasks_at Writing l)%Z.

Lemma requested_inv_step l l' : lock_inv l → requested_inv l → orderly l l' → requested_inv l'.
Proof.
  intros _ I Hs. pose proof (count_nonneg (λ q, bool_decide (q = Writing)) (tasks l)) as Hw.
  pose proof (count_nonneg (λ q, bool_decide (q = WaitingToWrite)) (tasks l)) as Hr.
  fold (tasks_at Writing l) in Hw. fold (tasks_at WaitingToWrite l) in Hr. unfold requested_inv in *.
  destruct Hs as [i l l' H|i l l' H|i l l' H|i l l' H|i l l' H]; lock_step H;
    match goal with Hi : tasks l !! i = Some ?p |- _ => pose proof (count_one _ _ _ Hi) as Hone end;
    intros Hreq; erewrite !tasks_at_go by eassumption; cbn in Hreq |- *; try done;
    unfold tasks_at in *; cbn in *; repeat case_decide; simplify_eq; try specialize (I Hreq); lia.
Qed.

Lemma orderly_reachable_inv l : orderly_reachable l → lock_inv l ∧ requested_inv l.
Proof.
  intros [n Hr]. pose proof (lock_inv_initial n) as I. assert (requested_inv (initial_lock n)) as J by done.
  revert I J. induction Hr as [|l l1 l' Hs _ IH]; intros I J; [done|]. apply IH.
  - eapply lock_inv_step, step_orderly; done.
  - by eapply requested_inv_step.
Qed.

Lemma tasks_at_pos p l : (0 < tasks_at p l)%Z → ∃ i, tasks l !! i = Some p.
Proof.
  unfold tasks_at, count_if. induction (tasks l) as [|q ts IH]; cbn; [lia|]. case_bool_decide; subst.
  - intros _. by exists 0.
  - intros Hp. destruct (IH Hp) as [i Hi]. by exists (S i).
Qed.

(** ** Properties *)


(** C28: the lock never deadlocks: whenever some task is not idle, some task can
    leave, or a waiting writer can enter; and without cancellations, when all
    tasks are idle every task can enter in shared mode. *)
Theorem lock_makes_progress l :
  (reachable l → ∀ i p, tasks l !! i = Some p → p ≠ Idle →
     ∃ j l', leave_shared j l = Some l' ∨ leave_exclusive j l = Some l' ∨ enter_exclusive j l = Some l') ∧
  (orderly_reachable l → (∀ i p, tasks l !! i = Some p → p = Idle) →
     ∀ i, i < length (tasks l) → ∃ l', enter_shared i l = Some l').
Proof.
  assert (∀ p, (∀ i q, tasks l !! i = Some q → q = Idle) → p ≠ Idle → ¬ (0 < tasks_at p l)%Z) as Hidle.
  { intros p Hall Hp Hpos. apply tasks_at_pos in Hpos as [i Hi]. by apply Hall in Hi. }
  split.
  - intros Hr%reachable_inv i p Hi Hp. destruct Hr as [I1 I2 I3].
    assert (∀ j, tasks l !! j = Some Reading → ∃ l', leave_shared j l = Some l') as Hread.
    { intros j Hj. unfold leave_shared. rewrite (proj2 (at_pc_true _ _ _) Hj). eauto. }
    assert (∀ j, tasks l !! j = Some Writing → ∃ l', leave_exclusive j l = Some l') as Hwrite.
    { intros j Hj. unfold leave_exclusive. rewrite (proj2 (at_pc_true _ _ _) Hj). eauto. }
    destruct p; [done|destruct (Hread i Hi); eauto| |destruct (Hwrite i Hi); eauto].
    destruct (writer l) eqn:Hw.
    { destruct (tasks_at_pos Writing l) as [j Hj]; [lia|]. destruct (Hwrite j Hj); eauto. }
    destruct (decide (readers l = 0%Z)) as [H0|H0].
    + exists i. unfold enter_exclusive. rewrite (proj2 (at_pc_true _ _ _) Hi), H0, Hw. cbn. eauto.
    + pose proof (count_nonneg (λ q, bool_decide (q = Reading)) (tasks l)). unfold tasks_at in *.
      destruct (tasks_at_pos Reading l) as [j Hj]; [unfold tasks_at; lia|]. destruct (Hread j Hj); eauto.
  - intros [[I1 I2 I3] J]%orderly_reachable_inv Hall i Hi. unfold enter_shared.
    destruct (lookup_lt_is_Some_2 _ _ Hi) as [p Hp]. rewrite (Hall i p Hp) in Hp.
    rewrite (proj2 (at_pc_true _ _ _) Hp). pose proof (Hidle Writing Hall ltac:(done)).
    pose proof (Hidle WaitingToWrite Hall ltac:(done)).
    destruct (writer l); [lia|]. unfold requested_inv in J. destruct (write_requested l); [|cbn; eauto].
    specialize (J eq_refl). lia.
Qed.

(** The request flag is not tied to the requests.  A writer that is cancelled
    while it waits leaves it set, and with every task idle nobody can enter in
    shared mode; a writer that leaves clears it for a second writer that still
    waits, and readers pass that writer. *)
Theorem lock_request_flag_anomalies :
  (∃ l, reachable l ∧ (∀ i p, tasks l !! i = Some p → p = Idle) ∧ ∀ i, enter_shared i l = None) ∧
  (∃ l l' i j, reachable l ∧ tasks l !! i = Some WaitingToWrite ∧ enter_shared j l = Some l').
Proof.
  split.
  - exists (Lock 0 false true [Idle]). split_and!.
    + exists 1. eapply rtc_l; [eapply step_orderly, (step_request 0); reflexivity|].
      apply rtc_once, (step_cancel 0). reflexivity.
    + intros [|i] p; cbn; [by intros [= <-]|done].
    + intros i. unfold enter_shared. by rewrite andb_false_r.
  - exists (Lock 0 false false [Idle; WaitingToWrite]). eexists. exists 1, 0. split_and!; [|done|reflexivity].
    exists 2. eapply rtc_l; [eapply step_orderly, (step_request 0); reflexivity|].
    eapply rtc_l; [eapply step_orderly, (step_request 1); reflexivity|].
    eapply rtc_l; [eapply step_orderly, (step_enter_exclusive 0); reflexivity|].
    apply rtc_once, step_orderly, (step_leave_exclusive 0). reflexivity.
Qed.

