(* ===== verification/Backpressure.v ===== *)
(** * Backpressure, drain and readiness

    The in-flight counter of [BackpressureMiddleware] with the requests that
    are inside the application, as a step relation: a request begins (and is
    refused or admitted), a request ends, the service shuts down or starts. *)
From S2P Require Import Prelude Types Lineage.

Local Open Scope Z_scope.

(* src: src/governor_service.py 812-816 _in_flight *)
Record gate := Gate { in_flight : Z; draining : bool; ready : bool; active : list string }.

#[export] Instance gate_rebuild : Rebuild gate := λ g, Gate (in_flight g) (draining g) (ready g) (active g).

Section gate.
Variable s : settings.

(* src: src/governor_service.py _acquire_in_flight *)
Definition acquire_in_flight (path : string) (g : gate) : option (Z * string) * gate :=
  if decide (path = "/ready") then (None, g)
  else if draining g then (Some (503, "Service is shutting down"), g)
  else if MAX_IN_FLIGHT_REQUESTS s <=? in_flight g then (Some (429, "Too many in-flight requests"), g)
  else (None, g <| in_flight := in_flight g + 1 |>).

(* src: src/governor_service.py _release_in_flight *)
Definition release_in_flight (path : string) (g : gate) : gate :=
  if decide (path = "/ready") then g else g <| in_flight := Z.max 0 (in_flight g - 1) |>.

(** The middleware: an admitted request runs between the two. *)
(* src: src/governor_service.py 855-868 BackpressureMiddleware.__call__ *)
Definition begin_request (path : string) (g : gate) : option (Z * string) * gate :=
  match acquire_in_flight path g with
  | (Some reject, g) => (Some reject, g)
  | (None, g) => (None, g <| active ::= cons path |>)
  end.

(* src: src/governor_service.py 867-870 BackpressureMiddleware.__call__ *)
Definition end_request (i : nat) (g : gate) : option gate :=
  match active g !! i with
  | None => None
  | Some path => Some (release_in_flight path (g <| active ::= delete i |>))
  end.

(* src: src/governor_service.py 946-951 shutdown_event *)
Definition begin_shutdown (g : gate) : gate := g <| ready := false |> <| draining := true |>.

(* src: src/governor_service.py 917-924 startup_event *)
Definition startup (g : gate) : gate := g <| ready := true |> <| draining := false |>.

(** The status of [/ready]. *)
(* src: src/governor_service.py ready_probe *)
Definition ready_probe (g : gate) : Z :=
  if negb (ready g) then 503 else if draining g then 503 else 200.

Inductive gate_step : gate → gate → Prop :=
  | gate_begin path g : gate_step g (begin_request path g).2
  | gate_end i g g' : end_request i g = Some g' → gate_step g g'
  | gate_shutdown g : gate_step g (begin_shutdown g)
  | gate_startup g : gate_step g (startup g).

Definition initial_gate : gate := Gate 0 false true [].

Definition counted (path : string) : bool := negb (bool_decide (path = "/ready")).

(** The counter is the number of admitted requests, and within the limit. *)
Record gate_inv (g : gate) : Prop := {
  gi_count : in_flight g = count_if counted (active g);
  gi_limit : in_flight g ≤ Z.max 0 (MAX_IN_FLIGHT_REQUESTS s) }.

Lemma count_delete (l : list string) i p :
  l !! i = Some p → count_if counted (delete i l) = count_if counted l - (if counted p then 1 else 0).
Proof.
  unfold count_if. revert i; induction l as [|x l IH]; intros [|i] Hi; simplify_eq/=.
  - destruct (counted p); simpl; lia.
  - specialize (IH i Hi). destruct (counted x); simpl; lia.
Qed.

Lemma count_cons p l : count_if counted (p :: l) = (if counted p then 1 else 0) + count_if counted l.
Proof. unfold count_if. cbn [List.filter]. destruct (counted p); cbn [length]; lia. Qed.

Lemma gate_inv_step g g' : gate_inv g → gate_step g g' → gate_inv g'.
Proof.
  intros [I1 I2] Hs.
  assert (0 ≤ count_if counted (active g)) as Hnn by (unfold count_if; lia).
  destruct Hs as [path g|i g g' H|g|g]; [| |done|done].
  - unfold begin_request, acquire_in_flight. case_decide as Hp; [|destruct (draining g); [done|]].
    + split; cbn -[count_if]; [|done]. rewrite count_cons, I1. unfold counted at 2.
      rewrite bool_decide_eq_true_2 by done. done.
    + destruct (Z.leb_spec (MAX_IN_FLIGHT_REQUESTS s) (in_flight g)); [done|].
      split; cbn -[count_if]; [|lia]. rewrite count_cons, I1. unfold counted at 2.
      rewrite bool_decide_eq_false_2 by done. cbn -[count_if]. lia.
  - unfold end_request, release_in_flight in H. destruct (active g !! i) as [p|] eqn:Hi; [|done].
    pose proof (count_delete _ _ _ Hi) as Hc. injection H as <-.
    assert (0 ≤ count_if counted (delete i (active g))) by (unfold count_if; lia).
    case_decide as Hp.
    + assert (counted p = false) as Hcp by (unfold counted; by rewrite bool_decide_eq_true_2).
      rewrite Hcp in Hc. split; [|done]. change (in_flight g = count_if counted (delete i (active g))). lia.
    + assert (counted p = true) as Hcp by (unfold counted; by rewrite bool_decide_eq_false_2).
      rewrite Hcp in Hc. set (g' := delete i (active g)) in *.
      split; [change (Z.max 0 (in_flight g - 1) = count_if counted g')
             |change (Z.max 0 (in_flight g - 1) ≤ Z.max 0 (MAX_IN_FLIGHT_REQUESTS s))]; lia.
Qed.

Lemma gate_inv_reachable g : rtc gate_step initial_gate g → gate_inv g.
Proof.
  intros Hr. assert (gate_inv initial_gate) as I by (split; cbn; [done|lia]).
  revert I. induction Hr; [done|]. eauto using gate_inv_step.
Qed.
End gate.

(** C29: at any time the in-flight counter is the number of admitted requests
    that are still running (the readiness probe apart), it never exceeds
    [MAX_IN_FLIGHT_REQUESTS], and while the service drains every other request
    is refused with 503 and the probe answers 503. *)
Theorem in_flight_is_exact_and_bounded s g :
  rtc (gate_step s) initial_gate g →
  in_flight g = count_if counted (active g) ∧ in_flight g ≤ Z.max 0 (MAX_IN_FLIGHT_REQUESTS s) ∧
  (draining g = true → ready_probe g = 503 ∧
     ∀ path, path ≠ "/ready" → begin_request s path g = (Some (503, "Service is shutting down"), g)).
Proof.
  intros [Hc Hl]%gate_inv_reachable. split_and!; [done..|]. intros Hd. split.
  - unfold ready_probe. rewrite Hd. by destruct (ready g).
  - intros path Hp. unfold begin_request, acquire_in_flight. by rewrite decide_False, Hd.
Qed.

Lemma in_flight_is_exact_and_bounded_witness :
  let s := default_settings "key" <| MAX_IN_FLIGHT_REQUESTS := 1 |> in
  let g := (begin_request s "/designate" initial_gate).2 in
  (begin_request s "/designate" g).1 = Some (429, "Too many in-flight requests") ∧ in_flight g ≤ Z.max 0 1.
Proof.
  intros s g. split; [done|].
  exact (proj1 (proj2 (in_flight_is_exact_and_bounded s g (rtc_once _ _ (gate_begin s "/designate" initial_gate))))).
Defined.
