(* ===== verification/Drain.v ===== *)
(** * Start-up, shutdown and the middleware's refusals

    [shutdown_event] turns new requests away and polls the in-flight counter
    until it is zero or the grace period is over; what the other tasks do during
    each sleep is arbitrary.  Also here: what [startup_event] prints, and the
    response with which the middleware refuses a request. *)
From Stdlib Require Import QArith Qround Lqa.
From stdpp Require Import pretty.
From S2P Require Import Prelude Dict Types Encoding Timeparse Json Lineage Backpressure.

(** ** Shutdown *)

(** What other tasks do while the service drains: requests come and go. *)
Inductive serving_step (s : settings) : gate → gate → Prop :=
  | serve_begin path g : serving_step s g (begin_request s path g).2
  | serve_end i g g' : end_request i g = Some g' → serving_step s g g'.

Section drain.
Variable s : settings.
(** [time.monotonic()] in seconds at the start and at each test of the loop, and
    what the other tasks do during each [asyncio.sleep(0.05)] *)
Context (monotonic : nat → Q) (others : nat → gate → gate).

(* src: src/governor_service.py 953-953 shutdown_event *)
Definition deadline : Q := (monotonic 0 + GRACEFUL_DRAIN_TIMEOUT_SECONDS s)%Q.

Definition before (a b : Q) : bool := negb (Qle_bool b a).

(* src: src/governor_service.py 954-955 shutdown_event *)
Fixpoint drain_loop (fuel i : nat) (g : gate) : option (nat * gate) :=
  match fuel with
  | O => None
  | S fuel =>
    if (0 <? in_flight g)%Z && before (monotonic i) deadline then drain_loop fuel (S i) (others i g)
    else Some (i, g)
  end.

(** The backend is closed when the loop is over. *)
(* src: src/governor_service.py 946-958 shutdown_event *)
Definition shutdown_event (fuel : nat) (g : gate) : option (nat * gate) := drain_loop fuel 1 (begin_shutdown g).

(** Tests of the loop in the grace period: twenty a second. *)
Definition drain_fuel : nat := Z.to_nat (Qceiling (GRACEFUL_DRAIN_TIMEOUT_SECONDS s * 20)) + 2.

(** A sleep lasts at least as long as it was asked to. *)
Definition sleeps : Prop :=
  (monotonic 0 <= monotonic 1)%Q ∧ ∀ i, (monotonic i + (1 # 20) <= monotonic (S i))%Q.

Definition others_serve : Prop := ∀ i g, rtc (serving_step s) g (others i g).

Lemma before_true a b : before a b = true ↔ (a < b)%Q.
Proof.
  unfold before. rewrite negb_true_iff. split.
  - intros H. apply Qnot_le_lt. intros Hle%Qle_bool_iff. congruence.
  - intros H. apply not_true_iff_false. rewrite Qle_bool_iff. by apply Qlt_not_le.
Qed.

(** ** While it drains *)

(** Requests that are inside can only go. *)
Lemma serving_draining g g' :
  gate_inv s g → draining g = true → serving_step s g g' →
  gate_inv s g' ∧ draining g' = true ∧ ready g' = ready g ∧ (in_flight g' <= in_flight g)%Z.
Proof.
  intros I Hd Hs. split_and!.
  - destruct Hs; eapply gate_inv_step; [done|constructor|done|by econstructor].
  - destruct Hs as [path g|i g g' H].
    + unfold begin_request, acquire_in_flight. rewrite Hd. by case_decide.
    + unfold end_request, release_in_flight in H. destruct (active g !! i); [|done]. injection H as <-. by case_decide.
  - destruct Hs as [path g|i g g' H].
    + unfold begin_request, acquire_in_flight. rewrite Hd. by case_decide.
    + unfold end_request, release_in_flight in H. destruct (active g !! i); [|done]. injection H as <-. by case_decide.
  - destruct Hs as [path g|i g g' H].
    + unfold begin_request, acquire_in_flight. rewrite Hd. by case_decide.
    + destruct I as [I _]. assert (0 <= in_flight g)%Z by (rewrite I; unfold count_if; apply Nat2Z.is_nonneg).
      unfold end_request, release_in_flight in H. destruct (active g !! i); [|done]. injection H as <-.
      case_decide; [done|]. change (Z.max 0 (in_flight g - 1) <= in_flight g)%Z. lia.
Qed.

Lemma serving_draining_rtc g g' :
  gate_inv s g → draining g = true → rtc (serving_step s) g g' →
  gate_inv s g' ∧ draining g' = true ∧ ready g' = ready g ∧ (in_flight g' <= in_flight g)%Z.
Proof.
  intros I Hd Hr. induction Hr as [|g g1 g2 Hs _ IH]; [split_and!; done|].
  destruct (serving_draining _ _ I Hd Hs) as (I1 & D1 & R1 & L1).
  destruct (IH I1 D1) as (I2 & D2 & R2 & L2). split_and!; [done|done|congruence|lia].
Qed.

Lemma clock_runs : sleeps → ∀ i, (monotonic 0 + inject_Z (Z.of_nat i) * (1 # 20) <= monotonic (S i))%Q.
Proof.
  intros [H0 Hs] i. induction i as [|i IH].
  - change (inject_Z (Z.of_nat 0)) with 0%Q. lra.
  - specialize (Hs (S i)). rewrite Nat2Z.inj_succ, <-Z.add_1_l, inject_Z_plus.
    change (inject_Z 1) with 1%Q. lra.
Qed.

(** A test of the loop with the deadline ahead has a small number. *)
Lemma early_tests : sleeps → ∀ i, before (monotonic (S i)) deadline = true → i < Z.to_nat (Qceiling (GRACEFUL_DRAIN_TIMEOUT_SECONDS s * 20)).
Proof.
  intros Hs i Hb%before_true. pose proof (clock_runs Hs i) as Hc. unfold deadline in Hb.
  assert (inject_Z (Z.of_nat i) < GRACEFUL_DRAIN_TIMEOUT_SECONDS s * 20)%Q as Hi by lra.
  pose proof (Qle_ceiling (GRACEFUL_DRAIN_TIMEOUT_SECONDS s * 20)) as Hq.
  pose proof (Qlt_le_trans _ _ _ Hi Hq) as Hz. rewrite <-Zlt_Qlt in Hz. lia.
Qed.

(** The loop keeps [P] and ends on a state where its test fails. *)
Lemma drain_loop_ends (P : gate → Prop) :
  sleeps → (∀ i g, P g → P (others i g)) →
  let N := Z.to_nat (Qceiling (GRACEFUL_DRAIN_TIMEOUT_SECONDS s * 20)) in
  ∀ fuel i g, P g → i ≤ N → N < fuel + i →
  ∃ n g', drain_loop fuel (S i) g = Some (n, g') ∧ P g' ∧ n ≤ S N ∧
    ((0 < in_flight g')%Z → (deadline <= monotonic n)%Q).
Proof.
  intros Hs HP N fuel. induction fuel as [|fuel IH]; intros i g Hg Hi Hf; cbn [drain_loop]; [lia|].
  destruct ((0 <? in_flight g)%Z && before (monotonic (S i)) deadline) eqn:Ht.
  - apply andb_true_iff in Ht as [_ Ht]. apply (early_tests Hs) in Ht. apply IH; [by apply HP|exact Ht|lia].
  - exists (S i), g. split_and!; [done|done|lia|]. intros H0.
    rewrite (proj2 (Z.ltb_lt _ _) H0) in Ht. cbn in Ht. unfold before in Ht.
    apply negb_false_iff in Ht. by apply Qle_bool_iff.
Qed.
End drain.

(** ** The middleware's refusal *)
Record asgi_response := AsgiResponse { start_status : Z; headers : list (string * string); response_body : string }.

(* src: src/governor_service.py BackpressureMiddleware._send_json_response *)
Definition send_json_response (status : Z) (detail retry_after : string) : asgi_response :=
  let body := dumps false (JObj [("detail", JStr detail)]) in
  AsgiResponse status
    [("content-type", "application/json"); ("Retry-After", retry_after);
     ("content-length", pretty (String.length body))] body.

(** What the middleware does with a scope: hand it on uncounted, refuse it, or
    let it in. *)
Inductive disposition := PassThrough | Refused (r : asgi_response) | LetIn.

(* src: src/governor_service.py 855-865 BackpressureMiddleware.__call__ *)
Definition middleware (s : settings) (scope_type : string) (path : option string) (g : gate) : disposition * gate :=
  if negb (bool_decide (scope_type = "http")) then (PassThrough, g)
  else
    match begin_request s (default "" path) g with
    | (Some (status, detail), g) => (Refused (send_json_response status detail "1"), g)
    | (None, g) => (LetIn, g)
    end.

(** ** Start-up *)
Record notices := Notices { printed : list string; warned : bool }.

Definition rule : string := "===========================================================".

(* src: src/governor_service.py 926-943 startup_event *)
Definition startup_notices (s : settings) : notices :=
  Notices
    (if bool_decide (ENFORCEMENT_MODE s = "shadow") && SHADOW_BANNER s then
       [rule; "WARNING: GASC GOVERNOR IS RUNNING IN SHADOW MODE"; "Writes that fail policy checks WILL BE ADMITTED.";
        "Decisions are recorded in shadow_decisions for auditing."; rule]
     else [])
    (negb (match OPA_POLICY_BUNDLE s with Some b => ends_with ".wasm" b | None => false end)).

(* src: src/governor_service.py 917-943 startup_event *)
Definition startup_event (s : settings) (g : gate) : notices * gate := (startup_notices s, startup g).

(** ** Properties *)

(** C35: shutting down ends: within twenty tests of the counter for each second of
    the grace period (and one more) the loop is over, whatever the other tasks
    do meanwhile, and then either no request is inside or the grace period has
    elapsed; no request is let in while it waits, and readiness stays off. *)
Theorem shutdown_drains (s : settings) (monotonic : nat → Q) (others : nat → gate → gate) (g : gate) :
  sleeps monotonic → others_serve s others → rtc (gate_step s) initial_gate g →
  ∃ n g', shutdown_event s monotonic others (drain_fuel s) g = Some (n, g') ∧ n < drain_fuel s ∧
    (in_flight g' = count_if counted (active g') ∧ in_flight g' <= in_flight g)%Z ∧
    draining g' = true ∧ ready_probe g' = 503%Z ∧
    (count_if counted (active g') = 0%Z ∨ (deadline s monotonic <= monotonic n)%Q).
Proof.
  intros Hs Ho Hr. apply gate_inv_reachable in Hr.
  set (P g' := gate_inv s g' ∧ draining g' = true ∧ ready g' = false ∧ (in_flight g' <= in_flight g)%Z).
  destruct (drain_loop_ends s monotonic others P Hs) with (fuel := drain_fuel s) (i := 0) (g := begin_shutdown g)
    as (n & g' & Hrun & (I & D & R & L) & Hn & Hd); [| |lia|unfold drain_fuel; lia|].
  - intros i g1 (I & D & R & L). destruct (serving_draining_rtc s _ _ I D (Ho i g1)) as (? & ? & ? & ?).
    split_and!; [done|done|congruence|lia].
  - destruct Hr as [I1 I2]. split_and!; [by split|done|done|done].
  - exists n, g'. split_and!; [exact Hrun|unfold drain_fuel; lia|apply I|exact L|done| |].
    + unfold ready_probe. by rewrite R.
    + rewrite <-(gi_count _ _ I). destruct (decide (0 < in_flight g')%Z) as [H0|H0]; [right; by apply Hd|left].
      assert (0 <= in_flight g')%Z by (rewrite (gi_count _ _ I); unfold count_if; apply Nat2Z.is_nonneg). lia.
Qed.

(** The announced length of a refusal is that of its body, and the body reads
    back as the detail. *)
Lemma refusal_is_wellformed s scope_type path g r g' :
  middleware s scope_type path g = (Refused r, g') →
  g' = g ∧ (start_status r = 503 ∨ start_status r = 429)%Z ∧
  ("content-length", pretty (String.length (response_body r))) ∈ headers r ∧
  ∃ detail, loads (response_body r) = Some (JObj [("detail", JStr detail)]).
Proof.
  unfold middleware, begin_request, acquire_in_flight. destruct (negb _); [done|]. case_decide; [done|].
  destruct (draining g); [|destruct (_ <=? _)%Z; [|done]]; intros [= <- <-]; (split_and!; [done|auto|set_solver|]);
    eexists; apply loads_dumps; (split_and!; [apply NoDup_singleton|done|done]).
Qed.

(** Two requests are inside when the service is told to stop; one leaves during
    the first sleep, the other during the third. *)
Definition two_inside : gate :=
  (begin_request (default_settings "key") "/b" (begin_request (default_settings "key") "/a" initial_gate).2).2.
Definition leave_first (i : nat) (g : gate) : gate :=
  if bool_decide (i = 1 ∨ i = 3) then default g (end_request 0 g) else g.
Definition steady (i : nat) : Q := (inject_Z (Z.of_nat i) * (1 # 10))%Q.

Lemma steady_sleeps : sleeps steady.
Proof.
  split; [done|]. intros i. unfold steady. rewrite Nat2Z.inj_succ, <-Z.add_1_l, inject_Z_plus.
  change (inject_Z 1) with 1%Q. lra.
Qed.

Lemma leave_first_serves s : others_serve s leave_first.
Proof.
  intros i g. unfold leave_first. case_bool_decide; [|apply rtc_refl].
  destruct (end_request 0 g) eqn:He; [|apply rtc_refl]. apply rtc_once. by econstructor.
Qed.

Lemma shutdown_drains_witness :
  shutdown_event (default_settings "key") steady leave_first 10 two_inside = Some (4, Gate 0 true false []) ∧
  ∃ n g', shutdown_event (default_settings "key") steady leave_first (drain_fuel (default_settings "key")) two_inside
      = Some (n, g') ∧ draining g' = true.
Proof.
  split; [by vm_compute|].
  destruct (shutdown_drains (default_settings "key") steady leave_first two_inside steady_sleeps (leave_first_serves _))
    as (n & g' & Hrun & _ & _ & Hd & _); [|by exists n, g'].
  eapply rtc_l; [apply (gate_begin _ "/a")|]. apply rtc_once. apply (gate_begin _ "/b").
Defined.
