(* ===== verification/Startup.v ===== *)
(** * Starting the process

    [governor_service.py] chooses its backend when it is imported.  The backends
    derive from an abstract base class, and Python refuses to make an object of
    a class that has an abstract method left.  A class is modelled by the names
    of its attributes and of its abstract methods, with the rule by which
    [ABCMeta] computes the latter.  Also here: what start-up and shutdown ask
    the backend for, and the older interface of [state_backend.py]. *)
From S2P Require Import Prelude Dict Types Encoding Json.

(** ** Abstract base classes *)

(** Attribute names with whether the attribute is an abstract method. *)
Definition namespace : Type := dict bool.

Record pyclass := PyClass { attributes : namespace; abstracts : list string }.

(** [getattr(cls, name)] looks in the class, then in its base. *)
Definition lookup (own base : namespace) (name : string) : option bool :=
  match dict_get name own with Some a => Some a | None => dict_get name base end.

(** [ABCMeta.__new__] for a class with at most one base. *)
Definition abc_new (own : namespace) (base : pyclass) : pyclass :=
  PyClass (own ++ attributes base)
    (dict_keys (List.filter snd own) ++
     List.filter (λ name, default false (lookup own (attributes base) name)) (abstracts base)).

Definition ABC : pyclass := PyClass [] [].

(** Calling the class: [TypeError] if an abstract method is left. *)
Definition instantiable (c : pyclass) : bool := bool_decide (abstracts c = []).

(** [hasattr] *)
Definition has_attr (c : pyclass) (name : string) : bool := dict_mem name (attributes c).

Definition abstract_methods (names : list string) : namespace := (λ n, (n, true)) <$> names.
Definition methods (names : list string) : namespace := (λ n, (n, false)) <$> names.

(** ** The classes of the repository *)
(* src: src/governor_service.py 104-183 BaseStateBackend *)
Definition base_methods : list string := [
  "transaction"; "get_dag"; "get_quarantine_ledger"; "get_repair_candidates"; "update_repair_candidate";
  "commit_node"; "log_quarantine_event"; "add_to_quarantine_ledger"; "apply_quarantine_transaction";
  "get_quarantine_events"; "compute_blast_radius"; "add_checkpoint"; "add_external_effect";
  "check_external_effect"; "has_external_effects"; "get_checkpoints"; "reset"; "record_signal_attempt";
  "count_recent_signals"; "count_recent_signals_global"; "get_signal_outcome_counts"; "get_node_content_hashes";
  "add_substitute_declaration"; "get_substitute_declarations"; "record_detector_event"; "get_detector_events";
  "get_critical_dependents"; "record_tainted_rejection"; "record_tainted_offer"; "record_tainted_completion";
  "check_retry_completion"; "get_tainted_action_stats"; "find_continuity_replacement"].

(* src: src/state_backend.py 6-66 BaseStateBackend *)
Definition legacy_methods : list string := [
  "get_dag"; "get_quarantine_ledger"; "get_repair_candidates"; "commit_node"; "apply_quarantine_transaction";
  "compute_blast_radius"; "add_checkpoint"; "get_checkpoints"; "reset"; "record_reintegration";
  "get_active_horizon_set"; "get_expired_horizon_set"; "renew_trust"; "apply_withdrawal_transaction";
  "get_withdrawal_ledger"; "record_calibration_run"; "get_calibration_runs"; "record_signal_attempt";
  "count_recent_signals"; "count_recent_signals_global"; "get_signal_outcome_counts"; "record_shadow_decision";
  "nodes_exist"; "are_quarantined"; "compute_covers_interval_gap"; "compute_quarantine_digest"].

(* src: src/governor_service.py 185-185 MemoryStateBackend *)
Definition memory_methods : list string := [
  "__init__"; "_reset_sync"; "get_dag"; "get_quarantine_ledger"; "get_repair_candidates";
  "update_repair_candidate"; "commit_node"; "log_quarantine_event"; "add_to_quarantine_ledger";
  "apply_quarantine_transaction"; "get_quarantine_events"; "add_checkpoint"; "get_checkpoints";
  "compute_blast_radius"; "add_external_effect"; "check_external_effect"; "has_external_effects"; "reset";
  "record_reintegration"; "get_active_horizon_set"; "get_expired_horizon_set"; "renew_trust";
  "apply_withdrawal_transaction"; "get_withdrawal_ledger"; "record_calibration_run"; "get_calibration_runs";
  "record_signal_attempt"; "count_recent_signals"; "count_recent_signals_global"; "get_signal_outcome_counts";
  "record_shadow_decision"; "nodes_exist"; "are_quarantined"; "get_node_content_hashes";
  "compute_covers_interval_gap"; "compute_quarantine_digest"; "compute_state_digest";
  "record_continuity_exposure"; "get_continuity_exposures"; "record_reintegration_evidence";
  "add_substitute_declaration"; "get_substitute_declarations"; "record_detector_event"; "get_detector_events";
  "get_critical_dependents"; "record_tainted_rejection"; "record_tainted_offer"; "record_tainted_completion";
  "check_retry_completion"; "get_tainted_action_stats"; "find_continuity_replacement"].

(* src: src/sqlite_backend.py 14-14 SqliteStateBackend *)
Definition sqlite_methods : list string := [
  "__init__"; "transaction"; "_connect"; "init_db"; "get_dag"; "get_quarantine_ledger"; "get_repair_candidates";
  "update_repair_candidate"; "commit_node"; "log_quarantine_event"; "add_to_quarantine_ledger";
  "apply_quarantine_transaction"; "get_quarantine_events"; "compute_blast_radius"; "_set_repair_candidate";
  "add_checkpoint"; "get_checkpoints"; "add_external_effect"; "check_external_effect"; "has_external_effects";
  "reset"; "record_reintegration"; "record_reintegration_evidence"; "get_active_horizon_set";
  "get_expired_horizon_set"; "renew_trust"; "apply_withdrawal_transaction"; "get_withdrawal_ledger";
  "record_calibration_run"; "get_calibration_runs"; "record_signal_attempt"; "count_recent_signals";
  "count_recent_signals_global"; "get_signal_outcome_counts"; "record_shadow_decision"; "nodes_exist";
  "get_node_content_hashes"; "are_quarantined"; "compute_quarantine_digest"; "compute_state_digest";
  "record_continuity_exposure"; "get_continuity_exposures"; "compute_covers_interval_gap";
  "add_substitute_declaration"; "get_substitute_declarations"; "record_detector_event"; "get_detector_events";
  "get_critical_dependents"; "record_tainted_rejection"; "record_tainted_offer"; "record_tainted_completion";
  "check_retry_completion"; "get_tainted_action_stats"; "find_continuity_replacement"].

(* src: src/postgres_backend.py 36-36 PostgresStateBackend *)
Definition postgres_methods : list string := [
  "__init__"; "_setup_connection"; "_get_pool"; "close"; "advisory_shared"; "advisory_exclusive"; "init_db";
  "get_dag"; "commit_node"; "nodes_exist"; "get_node_content_hashes"; "are_quarantined";
  "get_quarantine_ledger"; "log_quarantine_event"; "add_to_quarantine_ledger"; "apply_quarantine_transaction";
  "get_quarantine_events"; "compute_blast_radius"; "_set_repair_candidate"; "get_repair_candidates";
  "update_repair_candidate"; "add_checkpoint"; "get_checkpoints"; "add_external_effect";
  "check_external_effect"; "has_external_effects"; "record_reintegration_evidence"; "compute_state_digest";
  "record_continuity_exposure"; "get_continuity_exposures"; "record_reintegration"; "get_active_horizon_set";
  "get_expired_horizon_set"; "renew_trust"; "apply_withdrawal_transaction"; "get_withdrawal_ledger";
  "record_calibration_run"; "get_calibration_runs"; "record_signal_attempt"; "count_recent_signals";
  "count_recent_signals_global"; "get_signal_outcome_counts"; "record_shadow_decision";
  "compute_quarantine_digest"; "compute_covers_interval_gap"; "add_substitute_declaration";
  "get_substitute_declarations"; "record_detector_event"; "get_detector_events"; "get_critical_dependents";
  "record_tainted_rejection"; "record_tainted_offer"; "record_tainted_completion"; "check_retry_completion";
  "get_tainted_action_stats"; "find_continuity_replacement"; "reset"].

Definition BaseStateBackend : pyclass := abc_new (abstract_methods base_methods) ABC.
Definition LegacyStateBackend : pyclass := abc_new (abstract_methods legacy_methods) ABC.
Definition MemoryStateBackend : pyclass := abc_new (methods memory_methods) BaseStateBackend.
Definition SqliteStateBackend : pyclass := abc_new (methods sqlite_methods) BaseStateBackend.
Definition PostgresStateBackend : pyclass := abc_new (methods postgres_methods) BaseStateBackend.

(** What the handlers and [process_recurrence] call without asking first. *)
Definition handler_calls : list string := [
  "add_checkpoint"; "add_external_effect"; "add_substitute_declaration"; "apply_quarantine_transaction";
  "apply_withdrawal_transaction"; "are_quarantined"; "check_retry_completion"; "commit_node";
  "compute_blast_radius"; "compute_covers_interval_gap"; "compute_quarantine_digest"; "compute_state_digest";
  "count_recent_signals"; "count_recent_signals_global"; "find_continuity_replacement";
  "get_active_horizon_set"; "get_calibration_runs"; "get_checkpoints"; "get_continuity_exposures";
  "get_critical_dependents"; "get_dag"; "get_expired_horizon_set"; "get_node_content_hashes";
  "get_quarantine_events"; "get_quarantine_ledger"; "get_repair_candidates"; "get_signal_outcome_counts";
  "get_substitute_declarations"; "get_tainted_action_stats"; "get_withdrawal_ledger"; "nodes_exist";
  "record_calibration_run"; "record_continuity_exposure"; "record_detector_event"; "record_reintegration";
  "record_reintegration_evidence"; "record_shadow_decision"; "record_signal_attempt"; "record_tainted_offer";
  "record_tainted_rejection"; "renew_trust"; "reset"; "transaction"; "update_repair_candidate"].

(** ** Importing the module *)

(** What the process finds: the settings of its environment ([None]: the key is
    not set), the text of the payload schema, and whether [wasmtime] is there. *)
Record launch := Launch {
  environment : option settings;
  payload_schema_file : option string;
  wasmtime_installed : bool }.

Inductive import_error := SettingsError | SchemaFileMissing | SchemaFileNotJson | TypeError.

Record gateway := Gateway {
  gw_settings : settings;
  gw_schema : json;
  gw_wasm : bool;
  gw_backend : pyclass }.

(* src: src/governor_service.py 740-747 <module> *)
Definition select_backend (s : settings) : pyclass :=
  if bool_decide (BACKEND_TYPE s = "postgres") then PostgresStateBackend
  else if bool_decide (BACKEND_TYPE s = "sqlite") then SqliteStateBackend
  else MemoryStateBackend.

(* src: src/governor_service.py 27-44 <module> *)
Definition import_gateway (p : launch) : import_error + gateway :=
  match environment p with
  | None => inl SettingsError
  | Some s =>
    match payload_schema_file p with
    | None => inl SchemaFileMissing
    | Some text =>
      match loads text with
      | None => inl SchemaFileNotJson
      | Some schema =>
        let backend := select_backend s in
        if instantiable backend then inr (Gateway s schema (wasmtime_installed p) backend) else inl TypeError
      end
    end
  end.

(** ** What the process asks its backend for *)
(* src: src/governor_service.py 920-921 startup_event *)
Definition initialises (g : gateway) : bool := has_attr (gw_backend g) "init_db".

(* src: src/governor_service.py 957-958 shutdown_event *)
Definition closes (g : gateway) : bool := has_attr (gw_backend g) "close".

Inductive decision_source := PoolQuery | ConnectionQuery | ListAttribute.

(** Where [/shadow-report] counts the decisions. *)
(* src: src/governor_service.py 2279-2291 get_shadow_report *)
Definition shadow_report_source (c : pyclass) : decision_source :=
  if has_attr c "_get_pool" then PoolQuery
  else if has_attr c "_connect" then ConnectionQuery
  else ListAttribute.

(** ** Properties *)
Lemma forallb_elem {A} (p : A → bool) l x : forallb p l = true → x ∈ l → p x = true.
Proof. rewrite forallb_forall, list_elem_of_In. auto. Qed.

Lemma filter_snd_methods names : List.filter snd (methods names) = [].
Proof. apply bfilter_nil. intros kv (n & -> & _)%list_elem_of_fmap. done. Qed.

Lemma bool_decide_cons (n m : string) l :
  bool_decide (n ∈ m :: l) = bool_decide (n = m) || bool_decide (n ∈ l).
Proof. rewrite <-bool_decide_or. apply bool_decide_ext, elem_of_cons. Qed.

Lemma dict_get_methods names n : dict_get n (methods names) = if n ∈? names then Some false else None.
Proof.
  unfold methods. induction names as [|m names IH]; [done|]. cbn [fmap list_fmap dict_get].
  rewrite bool_decide_cons. destruct (decide (n = m)) as [Hn|Hn]; [by rewrite bool_decide_eq_true_2|].
  rewrite bool_decide_eq_false_2 by done. exact IH.
Qed.

(** A class that only adds methods can be instantiated exactly when it has every
    abstract method of its base. *)
Lemma instantiable_iff names base :
  (∀ m, m ∈ abstracts base → dict_get m (attributes base) = Some true) →
  instantiable (abc_new (methods names) base) = true ↔ abstracts base ⊆ names.
Proof.
  intros Hb. unfold instantiable, abc_new. cbn [abstracts]. rewrite filter_snd_methods, bool_decide_eq_true.
  cbn [dict_keys fmap list_fmap app]. rewrite bfilter_nil. split.
  - intros H m Hm. specialize (H m Hm). unfold lookup in H. rewrite dict_get_methods in H.
    case_bool_decide; [done|]. by rewrite Hb in H.
  - intros H m Hm. unfold lookup. rewrite dict_get_methods. by rewrite bool_decide_eq_true_2 by auto.
Qed.

Lemma base_abstracts m : m ∈ abstracts BaseStateBackend → dict_get m (attributes BaseStateBackend) = Some true.
Proof.
  intros Hm. apply (bool_decide_eq_true_1 (dict_get m _ = _)).
  apply (forallb_elem (λ m, bool_decide (dict_get m (attributes BaseStateBackend) = Some true)) _ _) in Hm; [exact Hm|].
  by vm_compute.
Qed.

(** The two that do not define [transaction] are abstract. *)
Lemma only_sqlite_is_concrete :
  instantiable MemoryStateBackend = false ∧ instantiable PostgresStateBackend = false ∧
  instantiable SqliteStateBackend = true.
Proof.
  split_and!; [by vm_compute..|]. apply (instantiable_iff _ _ base_abstracts).
  intros m Hm. eapply bool_decide_eq_true_1, (forallb_elem (λ m, m ∈? _) _ m); [|exact Hm]. by vm_compute.
Qed.

(** Both lack nothing else: with [transaction] they would be concrete. *)
Lemma transaction_is_all_that_is_missing :
  abstracts MemoryStateBackend = ["transaction"] ∧ abstracts PostgresStateBackend = ["transaction"].
Proof. by vm_compute. Qed.

(** Against the older interface all three are complete. *)
Lemma legacy_interface_is_implemented names :
  names ∈ [memory_methods; sqlite_methods; postgres_methods] →
  instantiable (abc_new (methods names) LegacyStateBackend) = true.
Proof. rewrite !elem_of_cons. intros [->|[->|[->|[]%elem_of_nil]]]; by vm_compute. Qed.

(** C39: the module can be imported exactly when the JWT key is set, the payload
    schema can be read and the backend type is sqlite: the other two backends
    lack an abstract method, and the type is memory by default. An imported
    gateway runs on the SQLite class: it has every method that the handlers
    call, [init_db] runs at start-up, /shadow-report counts through the shared
    connection, and nothing is closed at shutdown. *)
Theorem start_up_needs_sqlite (p : launch) :
  match import_gateway p with
  | inr g =>
    environment p = Some (gw_settings g) ∧ BACKEND_TYPE (gw_settings g) = "sqlite" ∧
    payload_schema_file p ≫= loads = Some (gw_schema g) ∧
    (∀ m, m ∈ handler_calls → has_attr (gw_backend g) m = true) ∧
    initialises g = true ∧ closes g = false ∧ shadow_report_source (gw_backend g) = ConnectionQuery
  | inl e =>
    match e with
    | SettingsError => environment p = None
    | SchemaFileMissing => payload_schema_file p = None
    | SchemaFileNotJson => payload_schema_file p ≫= loads = None
    | TypeError => ∃ s, environment p = Some s ∧ BACKEND_TYPE s ≠ "sqlite"
    end
  end.
Proof.
  destruct only_sqlite_is_concrete as (Hm & Hp & Hs). unfold import_gateway.
  destruct (environment p) as [s|]; [|done]. destruct (payload_schema_file p) as [text|]; [|done]. cbn [mbind option_bind].
  destruct (loads text) as [schema|] eqn:Hl; [|done]. cbv zeta. unfold select_backend.
  case_bool_decide as H1; [rewrite Hp; exists s; split; [done|]; by rewrite H1|].
  case_bool_decide as H2; [|rewrite Hm; by exists s]. rewrite Hs. cbn [gw_settings gw_schema gw_backend].
  split_and!; try done; [|by vm_compute..]. intros m Hin.
  apply (forallb_elem (has_attr SqliteStateBackend) handler_calls); [by vm_compute|done].
Qed.

(** The settings that come without any configuration but the key do not start. *)
Lemma defaults_do_not_start key schema text w :
  loads text = Some schema → import_gateway (Launch (Some (default_settings key)) (Some text) w) = inl TypeError.
Proof. intros H. unfold import_gateway. cbn [environment payload_schema_file]. rewrite H. by vm_compute. Qed.
