(* ===== verification/Adapter.v ===== *)
(** * The recovery adapter ([recovery_adapter.py])

    A separate service that derives the frontier again from a snapshot of the
    graph, refuses a request whose frontier differs, and signs a candidate with
    its own key.  Its traversal follows parent commitments only.  The language
    model is outside: [summary] is what it answers, [None] when the call
    fails. *)
From S2P Require Import Prelude Dict Types Encoding Graph Lineage Interface World Crypto Recovery.

(** ** [_compute_blast_radius] *)
(* src: src/recovery_adapter.py _compute_blast_radius *)
Definition adapter_blast_radius (dag : dict node) (root : string) : list string :=
  sorted (popped (bfs (committed_children dag) (2 + length dag) (start [root]))).

Lemma adapter_blast_radius_spec dag root x :
  x ∈ adapter_blast_radius dag root ↔ lineage dag root x.
Proof.
  unfold adapter_blast_radius. rewrite elem_of_sorted.
  apply (bfs_root_popped (committed_children dag) root (root :: dict_keys dag)).
  - by left.
  - intros y z _ Hz%committed_children_in_dag. by right.
  - cbn [length]. rewrite length_dict_keys. lia.
Qed.

Lemma lineage_derived dag x y : dict_ok dag → lineage dag x y → derived dag x y.
Proof.
  intros Hok. induction 1 as [|x y z Hxy _ IH]; [apply rtc_refl|]. eapply rtc_l; [|exact IH].
  unfold edge in *. rewrite elem_of_children, elem_of_committed_children in * by done. naive_solver.
Qed.

(** Where every covered node is also a parent, both traversals agree. *)
Lemma derived_lineage dag x y :
  dict_ok dag → (∀ k n, dict_get k dag = Some n → ∀ c, c ∈ covers n → c ∈ parent_ids n) →
  derived dag x y → lineage dag x y.
Proof.
  intros Hok Hc. induction 1 as [|x y z Hxy _ IH]; [apply rtc_refl|]. eapply rtc_l; [|exact IH].
  unfold edge in *. rewrite elem_of_children, elem_of_committed_children in * by done. naive_solver.
Qed.

Section adapter.
Context `{E : Env}.
Variable signing_key : key_pair.
Variable llm_model : string.

(* src: src/recovery_adapter.py 64-66 reconstruct *)
Definition computed_frontier (rq : adapter_request) : list string :=
  let c_p := adapter_blast_radius (graph_snapshot rq) (rq_poisoned_root_id rq) in
  sorted (List.filter (λ n, negb (n ∈? c_p)) (compaction_covers rq)).

(* src: src/recovery_adapter.py 97-127 reconstruct *)
Definition adapter_payload (uuid : string) (rq : adapter_request) (generated_text generation_digest : string) : node :=
  let F := computed_frontier rq in
  let content := [("data", JStr generated_text)] in
  let actual_hash := content_digest content in
  {| payload_id := "reconstructed-" +:+ uuid; node_type := Some "COMPACTION"; timestamp_utc := None;
     ephemeral_nhi := Some (Nhi (Some (public_hex signing_key)) (Some "adapter_session") None);
     declared_evidence_boundary := None; state_content := Some content;
     content_digest_sha256 := Some actual_hash;
     agent_signature := Some (sign_hex signing_key actual_hash);
     signature_algorithm := Some "ECDSA-P256-SHA256"; covers := F; covers_interval_gap := None;
     parent_dependency_commitments := (λ fn, Commitment fn None (Some "COMPACTION")) <$> F;
     summarizer := Some (Summarizer (rq_method rq) None (Some llm_model) (Some generation_digest));
     criticality_weight := None; retry_of := None |}.

Definition generation_digest : string := sha256_hex (dumps false (JObj [("temperature", JNum 0%Q "0.0")])).

(* src: src/recovery_adapter.py 61-129 reconstruct *)
Definition reconstruct (rq : adapter_request) (summary : option string) (uuid : string) : adapter_reply :=
  if decide (computed_frontier rq = sorted (requested_frontier rq)) then
    match summary with
    | Some text => AdapterResponded 200 (Some (adapter_payload uuid rq text generation_digest))
    | None => AdapterResponded 200 (Some (adapter_payload uuid rq "mocked generated summary" "mocked_digest"))
    end
  else AdapterResponded 403 None.

Lemma elem_of_computed_frontier rq x :
  x ∈ computed_frontier rq ↔
    x ∈ compaction_covers rq ∧ ¬ lineage (graph_snapshot rq) (rq_poisoned_root_id rq) x.
Proof.
  unfold computed_frontier.
  rewrite elem_of_sorted, elem_of_bfilter, negb_true_iff, bool_decide_eq_false, adapter_blast_radius_spec.
  done.
Qed.

Lemma adapter_payload_verifies `{!SignaturesVerify} uuid rq text d :
  verify_cryptographic_signature (adapter_payload uuid rq text d) = true.
Proof.
  unfold verify_cryptographic_signature. cbn [agent_signature adapter_payload truthy].
  rewrite bool_decide_eq_false_2 by apply raw_hex_nonempty. cbn [negb].
  rewrite bool_decide_eq_true_2 by done. apply own_signature_verifies.
Qed.
End adapter.
