(* ===== verification/Reports.v ===== *)
(** * Reports

    The read-only routes: what each computes from the store. *)
From S2P Require Import Prelude Dict Types Encoding Datetime Graph Lineage Interface World Crypto Policy.

Local Open Scope Z_scope.

Definition len {A} (l : list A) : Z := Z.of_nat (length l).

(** ** [/reducibility-report] *)
Record reducibility := Reducibility {
  entering : Z;
  reducible_count : Z;
  irreducible_count : Z;
  undecided_count : Z;
  reasons : dict Z }.

(* src: src/governor_service.py 2395-2404 get_reducibility_report *)
Definition tally (r : reducibility) (rc : repair_record) : reducibility :=
  match disposition rc with
  | REDUCIBLE => Reducibility (entering r) (reducible_count r + 1) (irreducible_count r) (undecided_count r) (reasons r)
  | IRREDUCIBLE =>
    let reason := default "unknown" (repair_reason rc) in
    Reducibility (entering r) (reducible_count r) (irreducible_count r + 1) (undecided_count r)
      (dict_set reason (default 0 (dict_get reason (reasons r)) + 1) (reasons r))
  | PENDING_RECONSTRUCTION =>
    Reducibility (entering r) (reducible_count r) (irreducible_count r) (undecided_count r + 1) (reasons r)
  end.

(* src: src/governor_service.py get_reducibility_report *)
Definition reducibility_report (candidates : dict repair_record) : reducibility :=
  fold_left tally (dict_values candidates) (Reducibility (len candidates) 0 0 0 []).

(** ** [/measured-cost] *)

(** A node outside the quarantine that derives directly from it. *)
(* src: src/governor_service.py 2496-2509 get_measured_cost *)
Definition is_breach (q : list string) (kv : string * node) : bool :=
  negb (kv.1 ∈? q)
  && (existsb (λ p, p ∈? q) (parent_ids kv.2) || existsb (λ c, c ∈? q) (covers kv.2)).

Definition breaches (dag : dict node) (q : list string) : list string :=
  dict_keys (List.filter (is_breach q) dag).

Record measured_cost := MeasuredCost {
  total_nodes : Z;
  quarantined_nodes : Z;
  withdrawn_nodes : Z;
  escape_set : list string;
  containment_fraction : Q;
  availability_fraction : Q;
  repair_total : Z;
  repair_reducible : Z;
  repair_irreducible : Z;
  verified_repair_coverage : Q;
  reintegrated_active : Z;
  reintegrated_expired : Z;
  restoration_fraction : Q;
  withdrawal_amplification : Q;
  calibration_count : Z;
  latest_sensitivity_floor : option Q }.

Definition has_disposition (d : disposition_kind) (rc : repair_record) : bool := bool_decide (disposition rc = d).

Section reports.
Context `{E : Env} {St : Type} `{Backend St}.

(* src: src/governor_service.py get_measured_cost *)
Definition measured_cost_report (t_active t_expired : Z) (s : St) : measured_cost :=
  let dag := get_dag s in
  let q := get_quarantine_ledger s in
  let n := len dag in
  let withdrawn := len (get_withdrawal_ledger s) in
  let unavailable := len q + withdrawn in
  let repairs := get_repair_candidates s in
  let reducible := count_if (has_disposition REDUCIBLE) (dict_values repairs) in
  let irreducible := count_if (has_disposition IRREDUCIBLE) (dict_values repairs) in
  let act := len (get_active_horizon_set t_active s) in
  let exp := len (get_expired_horizon_set t_expired s) in
  let signals := get_signal_outcome_counts s in
  let processed := default 0 (dict_get "PROCESSED" signals) + default 0 (dict_get "RATE_LIMITED" signals) in
  {| total_nodes := n; quarantined_nodes := len q; withdrawn_nodes := withdrawn;
     escape_set := breaches dag q; containment_fraction := ratio (len q) n;
     availability_fraction := if 0 <? n then ratio (n - unavailable) n else 1%Q;
     repair_total := len repairs; repair_reducible := reducible; repair_irreducible := irreducible;
     verified_repair_coverage := ratio reducible (len repairs);
     reintegrated_active := act; reintegrated_expired := exp; restoration_fraction := ratio act (act + exp);
     withdrawal_amplification := ratio withdrawn (Z.max 1 processed);
     calibration_count := len (get_calibration_runs s);
     latest_sensitivity_floor := sensitivity_floor <$> last (get_calibration_runs s) |}.

(** ** [/continuity-report] *)
Record continuity_footprint := ContinuityFootprint {
  total_exposures : Z;
  exercised : Z;
  non_vacuity_met : bool;
  quarantine_ledger_size : Z;
  quarantine_ledger_digest : string;
  critical_function_availability : Q;
  total_critical_functions : Z;
  available_critical_functions : Z;
  trusted_substitution_coverage : Z;
  checkpoint_replay_count : Z;
  continuity_provenance_complete : bool;
  authorized_tainted_action_completion : tainted_action_stats;
  reported_exposures : list exposure }.

(** [all(e.get("exposure_record", {}).get("mechanism") in ("M3", "M4") for ..)]:
    [None] when a record that is looked at is not an object. *)
(* src: src/governor_service.py 2023-2025 get_continuity_report *)
Fixpoint provenance_complete (exposures : list exposure) : option bool :=
  match exposures with
  | [] => Some true
  | e :: exposures =>
    mechanism ← json_get "mechanism" (exposure_record e);
    if json_is_str "M3" mechanism || json_is_str "M4" mechanism then provenance_complete exposures
    else Some false
  end.

(* src: src/governor_service.py get_continuity_report *)
Definition continuity_report (s : St) : option continuity_footprint :=
  let exposures := get_continuity_exposures s in
  let q := get_quarantine_ledger s in
  let critical := List.filter (λ kv, negb (Qle_bool (weight_of kv.2) 0%Q)) (get_dag s) in
  let available := List.filter (λ kv, negb (kv.1 ∈? q)) critical in
  complete ← provenance_complete (List.filter quarantine_non_empty exposures);
  Some {| total_exposures := len exposures;
     exercised := count_if quarantine_non_empty exposures;
     non_vacuity_met := existsb quarantine_non_empty exposures;
     quarantine_ledger_size := len q;
     quarantine_ledger_digest := sha256_hex (json_dumps (JArr (JStr <$> sorted q)));
     critical_function_availability := match critical with [] => 1%Q | _ => ratio (len available) (len critical) end;
     total_critical_functions := len critical;
     available_critical_functions := len available;
     trusted_substitution_coverage := count_if (λ e, bool_decide (substitute_status e = "BOUNDED_SUBSTITUTE")) exposures;
     checkpoint_replay_count := count_if (λ e, bool_decide (substitute_status e = "CHECKPOINT_REPLAY")) exposures;
     continuity_provenance_complete := complete;
     authorized_tainted_action_completion := get_tainted_action_stats s;
     reported_exposures := exposures |}.

(** An admin reads a report; the store is not changed. *)
Definition admin_report {A} (rq : request) (f : St → option A) : M St A :=
  verify_role_jwt rq "admin" ≫= λ _, try_query f.

(* src: src/governor_service.py get_recurrence_report *)
Definition recurrence_report (t1 t2 : Z) (s : St)
    : dict horizon_record * list string * dict withdrawal_record * dict Z :=
  (get_active_horizon_set t1 s, get_expired_horizon_set t2 s, get_withdrawal_ledger s, get_signal_outcome_counts s).

(* src: src/governor_service.py get_db_state *)
Definition db_state (rq : request)
    : M St (dict node * list string * list quarantine_event * dict repair_record * string) :=
  verify_role_jwt rq "admin" ≫= λ _,
  require (DEBUG_MODE cfg) 403 "Debug endpoints disabled in production" ≫= λ _,
  query (λ s, (get_dag s, get_quarantine_ledger s, get_quarantine_events s, get_repair_candidates s, ENFORCEMENT_MODE cfg)).

Record shadow_summary := ShadowSummary {
  enforcement_mode : string;
  total_decisions : Z;
  counterfactual_rejections : Z;
  caveat : string }.

(* src: src/governor_service.py get_shadow_report *)
Definition shadow_report (s : St) : shadow_summary :=
  let '(total, blocked) := shadow_decision_counts s in
  ShadowSummary (ENFORCEMENT_MODE cfg) total blocked
    "Shadow-mode blast radii are upper bounds relative to enforcement mode because they include writes that would have been blocked.".

(** The inventory depends on one environment variable, [LITELLM_MODEL], and on
    nothing the gateway has recorded. *)
Definition count_json (n : Z) (text : string) : json := JNum (inject_Z n) text.
Definition fault_class (name : string) (n : Z) (text : string) : json :=
  JObj [("class", JStr name); ("injected", count_json n text); ("caught", count_json n text);
        ("escaped", count_json 0 "0")].

(* src: src/governor_service.py get_verification_separation_inventory *)
Definition verification_separation_inventory (litellm_model : option string) : json :=
  JObj
    [("shared_dependency_inventory", JObj
       [("specification", JStr "GASC-ED v1.1");
        ("policy_engine", JStr "Open Policy Agent (Rego)");
        ("policy_files", JArr [JStr "policies/gasc_verification_separation.rego"; JStr "policies/gasc_quarantine_integrity.rego"]);
        ("cryptographic_library", JStr "cryptography (Python)");
        ("jwt_library", JStr "PyJWT");
        ("shared_primitives", JArr [JStr "SHA-256"; JStr "ECDSA-P256"; JStr "ES256 JWT"]);
        ("recovery_adapter", JObj
           [("framework", JStr "litellm"); ("model", JStr (default "gemini/gemini-1.5-flash" litellm_model))]);
        ("schema_validator", JStr "jsonschema (Draft202012Validator)")]);
     ("verification_dimensions", JObj
       [("execution_authority", JStr "Verifier (Rego) runs in OPA subprocess/WASM; planner cannot invoke or suppress");
        ("input_separation", JStr "Candidate and commitments cross boundary; evaluative planner outputs (planner_score, justification, confidence_rating, reasoning_tokens) are blocked by policy");
        ("frontier_reconstruction", JStr "Verifier re-derives frontier independently from graph snapshot");
        ("distinct_implementation", JStr "Rego policy engine vs Python recovery adapter")]);
     ("fault_injection_results", JObj
       [("campaign_run", JBool true);
        ("fault_classes", JArr
           [fault_class "evaluative_planner_output_injection" 4 "4";
            fault_class "quarantined_ancestor_in_frontier" 1 "1";
            fault_class "identity_reuse" 1 "1"]);
        ("total_injected", count_json 6 "6");
        ("total_caught", count_json 6 "6");
        ("total_escaped", count_json 0 "0");
        ("catch_rate", JNum 1 "1.0");
        ("preregistered_minimum_catch_rate", JNum (95 # 100) "0.95");
        ("escape_set", JArr [])])].

(* src: src/governor_service.py readyz *)
Definition readyz : Z :=
  if negb (DEBUG_MODE cfg) && negb (truthy (OPA_POLICY_BUNDLE cfg)) && negb (truthy (OPA_URL cfg)) then 503
  else match OPA_POLICY_BUNDLE cfg with
       | Some b => if negb (bool_decide (b = "")) && negb (path_exists b) then 503 else 200
       | None => 200
       end.
End reports.

(** ** Facts *)
Lemma is_breach_true q k n :
  is_breach q (k, n) = true ↔ (k ∉ q) ∧ (∃ p, (p ∈ parent_ids n ∨ p ∈ covers n) ∧ p ∈ q).
Proof.
  unfold is_breach. cbn [fst snd].
  rewrite andb_true_iff, negb_true_iff, bool_decide_eq_false, orb_true_iff, !existsb_exists.
  setoid_rewrite bool_decide_eq_true. setoid_rewrite <-list_elem_of_In. naive_solver.
Qed.

Lemma breaches_contained {St} `{BackendLaws St} (s : St) :
  store_ok s → breaches (get_dag s) (get_quarantine_ledger s) = [] ↔ contained s.
Proof.
  intros Hs. unfold breaches, dict_keys.
  etrans; [|etrans; [apply (bfilter_nil (is_breach (get_quarantine_ledger s)) (get_dag s))|]].
  { split; [apply fmap_nil_inv|by intros ->]. }
  split.
  - intros Hb k n Hk Hkq p Hp Hpq. assert (is_breach (get_quarantine_ledger s) (k, n) = false) as Hf
      by (apply Hb; by apply dict_get_Some_elem).
    apply not_true_iff_false in Hf. apply Hf, is_breach_true. eauto.
  - intros Hc [k n] Hin. apply not_true_iff_false. rewrite is_breach_true.
    intros (Hk & p & Hp & Hpq). eapply (Hc k n); [|done..]. apply dict_get_elem; [by apply dag_ok|done].
Qed.

Lemma tally_sum l r :
  let r' := fold_left tally l r in
  reducible_count r' + irreducible_count r' + undecided_count r' =
    reducible_count r + irreducible_count r + undecided_count r + len l ∧ entering r' = entering r.
Proof.
  revert r; induction l as [|rc l IH]; intros r; cbn [fold_left]; [unfold len; cbn; lia|].
  destruct (IH (tally r rc)) as [-> ->]. unfold tally, len in *.
  destruct (disposition rc); cbn; lia.
Qed.
