(* ===== verification/Demo.v ===== *)
(** * A concrete environment

    One instance of [Env], so that every definition can be run: a clock that
    ticks once a second, numbered identifiers, a policy engine that answers
    with the value of the rules (or is down), a recovery adapter that runs the
    modelled service, and three tokens.  The signature scheme is a stand-in
    with the one law the gateway needs ([SignaturesVerify]); it is not secure
    and nothing is concluded from it about security. *)
From stdpp Require Import pretty.
From S2P Require Import Prelude Dict Types Encoding Datetime Interface World Crypto Policy Adapter Memory Sqlite.

Local Open Scope Z_scope.

Definition field_size : Z := 2 ^ 256.

(** A signature is the digest of the data shifted by the key. *)
Definition demo_numbers (k : Z) : Z * Z := (k mod field_size, (k + 1) mod field_size).
Definition demo_sign (x : Z) (data : list Z) : Z * Z :=
  ((int_from_bytes (sha256 data) + x) mod field_size, x mod field_size).
Definition demo_encode (r s : Z) : list Z := 48 :: int_to_bytes 32 r ++ int_to_bytes 32 s.
Definition demo_verify (pk : Z * Z) (der data : list Z) : bool :=
  bool_decide (der = demo_encode (demo_sign pk.1 data).1 (demo_sign pk.1 data).2).

Definition agent_key : Z := 41.
Definition agent_identity : string := hex (int_to_bytes 32 41 ++ int_to_bytes 32 42).

(** Tokens: an agent's session, an administrator, a designator. *)
Definition demo_jwt (token key : string) : option (dict json) :=
  if decide (token = "agent") then
    Some [("sub", JStr agent_identity); ("is_nhi", JBool true);
          ("expires_at_epoch", JNum (inject_Z 4102444800) "4102444800");
          ("scope", JStr "agent:state:reconstruct"); ("verifier_execution_status", JStr "PASSED")]
  else if decide (token = "admin") then Some [("sub", JStr "alice"); ("role", JStr "admin")]
  else if decide (token = "designator") then Some [("sub", JStr "bob"); ("role", JStr "designator")]
  else None.

(** 2026-01-01T00:00:00Z and a second per reading *)
Definition demo_clock (n : nat) : Z := (739616 * 86400 + Z.of_nat n) * us_per_second.

Definition demo_env (c : settings) (engine_up : bool) (adapter : nat → adapter_request → adapter_reply) : Env := {|
  cfg := c; payload_size_limit := 1048576; env_text := λ n, payload_id n;
  clock := demo_clock; fresh_uuid := λ n, "uuid-" +:+ pretty n;
  key_pair := Z; fresh_key := λ n, 1000 + Z.of_nat n;
  public_key := Z * Z; public_numbers := demo_numbers;
  load_numbers := λ x y, Some (x, y); load_encoded_point := λ _, None;
  encode_dss_signature := demo_encode; ecdsa_verify := demo_verify;
  ecdsa_sign := λ k data, demo_sign (k mod field_size) data;
  jwt_decode := demo_jwt;
  path_exists := λ _, false; has_wasmtime := false;
  opa_wasm := λ _ _ _, WasmRuntimeError;
  opa_process := λ _ _ _ input, if engine_up then Exited 0 (Some (eval_output (rego_value input))) else Exited 1 None;
  opa_rest := λ _ _ _ _, TransportError;
  adapter_post := λ n _ rq, adapter n rq;
  set_order := id |}.

Definition no_adapter (n : nat) (rq : adapter_request) : adapter_reply := AdapterFailed.

Definition adapter_key : Z := 7.
Definition demo_adapter (c : settings) (n : nat) (rq : adapter_request) : adapter_reply :=
  reconstruct (E:=demo_env c true no_adapter) adapter_key "model-1" rq (Some "summary") (pretty n).

Lemma demo_faithful c up ad : @faithful_engine (demo_env c up ad).
Proof. split; intros; cbn; [done| |done]. by destruct up. Qed.

#[export] Instance demo_signatures c up ad : @SignaturesVerify (demo_env c up ad).
Proof.
  assert (∀ z, in_field (z mod field_size)) as Hmod.
  { intros z. apply Z.mod_pos_bound. done. }
  split.
  - intros k. split; apply Hmod.
  - intros k data. split; apply Hmod.
  - intros k data. eexists. split; [reflexivity|]. cbn -[demo_encode demo_sign].
    unfold demo_verify. by apply bool_decide_eq_true.
Qed.

(** ** Settings and worlds *)
Definition base_settings : settings :=
  default_settings "key" <| DEBUG_MODE := true |> <| BACKEND_TYPE := "sqlite" |>.
Definition shadow_settings : settings := base_settings.
Definition enforce_settings : settings := base_settings <| ENFORCEMENT_MODE := "enforce" |>.

Definition start_world {St} (s : St) : world St := World s None false 0.

(** Enforcing, with a working engine and no adapter service. *)
Definition enforcing : Env := demo_env enforce_settings true no_adapter.

(** ** A signed write of the agent *)
Definition demo_content : dict json := [("step", JStr "plan")].

Definition agent_write (c : settings) (id : string) (parents cov : list string) (type : string) : node :=
  let E := demo_env c true no_adapter in
  {| payload_id := id; node_type := Some type; timestamp_utc := Some "2026-01-01T00:00:00Z";
     ephemeral_nhi := Some (Nhi (Some agent_identity) (Some "agent") (Some "2026-01-02T00:00:00Z"));
     declared_evidence_boundary := Some (EvidenceBoundary "b" "2026-01-01T00:00:00Z" "d");
     state_content := Some demo_content; content_digest_sha256 := Some (content_digest demo_content);
     agent_signature := Some (@sign_hex E agent_key (content_digest demo_content));
     signature_algorithm := Some "ECDSA-P256-SHA256"; covers := cov; covers_interval_gap := None;
     parent_dependency_commitments := (λ p, Commitment p (Some "") None) <$> parents;
     summarizer := None; criticality_weight := None; retry_of := None |}.

(** ** A small SQLite store: [root], its child [a], and an unrelated [other] *)
Definition seeded : db :=
  fold_left (λ s n, (Sqlite.commit_node n s).2)
    [bare_node "root"; bare_node "a" <| parent_dependency_commitments := [Commitment "root" None None] |>;
     bare_node "other"] (empty_db 1000).

Lemma seeded_wf : wf seeded.
Proof. apply (fold_left_inv wf); [apply wf_empty|]. intros; by apply db_wf_commit. Qed.

(** The same with [root] and [a] in quarantine. *)
Definition poisoned : db :=
  (Sqlite.apply_quarantine_transaction
     (QuarantineEvent "e" "2026-01-01T00:00:00+00:00Z" "root" ["a"; "root"] "d" None None None None None None None None)
     ["a"; "root"] seeded).2.

Lemma poisoned_wf : wf poisoned.
Proof. apply db_wf_quarantine, seeded_wf. Qed.

Lemma poisoned_contained : contained poisoned.
Proof.
  intros k n Hk%dict_get_Some_elem Hq p Hp. change (get_dag poisoned) with (Sqlite.get_dag poisoned) in Hk.
  vm_compute in Hk. change (get_quarantine_ledger poisoned) with ["a"; "root"] in *.
  repeat (apply elem_of_cons in Hk as [Hk|Hk]; [injection Hk as -> ->; set_solver|]). by apply elem_of_nil in Hk.
Qed.

Lemma seeded_deep : deep_enough seeded.
Proof. intros d [= <-]. vm_compute. lia. Qed.

Lemma seeded_contained : contained seeded.
Proof. intros k n _ _ p _. apply not_elem_of_nil. Qed.

Definition designator : request := Request (Some "Bearer designator").
Definition administrator : request := Request (Some "Bearer admin").
