(* ===== verification/Connection.v ===== *)
(** * The connections to the SQLite file ([sqlite_backend.py])

    The backend has one connection that all tasks share and, for the duration of
    a [transaction()], one of the task's own.  The module [sqlite3] begins a
    transaction before a statement that writes, unless one is open, and the file
    has one writer at a time: whoever else wants to write is told, after five
    seconds, that the database is locked.  Tasks interleave between calls.  The
    file ends in the state that some serial order of the finished units gives,
    which justifies [World.transaction]; and a duplicate inserted outside a
    transaction leaves the lock behind. *)
From S2P Require Import Prelude Dict Types Graph Lineage Interface Sqlite Demo.

(** Who has the write lock: the shared connection, or the own connection of a
    task. *)
Inductive holder := SharedConn | OwnConn (task : nat).
#[export] Instance holder_eq_dec : EqDecision holder.
Proof. solve_decision. Defined.

Section file.
Context {St : Type}.

(** What is committed, and what the holder of the lock has written since. *)
Record file := File { on_disk : St; pending : option (holder * St) }.

(** [_tx_conn] belongs to the task that is inside [transaction()]. *)
(* src: src/sqlite_backend.py 48-57 SqliteStateBackend._connect *)
Definition connect (task : nat) (f : file) : holder :=
  match pending f with
  | Some (h, _) => if decide (h = OwnConn task) then OwnConn task else SharedConn
  | None => SharedConn
  end.

(** A statement that writes; [None] is "database is locked", after a wait of
    five seconds in which the lock did not become free. *)
Definition execute {A} (h : holder) (statement : St → A * St) (f : file) : option (A * file) :=
  match pending f with
  | None => let '(a, s) := statement (on_disk f) in Some (a, File (on_disk f) (Some (h, s)))
  | Some (h', s) =>
    if decide (h = h') then let '(a, s) := statement s in Some (a, File (on_disk f) (Some (h, s))) else None
  end.

Definition commit (h : holder) (f : file) : file :=
  match pending f with
  | Some (h', s) => if decide (h = h') then File s None else f
  | None => f
  end.

Definition roll_back (h : holder) (f : file) : file :=
  match pending f with
  | Some (h', _) => if decide (h = h') then File (on_disk f) None else f
  | None => f
  end.

(** [db.commit()] in a method: the connection of a transaction has it replaced
    by a function that does nothing. *)
(* src: src/sqlite_backend.py 32-33 SqliteStateBackend.transaction *)
Definition method_commit (h : holder) (f : file) : file :=
  match h with SharedConn => commit SharedConn f | OwnConn _ => f end.

(** [BEGIN IMMEDIATE] on a connection of its own; inside a transaction of the
    same task nothing happens. *)
(* src: src/sqlite_backend.py 21-34 SqliteStateBackend.transaction *)
Definition begin_transaction (task : nat) (f : file) : option file :=
  match connect task f with
  | OwnConn _ => Some f
  | SharedConn =>
    match pending f with
    | None => Some (File (on_disk f) (Some (OwnConn task, on_disk f)))
    | Some _ => None
    end
  end.

(* src: src/sqlite_backend.py 36-38 SqliteStateBackend.transaction *)
Definition end_transaction (task : nat) (f : file) : file := commit (OwnConn task) f.

(* src: src/sqlite_backend.py 39-42 SqliteStateBackend.transaction *)
Definition abort_transaction (task : nat) (f : file) : file := roll_back (OwnConn task) f.

(** A method that writes and commits. *)
(* src: src/sqlite_backend.py 500-505 SqliteStateBackend._set_repair_candidate *)
Definition write (task : nat) (statement : St → St) (f : file) : option file :=
  let h := connect task f in
  r ← execute h (λ s, ((), statement s)) f; Some (method_commit h r.2).

(** [commit_node] returns before its commit when the row was there already. *)
(* src: src/sqlite_backend.py 254-276 SqliteStateBackend.commit_node *)
Definition insert (task : nat) (statement : St → bool * St) (f : file) : option (bool * file) :=
  let h := connect task f in
  r ← execute h statement f;
  if r.1 : bool then Some (true, method_commit h r.2) else Some (false, r.2).

(** ** What tasks do *)
Inductive action := Begin | Write (statement : St → St) | Insert (statement : St → bool * St) | Commit | Abort.

(** The step of a task; the flag says whether it succeeded. *)
Definition act (task : nat) (a : action) (f : file) : bool * file :=
  match a with
  | Begin => match begin_transaction task f with Some f => (true, f) | None => (false, f) end
  | Write st => match write task st f with Some f => (true, f) | None => (false, f) end
  | Insert st => match insert task st f with Some (_, f) => (true, f) | None => (false, f) end
  | Commit => (true, end_transaction task f)
  | Abort => (true, abort_transaction task f)
  end.

Fixpoint run (l : list (nat * action)) (f : file) : list (nat * action * bool) * file :=
  match l with
  | [] => ([], f)
  | (t, a) :: l =>
    let '(ok, f) := act t a f in
    let '(log, f) := run l f in ((t, a, ok) :: log, f)
  end.

(** ** The serial order *)
Definition effect (a : action) : St → St :=
  match a with Write st => st | Insert st => λ s, (st s).2 | _ => id end.

(** What one entry of a log adds to the finished units, and the transaction that
    is open afterwards with its effects so far. *)
Definition unit_step (open : option (nat * list (St → St))) (entry : nat * action * bool)
    : list (list (St → St)) * option (nat * list (St → St)) :=
  let '(t, a, ok) := entry in
  if negb ok then ([], open) else
  match open with
  | Some (t', unit) =>
    if decide (t = t') then
      match a with
      | Begin => ([], open)
      | Commit => ([unit], None)
      | Abort => ([], None)
      | Write _ | Insert _ => ([], Some (t', unit ++ [effect a]))
      end
    else ([], open)
  | None =>
    match a with
    | Begin => ([], Some (t, []))
    | Commit | Abort => ([], None)
    | Write _ | Insert _ => ([[effect a]], None)
    end
  end.

(** The finished units: the effects of a transaction that was committed, or of
    one write outside. *)
Fixpoint units (open : option (nat * list (St → St))) (log : list (nat * action * bool)) : list (list (St → St)) :=
  match log with
  | [] => []
  | entry :: log => let '(us, open) := unit_step open entry in us ++ units open log
  end.

Definition apply_unit (s : St) (unit : list (St → St)) : St := fold_left (λ s e, e s) unit s.
Definition serially (us : list (list (St → St))) (s : St) : St := fold_left apply_unit us s.

(** A statement that finds its row there changes nothing. *)
Definition insert_ok (a : action) : Prop :=
  match a with Insert st => ∀ s, (st s).1 = false → (st s).2 = s | _ => True end.

(** The shared connection holds the lock only with nothing to write. *)
Definition linked (open : option (nat * list (St → St))) (f : file) : Prop :=
  match pending f with
  | None => open = None
  | Some (SharedConn, s) => open = None ∧ s = on_disk f
  | Some (OwnConn t, s) => ∃ unit, open = Some (t, unit) ∧ s = apply_unit (on_disk f) unit
  end.

Lemma apply_unit_app s u e : apply_unit s (u ++ [e]) = e (apply_unit s u).
Proof. unfold apply_unit. by rewrite fold_left_app. Qed.

Lemma connect_own t t' s d : connect t (File d (Some (OwnConn t', s))) = if decide (t = t') then OwnConn t else SharedConn.
Proof. unfold connect. cbn. repeat case_decide; congruence. Qed.

(** A statement on a file whose lock is free, or with the shared connection and
    nothing written. *)
Lemma linked_act open f t a ok f' :
  linked open f → insert_ok a → act t a f = (ok, f') →
  linked (unit_step open (t, a, ok)).2 f' ∧ on_disk f' = serially (unit_step open (t, a, ok)).1 (on_disk f).
Proof.
  intros HL Hok Ha. destruct f as [d [[[|t'] s]|]]; cbn in HL.
  - destruct HL as [-> ->]. destruct a as [|st|st| |]; cbn in Ha; simplify_eq/=; try done.
    specialize (Hok d). destruct (st d) as [[] s'] eqn:Hst; cbn in Ha; simplify_eq/=; rewrite Hst.
    + done.
    + by rewrite (Hok eq_refl).
  - destruct HL as (unit & -> & ->).
    destruct (decide (t = t')) as [->|Hne].
    + assert (connect t' (File d (Some (OwnConn t', apply_unit d unit))) = OwnConn t') as Hc
        by (rewrite connect_own; by case_decide).
      destruct a as [|st|st| |]; unfold act, begin_transaction, write, insert in Ha; rewrite ?Hc in Ha; cbn in Ha;
        rewrite ?decide_True in Ha by done; cbn in Ha.
      * simplify_eq/=. rewrite decide_True by done. split; [by exists unit|done].
      * simplify_eq/=. rewrite decide_True by done. split; [|done]. eexists. by rewrite apply_unit_app.
      * destruct (st (apply_unit d unit)) as [[] s'] eqn:Hst; cbn in Ha; simplify_eq/=; rewrite decide_True by done;
          (split; [eexists; split; [reflexivity|]; rewrite apply_unit_app; cbn [effect on_disk]; by rewrite Hst|done]).
      * unfold end_transaction, commit in Ha. repeat case_decide; simplify_eq/=; by rewrite decide_True.
      * unfold abort_transaction, roll_back in Ha. repeat case_decide; simplify_eq/=; by rewrite decide_True.
    + assert (connect t (File d (Some (OwnConn t', apply_unit d unit))) = SharedConn) as Hc
        by (rewrite connect_own; by case_decide).
      assert (OwnConn t ≠ OwnConn t') as Hne' by congruence.
      destruct a as [|st|st| |]; unfold act, begin_transaction, write, insert, end_transaction, abort_transaction, commit, roll_back in Ha;
        rewrite ?Hc in Ha; cbn in Ha; rewrite ?decide_False in Ha by done; simplify_eq/=; rewrite ?decide_False by done;
        (split; [by exists unit|done]).
  - subst open. destruct a as [|st|st| |]; cbn in Ha; simplify_eq/=; try done.
    + split; [by exists []|done].
    + specialize (Hok d). destruct (st d) as [[] s'] eqn:Hst; cbn in Ha; simplify_eq/=; rewrite Hst.
      * done.
      * by rewrite (Hok eq_refl).
Qed.

Lemma serially_app us us' s : serially (us ++ us') s = serially us' (serially us s).
Proof. unfold serially. by rewrite fold_left_app. Qed.

Lemma linked_run l open f :
  linked open f → Forall (λ e, insert_ok e.2) l →
  on_disk (run l f).2 = serially (units open (run l f).1) (on_disk f).
Proof.
  intros HL Hall. revert open f HL. induction Hall as [|[t a] l Ha _ IH]; intros open f HL; [done|].
  cbn [run]. destruct (act t a f) as [ok f1] eqn:Hact.
  destruct (linked_act _ _ _ _ _ _ HL Ha Hact) as [HL1 Hd].
  specialize (IH _ _ HL1). destruct (run l f1) as [log f2]. cbn [fst snd units] in *.
  destruct (unit_step open (t, a, ok)) as [us open'] eqn:Hu. cbn [fst snd] in *.
  by rewrite IH, serially_app, Hd.
Qed.

(** Every effect of a unit is that of an action of the schedule. *)
Lemma units_effects (P : (St → St) → Prop) l open f :
  Forall (λ e, P (effect e.2)) l → (∀ t unit, open = Some (t, unit) → Forall P unit) →
  Forall (Forall P) (units open (run l f).1).
Proof.
  intros Hall. revert open f. induction Hall as [|[t a] l Ha _ IH]; intros open f Hopen; [constructor|].
  cbn [run]. destruct (act t a f) as [ok f1]. specialize (λ o, IH o f1). destruct (run l f1) as [log f2].
  cbn [fst snd units] in *. destruct (unit_step open (t, a, ok)) as [us open'] eqn:Hu.
  assert (Forall (Forall P) us ∧ ∀ t unit, open' = Some (t, unit) → Forall P unit) as [Hus Ho'].
  { revert Hu. unfold unit_step. destruct ok; [|by intros [= <- <-]]. cbn [negb].
    destruct open as [[t' unit]|].
    - specialize (Hopen _ _ eq_refl). case_decide; [|by intros [= <- <-]; split; [|intros ? ? [= <- <-]]].
      destruct a; intros [= <- <-]; split; repeat constructor; try done; intros ? ? [= <- <-];
        rewrite ?Forall_app; repeat constructor; done.
    - destruct a; intros [= <- <-]; split; repeat constructor; try done; intros ? ? [= <- <-]; constructor. }
  apply Forall_app. split; [done|by apply IH].
Qed.

(** What every effect keeps is true of the file in the end. *)
Lemma serially_inv (I : St → Prop) us s : Forall (Forall (λ e, ∀ s, I s → I (e s))) us → I s → I (serially us s).
Proof.
  intros Hus. revert s. induction Hus as [|unit us Hu _ IH]; intros s Hs; [done|]. apply IH.
  revert s Hs. induction Hu as [|e unit He _ IHu]; intros s Hs; [done|]. by apply IHu, He.
Qed.

Lemma run_inv (I : St → Prop) l s :
  Forall (λ e, insert_ok e.2) l → Forall (λ e, ∀ s, I s → I (effect e.2 s)) l → I s → I (on_disk (run l (File s None)).2).
Proof.
  intros Hok Hl Hs. rewrite (linked_run l None) by done. apply serially_inv; [|done].
  by apply (units_effects (λ e, ∀ s, I s → I (e s))).
Qed.

Lemma run_state t a l (f : file) : (run ((t, a) :: l) f).2 = (run l (act t a f).2).2.
Proof. cbn [run]. destruct (act t a f) as [ok f1]. cbn [snd]. by destruct (run l f1). Qed.

(** A task alone: its transaction is kept whole or not at all. *)
Lemma own_transaction t (sts : list (St → St)) (s : St) :
  (run (((t, Begin) :: (pair t ∘ Write <$> sts)) ++ [(t, Commit)]) (File s None)).2 = File (apply_unit s sts) None ∧
  (run (((t, Begin) :: (pair t ∘ Write <$> sts)) ++ [(t, Abort)]) (File s None)).2 = File s None.
Proof.
  assert (∀ s', (run ((pair t ∘ Write <$> sts) ++ [(t, Commit)]) (File s (Some (OwnConn t, s')))).2
      = File (apply_unit s' sts) None ∧
    (run ((pair t ∘ Write <$> sts) ++ [(t, Abort)]) (File s (Some (OwnConn t, s')))).2 = File s None) as Hrun.
  { induction sts as [|st sts IH]; intros s'.
    - cbn. unfold end_transaction, abort_transaction, commit, roll_back. cbn. by case_decide.
    - cbn [fmap list_fmap app compose]. rewrite !run_state.
      assert ((act t (Write st) (File s (Some (OwnConn t, s')))).2 = File s (Some (OwnConn t, st s'))) as ->; [|apply IH].
      unfold act, write. rewrite connect_own, decide_True by done. unfold execute. cbn. by case_decide. }
  cbn [app]. rewrite !run_state. apply Hrun.
Qed.

(** ** A duplicate outside a transaction *)

(** Once the shared connection has the lock, no transaction can begin, ... *)
Lemma wedged_begin (t t' : nat) (d s : St) (l : list (nat * action)) :
  Forall (λ e, e.2 = Begin ∨ e.2 = Commit ∨ e.2 = Abort) l →
  let f := File d (Some (SharedConn, s)) in
  (run l f).2 = f ∧ act t Begin (run l f).2 = (false, f) ∧ act t' Begin f = (false, f).
Proof.
  intros Hl f. assert ((run l f).2 = f) as ->; [|done].
  induction Hl as [|[u a] l Ha _ IH]; [done|]. rewrite run_state.
  assert ((act u a f).2 = f) as ->; [|done]. by destruct Ha as [Ha|[Ha|Ha]]; cbn in Ha; subst a.
Qed.

(** ... and a write outside, by whichever task, sets things right. *)
Lemma wedged_write (t : nat) (d s : St) st : act t (Write st) (File d (Some (SharedConn, s))) = (true, File (st s) None).
Proof. done. Qed.
End file.
Arguments file : clear implicits.
Arguments action : clear implicits.

(** ** The store of the gateway *)
Definition insert_node (n : node) : action db := Insert (Sqlite.commit_node n).

Lemma insert_node_ok n : insert_ok (insert_node n).
Proof. intros s. cbn. unfold Sqlite.commit_node. by destruct (dict_mem _ _). Qed.

(** [/context-compacted] with the identifier of a node that is there: it is
    answered as a success, and then no submission can begin its transaction until
    some request writes outside one, as a designation does for its quota. *)
Theorem duplicate_outside_wedges (n m : node) (t t' : nat) (s : db) :
  payload_id n ∈ dict_keys (nodes s) →
  let f := File s None in
  (act t (insert_node n) f).1 = true ∧
  (run [(t, insert_node n); (t', Begin)] f).1 = [(t, insert_node n, true); (t', Begin, false)] ∧
  (payload_id m ∉ dict_keys (nodes s) →
   (run [(t, insert_node m); (t', Begin)] f).1 = [(t, insert_node m, true); (t', Begin, true)]).
Proof.
  intros Hn f. assert (Sqlite.commit_node n s = (false, s)) as Hdup
    by (unfold Sqlite.commit_node; by rewrite (proj2 (dict_mem_true _ _) Hn)).
  assert (∀ n b s', Sqlite.commit_node n s = (b, s') →
    act t (insert_node n) f = (true, if b then File s' None else File s (Some (SharedConn, s')))) as Hact.
  { intros n' b s' Hc. unfold act, insert_node, insert, execute, f. cbn. rewrite Hc. by destruct b. }
  cbn [run]. rewrite (Hact _ _ _ Hdup). split_and!; [done|done|]. intros Hm.
  destruct (Sqlite.commit_node m s) as [b s'] eqn:Hc. rewrite (Hact _ _ _ Hc).
  unfold Sqlite.commit_node in Hc. rewrite (proj2 (dict_mem_false _ _) Hm) in Hc. injection Hc as <- <-. done.
Qed.

(** ** Property *)

(** C36: tasks whose calls interleave on one SQLite file in any way leave in it
    what their finished units give one after the other: a transaction that was
    committed counts as a whole, at its end; one that was undone, or a call that
    found the database locked, counts for nothing. *)
Theorem file_is_serial (l : list (nat * action db)) (s : db) :
  Forall (λ e, insert_ok e.2) l →
  on_disk (run l (File s None)).2 = serially (units None (run l (File s None)).1) s.
Proof. intros Hl. by rewrite (linked_run l None). Qed.

(** Two tasks: the second one's write falls into the first one's transaction and
    is refused, its later submission is kept; the first one is undone. *)
Definition demo_schedule (n m : node) : list (nat * action db) :=
  [(0, Begin); (0, insert_node n); (1, Write (Sqlite.add_to_quarantine_ledger "a")); (0, Abort);
   (1, Begin); (1, insert_node m); (1, Commit)].

Lemma file_is_serial_witness :
  let r := run (demo_schedule (bare_node "x") (bare_node "y")) (File (empty_db 9) None) in
  dict_keys (nodes (on_disk r.2)) = ["y"] ∧ t_ledger (on_disk r.2) = [] ∧
  on_disk r.2 = serially (units None r.1) (empty_db 9).
Proof.
  intros r. split; [by vm_compute|]. split; [by vm_compute|]. apply file_is_serial.
  repeat constructor; try exact I; apply insert_node_ok.
Defined.
