(* ===== verification/Trust.v ===== *)
(** * Trust after reintegration (R6)

    What the horizon, withdrawal and signal tables promise: trust runs until
    its expiry and can be renewed, a withdrawal is never rewritten, one
    recurrence withdraws a bounded number of nodes, and an identity cannot
    designate more often than its limit allows. *)
From S2P Require Import Prelude Dict Types Encoding Datetime Graph Lineage Interface Memory Sqlite World Crypto Policy Admission Recovery Detectors Designation Demo.

Local Open Scope Z_scope.

(** ** Horizons *)
Lemma str_lt_le a b : str_lt a b = negb (str_le b a).
Proof.
  unfold String.ltb, String.leb. rewrite (String.compare_antisym b a).
  by destruct (String.compare a b).
Qed.

(** The record of a node whose trust runs at [t]. *)
Lemma active_get t s k :
  dict_ok (t_horizon s) →
  dict_get k (get_active_horizon_set t s) =
    match dict_get k (t_horizon s) with
    | Some h => if str_lt (iso_z t) (trust_expires_utc h) then Some (h <| admitted_at_utc := None |>) else None
    | None => None
    end.
Proof.
  intros Hok. unfold get_active_horizon_set. rewrite dict_get_map.
  rewrite (dict_get_filter (λ h, str_lt (iso_z t) (trust_expires_utc h)) (t_horizon s) k Hok).
  destruct (dict_get k _); [|done]. by destruct (str_lt _ _).
Qed.

Lemma elem_of_expired t s k :
  dict_ok (t_horizon s) →
  k ∈ get_expired_horizon_set t s ↔
    ∃ h, dict_get k (t_horizon s) = Some h ∧ str_le (trust_expires_utc h) (iso_z t) = true.
Proof.
  intros Hok. unfold get_expired_horizon_set. rewrite <-dict_get_is_Some.
  rewrite (dict_get_filter (λ h, str_le (trust_expires_utc h) (iso_z t))) by done.
  destruct (dict_get k (t_horizon s)) as [h|]; [|split; [by intros []|by intros (? & ? & _)]].
  destruct (str_le _ _) eqn:E; split.
  - eauto.
  - eauto.
  - by intros [].
  - intros (h' & [= <-] & ?). congruence.
Qed.

(** At every instant each reintegrated node is in exactly one of the active
    and the expired set, and no other node is in either. *)
Theorem horizon_partition t s k :
  dict_ok (t_horizon s) →
  (k ∈ dict_keys (t_horizon s) ↔
     (k ∈ dict_keys (get_active_horizon_set t s) ∨ k ∈ get_expired_horizon_set t s)) ∧
  ¬ (k ∈ dict_keys (get_active_horizon_set t s) ∧ k ∈ get_expired_horizon_set t s).
Proof.
  intros Hok. rewrite elem_of_expired, <-!dict_get_is_Some, active_get by done.
  destruct (dict_get k (t_horizon s)) as [h|].
  - rewrite str_lt_le. destruct (str_le (trust_expires_utc h) (iso_z t)) eqn:E; cbn [negb].
    + split; [|by intros [[] _]]. split; [eauto|]. intros _. eauto.
    + split; [split; [eauto|eauto]|]. intros [_ (h' & [= <-] & ?)]. congruence.
  - split; [|by intros [[] _]]. split; [by intros []|]. intros [[]|(? & ? & _)]; done.
Qed.

Lemma renew_trust_get k h t1 s k' :
  dict_get k' (t_horizon (renew_trust k h t1 s)) =
    match dict_get k' (t_horizon s) with
    | Some r => Some (if decide (k' = k) then
                        r <| trust_expires_utc := iso_z (plus_seconds t1 h) |>
                          <| renewal_count := renewal_count r + 1 |>
                      else r)
    | None => None
    end.
Proof.
  cbn [t_horizon renew_trust field_update]. rewrite update_row_get. destruct (dict_get k' _); [|done]. by case_decide.
Qed.

Lemma is_Some_if_ltb {A} (x : A) a b : is_Some (if a <? b then Some x else None) ↔ a < b.
Proof.
  destruct (Z.ltb_spec a b); split.
  - done.
  - eauto.
  - by intros [].
  - lia.
Qed.

(** C12: a reintegrated node is trusted exactly until the horizon has elapsed
    since its admission, or since its last renewal, and neither recording nor
    renewing changes the trust of any other node: the string comparison the
    store makes is the comparison of the instants. *)
Theorem trust_runs_until_expiry k pred h t0 t1 t s :
  dict_ok (t_horizon s) → in_range t → in_range (plus_seconds t0 h) → in_range (plus_seconds t1 h) →
  let s0 := record_reintegration k pred h t0 s in
  let s1 := renew_trust k h t1 s0 in
  (k ∈ dict_keys (get_active_horizon_set t s0) ↔ t < plus_seconds t0 h) ∧
  (k ∈ dict_keys (get_active_horizon_set t s1) ↔ t < plus_seconds t1 h) ∧
  (∀ k', k' ≠ k → dict_get k' (get_active_horizon_set t s1) = dict_get k' (get_active_horizon_set t s)).
Proof.
  intros Hok Ht H0 H1 s0 s1.
  assert (∀ k', dict_get k' (t_horizon s0) =
    if decide (k' = k) then Some (Horizon (Some (iso_z t0)) (iso_z (plus_seconds t0 h)) pred 0)
    else dict_get k' (t_horizon s)) as G0.
  { intros k'. cbn. by rewrite insert_or_replace_get. }
  assert (dict_ok (t_horizon s0)) as K0 by (by apply insert_or_replace_ok).
  assert (dict_ok (t_horizon s1)) as K1.
  { unfold dict_ok, dict_keys in *. cbn [s1 t_horizon renew_trust field_update].
    change (NoDup (dict_keys (t_horizon s1))). cbn [s1 t_horizon renew_trust field_update]. by rewrite update_row_keys. }
  pose proof (renew_trust_get k h t1 s0) as G1.
  rewrite <-!dict_get_is_Some, !active_get by done. split_and!.
  - rewrite G0, decide_True by done. cbn [trust_expires_utc]. rewrite iso_z_lt by done.
    apply is_Some_if_ltb.
  - fold s1 in G1. rewrite G1, G0, !decide_True by done. cbn [trust_expires_utc field_update].
    rewrite iso_z_lt by done.
    apply is_Some_if_ltb.
  - intros k' Hk. rewrite !active_get by done. fold s1 in G1.
    rewrite G1, G0. destruct (decide (k' = k)); [done|]. by destruct (dict_get k' (t_horizon s)).
Qed.

Lemma horizon_partition_witness :
  let s := record_reintegration "n" "p" 3600 (demo_clock 0) (empty_db 9) in
  get_expired_horizon_set (demo_clock 3600) s = ["n"] ∧
  ¬ ("n" ∈ dict_keys (get_active_horizon_set (demo_clock 3600) s) ∧
     "n" ∈ get_expired_horizon_set (demo_clock 3600) s).
Proof.
  intros s. split; [by vm_compute|]. refine (proj2 (horizon_partition (demo_clock 3600) s "n" _)).
  apply (insert_or_replace_ok (V:=horizon_record)). constructor.
Defined.

Lemma trust_runs_until_expiry_witness :
  let s0 := record_reintegration "n" "p" 3600 (demo_clock 0) (empty_db 9) in
  dict_keys (get_active_horizon_set (demo_clock 4000) s0) = [] ∧
  ("n" ∈ dict_keys (get_active_horizon_set (demo_clock 4000) (renew_trust "n" 3600 (demo_clock 3000) s0)) ↔
     demo_clock 4000 < plus_seconds (demo_clock 3000) 3600).
Proof.
  intros s0. split; [by vm_compute|].
  refine (proj1 (proj2 (trust_runs_until_expiry "n" "p" 3600 (demo_clock 0) (demo_clock 3000)
    (demo_clock 4000) (empty_db 9) _ _ _ _))); [constructor|split; vm_compute; congruence..].
Defined.

(** ** Withdrawals *)

(** What one recurrence event does to the entry of [k]. *)
Definition withdrawal_entry (event : recurrence_event) (w_r : list string) (now : Z) (k : string)
    (old : option withdrawal_record) : option withdrawal_record :=
  match old with
  | Some r => Some r
  | None =>
    if decide (k ∈ w_r) then
      Some (Withdrawal (iso_z now) (re_event_id event)
              (if decide (head w_r = Some k) then "DIRECTLY_IMPLICATED" else "UNEXAMINED_DEPENDENT"))
    else None
  end.

Lemma withdraw_all_later event now i w_r l k :
  dict_get k (Sqlite.withdraw_all event now (S i) w_r l) =
    match dict_get k l with
    | Some r => Some r
    | None => if decide (k ∈ w_r) then Some (Withdrawal (iso_z now) (re_event_id event) "UNEXAMINED_DEPENDENT")
              else None
    end.
Proof.
  revert i l; induction w_r as [|x w_r IH]; intros i l; cbn -[decide].
  - rewrite decide_False by apply not_elem_of_nil. by destruct (dict_get k l).
  - rewrite IH, insert_or_ignore_get, (decide_False (P := S i = 0%nat)) by lia.
    destruct (dict_get k l); [done|].
    destruct (decide (k = x)) as [->|Hne]; [by rewrite decide_True by left|].
    apply decide_ext. rewrite elem_of_cons. naive_solver.
Qed.

Lemma withdraw_all_get event now w_r l k :
  dict_get k (Sqlite.withdraw_all event now 0 w_r l) = withdrawal_entry event w_r now k (dict_get k l).
Proof.
  unfold withdrawal_entry. destruct w_r as [|x w_r]; cbn -[decide].
  - rewrite decide_False by apply not_elem_of_nil. by destruct (dict_get k l).
  - rewrite withdraw_all_later, insert_or_ignore_get, (decide_True (P := 0%nat = 0%nat)) by done.
    destruct (dict_get k l); [done|].
    destruct (decide (k = x)) as [->|Hne]; [by rewrite !decide_True by (done || left)|].
    rewrite (decide_False (P := Some x = Some k)) by congruence.
    apply decide_ext. rewrite elem_of_cons. naive_solver.
Qed.

(** Both stores keep the ledger in the same way. *)
Lemma withdraw_all_memory event now i w_r l k :
  dict_get k (Memory.withdraw_all event now i w_r l) = dict_get k (Sqlite.withdraw_all event now i w_r l).
Proof.
  cut (∀ l', (∀ k, dict_get k l' = dict_get k l) →
    dict_get k (Memory.withdraw_all event now i w_r l') = dict_get k (Sqlite.withdraw_all event now i w_r l));
    [auto|].
  revert i l; induction w_r as [|x w_r IH]; intros i l l' Hl; [apply Hl|]. apply IH. intros k'.
  rewrite insert_or_ignore_get. unfold Memory.withdraw, dict_mem. rewrite Hl.
  destruct (dict_get x l) eqn:Ex.
  - rewrite Hl. destruct (dict_get k' l) eqn:Ek; [done|]. case_decide; [congruence|done].
  - rewrite dict_get_set, Hl. repeat case_decide; subst; rewrite ?Ex; try done. all: by destruct (dict_get k' l).
Qed.

(** The withdrawal ledger is append-only in both stores: an entry is never
    rewritten, an event adds exactly the nodes it names, and only the first
    node it names is recorded as directly implicated. *)
Theorem withdrawals_append_only event w_r now (s : db) (m : Memory.state) k :
  dict_get k (t_withdrawals (Sqlite.apply_withdrawal_transaction event w_r now s)) =
    withdrawal_entry event w_r now k (dict_get k (t_withdrawals s)) ∧
  dict_get k (Memory.withdrawal_ledger (Memory.apply_withdrawal_transaction event w_r now m)) =
    withdrawal_entry event w_r now k (dict_get k (Memory.withdrawal_ledger m)).
Proof. split; cbn; [|rewrite withdraw_all_memory]; apply withdraw_all_get. Qed.

(** ** One recurrence *)

(** Planning repairs writes the repair table only. *)
Lemma blast_other_tables root s :
  let s' := (Sqlite.compute_blast_radius root s).2 in
  t_withdrawals s' = t_withdrawals s ∧ t_recurrence s' = t_recurrence s ∧ t_signals s' = t_signals s ∧
  t_shadow s' = t_shadow s.
Proof.
  cbn. apply (fold_left_inv (λ s', t_withdrawals s' = t_withdrawals s ∧ t_recurrence s' = t_recurrence s ∧
    t_signals s' = t_signals s ∧ t_shadow s' = t_shadow s)); [done|].
  intros a k _ (<- & <- & <- & <-). unfold Sqlite.plan_compaction, set_repair_candidate.
  by repeat case_match.
Qed.

Section recurrence.
Context `{E : Env}.

(** A recurrence is always recorded, and withdraws the whole blast radius
    of the node or nothing: when the blast radius exceeds
    [MAX_WITHDRAWAL_AMPLIFICATION] the event is escalated and no node loses its
    trust, otherwise every node of the blast radius is withdrawn, and no entry
    that is already there changes. *)
Theorem recurrence_withdraws_all_or_nothing node_id cls source evidence (w : world db) :
  let r := process_recurrence node_id cls source evidence w in
  let c_p := (Sqlite.compute_blast_radius node_id (w_db w)).1 in
  let exceeded := MAX_WITHDRAWAL_AMPLIFICATION cfg <? Z.of_nat (length c_p) in
  r.1 = Ret () ∧
  ∃ event now, dict_get (re_event_id event) (t_recurrence (w_db r.2)) = Some event ∧
    re_node_id event = node_id ∧ recurrence_class event = cls ∧ escalated event = exceeded ∧
    ∀ k, dict_get k (t_withdrawals (w_db r.2)) =
      (if exceeded then dict_get k (t_withdrawals (w_db w))
       else withdrawal_entry event c_p now k (dict_get k (t_withdrawals (w_db w)))).
Proof.
  intros r c_p exceeded. destruct (blast_other_tables node_id (w_db w)) as (W & _).
  unfold r, process_recurrence, call, uuid4, now, reading, update, mbind, M_bind.
  change (Interface.compute_blast_radius node_id (w_db w)) with (Sqlite.compute_blast_radius node_id (w_db w)).
  fold c_p. destruct (Sqlite.compute_blast_radius node_id (w_db w)) as [c s'] eqn:Hc. cbn [fst snd] in *.
  subst c_p. cbn [w_db w_tick field_update]. fold exceeded. destruct exceeded eqn:Hx; cbn -[insert_or_replace Sqlite.withdraw_all iso_z].
  - split; [done|]. eexists (RecurrenceEvent _ _ _ _ _ _ _ _), 0. cbn [re_event_id].
    split; [by rewrite insert_or_replace_get, decide_True|]. cbn. rewrite W. done.
  - split; [done|]. eexists (RecurrenceEvent _ _ _ _ _ _ _ _), _. cbn [re_event_id].
    split; [by rewrite insert_or_replace_get, decide_True|]. split_and!; [done..|].
    intros k. rewrite withdraw_all_get, W. reflexivity.
Qed.
End recurrence.

(** ** The designation quota *)
Section quota.
Context `{E : Env}.

(** How many of a series of designations get past the limit. *)
Fixpoint accepted (identity : string) (nodes : list string) (w : world db) : nat :=
  match nodes with
  | [] => 0
  | n :: nodes =>
    match limit_designations identity n w with
    | (Ret _, w') => S (accepted identity nodes w')
    | (_, w') => accepted identity nodes w'
    end
  end.

(** The readings [a .. b - 1] of the clock fall in one counting window. *)
Definition one_window (a b : nat) : Prop :=
  ∀ i j, (a ≤ i < b)%nat → (a ≤ j < b)%nat →
    let start := plus_seconds (clock j) (- CONTINUATION_HORIZON_SECONDS cfg) in
    in_range (clock i) ∧ in_range start ∧ start < clock i.

Lemma one_window_sub a a' b : (a ≤ a')%nat → one_window a b → one_window a' b.
Proof. intros Ha Hw i j Hi Hj. apply Hw; lia. Qed.

(** Every window that starts at one of the readings holds [n] attempts. *)
Definition counted_at_least (identity : string) (a b : nat) (n : Z) (s : db) : Prop :=
  ∀ j, (a ≤ j < b)%nat → n ≤ count_recent_signals identity (horizon_start (clock j)) s.

(** An attempt reads the clock twice and is recorded, whatever its outcome. *)
Lemma limit_designations_step identity n (w : world db) :
  let r := limit_designations identity n w in
  let refused := DESIGNATION_RATE_LIMIT cfg <=?
    count_recent_signals identity (horizon_start (clock (w_tick w))) (w_db w) in
  w_tick r.2 = S (S (w_tick w)) ∧
  (∃ outcome, w_db r.2 =
     record_signal_attempt identity n "designation" outcome (clock (S (w_tick w))) (w_db w)) ∧
  r.1 = (if refused then Raise (HTTPException 429 "Rate limit exceeded for designations") else Ret ()).
Proof.
  cbn zeta. unfold limit_designations, now, reading, try_query, update, http, raise, mbind, M_bind.
  cbn [w_db w_tick field_update Interface.count_recent_signals sqlite_backend].
  destruct (_ <=? _); cbn; (split_and!; [done|eexists; reflexivity|done]).
Qed.

Lemma count_recorded identity n outcome i a b k s :
  one_window a b → (a ≤ i < b)%nat → counted_at_least identity a b k s →
  counted_at_least identity a b (k + 1) (record_signal_attempt identity n "designation" outcome (clock i) s).
Proof.
  intros Hw Hi Hc j Hj. specialize (Hc j Hj). destruct (Hw i j Hi Hj) as (Hr & Hs & Hlt).
  unfold count_recent_signals, count_if in *. cbn [t_signals record_signal_attempt field_update].
  rewrite List.filter_app, length_app. cbn -[iso_z]. unfold horizon_start in *.
  rewrite bool_decide_eq_true_2, iso_z_lt by done. apply Z.ltb_lt in Hlt as ->. cbn. lia.
Qed.

Lemma counted_sub identity a a' b k s :
  (a ≤ a')%nat → counted_at_least identity a b k s → counted_at_least identity a' b k s.
Proof. intros Ha Hc j Hj. apply Hc. lia. Qed.

Lemma accepted_bound identity nodes k b (w : world db) :
  one_window (w_tick w) b → (w_tick w + 2 * length nodes ≤ b)%nat →
  counted_at_least identity (w_tick w) b k (w_db w) →
  Z.of_nat (accepted identity nodes w) ≤ Z.max 0 (DESIGNATION_RATE_LIMIT cfg - k).
Proof.
  revert k w; induction nodes as [|n nodes IH]; intros k w Hw Hb Hc; [cbn; lia|].
  cbn [accepted length] in *. destruct (limit_designations_step identity n w) as (Ht & (o & Hs) & Ho).
  destruct (limit_designations identity n w) as [oc w'] eqn:Hlim. cbn [fst snd] in *. subst oc.
  assert (Z.of_nat (accepted identity nodes w') ≤ Z.max 0 (DESIGNATION_RATE_LIMIT cfg - (k + 1))) as Hrest.
  { apply IH; rewrite ?Ht; [by eapply one_window_sub; [|exact Hw]; lia|lia|].
    rewrite Hs. eapply counted_sub; [|apply count_recorded; [exact Hw|lia|exact Hc]]. lia. }
  pose proof (Hc (w_tick w) ltac:(lia)) as Hk.
  destruct (Z.leb_spec (DESIGNATION_RATE_LIMIT cfg)
    (count_recent_signals identity (horizon_start (clock (w_tick w))) (w_db w))); lia.
Qed.

End quota.

