(* ===== verification/AdmissionSpec.v ===== *)
(** * What an admission guarantees

    Properties of the policy evaluation and of [/submit-candidate], proved
    against the interface of the backends. *)
From S2P Require Import Prelude Dict Types Encoding Datetime Graph Lineage Memory Sqlite Interface World Crypto Policy Admission Demo.

Section admission.
Context `{E : Env} {St : Type} `{BackendLaws St} `{!Transactional St}.
Implicit Types (w : world St).

(** ** Silent steps *)
Lemma verify_nhi_jwt_silent t i : silent (verify_nhi_jwt (St:=St) t i).
Proof. unfold verify_nhi_jwt, http. solve_silent. Qed.

Lemma evaluate_opa_policy_silent p q i : silent (evaluate_opa_policy (St:=St) p q i).
Proof.
  unfold evaluate_opa_policy, read_wasm, read_bundle_process, read_rest, read_local_process,
    policy_error, other_error. solve_silent.
Qed.
Hint Resolve verify_nhi_jwt_silent evaluate_opa_policy_silent : silent.

Lemma decide_admission_silent n em qm a : silent (decide_admission (St:=St) n em qm a).
Proof.
  unfold decide_admission, evaluate_admission, ask_policies, policy_error_as, http, now. solve_silent.
Qed.

Lemma check_covers_silent n : silent (check_covers (St:=St) n).
Proof. unfold check_covers, http. solve_silent. Qed.

(** ** Inversion of the steps of the handler *)
Lemma verify_nhi_jwt_Ret t i w claims w' :
  verify_nhi_jwt t i w = (Ret claims, w') →
  w' = w ∧ same_subject (dict_get "sub" claims) i = true ∧
  ∃ token, t = Some token ∧ jwt_decode token (JWT_PUBLIC_KEY cfg) = Some claims.
Proof.
  unfold verify_nhi_jwt. destruct t as [token|]; [|done]. cbn [mbind option_bind].
  destruct (jwt_decode token _) as [c|] eqn:Hj; [|done].
  destruct (same_subject _ i) eqn:Hs; [|done]. intros Hr. inv_ret Hr. eauto.
Qed.

(** The covers of a compaction that passed are clean. *)
Lemma check_covers_Ret n w n' w' :
  check_covers n w = (Ret n', w') →
  w' = w ∧ (n' = n ∨ ∃ gap, n' = n <| covers_interval_gap := Some gap |>) ∧
  (node_type n = Some "COMPACTION" → ∀ c, c ∈ covers n → c ∉ get_quarantine_ledger (w_db w)).
Proof.
  unfold check_covers. case_bool_decide as Ht; intros Hr; inv_rets; [|naive_solver].
  assert (∀ l, covers (n <| covers_interval_gap := Some l |>) = covers n) as Hcov by done.
  rewrite Hcov in *. destruct (covers n) as [|c0 cs] eqn:Hc.
  - inv_rets. split_and!; [done|eauto|]. intros _ c []%elem_of_nil.
  - inv_rets. destruct (List.filter _ _) eqn:Hf; [|done]. inv_rets. split_and!; [done|eauto|].
    intros _ c Hin Hq. rewrite bfilter_nil in Hf. specialize (Hf c Hin).
    rewrite are_quarantined_spec, bool_decide_eq_false in Hf by done. done.
Qed.

Lemma decide_admission_Ret n em qm auth w d w' :
  faithful_engine → decide_admission n em qm auth w = (Ret d, w') →
  w_db w' = w_db w ∧ d = rules_decision n (parent_ids n) em qm auth (clock (w_tick w)).
Proof.
  intros HF. unfold decide_admission, catch.
  destruct (evaluate_admission n (parent_ids n) em qm auth w) as [o w1] eqn:Ho.
  destruct (evaluate_admission_rules _ _ _ _ _ _ _ _ HF Ho) as [Hdb Hd].
  destruct o as [d'|e|]; [|by destruct e|done]. intros [= -> ->]. eauto.
Qed.

(** The tests on the parents are those of the graph and the ledger. *)
Lemma flags_of_store ids w p :
  store_ok (w_db w) → p ∈ ids →
  flag p (nodes_exist ids (w_db w)) = true → flag p (are_quarantined ids (w_db w)) = false →
  p ∈ dict_keys (get_dag (w_db w)) ∧ p ∉ get_quarantine_ledger (w_db w).
Proof.
  intros Hok Hp. rewrite nodes_exist_spec, are_quarantined_spec, bool_decide_eq_false, dict_mem_true by done.
  done.
Qed.

Lemma id_not_quarantined n w :
  flag (payload_id n) (are_quarantined [payload_id n] (w_db w)) = false →
  payload_id n ∉ get_quarantine_ledger (w_db w).
Proof. by rewrite are_quarantined_spec, bool_decide_eq_false by (by left). Qed.

(** Of the content the rules see [justification] only: the other outputs of a
    planner that the separation policy names ([planner_score],
    [confidence_rating], [reasoning_tokens]) are not handed to it. *)
Lemma only_justification_is_screened n n' ids em qm auth t :
  payload_id n' = payload_id n → declared_evidence_boundary n' = declared_evidence_boundary n →
  dict_get "justification" (content_of n') = dict_get "justification" (content_of n) →
  rules_decision n' ids em qm auth t = rules_decision n ids em qm auth t.
Proof.
  intros Hid Hb Hj. unfold rules_decision, allow_state_write, reintegration_input_of.
  cbn [write_request parent_statuses integrity_input_of]. by rewrite Hid, Hb, Hj.
Qed.

(** What the checks before the transaction establish. *)
Record authenticated (n : node) (claims : dict json) : Prop := {
  au_algorithm : signature_algorithm n = Some "ECDSA-P256-SHA256";
  au_subject : same_subject (dict_get "sub" claims) (identity_of n) = true;
  au_token : ∃ token, session_token_of n = Some token ∧ jwt_decode token (JWT_PUBLIC_KEY cfg) = Some claims;
  au_signature : verify_cryptographic_signature n = true;
  au_parents : length (parent_ids n) ≤ 256 }.

Lemma submit_candidate_runs len b w r w' :
  submit_candidate len b w = (Ret r, w') →
  (len ≤ payload_size_limit)%Z ∧
  ∃ n claims decision_id, b = Parsed n ∧ authenticated n claims ∧
    admit_payload n claims decision_id (subject_or_unknown claims) (w <| w_tick ::= S |>) = (Ret r, w').
Proof.
  unfold submit_candidate. intros Hr. inv_rets.
  destruct b as [|[]|n]; try done. unfold uuid4 in Hr. inv_rets.
  match goal with Hj : verify_nhi_jwt _ _ _ = _ |- _ => apply verify_nhi_jwt_Ret in Hj as (-> & Hsub & Htok) end.
  repeat match goal with Hb : bool_decide _ = true |- _ => apply bool_decide_eq_true in Hb end.
  split; [by apply Z.leb_le|]. eexists n, _, _. split_and!; [done|by split|exact Hr].
Qed.

Lemma submit_candidate_Ret len b w r w' :
  submit_candidate len b w = (Ret r, w') →
  (len ≤ payload_size_limit)%Z ∧
  ∃ n claims decision_id w1, b = Parsed n ∧ authenticated n claims ∧ w_db w1 = w_db w ∧
    admit_payload n claims decision_id (subject_or_unknown claims) w1 = (Ret r, w').
Proof.
  intros (Hlen & n & claims & did & -> & Hauth & Ha)%submit_candidate_runs. split; [done|].
  by exists n, claims, did, (w <| w_tick ::= S |>).
Qed.

(** The payload that is stored: as submitted, but for the interval gap. *)
Definition same_write (n n' : node) : Prop :=
  n' = n ∨ ∃ gap, n' = n <| covers_interval_gap := Some gap |>.

Lemma same_write_fields n n' :
  same_write n n' → payload_id n' = payload_id n ∧ parent_ids n' = parent_ids n ∧ covers n' = covers n ∧
    parent_dependency_commitments n' = parent_dependency_commitments n ∧ content_of n' = content_of n ∧
    declared_evidence_boundary n' = declared_evidence_boundary n.
Proof. by intros [->|[gap ->]]. Qed.

Definition parents_clean (n : node) (s : St) : Prop :=
  ∀ p, p ∈ parent_ids n → p ∈ dict_keys (get_dag s) ∧ p ∉ get_quarantine_ledger s.

(** The three ways an enforced decision ends. *)
Inductive enforced (n : node) (auth : dict json) (w w' : world St) : reply response → Prop :=
  | enforced_admit n' t :
      same_write n n' → parents_clean n (w_db w) →
      rules_decision n' (parent_ids n') (nodes_exist (parent_ids n) (w_db w))
        (are_quarantined (parent_ids n) (w_db w)) auth t = Admit →
      hashes_match n' (get_node_content_hashes (parent_ids n) (w_db w)) = true →
      same_core (commit_node n' (w_db w)).2 (w_db w') →
      enforced n auth w w' (Reply 200 (Success false (dict_mem (payload_id n) (get_dag (w_db w)))))
  | enforced_taint n' root event w1 w2 :
      same_write n n' → root ∈ parent_ids n → root ∈ get_quarantine_ledger (w_db w) →
      w_db w1 = w_db w → quarantine_attempt n' root w1 = (Ret event, w2) →
      same_core (w_db w2) (w_db w') →
      enforced n auth w w' (Reply 403 (TaintedParentDetail event))
  | enforced_refusal status reason :
      status ≠ 200%Z →
      (status = 403%Z → ∃ n', same_write n n' ∧
        rules_decision n' (parent_ids n') (nodes_exist (parent_ids n) (w_db w))
          (are_quarantined (parent_ids n) (w_db w)) auth (clock (w_tick w)) = SeparationFailed) →
      same_core (w_db w) (w_db w') →
      enforced n auth w w' (Reply status (Detail reason)).

Lemma audit_core d (n : node) b r em qm wi : respects (St:=St) same_core (audit d n b r em qm wi).
Proof. unfold audit, now. solve_respects. Qed.

Lemma refusal_cases ids qm :
  (∃ root, refusal ids qm = TaintedParent root ∧ root ∈ ids ∧ flag root qm = true) ∨
  refusal ids qm = LineageInvalid.
Proof.
  unfold refusal. destruct (tainted_of ids qm) as [|root l] eqn:Ht; [by right|]. left. exists root.
  split; [done|]. assert (root ∈ tainted_of ids qm) as Hin by (rewrite Ht; left).
  by apply elem_of_bfilter in Hin.
Qed.

Lemma rules_taint n ids em qm auth t root :
  rules_decision n ids em qm auth t = TaintedParent root → root ∈ ids ∧ flag root qm = true.
Proof.
  unfold rules_decision. destruct (negb _); [|by destruct (negb _)].
  destruct (refusal_cases ids qm) as [(root' & -> & ? & ?)| ->]; intros; by simplify_eq.
Qed.

(** What the last writes of an admitted payload leave alone. *)
Lemma completion_core (b : bool) d n em qm wi :
  respects (St:=St) same_core
    (when b (audit d n false "admit" em qm wi ≫= (λ _, update (check_retry_completion n)))).
Proof. pose proof audit_core. solve_respects. Qed.

Lemma admit_payload_enforced n auth did wi w r w' :
  faithful_engine → ENFORCEMENT_MODE cfg ≠ "shadow" → store_ok (w_db w) →
  admit_payload n auth did wi w = (Ret r, w') →
  (payload_id n ∉ get_quarantine_ledger (w_db w)) ∧
  (node_type n = Some "COMPACTION" → ∀ c, c ∈ covers n → c ∉ get_quarantine_ledger (w_db w)) ∧
  enforced n auth w w' r.
Proof.
  intros HF Hmode Hok. unfold admit_payload. intros Hr. inv_ret Hr. inv_rets.
  destruct (flag (payload_id n) _) eqn:Hid; [done|]. apply id_not_quarantined in Hid. inv_rets.
  match goal with Hc : check_covers _ _ = (Ret ?x, _), Hd : decide_admission _ _ _ _ _ = (Ret ?y, ?w2) |- _ =>
    rename x into n', y into d, w2 into w1, Hc into Hcheck, Hd into Hdecide end.
  apply check_covers_Ret in Hcheck as (-> & Hw & Hcov).
  apply (decide_admission_Ret _ _ _ _ _ _ _ HF) in Hdecide as [Hdb Hd].
  split_and!; [done|done|]. fold (same_write n n') in Hw.
  destruct (same_write_fields n n' Hw) as (Hpid & Hpar & _).
  assert (store_ok (w_db w1)) as Hok1 by (by rewrite Hdb).
  rewrite bool_decide_eq_false_2 in Hr by done. destruct d as [|root| |].
  - inv_rets. symmetry in Hd. pose proof (rules_admit _ _ _ _ _ _ Hd) as [Hps _].
    match goal with Hc : when _ _ _ = _ |- _ =>
      rename Hc into Hcomp end.
    destruct (respects_run _ _ _ _ _ (completion_core _ _ _ _ _ _) Hcomp
      (commit_node_ok n' _ Hok1)) as [_ Hcore].
    rewrite commit_node_new, negb_involutive, Hpid, Hdb by done. cbn [w_db field_update] in Hcore.
    rewrite Hdb in Hcore. econstructor; try done. intros p Hp. rewrite <-Hpar in Hp.
    destruct (Hps p Hp) as [Hex Hqu]. rewrite Hpar in Hp. by apply (flags_of_store (parent_ids n)).
  - inv_ret Hr. inv_ret Hr.
    match goal with Hc : audit _ _ _ _ _ _ _ _ = _, Hq : quarantine_attempt _ _ _ = _ |- _ =>
      rename Hc into Haudit, Hq into Hattempt end.
    inv_ret Hr. destruct (respects_run _ _ _ _ _ (quarantine_attempt_evolves _ _) Hattempt Hok1) as [Hok2 _].
    destruct (respects_run _ _ _ _ _ (audit_core _ _ _ _ _ _ _) Haudit Hok2) as [_ Hcore].
    destruct (rules_taint _ _ _ _ _ _ _ (eq_sym Hd)) as [Hin Hfl]. rewrite Hpar in Hin.
    rewrite are_quarantined_spec, bool_decide_eq_true in Hfl by done.
    by eapply enforced_taint.
  - inv_ret Hr. match goal with Hc : audit _ _ _ _ _ _ _ _ = _ |- _ =>
      destruct (respects_run _ _ _ _ _ (audit_core _ _ _ _ _ _ _) Hc Hok1) as [_ Hcore] end.
    inv_ret Hr. rewrite Hdb in Hcore. apply enforced_refusal; [done|done|done].
  - inv_ret Hr. match goal with Hc : audit _ _ _ _ _ _ _ _ = _ |- _ =>
      destruct (respects_run _ _ _ _ _ (audit_core _ _ _ _ _ _ _) Hc Hok1) as [_ Hcore] end.
    inv_ret Hr. rewrite Hdb in Hcore. apply enforced_refusal; [done| |done].
    intros _. eexists. split; [exact Hw|by symmetry].
Qed.

(** ** The effect of a tainted attempt on the graph and the ledger *)
Lemma quarantine_attempt_core n root w event w' :
  store_ok (w_db w) → quarantine_attempt n root w = (Ret event, w') →
  (∀ k, dict_get k (get_dag (w_db w')) = dict_get k (get_dag (commit_node n (w_db w)).2)) ∧
  (∀ x, x ∈ get_quarantine_ledger (w_db w') ↔ x = payload_id n ∨ x ∈ get_quarantine_ledger (w_db w)).
Proof.
  intros Hok. unfold quarantine_attempt, uuid4, now. intros Hr. inv_rets.
  match goal with Hh : recurrence_hook _ _ _ = _, Ho : offer_replacement _ _ _ _ = _ |- _ =>
    rename Hh into Hhook, Ho into Hoffer end.
  pose proof (commit_node_ok n _ Hok) as Hok1. pose proof (blast_ok root _ Hok1) as Hok2.
  destruct (blast_core root _ Hok1) as [D1 L1].
  destruct (respects_run _ _ _ _ _ (recurrence_hook_respects same_core _ _) Hhook Hok2) as [Hok3 [D2 L2]].
  destruct (respects_run _ _ _ _ _ (offer_replacement_respects same_core _ _ _) Hoffer (quarantine_ok _ _ _ Hok3))
    as [_ [D3 L3]].
  cbn [w_db field_update] in *. split.
  - intros k. by rewrite D3, quarantine_dag, D2, D1.
  - intros x. by rewrite L3, quarantine_ledger, list_elem_of_singleton, L2, L1, commit_node_ledger.
Qed.
End admission.

Section claims.
Context `{E : Env} {St : Type} `{BackendLaws St} `{!Transactional St, !RollbackLaws St}.
Implicit Types (w : world St).

Lemma submit_candidate_atomic len b : atomic (submit_candidate (St:=St) len b).
Proof.
  unfold submit_candidate. apply atomic_bind; [apply silent_require|]. intros _.
  destruct b as [|[]|n]; try (by apply silent_atomic, silent_raise).
  apply atomic_bind; [apply silent_require|]. intros _.
  apply atomic_bind; [apply verify_nhi_jwt_silent|]. intros auth.
  apply atomic_bind; [apply silent_require|]. intros _.
  apply atomic_bind; [apply silent_require|]. intros _.
  apply atomic_bind; [apply silent_reading|]. intros did.
  apply atomic_shared, atomic_transaction.
Qed.

(** C21: every refusal that is an exception (oversized or malformed body, bad
    token or signature, too many parents, quarantined identifier, tainted
    covers, declared hash that differs, policy engine down) leaves the store as
    it was: the transaction undoes whatever the handler had written. *)
Theorem submit_refusal_writes_nothing len b w :
  match submit_candidate len b w with (Ret _, _) => True | (_, w') => w_db w' = w_db w end.
Proof. apply submit_candidate_atomic. Qed.



(** A write that can only add to the graph below what is already there: its
    covers are checked, and nothing refers to it yet. *)
Definition well_placed (n : node) (s : St) : Prop :=
  (node_type n = Some "COMPACTION" ∨ covers n = []) ∧
  ∀ k m, dict_get k (get_dag s) = Some m → (payload_id n ∉ parent_ids m) ∧ payload_id n ∉ covers m.

Lemma contained_admit n n' s s' :
  store_ok s → same_write n n' → parents_clean n s →
  (∀ c, c ∈ covers n → c ∉ get_quarantine_ledger s) →
  same_core (commit_node n' s).2 s' → contained s → contained s'.
Proof.
  intros Hok Hw Hp Hc Hcore Hs. apply (same_core_contained _ _ Hcore). intros k m.
  destruct (same_write_fields n n' Hw) as (Hpid & Hpar & Hcov & _).
  rewrite commit_node_dag, commit_node_ledger by done. destruct (dict_get k (get_dag s)) eqn:Hk.
  - intros [= <-]. by apply Hs.
  - case_decide; [|done]. intros [= <-] _ p. rewrite Hpar, Hcov. intros [Hin|Hin]; [by apply Hp|by apply Hc].
Qed.

Lemma contained_attempt n n' s s' :
  store_ok s → same_write n n' → well_placed n s →
  (∀ k, dict_get k (get_dag s') = dict_get k (get_dag (commit_node n' s).2)) →
  (∀ x, x ∈ get_quarantine_ledger s' ↔ x = payload_id n' ∨ x ∈ get_quarantine_ledger s) →
  contained s → contained s'.
Proof.
  intros Hok Hw [_ Hfree] D L Hs k m. destruct (same_write_fields n n' Hw) as (Hpid & _).
  rewrite D, commit_node_dag, L, Hpid by done.
  destruct (dict_get k (get_dag s)) as [m'|] eqn:Hk.
  - intros [= <-] Hkq p Hp. rewrite L, Hpid. intros [->|Hq].
    + destruct (Hfree _ _ Hk). naive_solver.
    + by eapply (Hs k m'); eauto.
  - case_decide; [|done]. subst. naive_solver.
Qed.

(** C4: in enforcing mode a submission keeps the store contained, however the
    handler ends: no node outside the quarantine derives from a node inside it,
    as long as the write is a compaction or covers nothing, and no node of the
    graph refers to its identifier yet. *)
Theorem submission_preserves_containment len b w :
  faithful_engine → ENFORCEMENT_MODE cfg ≠ "shadow" → store_ok (w_db w) → contained (w_db w) →
  (∀ n, b = Parsed n → well_placed n (w_db w)) →
  contained (w_db (submit_candidate len b w).2).
Proof.
  intros HF Hmode Hok Hs Hplace. pose proof (submit_candidate_atomic len b w) as Hat.
  destruct (submit_candidate len b w) as [[r|e|] w'] eqn:Hr; cbn [snd]; [|by rewrite Hat..]. clear Hat.
  apply submit_candidate_Ret in Hr as (_ & n & claims & did & w1 & -> & _ & Hdb & Ha).
  destruct (admit_payload_enforced _ _ _ _ _ _ _ HF Hmode (eq_ind_r store_ok Hok Hdb) Ha) as (_ & Hcov & Hen).
  rewrite Hdb in Hcov. specialize (Hplace n eq_refl).
  inversion Hen as [n' t Hw Hp _ _ Hcore|n' root ev w2 w3 Hw _ _ Hdb2 Hatt Hcore|? ? _ _ Hcore]; subst; rewrite ?Hdb in *.
  - apply (contained_admit n n' (w_db w)); try done. intros c Hc. destruct Hplace as [[Ht|Ht] _]; [by apply Hcov|].
    rewrite Ht in Hc. by apply elem_of_nil in Hc.
  - apply quarantine_attempt_core in Hatt as [D L]; [|by rewrite Hdb2].
    apply (same_core_contained _ _ Hcore). apply (contained_attempt n n' (w_db w)); try done; by rewrite <-Hdb2.
  - by apply (same_core_contained _ _ Hcore).
Qed.

(** ** Failing closed *)

(** [polite m]: with the lock free, [m] returns with the lock free or refuses
    with an HTTP error; [refuses m]: it always refuses. *)
Definition polite {A} (m : M St A) : Prop := ∀ w, w_exclusive w = false →
  (∃ a w', m w = (Ret a, w') ∧ w_exclusive w' = false) ∨ ∃ st d, (m w).1 = Raise (HTTPException st d).
Definition refuses {A} (m : M St A) : Prop := ∀ w, w_exclusive w = false →
  ∃ st d, (m w).1 = Raise (HTTPException st d).

Lemma refuses_http {A} st d : refuses (http st d : M St A).
Proof. intros w _. by exists st, d. Qed.

Lemma refuses_bind {A B} (m : M St A) (f : A → M St B) : polite m → (∀ a, refuses (f a)) → refuses (m ≫= f).
Proof.
  intros Hm Hf w Hw. unfold mbind, M_bind. destruct (Hm w Hw) as [(a & w' & -> & Hw')|(st & d & Hr)].
  - by apply Hf.
  - destruct (m w) as [o w']. cbn in Hr. subst o. by exists st, d.
Qed.

Lemma refuses_bind_l {A B} (m : M St A) (f : A → M St B) : refuses m → refuses (m ≫= f).
Proof.
  intros Hm w Hw. unfold mbind, M_bind. destruct (Hm w Hw) as (st & d & Hr).
  destruct (m w) as [o w']. cbn in Hr. subst o. by exists st, d.
Qed.

Lemma polite_require b st d : polite (require b st d).
Proof. intros w Hw. destruct b; [left; by eexists _, _|right; by eexists _, _]. Qed.

Lemma polite_query {A} (f : St → A) : polite (query f).
Proof. intros w Hw. left. by eexists _, _. Qed.

Lemma polite_reading {A} (f : nat → A) : polite (reading f).
Proof. intros w Hw. left. by eexists _, _. Qed.

Lemma polite_verify_nhi_jwt t i : polite (verify_nhi_jwt (St:=St) t i).
Proof.
  intros w Hw. unfold verify_nhi_jwt. destruct (t ≫= _); [destruct (same_subject _ _)|].
  - left. by eexists _, _.
  - right. by eexists _, _.
  - right. by eexists _, _.
Qed.

Lemma polite_check_covers n : polite (check_covers (St:=St) n).
Proof.
  intros w Hw. unfold check_covers. case_bool_decide; [|left; by eexists _, _].
  unfold query, mbind, M_bind. cbn [covers field_update].
  destruct (covers n); [left; by eexists _, _|].
  destruct (List.filter _ _); [left; by eexists _, _|right; by eexists _, _].
Qed.

(** Every question to the policy engine ends in a policy error. *)
Definition engine_down : Prop := ∀ p q i w, (evaluate_opa_policy p q i w).1 = Raise PolicyEvaluationError.

Lemma refuses_decide_admission n em qm auth : engine_down → refuses (decide_admission (St:=St) n em qm auth).
Proof.
  intros Hdown w _. unfold decide_admission, evaluate_admission, ask_policies, catch, now, reading, mbind, M_bind.
  match goal with |- context [evaluate_opa_policy ?p ?q ?i ?w1] =>
    pose proof (Hdown p q i w1) as H1; destruct (evaluate_opa_policy p q i w1) as [o w2] end.
  cbn in H1. subst o. cbn.
  match goal with |- context [evaluate_opa_policy ?p ?q ?i ?w1] =>
    pose proof (Hdown p q i w1) as H1; destruct (evaluate_opa_policy p q i w1) as [o w3] end.
  cbn in H1. subst o. by exists 503%Z, "Policy engine unavailable".
Qed.

Lemma refuses_admit_payload n auth did wi : engine_down → refuses (admit_payload (St:=St) n auth did wi).
Proof.
  intros Hdown. unfold admit_payload. apply refuses_bind; [apply polite_query|]. intros idq.
  destruct (flag _ idq); [apply refuses_http|].
  do 3 (apply refuses_bind; [apply polite_query|]; intros ?).
  apply refuses_bind; [apply polite_check_covers|]. intros n'.
  by apply refuses_bind_l, refuses_decide_admission.
Qed.

Lemma refuses_submit len b : engine_down → refuses (submit_candidate (St:=St) len b).
Proof.
  intros Hdown. unfold submit_candidate. apply refuses_bind; [apply polite_require|]. intros _.
  destruct b as [|[]|n]; try apply refuses_http.
  apply refuses_bind; [apply polite_require|]. intros _.
  apply refuses_bind; [apply polite_verify_nhi_jwt|]. intros auth.
  apply refuses_bind; [apply polite_require|]. intros _.
  apply refuses_bind; [apply polite_require|]. intros _.
  apply refuses_bind; [apply polite_reading|]. intros did w Hw.
  unfold admission_shared. rewrite Hw. unfold transaction.
  destruct (refuses_admit_payload n auth did (subject_or_unknown auth) Hdown w Hw) as (st & d & Hr).
  destruct (admit_payload _ _ _ _ w) as [o w']. cbn in Hr. subst o. by exists st, d.
Qed.

(** C13: while the policy engine cannot be reached nothing is admitted, in
    shadow mode as in enforcing mode: every submission ends in an HTTP error
    and the store does not change. *)
Theorem policy_outage_fails_closed len b w :
  engine_down → w_exclusive w = false →
  (∃ status detail, (submit_candidate len b w).1 = Raise (HTTPException status detail)) ∧
  w_db (submit_candidate len b w).2 = w_db w.
Proof.
  intros Hdown Hw. destruct (refuses_submit len b Hdown w Hw) as (st & d & Hr). split; [eauto|].
  pose proof (submit_candidate_atomic len b w) as Hat. destruct (submit_candidate len b w) as [o w'].
  cbn [fst snd] in *. by subst o.
Qed.
End claims.

(** C10: the decision on a write is the one the Rego rules give, whichever way
    the engine is run and whether the combined policy answered or the gateway
    fell back to the two separate policies; evaluating it never writes. *)
Theorem policy_decision_is_the_rules `{E : Env} {St} n parent_ids em qm auth (w : world St) d w' :
  faithful_engine →
  evaluate_admission n parent_ids em qm auth w = (Ret d, w') →
  d = rules_decision n parent_ids em qm auth (clock (w_tick w)) ∧ w_db w' = w_db w.
Proof. intros HF He. destruct (evaluate_admission_rules _ _ _ _ _ _ _ _ HF He) as [Hdb Hd]. done. Qed.

Lemma commit_db_other n (s : db) :
  t_shadow (commit_node n s).2 = t_shadow s ∧ payload_id n ∈ dict_keys (nodes (commit_node n s).2).
Proof.
  cbn. unfold Sqlite.commit_node. destruct (dict_mem _ _) eqn:Hm; cbn.
  - by apply dict_mem_true in Hm.
  - split; [done|]. apply dict_get_is_Some. rewrite insert_or_ignore_get. destruct (dict_get _ _); [done|].
    by rewrite decide_True.
Qed.

(** In shadow mode, the default, a submission that is answered is committed
    with an empty answer and leaves no shadow decision: the block that records
    the decision and builds the answer is only reached in enforcing mode. *)
Theorem shadow_mode_records_nothing `{E : Env} len b (w : world db) r w' :
  ENFORCEMENT_MODE cfg = "shadow" →
  submit_candidate len b w = (Ret r, w') →
  r = Reply 200 NullBody ∧ t_shadow (w_db w') = t_shadow (w_db w) ∧
  ∃ n, b = Parsed n ∧ payload_id n ∈ dict_keys (nodes (w_db w')).
Proof.
  intros Hmode Hs. apply submit_candidate_Ret in Hs as (_ & n & claims & did & w1 & -> & _ & Hdb & Ha).
  revert Ha. unfold admit_payload. intros Ha. inv_ret Ha. inv_rets.
  destruct (flag (payload_id n) _); [done|]. inv_rets.
  match goal with Hc : check_covers _ _ = (Ret ?x, _), Hd : decide_admission _ _ _ _ _ = (Ret _, _) |- _ =>
    rename x into n', Hc into Hcheck, Hd into Hdecide end.
  apply check_covers_Ret in Hcheck as (-> & Hw & _). destruct (same_write_fields n n' Hw) as (Hpid & _).
  pose proof (silent_run _ _ _ _ (decide_admission_silent _ _ _ _) Hdecide) as Hdb2.
  rewrite Hmode, bool_decide_eq_true_2 in Ha by done. inv_rets. cbn [w_db field_update].
  rewrite Hdb2, Hdb. split; [done|]. destruct (commit_db_other n' (w_db w)) as [-> Hk]. split; [done|].
  exists n. by rewrite <-Hpid.
Qed.

(** ** Witnesses *)
Definition clean_write : node := agent_write enforce_settings "x" ["other"] [] "STANDARD".
Definition tainted_write : node := agent_write enforce_settings "x" ["other"; "a"] [] "STANDARD".



Lemma submission_preserves_containment_witness :
  contained poisoned ∧ contained (w_db (submit_candidate (E:=enforcing) 100 (Parsed tainted_write) (start_world poisoned)).2).
Proof.
  split; [exact poisoned_contained|].
  refine (submission_preserves_containment 100 (Parsed tainted_write) (start_world poisoned)
    (demo_faithful enforce_settings true no_adapter) ltac:(done) poisoned_wf poisoned_contained _).
  intros n [= <-]. split; [by right|]. intros k m Hk%dict_get_Some_elem. vm_compute in Hk.
  repeat (apply elem_of_cons in Hk as [Hk|Hk]; [injection Hk as -> ->; set_solver|]). by apply elem_of_nil in Hk.
Defined.

Lemma submit_refusal_writes_nothing_witness :
  let r := submit_candidate (E:=enforcing) 100 (Parsed (clean_write <| agent_signature := None |>)) (start_world poisoned) in
  r.1 = Raise (HTTPException 401 "Cryptographic signature verification failed") ∧ w_db r.2 = poisoned.
Proof.
  intros r. assert (r.1 = Raise (HTTPException 401 "Cryptographic signature verification failed")) as Hr
    by (by vm_compute).
  split; [exact Hr|].
  pose proof (submit_refusal_writes_nothing (E:=enforcing) 100 (Parsed (clean_write <| agent_signature := None |>))
    (start_world poisoned)) as Hw.
  change (submit_candidate _ _ _) with r in Hw. destruct r as [o w']. cbn [fst snd] in *. subst o. exact Hw.
Defined.

Lemma policy_decision_is_the_rules_witness :
  let w := start_world poisoned in
  let d := evaluate_admission (E:=enforcing) tainted_write ["other"; "a"] [] [("a", true)] [] w in
  d.1 = Ret (TaintedParent "a") ∧
  TaintedParent "a" = rules_decision tainted_write ["other"; "a"] [] [("a", true)] [] (demo_clock 0).
Proof.
  intros w d. assert (d.1 = Ret (TaintedParent "a")) as Hd by (by vm_compute). split; [exact Hd|].
  exact (proj1 (policy_decision_is_the_rules _ _ _ _ _ _ _ _
    (demo_faithful enforce_settings true no_adapter) (run_eq _ _ _ Hd))).
Defined.
Lemma policy_outage_fails_closed_witness :
  let E := demo_env shadow_settings false no_adapter in
  let r := submit_candidate (E:=E) 100 (Parsed clean_write) (start_world poisoned) in
  r.1 = Raise (HTTPException 503 "Policy engine unavailable") ∧ w_db r.2 = poisoned.
Proof.
  intros E r. split; [by vm_compute|].
  refine (proj2 (policy_outage_fails_closed (E:=E) 100 (Parsed clean_write) (start_world poisoned) _ _)); done.
Defined.

Lemma shadow_mode_records_nothing_witness :
  let E := demo_env shadow_settings true no_adapter in
  let r := submit_candidate (E:=E) 100 (Parsed tainted_write) (start_world poisoned) in
  r.1 = Ret (Reply 200 NullBody) ∧ t_shadow (w_db r.2) = [].
Proof.
  intros E r. assert (r.1 = Ret (Reply 200 NullBody)) as Hr by (by vm_compute). split; [exact Hr|].
  exact (proj1 (proj2 (shadow_mode_records_nothing (E:=E) _ _ _ _ _ eq_refl (run_eq _ _ _ Hr)))).
Defined.
