(* ===== verification/Replay.v ===== *)
(** * Resubmission and replies

    An agent that got no answer sends its write again.  [/submit-candidate]
    tells by the identifier that the write is already there: it answers 200 with
    [idempotent] and writes nothing at all, neither an audit row nor a
    completion.  Only the identifier counts, so a write with other content
    under a taken identifier gets the same answer although its content is
    dropped.  Also here: the JSON of the answers. *)
From S2P Require Import Prelude Dict Types Encoding Json Datetime Graph Lineage Memory Sqlite Interface World Crypto Policy Admission Payload Demo AdmissionSpec.

(** ** The answers as JSON *)
(* src: src/governor_service.py 1459-1489 submit_candidate *)
Definition reply_json (r : response) : json :=
  match r with
  | NullBody => JNull
  | Success _ idempotent =>
    JObj [("status", JStr "success"); ("message", JStr "State node committed to DAG."); ("idempotent", JBool idempotent)]
  | TaintedParentDetail event => JObj [("detail", JObj [("error", JStr "TAINTED_PARENT"); ("event", to_json event)])]
  | Detail reason => JObj [("detail", JStr reason)]
  end.

(** What an agent makes of an answer. *)
Definition read_reply (j : json) : option response :=
  match j with
  | JNull => Some NullBody
  | JObj o =>
    match dict_get "detail" o with
    | Some (JStr reason) => Some (Detail reason)
    | Some (JObj d) => TaintedParentDetail <$> get "event" d
    | Some _ => None
    | None => Success false <$> get "idempotent" o
    end
  | _ => None
  end.

Section replay.
Context `{E : Env} {St : Type} `{BackendLaws St} `{!Transactional St}.
Implicit Types (w : world St).

(** No answer of the handler is lost in its JSON. *)
Lemma reply_reads_back len b w r w' :
  submit_candidate len b w = (Ret r, w') → read_reply (reply_json (content r)) = Some (content r).
Proof.
  intros (_ & n & claims & did & _ & _ & Ha)%submit_candidate_runs. revert Ha. unfold admit_payload. intros Hr.
  inv_ret Hr. inv_rets. destruct (flag (payload_id n) _); [done|]. inv_rets.
  destruct (bool_decide (ENFORCEMENT_MODE cfg = "shadow")); [by inv_rets|].
  match type of Hr with context [match ?d with Admit => _ | _ => _ end] => destruct d end; inv_rets; try done.
  cbn [content reply_json read_reply dict_get].
  match goal with |- context [to_json ?e] => change (TaintedParentDetail <$> of_json (to_json e) = Some (TaintedParentDetail e)) end.
  by rewrite of_to_json.
Qed.

(** ** An answer of 200 *)

(** Nothing after the decision looks at more than the identifier. *)
Lemma admit_payload_200 n auth did wi w resp w' :
  ENFORCEMENT_MODE cfg ≠ "shadow" → store_ok (w_db w) →
  admit_payload n auth did wi w = (Ret (Reply 200 resp), w') →
  resp = Success false (dict_mem (payload_id n) (get_dag (w_db w))) ∧
  (dict_mem (payload_id n) (get_dag (w_db w)) = true → w_db w' = w_db w) ∧
  dict_mem (payload_id n) (get_dag (w_db w')) = true.
Proof.
  intros Hmode Hok. unfold admit_payload. intros Hr. inv_ret Hr. inv_rets.
  destruct (flag (payload_id n) _) eqn:Hid; [done|]. inv_rets.
  match goal with Hc : check_covers _ _ = (Ret ?x, _), Hd : decide_admission _ _ _ _ _ = (Ret ?y, ?w2) |- _ =>
    rename x into n', y into d, w2 into w1, Hc into Hcheck, Hd into Hdecide end.
  apply check_covers_Ret in Hcheck as (-> & Hw & _). fold (same_write n n') in Hw.
  destruct (same_write_fields n n' Hw) as (Hpid & _).
  apply (silent_run _ _ _ _ (decide_admission_silent _ _ _ _)) in Hdecide.
  rewrite bool_decide_eq_false_2 in Hr by done. destruct d as [|root| |].
  - inv_rets. match goal with Hc : when _ _ _ = _ |- _ => rename Hc into Hcomp end.
    assert (store_ok (w_db w1)) as Hok1 by (by rewrite Hdecide).
    destruct (respects_run _ _ _ _ _ (completion_core _ _ _ _ _ _) Hcomp
      (commit_node_ok n' _ Hok1)) as [_ Hcore]. cbn [w_db field_update] in Hcore, Hcomp.
    match goal with Hr : Reply 200 resp = _ |- _ => injection Hr as -> end.
    rewrite (commit_node_new n' (w_db w1)), Hpid, Hdecide in Hcomp |- * by done.
    rewrite negb_involutive. split; [done|]. split.
    + intros Hm. rewrite Hm in Hcomp. cbn in Hcomp. injection Hcomp as _ <-. cbn [w_db field_update].
      apply commit_node_old; by rewrite ?Hpid.
    + rewrite (sc_dag _ _ Hcore), Hdecide. unfold dict_mem. rewrite Interface.commit_node_dag by done. rewrite Hpid.
      destruct (dict_get _ _); [done|]. by rewrite decide_True.
  - by inv_rets.
  - by inv_rets.
  - by inv_rets.
Qed.

Lemma submit_candidate_200 len b w resp w' :
  ENFORCEMENT_MODE cfg ≠ "shadow" → store_ok (w_db w) →
  submit_candidate len b w = (Ret (Reply 200 resp), w') →
  ∃ n, b = Parsed n ∧ resp = Success false (dict_mem (payload_id n) (get_dag (w_db w))) ∧
    (dict_mem (payload_id n) (get_dag (w_db w)) = true → w_db w' = w_db w) ∧
    dict_mem (payload_id n) (get_dag (w_db w')) = true.
Proof.
  intros Hmode Hok (_ & n & claims & did & w1 & -> & _ & Hdb & Ha)%submit_candidate_Ret.
  exists n. rewrite <-Hdb in *. split; [done|]. by eapply admit_payload_200.
Qed.

(** C14: a write counts once. After a submission that was answered 200 in
    enforcing mode, however the store has evolved since, every submission under
    the same identifier that is answered 200 says that it is idempotent and
    leaves the whole store (graph, ledger, audit rows, completions) as it was,
    and the graph still has the node of the first. *)
Theorem write_is_accepted_once len b n r w w1 len' n' r' w2 w3 :
  ENFORCEMENT_MODE cfg ≠ "shadow" → store_ok (w_db w) → store_ok (w_db w2) →
  submit_candidate len b w = (Ret (Reply 200 r), w1) → b = Parsed n →
  evolves (w_db w1) (w_db w2) → payload_id n' = payload_id n →
  submit_candidate len' (Parsed n') w2 = (Ret (Reply 200 r'), w3) →
  r' = Success false true ∧ w_db w3 = w_db w2 ∧
  ∃ m, dict_get (payload_id n) (get_dag (w_db w1)) = Some m ∧ dict_get (payload_id n) (get_dag (w_db w3)) = Some m.
Proof.
  intros Hmode Hok Hok2 Hs -> Hev Hid Hs'.
  destruct (submit_candidate_200 _ _ _ _ _ Hmode Hok Hs) as (? & [= <-] & _ & _ & Hin).
  destruct (submit_candidate_200 _ _ _ _ _ Hmode Hok2 Hs') as (? & [= <-] & -> & Hsame & _).
  rewrite Hid in *. unfold dict_mem in *. destruct (dict_get (payload_id n) (get_dag (w_db w1))) as [m|] eqn:Hm; [|done].
  pose proof (ev_dag _ _ Hev _ _ Hm) as Hm2. rewrite Hm2 in *. rewrite Hsame by done. eauto.
Qed.
End replay.

(** ** A run *)
Definition first_write : node := agent_write enforce_settings "w" ["other"] [] "STANDARD".

(** The same identifier with other parents. *)
Definition second_write : node := agent_write enforce_settings "w" [] [] "STANDARD".

Definition after_first : world db := (submit_candidate (E:=enforcing) 100 (Parsed first_write) (start_world poisoned)).2.

Lemma write_is_accepted_once_witness :
  w_db (submit_candidate (E:=enforcing) 100 (Parsed second_write) after_first).2 = w_db after_first.
Proof.
  assert ((submit_candidate (E:=enforcing) 100 (Parsed first_write) (start_world poisoned)).1
    = Ret (Reply 200 (Success false false))) as H1 by (by vm_compute).
  assert ((submit_candidate (E:=enforcing) 100 (Parsed second_write) after_first).1
    = Ret (Reply 200 (Success false true))) as H2 by (by vm_compute).
  assert (store_ok (w_db after_first)) as Hok.
  { exact (proj1 (respects_run _ _ _ _ _ (submit_candidate_evolves (E:=enforcing) 100 (Parsed first_write))
      (run_eq _ _ _ H1) poisoned_wf)). }
  destruct (write_is_accepted_once (E:=enforcing) 100 (Parsed first_write) first_write _ (start_world poisoned) after_first 100 second_write
    _ after_first _ ltac:(done) poisoned_wf Hok (run_eq _ _ _ H1) eq_refl ltac:(done) eq_refl (run_eq _ _ _ H2))
    as (_ & Hdb & _).
  exact Hdb.
Defined.
