(* ===== verification/Client.v ===== *)
(** * The black-box client ([blackbox_test/signing.py], [blackbox_test/harness.py])

    How a client that only knows the request format builds a candidate: a fresh
    key whose public half is the identity, a session token of the handed-out
    key, a digest and a signature of the content.  The specification is the
    gateway's own: such a candidate, built on clean parents whose hashes the
    client knows, is admitted. *)
From stdpp Require Import pretty.
From S2P Require Import Prelude Dict Types Encoding Timeparse Json Datetime Graph Lineage Memory Sqlite Interface World Crypto Policy Admission Demo.
Local Open Scope Z_scope.

Section client.
Context `{E : Env}.
(** [jwt.encode(claims, key, algorithm="ES256")] of [PyJWT] *)
Context (jwt_encode : dict json → string → string).
(** the operator's private key, and [repr] of an integer *)
Context (server_private_key : string) (int_repr : Z → string).

(* src: blackbox_test/signing.py _public_key_hex *)
Definition client_public_key_hex (private_key : key_pair) : string :=
  let numbers := public_numbers private_key in
  hex (int_to_bytes 32 numbers.1 ++ int_to_bytes 32 numbers.2).

(** [claims.update(extra)] *)
Definition dict_update {V} (extra d : dict V) : dict V := fold_left (λ d kv, dict_set kv.1 kv.2 d) extra d.

(* src: blackbox_test/signing.py make_session_token *)
Definition session_claims (identity_id role : string) (now : Z) (extra : dict json) : dict json :=
  let expires := unix_timestamp (plus_seconds now 3600) in
  dict_update extra
    [("sub", JStr identity_id); ("role", JStr role); ("scope", JStr "agent:state:reconstruct");
     ("is_nhi", JBool true); ("expires_at_epoch", JNum (inject_Z expires) (int_repr expires));
     ("verifier_execution_status", JStr "PASSED")].

Definition make_session_token (identity_id role : string) (now : Z) (extra : dict json) : string :=
  jwt_encode (session_claims identity_id role now extra) server_private_key.

(* src: blackbox_test/signing.py _raw_signature_hex *)
Definition client_signature_hex (private_key : key_pair) (message : list Z) : string :=
  let rs := ecdsa_sign private_key message in
  hex (int_to_bytes 32 rs.1 ++ int_to_bytes 32 rs.2).

(* src: blackbox_test/signing.py sign_candidate *)
Definition sign_candidate (payload_dict : node) (agent_private_key : key_pair) : node :=
  let content_bytes := json_dumps (JObj (content_of payload_dict)) in
  let digest := sha256_hex content_bytes in
  payload_dict <| content_digest_sha256 := Some digest |>
               <| agent_signature := Some (client_signature_hex agent_private_key (encode digest)) |>
               <| signature_algorithm := Some "ECDSA-P256-SHA256" |>.

(** [isoformat().replace("+00:00", "Z")] of a UTC time *)
Definition iso_utc (t : Z) : string :=
  iso_date (ymd_of_days (t / us_per_day)) +:+ "T" +:+ iso_time (t mod us_per_day)
    +:+ iso_fraction (t mod us_per_day) +:+ "Z".

Definition repeat_char (c : string) (n : nat) : string := String.concat "" (replicate n c).

(* src: blackbox_test/signing.py 24-24 PARENT_HASH_FOR_RESET_SEED *)
Definition PARENT_HASH_FOR_RESET_SEED : string := repeat_char "e" 64.

(** The identifiers are two readings of [uuid4], the key one of the generator. *)
(* src: blackbox_test/signing.py build_valid_candidate *)
Definition build_valid_candidate (agent_private_key : key_pair) (uuid boundary_uuid : string) (now : Z)
    (parent_node_ids : list string) (content : dict json) (role : string) : node :=
  let bound_identity_id := client_public_key_hex agent_private_key in
  let expires := plus_seconds now 3600 in
  sign_candidate
    {| payload_id := uuid; node_type := None; timestamp_utc := Some (iso_utc now);
       ephemeral_nhi := Some (Nhi (Some bound_identity_id)
         (Some (make_session_token bound_identity_id role now [])) (Some (iso_utc expires)));
       declared_evidence_boundary := Some (EvidenceBoundary boundary_uuid (iso_utc now) (repeat_char "f" 64));
       state_content := Some content; content_digest_sha256 := None; agent_signature := None;
       signature_algorithm := None; covers := []; covers_interval_gap := None;
       parent_dependency_commitments :=
         (λ p, Commitment p (Some PARENT_HASH_FOR_RESET_SEED) None) <$> parent_node_ids;
       summarizer := None; criticality_weight := None; retry_of := None |} agent_private_key.

(** [DIGEST]: the content digests of the candidates the client has landed. *)
(* src: blackbox_test/harness.py 25-27 submit *)
Definition fix_parent_hash (digests : dict string) (pc : commitment) : commitment :=
  let h := default "" (dict_get (parent_node_id pc) digests) in
  if bool_decide (h = "") then pc else Commitment (parent_node_id pc) (Some h) (edge_class pc).

Definition fix_parent_hashes (digests : dict string) (p : node) : node :=
  p <| parent_dependency_commitments ::= fmap (fix_parent_hash digests) |>.

(* src: blackbox_test/harness.py 20-27 submit *)
Definition harness_candidate (digests : dict string) (k : key_pair) (uuid boundary_uuid : string) (now : Z)
    (parents : list string) (content : dict json) (role : string) : node :=
  fix_parent_hashes digests (build_valid_candidate k uuid boundary_uuid now parents content role).

(* src: blackbox_test/harness.py 33-34 submit *)
Definition note_digest (p : node) (status : option Z) (digests : dict string) : dict string :=
  if decide (status = Some 200) then dict_set (payload_id p) (content_digest (content_of p)) digests else digests.

(** ** The candidate passes each check *)
Section checks.
Context (k : key_pair) (uuid boundary_uuid role : string) (now : Z) (parents : list string) (content : dict json)
  (digests : dict string).
Abbreviation candidate := (harness_candidate digests k uuid boundary_uuid now parents content role).
Abbreviation claims := (session_claims (client_public_key_hex k) role now []).

Lemma fix_parent_hash_id pc : parent_node_id (fix_parent_hash digests pc) = parent_node_id pc.
Proof. unfold fix_parent_hash. by case_bool_decide. Qed.

Lemma candidate_commitments :
  parent_dependency_commitments candidate =
    (λ p, fix_parent_hash digests (Commitment p (Some PARENT_HASH_FOR_RESET_SEED) None)) <$> parents.
Proof.
  change (parent_dependency_commitments candidate)
    with (fix_parent_hash digests <$> ((λ p, Commitment p (Some PARENT_HASH_FOR_RESET_SEED) None) <$> parents)).
  by rewrite <-list_fmap_compose.
Qed.

Lemma candidate_parents : parent_ids candidate = parents.
Proof.
  unfold parent_ids. rewrite candidate_commitments, <-list_fmap_compose.
  rewrite <-(list_fmap_id parents) at 2. apply list_fmap_ext. intros i p _. apply fix_parent_hash_id.
Qed.

Lemma candidate_content : content_of candidate = content.
Proof. reflexivity. Qed.

Lemma candidate_signature `{!SignaturesVerify} : verify_cryptographic_signature candidate = true.
Proof.
  unfold verify_cryptographic_signature. rewrite candidate_content.
  change (identity_of candidate) with (Some (public_hex k)).
  change (agent_signature candidate) with (Some (sign_hex k (content_digest content))).
  change (content_digest_sha256 candidate) with (Some (content_digest content)).
  rewrite bool_decide_eq_true_2, own_signature_verifies by done.
  unfold truthy. rewrite bool_decide_eq_false_2 by apply raw_hex_nonempty. done.
Qed.

Lemma candidate_hashes (stored : dict string) :
  (∀ p, p ∈ parents → let h := default "" (dict_get p stored) in h = "" ∨ dict_get p digests = Some h) →
  hashes_match candidate stored = true.
Proof.
  intros Hst. unfold hashes_match. rewrite candidate_commitments. apply forallb_forall.
  intros pc Hpc%list_elem_of_In. apply list_elem_of_fmap in Hpc as (p & -> & Hp).
  rewrite fix_parent_hash_id. cbn [parent_node_id]. apply orb_true_iff. rewrite !bool_decide_eq_true.
  destruct (Hst p Hp) as [Hh|Hh]; [by left|]. unfold fix_parent_hash. cbn [parent_node_id]. rewrite Hh.
  cbn [default]. case_bool_decide as Hb; [by left|by right].
Qed.
End checks.

(** ** The rules hold of it *)
Section rules.
Context (k : key_pair) (uuid boundary_uuid role : string) (now : Z) (parents : list string) (content : dict json)
  (digests : dict string).
Abbreviation candidate := (harness_candidate digests k uuid boundary_uuid now parents content role).
Abbreviation claims := (session_claims (client_public_key_hex k) role now []).

Lemma append_nonempty a b : b ≠ "" → a +:+ b ≠ "".
Proof. by destruct a. Qed.

Lemma candidate_rules (em qm : dict bool) (t : Z) :
  (∀ p, p ∈ parents → flag p em = true ∧ flag p qm = false) →
  rego_holds (dict_get "justification" content) = false → uuid ≠ "none" →
  unix_timestamp t < unix_timestamp (plus_seconds now 3600) →
  rules_decision candidate parents em qm claims t = Admit.
Proof.
  intros Hp Hj Hu Ht. unfold rules_decision.
  assert (tainted_of parents qm = []) as Hq.
  { apply bfilter_nil. intros p Hin. by destruct (Hp p Hin). }
  assert (allow_state_write (integrity_input_of candidate parents em qm) = true) as ->.
  { unfold allow_state_write. rewrite !andb_true_iff. split_and!.
    - apply forallb_forall. intros st Hst%list_elem_of_In. apply list_elem_of_fmap in Hst as (p & -> & Hin).
      by destruct (Hp p Hin).
    - apply negb_true_iff, not_true_iff_false. intros (st & Hst%list_elem_of_In & Hb)%existsb_exists.
      apply list_elem_of_fmap in Hst as (p & -> & Hin). cbn in Hb. destruct (Hp p Hin). congruence.
    - change (declared_evidence_boundary _) with
        (Some (EvidenceBoundary boundary_uuid (iso_utc now) (repeat_char "f" 64))). cbn [fixed_at_utc].
      apply negb_true_iff, bool_decide_eq_false. unfold iso_utc. by repeat apply append_nonempty. }
  cbn [negb].
  assert (allow_reintegration (reintegration_input_of candidate parents qm claims t) = true) as ->; [|done].
  unfold allow_reintegration, has_evaluative_planner_output, fresh_identity_valid,
    frontier_contains_quarantined_ancestors, ephemeral_identity_valid.
  cbn [justification reintegration_input_of new_candidate_node_id target_replaced_node_id quarantine_set_Q
    admissible_frontier_parent_ids auth_context request_timestamp_epoch verifier_execution_status].
  rewrite candidate_content, Hj, Hq. change (payload_id candidate) with uuid.
  rewrite (bool_decide_eq_false_2 (uuid = "none")) by done. cbn [negb andb].
  assert (existsb (λ p, p ∈? []) parents = false) as ->.
  { apply not_true_iff_false. intros (p & _ & Hb)%existsb_exists. apply bool_decide_eq_true in Hb. by apply elem_of_nil in Hb. }
  change (dict_get "is_nhi" claims) with (Some (JBool true)).
  change (dict_get "scope" claims) with (Some (JStr "agent:state:reconstruct")).
  change (dict_get "verifier_execution_status" claims) with (Some (JStr "PASSED")).
  change (dict_get "expires_at_epoch" claims) with
    (Some (JNum (inject_Z (unix_timestamp (plus_seconds now 3600))) (int_repr (unix_timestamp (plus_seconds now 3600))))).
  cbn [rego_gt json_is_true]. assert (Qle_bool (inject_Z (unix_timestamp (plus_seconds now 3600))) (inject_Z (unix_timestamp t)) = false) as ->; [|done].
  apply not_true_iff_false. rewrite Qle_bool_iff. unfold Qle. cbn. lia.
Qed.
End rules.
End client.

(** ** An engine that answers *)
Record live_engine `{E : Env} : Prop := {
  live_wasm n q input : has_wasmtime = true → opa_wasm n q input = WasmResults [JObj [("result", rego_value input)]];
  live_process n b q input : opa_process n b q input = Exited 0 (Some (eval_output (rego_value input)));
  live_rest n p q input : truthy (OPA_URL cfg) = true →
    opa_rest n p q input = Responded 200 (Some (JObj [("result", JObj (rest_document input))])) }.

Section admitted.
Context `{E : Env} {St : Type} `{BackendLaws St} `{!Transactional St}.
Implicit Types (w : world St).

Lemma bind_ret {A B} (m : M St A) (f : A → M St B) w a w' : m w = (Ret a, w') → (m ≫= f) w = f a w'.
Proof. intros Hm. unfold mbind, M_bind. by rewrite Hm. Qed.

Lemma live_wasm_answer q input w :
  live_engine → has_wasmtime = true →
  (reading (λ n, opa_wasm n q input) ≫= read_wasm) w = (Ret (rego_value input), w <| w_tick ::= S |>).
Proof.
  intros HL Hw. erewrite bind_ret by done. cbv beta. rewrite (live_wasm HL) by done.
  by destruct input.
Qed.

Lemma evaluate_opa_policy_live p q input w :
  live_engine → evaluate_opa_policy p q input w = (Ret (rego_value input), w <| w_tick ::= S |>).
Proof.
  intros HL.
  assert ((reading (λ n, opa_process n true q input) ≫= read_bundle_process) w
    = (Ret (rego_value input), w <| w_tick ::= S |>)) as HB.
  { erewrite bind_ret by done. cbv beta. by rewrite (live_process HL). }
  assert ((reading (λ n, opa_process n false q input) ≫= read_local_process) w
    = (Ret (rego_value input), w <| w_tick ::= S |>)) as HP.
  { erewrite bind_ret by done. cbv beta. by rewrite (live_process HL). }
  assert (truthy (OPA_URL cfg) = true → (reading (λ n, opa_rest n p q input) ≫= read_rest) w
    = (Ret (rego_value input), w <| w_tick ::= S |>)) as HR.
  { intros Hu. erewrite bind_ret by done. cbv beta. rewrite (live_rest HL) by done. by destruct input. }
  unfold evaluate_opa_policy. repeat case_match; try done; try (by apply HR).
  apply live_wasm_answer; [done|]. by match goal with Hb : _ && _ = true |- _ => apply andb_true_iff in Hb as [? _] end.
Qed.

Lemma ask_policies_live ids qm i v w :
  live_engine → ask_policies ids qm i v w = (Ret (decided ids qm i v), w <| w_tick ::= S |>).
Proof.
  intros HL. unfold ask_policies.
  rewrite (bind_ret _ _ w (Some (admission_result i v)) (w <| w_tick ::= S |>)).
  - rewrite get_truthy_write, get_truthy_reintegration. unfold decided.
    destruct (allow_state_write i); [|done]. by destruct (allow_reintegration v).
  - unfold catch. by rewrite (bind_ret _ _ w _ _ (evaluate_opa_policy_live _ _ (Combined i v) w HL)).
Qed.

(** With the engine answering, so does [evaluate_admission]. *)
Lemma decide_admission_live n em qm auth w :
  live_engine →
  decide_admission n em qm auth w =
    (Ret (rules_decision n (parent_ids n) em qm auth (clock (w_tick w))), w <| w_tick ::= S |> <| w_tick ::= S |>).
Proof.
  intros HL. unfold decide_admission, catch, evaluate_admission.
  rewrite (bind_ret now _ w (clock (w_tick w)) (w <| w_tick ::= S |>)) by done.
  by rewrite ask_policies_live.
Qed.

(** The world after an admission: the node is committed, the audit row written
    and the completion of a retry checked. *)
Definition admission_row (decision_id wi : string) (n : node) (s : St) (t : Z) : shadow_decision :=
  ShadowDecision decision_id (payload_id n) (iso_z t) false "admit"
    ((λ pid, (pid, flag pid (nodes_exist (parent_ids n) s), flag pid (are_quarantined (parent_ids n) s))) <$> parent_ids n)
    bundle_or_none wi.

Lemma admit_payload_live n auth did wi w s' :
  live_engine → ENFORCEMENT_MODE cfg ≠ "shadow" → store_ok (w_db w) →
  node_type n = None →
  (payload_id n ∉ get_quarantine_ledger (w_db w)) → payload_id n ∉ dict_keys (get_dag (w_db w)) →
  rules_decision n (parent_ids n) (nodes_exist (parent_ids n) (w_db w))
    (are_quarantined (parent_ids n) (w_db w)) auth (clock (w_tick w)) = Admit →
  hashes_match n (get_node_content_hashes (parent_ids n) (w_db w)) = true →
  record_shadow_decision (admission_row did wi n (w_db w) (clock (S (S (w_tick w))))) (commit_node n (w_db w)).2 = Some s' →
  ∃ w', admit_payload n auth did wi w = (Ret (Reply 200 (Success false false)), w') ∧
    w_db w' = check_retry_completion n s'.
Proof.
  intros HL Hmode Hok Hnt Hq Hd Hr Hh Ha. unfold admit_payload.
  rewrite (bind_ret (query _) _ w _ w) by done.
  rewrite are_quarantined_spec, bool_decide_eq_false_2 by (done || by left).
  do 3 rewrite (bind_ret (query _) _ w _ w) by done.
  rewrite (bind_ret (check_covers n) _ w n w)
    by (unfold check_covers; by rewrite bool_decide_eq_false_2 by (by rewrite Hnt)).
  rewrite (bind_ret _ _ _ _ _ (decide_admission_live _ _ _ _ _ HL)), Hr, bool_decide_eq_false_2 by done.
  rewrite Hh. rewrite (bind_ret (require true _ _) _ _ tt _) by done.
  set (w2 := w <| w_tick ::= S |> <| w_tick ::= S |>).
  rewrite (bind_ret (call _) _ w2 true (w2 <| w_db := (commit_node n (w_db w)).2 |>)).
  2:{ unfold call. cbn [w_db w2 field_update world_rebuild].
      pose proof (commit_node_new n _ Hok) as Hn. rewrite (proj2 (dict_mem_false _ _) Hd) in Hn.
      destruct (commit_node n (w_db w)) as [b s1]. cbn in Hn. by subst b. }
  eexists. split.
  - unfold when. rewrite (bind_ret _ _ _ tt (w2 <| w_tick ::= S |> <| w_db := check_retry_completion n s' |>)); [reflexivity|].
    rewrite (bind_ret _ _ _ tt (w2 <| w_tick ::= S |> <| w_db := s' |>)); [reflexivity|].
    unfold audit. rewrite (bind_ret now _ _ (clock (S (S (w_tick w)))) (w2 <| w_tick ::= S |> <| w_db := (commit_node n (w_db w)).2 |>)) by done.
    unfold try_update. cbn [w_db field_update world_rebuild w2]. unfold admission_row in Ha. by rewrite Ha.
  - done.
Qed.
End admitted.

(** ** The client and the gateway together *)
Section end_to_end.
Context `{E : Env} {St : Type} `{BackendLaws St} `{!Transactional St} `{!SignaturesVerify}.
Context (jwt_encode : dict json → string → string) (server_private_key : string) (int_repr : Z → string).
Abbreviation candidate_of := (harness_candidate jwt_encode server_private_key int_repr).
Abbreviation claims_of := (session_claims int_repr).

(** A token that the client makes with the operator's key decodes to its claims. *)
Definition token_decodes (identity role : string) (t : Z) : Prop :=
  jwt_decode (make_session_token jwt_encode server_private_key int_repr identity role t []) (JWT_PUBLIC_KEY cfg)
    = Some (claims_of identity role t []).

(** An honest client is not turned away.  In enforcing mode, with the policy
    engine answering, a candidate that the client builds with a fresh key and a
    fresh identifier on parents that are in the graph and clean, and whose
    stored hashes it knows, is answered 200, is in the graph as sent and leaves
    the quarantine as it was, provided the gateway's clock is less than an hour
    ahead, the content has no justification and the audit row can be stored. *)
Theorem honest_client_is_admitted (len : Z) k uuid boundary_uuid role now parents content digests (w : world St) :
  let c := candidate_of digests k uuid boundary_uuid now parents content role in
  let decision_id := fresh_uuid (w_tick w) in
  live_engine → token_decodes (client_public_key_hex k) role now → ENFORCEMENT_MODE cfg ≠ "shadow" →
  store_ok (w_db w) → w_exclusive w = false → (len ≤ payload_size_limit)%Z → (length parents ≤ 256)%nat →
  (∀ p, p ∈ parents → p ∈ dict_keys (get_dag (w_db w)) ∧ p ∉ get_quarantine_ledger (w_db w)) →
  (∀ p, p ∈ parents → let h := default "" (dict_get p (get_node_content_hashes parents (w_db w))) in
     h = "" ∨ dict_get p digests = Some h) →
  uuid ∉ dict_keys (get_dag (w_db w)) → uuid ∉ get_quarantine_ledger (w_db w) → uuid ≠ "none" →
  rego_holds (dict_get "justification" content) = false →
  (unix_timestamp (clock (S (w_tick w))) < unix_timestamp (plus_seconds now 3600))%Z →
  is_Some (record_shadow_decision
    (admission_row decision_id (client_public_key_hex k) c (w_db w) (clock (S (S (S (w_tick w)))))) (commit_node c (w_db w)).2) →
  ∃ w', submit_candidate len (Parsed c) w = (Ret (Reply 200 (Success false false)), w') ∧
    dict_get uuid (get_dag (w_db w')) = Some c ∧
    get_quarantine_ledger (w_db w') = get_quarantine_ledger (w_db w).
Proof.
  intros c did HL Htok Hmode Hok Hex Hlen Hpar Hclean Hhash Hfresh Hnq Hnone Hj Hclock [s' Hs'].
  assert (parent_ids c = parents) as Hpids by apply candidate_parents.
  set (w1 := w <| w_tick ::= S |>).
  destruct (admit_payload_live c (claims_of (client_public_key_hex k) role now []) did (client_public_key_hex k) w1 s')
    as (w' & Hrun & Hdb); try done.
  - rewrite Hpids. apply candidate_rules; try done. intros p Hp. destruct (Hclean p Hp) as [Hd Hq].
    split; [by rewrite nodes_exist_spec, dict_mem_true|]. by rewrite are_quarantined_spec, bool_decide_eq_false.
  - rewrite Hpids. by apply candidate_hashes.
  - exists w'. split.
    + unfold submit_candidate. rewrite (proj2 (Z.leb_le _ _) Hlen).
      rewrite (bind_ret (require true _ _) _ w tt w) by done.
      change (signature_algorithm c) with (Some "ECDSA-P256-SHA256"). rewrite (bool_decide_eq_true_2 (Some _ = Some _)) by done.
      rewrite (bind_ret (require true _ _) _ w tt w) by done.
      change (session_token_of c) with
        (Some (make_session_token jwt_encode server_private_key int_repr (client_public_key_hex k) role now [])).
      change (identity_of c) with (Some (client_public_key_hex k)).
      rewrite (bind_ret (verify_nhi_jwt _ _) _ w (claims_of (client_public_key_hex k) role now []) w).
      2:{ unfold verify_nhi_jwt. cbn [mbind option_bind]. rewrite Htok.
          change (same_subject _ _) with (bool_decide (client_public_key_hex k = client_public_key_hex k)).
          by rewrite bool_decide_eq_true_2. }
      assert (verify_cryptographic_signature c = true) as ->
        by exact (candidate_signature jwt_encode server_private_key int_repr k uuid boundary_uuid role now parents content digests).
      rewrite (bind_ret (require true _ _) _ w tt w) by done.
      rewrite Hpids, (bool_decide_eq_true_2 (_ ≤ _)%nat) by done. rewrite (bind_ret (require true _ _) _ w tt w) by done.
      rewrite (bind_ret uuid4 _ w did w1) by done.
      change (subject_or_unknown _) with (client_public_key_hex k).
      unfold admission_shared. change (w_exclusive w1) with (w_exclusive w). rewrite Hex.
      unfold transaction. by rewrite Hrun.
    + destruct (record_shadow_decision_frame _ _ _ (commit_node_ok c _ Hok) Hs') as [Hok' [Dd Dl _]].
      destruct (check_retry_completion_frame c s' Hok') as [_ [Rd Rl _]].
      rewrite Hdb, Rd, Rl, Dd, Dl, commit_node_dag, commit_node_ledger by done. split; [|done].
      change (payload_id c) with uuid. apply dict_get_None in Hfresh. by rewrite Hfresh, decide_True.
Qed.
End end_to_end.

(** ** An example: tokens are the JSON text of their claims *)
Definition text_token (claims : dict json) (key : string) : string := dumps false (JObj claims).
Definition read_token (token key : string) : option (dict json) :=
  match loads token with Some (JObj o) => Some o | _ => None end.

Definition client_env : Env :=
  let E := enforcing in
  {| cfg := @cfg E; payload_size_limit := @payload_size_limit E; env_text := @env_text E; clock := @clock E;
     fresh_uuid := @fresh_uuid E; key_pair := @key_pair E; fresh_key := @fresh_key E; public_key := @public_key E;
     public_numbers := @public_numbers E; load_numbers := @load_numbers E; load_encoded_point := @load_encoded_point E;
     encode_dss_signature := @encode_dss_signature E; ecdsa_verify := @ecdsa_verify E; ecdsa_sign := @ecdsa_sign E;
     jwt_decode := read_token; path_exists := @path_exists E; has_wasmtime := false; opa_wasm := @opa_wasm E;
     opa_process := @opa_process E; opa_rest := @opa_rest E; adapter_post := @adapter_post E; set_order := @set_order E |}.

#[export] Instance client_signatures : @SignaturesVerify client_env.
Proof. destruct (demo_signatures enforce_settings true no_adapter). by split. Qed.

Lemma client_live : @live_engine client_env.
Proof. by split. Qed.

(** The clock of the example: the gateway's first reading. *)
Definition client_now : Z := demo_clock 0.

Abbreviation client_candidate :=
  (harness_candidate (E:=client_env) text_token "private" pretty [] 41 "u1" "b1" client_now ["a"] demo_content "agent").

Lemma client_token : @token_decodes client_env text_token "private" pretty (@client_public_key_hex client_env 41) "agent" client_now.
Proof. vm_compute. reflexivity. Qed.

Lemma client_audit (n : node) (row : shadow_decision) :
  is_Some (record_shadow_decision row (commit_node n seeded).2).
Proof.
  change (is_Some (Sqlite.record_shadow_decision row (Sqlite.commit_node n seeded).2)).
  unfold Sqlite.record_shadow_decision.
  assert (t_shadow (Sqlite.commit_node n seeded).2 = []) as -> by (unfold Sqlite.commit_node; by destruct (dict_mem _ _)).
  by eexists.
Qed.

Lemma client_parents p : p ∈ ["a"] → p ∈ dict_keys (get_dag seeded) ∧ p ∉ get_quarantine_ledger seeded.
Proof. intros ->%list_elem_of_singleton. split; by apply (bool_decide_unpack _). Qed.

Lemma client_fresh : ("u1" ∉ dict_keys (get_dag seeded)) ∧ "u1" ∉ get_quarantine_ledger seeded.
Proof. split; by apply (bool_decide_unpack _). Qed.

Lemma client_hashes p :
  p ∈ ["a"] → let h := (default "" (dict_get p (get_node_content_hashes ["a"] seeded))) in
    h = "" ∨ dict_get p ([] : dict string) = Some h.
Proof. intros ->%list_elem_of_singleton. by left. Qed.

Lemma client_clock : (unix_timestamp (demo_clock 1) < unix_timestamp (plus_seconds client_now 3600))%Z.
Proof. vm_compute. reflexivity. Qed.

Lemma honest_client_is_admitted_witness :
  ∃ w', @submit_candidate client_env _ _ _ 100 (Parsed client_candidate) (start_world seeded)
      = (Ret (Reply 200 (Success false false)), w') ∧ dict_get "u1" (get_dag (w_db w')) = Some client_candidate.
Proof.
  destruct (honest_client_is_admitted (E:=client_env) (St:=db) text_token "private" pretty
    100 41 "u1" "b1" "agent" client_now ["a"] demo_content [] (start_world seeded) client_live client_token
    ltac:(done) seeded_wf eq_refl ltac:(done) ltac:(cbn; lia) client_parents client_hashes
    (proj1 client_fresh) (proj2 client_fresh) ltac:(done) eq_refl client_clock (client_audit _ _)) as (w' & Hr & Hd & _).
  exists w'. split; assumption.
Defined.
