(* ===== verification/Body.v ===== *)
(** * From the bytes of a request to a payload

    The first lines of [/submit-candidate] parse the body and check it against
    [schemas/state_write_payload.json]; the rest of the handler takes the types
    of the schema for granted.  This file composes the two: what passes is a
    typed payload, what a submission adds to the graph is one, and the client's
    own bodies pass and read back as they were built.  [jsonschema]'s validator
    is a parameter, with what its documentation promises as the law. *)
From stdpp Require Import pretty.
From S2P Require Import Prelude Dict Types Encoding Timeparse Json Datetime Graph Lineage Memory Sqlite Payload Jsonschema Interface World Crypto Policy Admission Recovery Detectors Designation AdmissionSpec Demo Client.
Local Open Scope Z_scope.

(** [str(e.path)] and [e.message] of a [ValidationError] *)
Record validation_error := ValidationError { path_text : string; message : string }.

(** [Draft202012Validator(schema).validate(instance)]: the error it raises. *)
Class Validator := {
  first_error : schema → json → option validation_error;
  first_error_spec s j : first_error s j = None ↔ conforms s j = true }.

Definition mentions_text (needle text : string) : bool :=
  match String.index 0 needle text with Some _ => true | None => false end.

Section body.
Context `{V : Validator}.

(** [None] would be a body that the checks let through and that is no payload. *)
(* src: src/governor_service.py 1259-1273 submit_candidate *)
Definition parse_body (body_bytes : string) : option body :=
  match loads body_bytes with
  | None => Some NotJson
  | Some payload =>
    match first_error state_write_payload payload with
    | Some e => Some (SchemaInvalid (mentions_text "signature_algorithm" (path_text e)
                                     || mentions_text "signature_algorithm" (message e)))
    | None => Parsed <$> read_payload payload
    end
  end.

Lemma parse_body_typed text :
  is_Some (parse_body text) ∧ ∀ n, parse_body text = Some (Parsed n) → typed_payload n.
Proof.
  unfold parse_body. destruct (loads text) as [j|]; [|done].
  destruct (first_error _ j) as [e|] eqn:He; [done|]. apply first_error_spec in He.
  destruct (reads_payload j He) as [_ (n & Hn & Ht)]. rewrite Hn. split; [by eexists|]. by intros m [= <-].
Qed.

Context `{E : Env} {St : Type} `{BackendLaws St} `{!Transactional St, !RollbackLaws St}.
Implicit Types (w : world St).

(** The route: the body's length is that of its bytes. *)
(* src: src/governor_service.py 1252-1267 submit_candidate *)
Definition receive_candidate (body_bytes : string) : M St (reply response) :=
  match parse_body body_bytes with
  | Some b => submit_candidate (Z.of_nat (String.length body_bytes)) b
  | None => raise OtherException
  end.

(** ** The nodes that a submission adds *)
Definition adds_typed (s s' : St) : Prop :=
  ∀ k n, dict_get k (get_dag s') = Some n → dict_get k (get_dag s) = Some n ∨ typed_payload n.

#[local] Instance adds_typed_preorder : PreOrder adds_typed.
Proof.
  split; [by left|]. intros s1 s2 s3 H12 H23 k n Hk. destruct (H23 k n Hk) as [H2|]; [|by right]. by apply H12.
Qed.

#[local] Instance adds_typed_core : CoreRelation adds_typed.
Proof. intros s s' [D _ _] k n. rewrite D. by left. Qed.

Lemma commit_typed n : typed_payload n → respects (St:=St) adds_typed (call (commit_node n)).
Proof.
  intros Ht. apply respects_call. intros s Hs. split; [by apply commit_node_ok|]. intros k m.
  rewrite commit_node_dag by done. destruct (dict_get k (get_dag s)); [by left|]. case_decide; [|done].
  intros [= <-]. by right.
Qed.

Lemma quarantine_adds_typed e c : respects (St:=St) adds_typed (call (apply_quarantine_transaction e c)).
Proof.
  apply respects_call. intros s Hs. split; [by apply quarantine_ok|]. intros k m. rewrite quarantine_dag. by left.
Qed.

(** The rest of a computation may rely on what the first step returns. *)
Lemma respects_bind_post (R : St → St → Prop) `{!PreOrder R} {A B} (P : A → Prop) (m : M St A) (f : A → M St B) :
  respects R m → (∀ w a w', m w = (Ret a, w') → P a) → (∀ a, P a → respects R (f a)) → respects R (m ≫= f).
Proof.
  intros Hm HP Hf w Hw. unfold mbind, M_bind. destruct (Hm w Hw) as [Hok HR]. specialize (HP w).
  destruct (m w) as [[a|e|] w'] eqn:Em; cbn [fst snd] in *; [|done..].
  destruct (Hf a (HP a w' eq_refl) w' Hok). split; [done|by etrans].
Qed.

Lemma same_write_typed n n' : same_write n n' → typed_payload n → typed_payload n'.
Proof. intros [->|[gap ->]] Ht; [done|]. destruct Ht. by split. Qed.

Lemma admit_adds_typed n auth did wi : typed_payload n → respects adds_typed (admit_payload (St:=St) n auth did wi).
Proof.
  intros Ht. pose proof quarantine_adds_typed as Hq.
  assert (∀ n', same_write n n' → respects (St:=St) adds_typed (call (commit_node n'))) as Hc.
  { intros n' Hw. by eapply commit_typed, same_write_typed. }
  assert (∀ m root, same_write n m → respects (St:=St) adds_typed (quarantine_attempt m root)) as Ha.
  { intros m root Hw. pose proof (Hc m Hw). unfold quarantine_attempt, uuid4, now.
    assert (∀ e, respects (St:=St) adds_typed (offer_replacement m root e)) by (intros; by apply offer_replacement_respects; apply _).
    solve_respects. }
  unfold admit_payload. apply respects_bind; [apply _|apply respects_query; apply _|intros idq]. case_match.
  { apply respects_raise; apply _. }
  do 3 (apply respects_bind; [apply _|apply respects_query; apply _|intros ?]).
  apply (respects_bind_post _ (same_write n)).
  - unfold check_covers, http. solve_respects.
  - intros w n' w' Hr. by apply check_covers_Ret in Hr as (_ & Hw & _).
  - intros n' Hw. pose proof (Hc n' Hw). pose proof (λ root, Ha n' root Hw).
    unfold decide_admission, audit, http, now. solve_respects.
Qed.

Lemma submit_adds_typed len b :
  (∀ n, b = Parsed n → typed_payload n) → respects adds_typed (submit_candidate (St:=St) len b).
Proof.
  intros Ht. assert (∀ n auth did wi, b = Parsed n → respects adds_typed (admit_payload (St:=St) n auth did wi)) as Ha.
  { intros n auth did wi Hb. by apply admit_adds_typed, Ht. }
  unfold submit_candidate, http, uuid4. destruct b as [|[]|n]; solve_respects.
Qed.
End body.

(** ** Documents *)
Definition given {A} (l : list A) : option (list A) := match l with [] => None | _ => Some l end.

(** The entries of a body in the order in which the clients write them. *)
(* src: blackbox_test/live_run.py 15-22 compaction *)
Definition wire_fields (p : node) : fields :=
  [("payload_id", Some (to_json (payload_id p))); ("timestamp_utc", to_json <$> timestamp_utc p);
   ("ephemeral_nhi", to_json <$> ephemeral_nhi p);
   ("declared_evidence_boundary", to_json <$> declared_evidence_boundary p);
   ("parent_dependency_commitments", Some (to_json (parent_dependency_commitments p)));
   ("state_content", to_json <$> state_content p); ("content_digest_sha256", to_json <$> content_digest_sha256 p);
   ("agent_signature", to_json <$> agent_signature p); ("signature_algorithm", to_json <$> signature_algorithm p);
   ("node_type", to_json <$> node_type p); ("covers", to_json <$> given (covers p));
   ("summarizer", to_json <$> summarizer p)].

Definition wire_document (p : node) : json := object (wire_fields p).

(** [json.dumps(body).encode()] *)
(* src: blackbox_test/gasc.py 45-46 req *)
Definition request_bytes (p : node) : string := dumps false (wire_document p).

(** A payload that the document shows whole. *)
Record on_the_wire (p : node) : Prop := {
  wire_gap : covers_interval_gap p = None;
  wire_weight : criticality_weight p = None;
  wire_retry : retry_of p = None;
  wire_summarizer : from_option (λ s, resolved_model s = None ∧ generation_params_digest s = None) True (summarizer p);
  wire_content : from_option (λ o, json_ok (JObj o)) True (state_content p) }.

Lemma wire_keys p : NoDup (wire_fields p).*1.
Proof. apply (bool_decide_unpack _). vm_compute. exact I. Qed.

Lemma wire_get p k v : dict_get k (wire_fields p) = Some v → dict_get k (entries (wire_fields p)) = v.
Proof. intros Hk. by rewrite entries_get, Hk by apply wire_keys. Qed.

Lemma wire_get_none p k : dict_get k (wire_fields p) = None → dict_get k (entries (wire_fields p)) = None.
Proof. intros Hk. by rewrite entries_get, Hk by apply wire_keys. Qed.

Ltac wire_lookup := first [erewrite wire_get by reflexivity | rewrite wire_get_none by reflexivity].

(** *** What is written conforms *)
Lemma nhi_conforms (i : nhi) : full_nhi i → conforms nhi_s (to_json i) = true.
Proof. destruct i as [a b c]. by intros ([? [=->]] & [? [=->]] & [? [=->]]). Qed.

Lemma boundary_conforms (b : evidence_boundary) : sealed_boundary b → conforms boundary_s (to_json b) = true.
Proof.
  destruct b as [i t d]. unfold sealed_boundary. cbn [boundary_digest]. intros Hd%conforms_hex64.
  apply conforms_object_intro; try done; [by repeat constructor|by left|]. by repeat constructor.
Qed.

Lemma commitment_conforms (c : commitment) : hashed_commitment c → conforms commitment_s (to_json c) = true.
Proof.
  destruct c as [p h e]. intros [(t & Hh & Ht%conforms_hex64) He]. cbn in Hh, He. subst h.
  apply conforms_object_intro; try done; [by repeat constructor|by left|].
  repeat (apply Forall_cons; split; [|]); [done|done| |done].
  destruct e as [e|]; [|done]. by apply conforms_one_of in He.
Qed.

Lemma summarizer_conforms (s : summarizer_info) : conforms summarizer_s (to_json s) = true.
Proof. destruct s as [[] [] [] []]; reflexivity. Qed.

Lemma strings_conform (l : list string) : conforms strings_s (to_json l) = true.
Proof. apply conforms_list with string_s; try done; [cbn; lia|]. by apply Forall_fmap, Forall_true. Qed.

Lemma entries_key (f : fields) k : k ∈ dict_keys (entries f) → k ∈ f.*1.
Proof.
  intros Hk. apply list_elem_of_fmap in Hk as (kv & -> & Hk). apply list_elem_of_omap in Hk as ([k v] & Hin & Hv).
  cbn in Hv. destruct v as [v|]; [|done]. injection Hv as <-. by apply (list_elem_of_fmap_2 fst) in Hin.
Qed.

Lemma wire_document_conforms p : typed_payload p → on_the_wire p → conforms state_write_payload (wire_document p) = true.
Proof.
  intros [Tt [tm Tm] (i & Ei & Ti) (b & Eb & Tb) [sc Ts] (d & Ed & Td) [sg Tg] Ta Tp Tc _] _.
  pose proof (nhi_conforms i Ti) as Ci. pose proof (boundary_conforms b Tb) as Cb.
  apply conforms_object_intro; try done.
  - repeat (apply Forall_cons; split; [wire_lookup; rewrite ?Tm, ?Ei, ?Eb, ?Ts, ?Ed, ?Tg, ?Ta; by eexists|]). done.
  - right. apply Forall_forall. intros k Hk%entries_key. revert k Hk. apply Forall_forall.
    apply (bool_decide_unpack _). vm_compute. exact I.
  - repeat (apply Forall_cons; split; [cbn [fst snd]; wire_lookup; rewrite ?Tm, ?Ei, ?Eb, ?Ts, ?Ed, ?Tg, ?Ta; try done|]); [..|done].
    + destruct (node_type p); [|done]. by apply conforms_one_of in Tt.
    + destruct (given (covers p)); [apply strings_conform|done].
    + destruct (summarizer p); [apply summarizer_conforms|done].
    + apply (conforms_list _ commitment_s); try done.
      * destruct (parent_dependency_commitments p); [done|]. cbn. lia.
      * apply Forall_fmap. eapply Forall_impl; [exact Tc|]. apply commitment_conforms.
Qed.

Lemma wire_document_ok p : on_the_wire p → json_ok (wire_document p).
Proof.
  intros [_ _ _ _ Hc]. apply object_ok; [apply wire_keys|].
  repeat (apply Forall_cons; split; [cbn [snd from_option]|]); try done;
    try (match goal with |- from_option _ _ (_ <$> ?o) => by destruct o end).
  - apply storable_opt, from_option_storable, storable_nhi.
  - apply storable_opt, from_option_storable, storable_boundary.
  - apply storable_list, Forall_true. intros. apply storable_commitment.
  - apply storable_opt, from_option_storable, storable_strings.
  - apply storable_opt, from_option_storable, storable_summarizer.
Qed.

(** *** What is written is read back *)
Lemma opt_field_wire `{JsonCodec A} (rd : json → option A) k p (a : option A) :
  dict_get k (wire_fields p) = Some (to_json <$> a) → from_option (λ x, rd (to_json x) = Some x) True a →
  opt_field rd k (entries (wire_fields p)) = Some a.
Proof.
  intros Hk Hr. unfold opt_field. rewrite (wire_get _ _ _ Hk). destruct a as [a|]; [|done]. cbn in Hr |- *.
  pose proof (to_json_not_null a). destruct (to_json a) eqn:Ej; try done; by rewrite Hr.
Qed.

Lemma opt_field_absent {A} (rd : json → option A) k p :
  dict_get k (wire_fields p) = None → opt_field rd k (entries (wire_fields p)) = Some None.
Proof. intros Hk. unfold opt_field. by rewrite wire_get_none. Qed.

Lemma read_opt_all `{JsonCodec A} (rd : json → option A) (o : option A) :
  (∀ a, rd (to_json a) = Some a) → from_option (λ a, rd (to_json a) = Some a) True o.
Proof. intros Hr. destruct o; [apply Hr|done]. Qed.

Lemma read_commitment_back (c : commitment) : read_commitment (to_json c) = Some c.
Proof. destruct c as [? [] []]; reflexivity. Qed.
Lemma read_nhi_back (i : nhi) : read_nhi (to_json i) = Some i.
Proof. destruct i as [[] [] []]; reflexivity. Qed.
Lemma read_boundary_back (b : evidence_boundary) : read_boundary (to_json b) = Some b.
Proof. destruct b; reflexivity. Qed.
Lemma read_list_back `{JsonCodec A} (rd : json → option A) (l : list A) :
  (∀ a, rd (to_json a) = Some a) → read_list rd (to_json l) = Some l.
Proof. intros Hr. by apply mapM_fmap_Some. Qed.

Lemma read_wire_document p : on_the_wire p → read_payload (wire_document p) = Some p.
Proof.
  intros [Wg Ww Wr Ws _]. unfold wire_document, object, read_payload, read_object, field_of.
  rewrite (wire_get p "payload_id" _ eq_refl). cbn [mbind option_bind read_string to_json string_codec].
  assert (∀ s : string, read_string (to_json s) = Some s) as Hs by done.
  assert (∀ s : dict json, read_dict (to_json s) = Some s) as Hd by done.
  repeat first
    [ rewrite opt_field_absent by reflexivity
    | erewrite (opt_field_wire read_string) by first [reflexivity | by apply read_opt_all]
    | erewrite (opt_field_wire read_dict) by first [reflexivity | by apply read_opt_all]
    | erewrite (opt_field_wire read_nhi) by first [reflexivity | by apply read_opt_all, read_nhi_back]
    | erewrite (opt_field_wire read_boundary) by first [reflexivity | by apply read_opt_all, read_boundary_back] ];
  cbn [mbind option_bind].
  rewrite (opt_field_wire (read_list read_string) "covers" p (given (covers p)))
    by first [reflexivity | apply read_opt_all; intros; by apply read_list_back].
  rewrite (opt_field_absent _ "covers_interval_gap") by reflexivity.
  rewrite (opt_field_wire (read_list read_commitment) "parent_dependency_commitments" p (Some (parent_dependency_commitments p)))
    by first [reflexivity | apply read_list_back, read_commitment_back].
  rewrite (opt_field_wire read_summarizer "summarizer" p (summarizer p)); [|reflexivity|].
  - cbn [mbind option_bind]. f_equal. destruct p. cbn in *. subst. f_equal. by destruct covers.
  - destruct (summarizer p) as [[[] [] r g]|]; cbn in Ws |- *; [..|done]; by destruct Ws as [-> ->].
Qed.

(** The bytes of such a document are parsed to the payload they were made of. *)
Lemma parse_request_bytes `{V : Validator} p :
  typed_payload p → on_the_wire p → parse_body (request_bytes p) = Some (Parsed p).
Proof.
  intros Ht Hw. unfold parse_body, request_bytes. rewrite loads_dumps by by apply wire_document_ok.
  rewrite (proj2 (first_error_spec _ _) (wire_document_conforms p Ht Hw)). by rewrite read_wire_document.
Qed.

(** ** The client's bodies *)
Section honest.
Context `{E : Env} (jwt_encode : dict json → string → string) (server_private_key : string) (int_repr : Z → string).
Abbreviation candidate_of := (harness_candidate jwt_encode server_private_key int_repr).

(** The digests that a client noted are digests. *)
Definition noted_digests (digests : dict string) : Prop :=
  ∀ p h, dict_get p digests = Some h → h = "" ∨ matches Hex64 h = true.

Lemma candidate_typed k uuid boundary_uuid role now parents content digests :
  parents ≠ [] → noted_digests digests →
  typed_payload (candidate_of digests k uuid boundary_uuid now parents content role).
Proof.
  intros Hp Hd. split; try done.
  - eexists. split; [reflexivity|]. split_and!; by eexists.
  - eexists. split; [reflexivity|]. by vm_compute.
  - eexists. split; [reflexivity|]. apply matches_sha256.
  - rewrite candidate_commitments. by destruct parents.
  - rewrite candidate_commitments. apply Forall_fmap, Forall_true. intros p. cbn -[matches]. unfold fix_parent_hash.
    cbn [parent_node_id]. destruct (dict_get p digests) as [h|] eqn:Hh; cbn [default].
    + case_bool_decide as Hb; (split; [|done]); eexists; (split; [reflexivity|]); [by vm_compute|].
      by destruct (Hd p h Hh).
    + rewrite bool_decide_eq_true_2 by done. split; [|done]. eexists. split; [reflexivity|]. by vm_compute.
Qed.

Lemma candidate_on_the_wire k uuid boundary_uuid role now parents content digests :
  json_ok (JObj content) → on_the_wire (candidate_of digests k uuid boundary_uuid now parents content role).
Proof. by split. Qed.
End honest.

(** ** What the handler sees *)
Section claims.
Context `{V : Validator} `{E : Env} {St : Type} `{BackendLaws St} `{!Transactional St, !RollbackLaws St}.
Implicit Types (w : world St).


(** C17: the bytes that an honest client sends are admitted.  With the
    conditions under which its candidate is admitted, at least one parent, noted
    digests that are digests and a content that is proper JSON, the body it
    serialises passes the parser and the schema, is read as the candidate it
    built, and the gateway answers 200 with that candidate in the graph and the
    quarantine as it was. *)
Theorem honest_request_is_admitted `{!SignaturesVerify} jwt_encode server_private_key int_repr k uuid boundary_uuid role now
    parents content digests w :
  let c := harness_candidate jwt_encode server_private_key int_repr digests k uuid boundary_uuid now parents content role in
  let decision_id := fresh_uuid (w_tick w) in
  live_engine → token_decodes jwt_encode server_private_key int_repr (client_public_key_hex k) role now →
  ENFORCEMENT_MODE cfg ≠ "shadow" →
  store_ok (w_db w) → w_exclusive w = false →
  (Z.of_nat (String.length (request_bytes c)) ≤ payload_size_limit) → parents ≠ [] → (length parents ≤ 256)%nat →
  (∀ p, p ∈ parents → p ∈ dict_keys (get_dag (w_db w)) ∧ p ∉ get_quarantine_ledger (w_db w)) →
  (∀ p, p ∈ parents → let h := default "" (dict_get p (get_node_content_hashes parents (w_db w))) in
     h = "" ∨ dict_get p digests = Some h) →
  noted_digests digests → json_ok (JObj content) →
  uuid ∉ dict_keys (get_dag (w_db w)) → uuid ∉ get_quarantine_ledger (w_db w) → uuid ≠ "none" →
  rego_holds (dict_get "justification" content) = false →
  (unix_timestamp (clock (S (w_tick w))) < unix_timestamp (plus_seconds now 3600)) →
  is_Some (record_shadow_decision
    (admission_row decision_id (client_public_key_hex k) c (w_db w) (clock (S (S (S (w_tick w)))))) (commit_node c (w_db w)).2) →
  ∃ w', receive_candidate (request_bytes c) w = (Ret (Reply 200 (Success false false)), w') ∧
    dict_get uuid (get_dag (w_db w')) = Some c ∧
    get_quarantine_ledger (w_db w') = get_quarantine_ledger (w_db w).
Proof.
  intros c did HL Htok Hmode Hok Hex Hlen Hpar Hn Hclean Hhash Hd Hc Hfresh Hnq Hnone Hj Hclock Haudit.
  unfold receive_candidate. rewrite parse_request_bytes.
  - by apply (honest_client_is_admitted jwt_encode server_private_key int_repr _ k uuid boundary_uuid role now parents content digests).
  - by apply candidate_typed.
  - by apply candidate_on_the_wire.
Qed.
End claims.

(** ** The example agent ([examples/langgraph_agent_integration.py])

    Digests, boundary and signature are placeholders in it. *)
(* src: examples/langgraph_agent_integration.py 16-19 sign_payload *)
Definition sign_payload (payload : node) (private_key : string) : string := "mock_cryptographic_signature_from_agent".

(* src: examples/langgraph_agent_integration.py 21-23 compute_digest *)
Definition compute_digest (content : dict json) : string := "mock_sha256_hash_of_content".

(** [session_suffix] is the head of a UUID in hexadecimal. *)
(* src: examples/langgraph_agent_integration.py 25-60 submit_agent_action_to_governor *)
Definition agent_action (agent_id : string) (action_data : dict json) (parent_nodes : list string)
    (payload_id session_suffix now_utc : string) : node :=
  let payload :=
    {| payload_id := payload_id; node_type := None; timestamp_utc := Some now_utc;
       ephemeral_nhi := Some (Nhi (Some agent_id) (Some ("session_" +:+ session_suffix)) (Some "2026-12-31T23:59:59Z"));
       declared_evidence_boundary := Some (EvidenceBoundary "langgraph-agent-boundary" now_utc "mock_boundary_digest");
       state_content := Some action_data; content_digest_sha256 := Some (compute_digest action_data);
       agent_signature := None; signature_algorithm := None; covers := []; covers_interval_gap := None;
       parent_dependency_commitments := (λ p, Commitment p (Some "mock_hash") None) <$> parent_nodes;
       summarizer := None; criticality_weight := None; retry_of := None |} in
  payload <| agent_signature := Some (sign_payload payload "agent_private_key") |>
          <| signature_algorithm := Some "ECDSA-P256-SHA256" |>.

(** What the function returns for a response: its JSON when approved. *)
(* src: examples/langgraph_agent_integration.py 65-82 submit_agent_action_to_governor *)
Definition agent_result {A} (o : outcome (reply A)) : option A :=
  match o with
  | Ret r => if status_code r =? 200 then Some (content r) else None
  | _ => None
  end.

(** The schema refuses the placeholders, so the example never gets an action approved. *)
Theorem example_agent_is_never_approved `{V : Validator} `{E : Env} {St} `{Backend St, !Transactional St}
    agent_id action_data parent_nodes id suffix now_utc (w : world St) :
  json_ok (JObj action_data) →
  let text := request_bytes (agent_action agent_id action_data parent_nodes id suffix now_utc) in
  agent_result (receive_candidate text w).1 = None ∧ (receive_candidate text w).2 = w.
Proof.
  intros Hj text. unfold receive_candidate, parse_body, text, request_bytes.
  rewrite loads_dumps by by apply wire_document_ok.
  destruct (first_error _ _) as [e|] eqn:He.
  - unfold submit_candidate, require. destruct (_ <=? _); [|done]. by destruct (_ || _).
  - apply first_error_spec, conforms_object in He as (_ & _ & Hp).
    set (b := EvidenceBoundary "langgraph-agent-boundary" now_utc "mock_boundary_digest") in *.
    assert (conforms boundary_s (to_json b) = true) as Hb.
    { apply (Hp "declared_evidence_boundary"); [done|]. by rewrite (wire_get _ _ (Some (to_json b))). }
    by vm_compute in Hb.
Qed.

(** ** The event schema

    [schemas/quarantine_event.json] has no room for who designated and why. *)
Lemma designated_event_is_off_schema (e : quarantine_event) :
  is_Some (designator_identity e) → conforms quarantine_event_s (to_json e) = false.
Proof.
  intros [d Hd]. apply not_true_iff_false. intros Hc. apply conforms_object in Hc as (_ & Ha & _).
  specialize (Ha eq_refl "designator_identity"). revert Ha.
  rewrite <-(dict_get_is_Some "designator_identity"). rewrite (entries_get _ "designator_identity").
  - cbn. rewrite Hd. intros Ha. specialize (Ha ltac:(by eexists)). revert Ha. apply (bool_decide_unpack _). by vm_compute.
  - apply (bool_decide_unpack _). by vm_compute.
Qed.

(** No event that a designation stores on SQLite conforms to it. *)
Theorem designation_events_are_off_schema `{E : Env} node_id identity reason source (w : world db) c_p e w' :
  contain node_id identity reason source w = (Ret (c_p, e), w') → conforms quarantine_event_s (to_json e) = false.
Proof.
  unfold contain, uuid4, now. intros Hr. inv_rets. apply designated_event_is_off_schema. simplify_eq/=. by eexists.
Qed.

(** ** A validator that keeps the law *)
#[export] Instance reference_validator : Validator.
Proof.
  refine {| first_error s j := if conforms s j then None else Some (ValidationError "deque([])" "the instance does not conform") |}.
  intros s j. by destruct (conforms s j).
Defined.

Abbreviation client_body := (request_bytes client_candidate).


Lemma honest_request_is_admitted_witness :
  ∃ w', receive_candidate (E:=client_env) client_body (start_world seeded) = (Ret (Reply 200 (Success false false)), w') ∧
    dict_get "u1" (get_dag (w_db w')) = Some client_candidate.
Proof.
  destruct (honest_request_is_admitted (E:=client_env) (H0:=sqlite_laws) text_token "private" pretty
    41 "u1" "b1" "agent" client_now ["a"] demo_content [] (start_world seeded) client_live client_token
    ltac:(done) seeded_wf eq_refl ltac:(by vm_compute) ltac:(done) ltac:(cbn; lia) client_parents client_hashes
    ltac:(by intros p h) ltac:(repeat constructor; set_solver)
    (proj1 client_fresh) (proj2 client_fresh) ltac:(done) eq_refl client_clock (client_audit _ _)) as (w' & Hr & Hd & _).
  exists w'. split; assumption.
Defined.
