(* ===== verification/LiveRun.v ===== *)
(** * The black-box re-run ([blackbox_test/live_run.py])

    The scripted attacks C1 to C4 and the R6 guard of the re-run, as programs over
    the gateway's handlers and the black-box client: each ends in the verdict that
    the script prints.  They are evaluated on an SQLite store with the enforcing
    policy engine.  The random hammer (R9) is in [Campaign], the thread race (R10)
    in [Runner]. *)
From stdpp Require Import pretty.
From S2P Require Import Prelude Dict Types Encoding Datetime Timeparse Json Graph Lineage Memory Sqlite Interface World Crypto Policy Admission Recovery Detectors Designation Routes Reports Demo Client.

Section script.
Context `{E : Env} {St : Type} `{Backend St} `{!Transactional St}.
Context (jwt_encode : dict json → string → string) (server_private_key : string) (int_repr : Z → string).
Abbreviation candidate_of := (harness_candidate jwt_encode server_private_key int_repr).
Implicit Types (digests : dict string).

(** [req(..)["status"]]: an exception of another kind than [HTTPException] is a
    500, and [None] stands for no answer in time. *)
(* src: blackbox_test/gasc.py req *)
Definition status_of {A} (m : M St (reply A)) : M St (option Z) := λ w,
  match m w with
  | (Ret r, w') => (Ret (Some (status_code r)), w')
  | (Raise (HTTPException status _), w') => (Ret (Some status), w')
  | (Raise _, w') => (Ret (Some 500%Z), w')
  | (Hang, w') => (Ret None, w')
  end.

Definition is_status (z : Z) (status : option Z) : bool := bool_decide (status = Some z).

(* src: blackbox_test/gasc.py mint_jwt *)
Definition mint_jwt (claims : dict json) : string := jwt_encode claims server_private_key.

Definition bearing (claims : dict json) : request := Request (Some ("Bearer " +:+ mint_jwt claims)).
Definition DESIG : request := bearing [("sub", JStr "d"); ("role", JStr "designator")].
Definition ADMIN : request := bearing [("sub", JStr "x"); ("role", JStr "admin")].

(* src: blackbox_test/harness.py reset *)
Definition live_reset : M St (option Z) := status_of (reset_db ADMIN).

(* src: blackbox_test/harness.py submit *)
Definition live_submit (digests : dict string) (parents : list string) (state : dict json) (mutate : node → node)
    : M St (string * option Z * dict string) :=
  k ← generate_private_key; uuid ← uuid4; boundary ← uuid4; t ← now;
  let p := mutate (candidate_of digests k uuid boundary t parents state "agent") in
  status ← status_of (submit_candidate 100 (Parsed p));
  mret (payload_id p, status, note_digest p status digests).

(* src: blackbox_test/harness.py designate *)
Definition live_designate (node_id : string) : M St (option Z) :=
  status_of (designate_poison (bearing [("sub", JStr "designator"); ("role", JStr "designator")]) node_id "poison").

(* src: blackbox_test/harness.py quarantine_set *)
Definition quarantine_set : M St (list string) :=
  catch (db ← db_state ADMIN; mret (db.1.1.1.2)) (λ _, mret []).

(* src: blackbox_test/live_run.py compaction *)
Definition live_compaction (parent : string) (covered : list string) (state : dict json) : M St (string * option Z) :=
  key ← generate_private_key; uuid ← uuid4; boundary ← uuid4; t ← now;
  let idhex := client_public_key_hex key in
  let dig := content_digest state in
  let b :=
    {| payload_id := uuid; node_type := Some "COMPACTION"; timestamp_utc := Some (iso_utc t);
       ephemeral_nhi := Some (Nhi (Some idhex)
         (Some (make_session_token jwt_encode server_private_key int_repr idhex "agent" t []))
         (Some (iso_utc (plus_seconds t 3600))));
       declared_evidence_boundary := Some (EvidenceBoundary boundary (iso_utc t) (repeat_char "f" 64));
       state_content := Some state; content_digest_sha256 := Some dig;
       agent_signature := Some (client_signature_hex key (encode dig));
       signature_algorithm := Some "ECDSA-P256-SHA256"; covers := covered; covers_interval_gap := None;
       parent_dependency_commitments := [Commitment parent (Some (repeat_char "e" 64)) None];
       summarizer := Some (Summarizer (Some "m") (Some "d") None None); criticality_weight := None; retry_of := None |} in
  status ← status_of (submit_candidate 100 (Parsed b));
  mret (uuid, status).

Definition poison : dict json := [("secret", JStr "POISON")].
Definition note (key text : string) : dict json := [(key, JStr text)].

(** C1: a compaction may not launder what it covers, whichever comes first. *)
(* src: blackbox_test/live_run.py 27-35 c1_designate_first *)
Definition c1_designate_first : M St bool :=
  live_reset ≫= λ _,
  '(pnode, _, _) ← live_submit [] ["clean-parent-1"] poison id;
  live_designate pnode ≫= λ _,
  '(comp, rc) ← live_compaction "clean-parent-1" [pnode] (note "summary" "distilled from poison");
  q ← quarantine_set;
  mret (negb (is_status 200 rc) || (comp ∈? q)).

(* src: blackbox_test/live_run.py 37-41 c1_designate_after *)
Definition c1_designate_after : M St bool :=
  live_reset ≫= λ _,
  '(pn, _, _) ← live_submit [] ["clean-parent-1"] poison id;
  '(c2, _) ← live_compaction "clean-parent-1" [pn] (note "summary" "x");
  live_designate pn ≫= λ _,
  q ← quarantine_set;
  mret (c2 ∈? q).

(** C2: the report shows a breach if there is one. *)
(* src: blackbox_test/live_run.py 44-50 c2_report_integrity *)
Definition c2_report_integrity : M St bool :=
  live_reset ≫= λ _,
  '(pn, _, _) ← live_submit [] ["clean-parent-1"] poison id;
  live_designate pn ≫= λ _,
  '(c3, r3) ← live_compaction "clean-parent-1" [pn] (note "summary" "s");
  t1 ← now; t2 ← now;
  mc ← query (measured_cost_report t1 t2);
  q ← quarantine_set;
  mret (negb (is_status 200 r3) || (c3 ∈? q) || negb (bool_decide (escape_set mc = []))).

(** C3: after the only root is quarantined a new one restores availability, and
    only an administrator can seed it. *)
(* src: blackbox_test/live_run.py 53-68 c3_availability *)
Definition c3_availability : M St bool :=
  live_reset ≫= λ _,
  '(_, _, digests) ← live_submit [] ["clean-parent-1"] (note "v" "A") id;
  live_designate "clean-parent-1" ≫= λ _,
  '(_, _, digests) ← live_submit digests ["clean-parent-1"] (note "v" "write on quarantined root") id;
  status_of (seed_root ADMIN (Some "new-root-1")) ≫= λ _,
  db ← db_state ADMIN;
  let dag := db.1.1.1.1 in
  let newhash := default "" (dict_get "new-root-1" dag ≫= content_digest_sha256) in
  let digests := dict_set "new-root-1" newhash digests in
  '(_, rw2, _) ← live_submit digests ["new-root-1"] (note "v" "availability restored") id;
  srx ← status_of (seed_root (bearing [("sub", JStr "s"); ("role", JStr "agent")]) (Some "evil"));
  mret (is_status 200 rw2 && (is_status 401 srx || is_status 403 srx)).

(** C4: a quarantined identifier is not reused. *)
(* src: blackbox_test/live_run.py 71-75 c4_no_reuse *)
Definition c4_no_reuse : M St bool :=
  live_reset ≫= λ _,
  '(x, _, digests) ← live_submit [] ["clean-parent-1"] (note "v" "orig") id;
  live_designate x ≫= λ _,
  '(_, rr, _) ← live_submit digests ["clean-parent-1"] (note "v" "attacker") (λ pl, pl <| payload_id := x |>);
  mret (negb (is_status 200 rr)).

(** R6: a quarantined node's trust is not renewed. *)
(* src: blackbox_test/live_run.py 78-80 r6_no_rehabilitation *)
Definition r6_no_rehabilitation : M St bool :=
  live_reset ≫= λ _,
  '(pn, _, _) ← live_submit [] ["clean-parent-1"] (note "v" "P") id;
  live_designate pn ≫= λ _,
  r ← status_of (renew_trust_route DESIG pn);
  mret (is_status 403 r).
End script.

(** ** The verdicts on the model *)

(** A token without blanks: the JSON text of the claims in hexadecimal. *)
Definition hex_token (claims : dict json) (key : string) : string := hex (encode (text_token claims key)).
Definition read_hex_token (token key : string) : option (dict json) :=
  bytes ← fromhex token; read_token (String.string_of_list_ascii (z_ascii <$> bytes)) key.

Definition live_env : Env :=
  let E := client_env in
  {| cfg := @cfg E; payload_size_limit := @payload_size_limit E; env_text := @env_text E; clock := @clock E;
     fresh_uuid := @fresh_uuid E; key_pair := @key_pair E; fresh_key := @fresh_key E; public_key := @public_key E;
     public_numbers := @public_numbers E; load_numbers := @load_numbers E; load_encoded_point := @load_encoded_point E;
     encode_dss_signature := @encode_dss_signature E; ecdsa_verify := @ecdsa_verify E; ecdsa_sign := @ecdsa_sign E;
     jwt_decode := read_hex_token; path_exists := @path_exists E; has_wasmtime := false; opa_wasm := @opa_wasm E;
     opa_process := @opa_process E; opa_rest := @opa_rest E; adapter_post := @adapter_post E; set_order := @set_order E |}.

Abbreviation on_gateway f := (f hex_token "private" pretty (start_world (empty_db 1000))).1.

(** Every scripted attack is repelled: the verdicts are all "SECURE". *)
Theorem live_run_is_secure :
  on_gateway (c1_designate_first (E:=live_env)) = Ret true ∧ on_gateway (c1_designate_after (E:=live_env)) = Ret true ∧
  on_gateway (c2_report_integrity (E:=live_env)) = Ret true ∧ on_gateway (c3_availability (E:=live_env)) = Ret true ∧
  on_gateway (c4_no_reuse (E:=live_env)) = Ret true ∧ on_gateway (r6_no_rehabilitation (E:=live_env)) = Ret true.
Proof. split_and!; by vm_compute. Qed.
