(* ===== verification/Campaign.v ===== *)
(** * Random campaigns ([blackbox_test/live_run.py], [blackbox_test/property_runner.py])

    The drivers that send random requests and judge what they see.  What they
    draw from the random generator is an argument; an empty sequence makes
    [random.choice] raise.  The theorems are about every draw: the verdict that a
    driver prints cannot be the bad one. *)
From stdpp Require Import pretty.
From S2P Require Import Prelude Dict Types Encoding Datetime Timeparse Json Graph Lineage Memory Sqlite Interface Postgres World Crypto Policy Admission Recovery Detectors Designation Routes Reports Demo AdmissionSpec Client LiveRun.

(** [random.choice(l)] *)
Definition choice {A} (l : list A) (draw : nat) : option A := l !! (draw mod length l).

Section campaign.
Context `{E : Env} {St : Type} `{Backend St} `{!Transactional St}.
Context (jwt_encode : dict json → string → string) (server_private_key : string) (int_repr : Z → string).
Abbreviation submit := (live_submit jwt_encode server_private_key int_repr).
Abbreviation designate := (live_designate jwt_encode server_private_key).
Abbreviation observed_quarantine := (quarantine_set jwt_encode server_private_key).
Abbreviation the_designator := (DESIG jwt_encode server_private_key).
Abbreviation the_admin := (ADMIN jwt_encode server_private_key).
Implicit Types (digests : dict string) (nodes : list string).

Definition drawn {A} (o : option A) : M St A := match o with Some a => mret a | None => raise OtherException end.

(** [strftime("%Y-%m-%dT%H:%M:%S.%f")[:-3] + "Z"] *)
(* src: blackbox_test/gasc.py now *)
Definition client_timestamp (t : Z) : string :=
  let us := (t mod us_per_day)%Z in
  iso_date (ymd_of_days (t / us_per_day)) +:+ "T" +:+ iso_time us +:+ "."
    +:+ pad 3 ((us mod us_per_second) / 1000)%Z +:+ "Z".

(** ** R9: the monotonicity hammer *)
Inductive hammer_op := OpDesignate | OpObserve | OpRenew | OpCheckpoint | OpSubstitute.

(* src: blackbox_test/live_run.py 90-96 hammer *)
Definition hammer_request (op : hammer_op) (n source : string) : M St () :=
  match op with
  | OpDesignate => designate n ≫= λ _, mret ()
  | OpObserve => status_of (observe_recurrence the_designator (ObserveEvent n "IDENTICAL" [] None)) ≫= λ _, mret ()
  | OpRenew => status_of (renew_trust_route the_designator n) ≫= λ _, mret ()
  | OpCheckpoint =>
    id ← uuid4; t ← now;
    status_of (declare_checkpoint the_admin (Checkpoint id n (client_timestamp t) [])) ≫= λ _, mret ()
  | OpSubstitute =>
    t ← now;
    status_of (declare_substitute the_admin (Some n) (Some source) (Some (client_timestamp t))) ≫= λ _, mret ()
  end.

Record hammer_draw := HammerDraw { dr_node : nat; dr_op : hammer_op; dr_source : nat }.

(** One round: a request, then the quarantine is compared with all that was seen. *)
(* src: blackbox_test/live_run.py 87-99 hammer *)
Definition hammer_round nodes (seen : list string * nat) (d : hammer_draw) : M St (list string * nat) :=
  let '(maxq, shr) := seen in
  n ← drawn (choice (tail nodes) (dr_node d));
  source ← drawn (choice nodes (dr_source d));
  hammer_request (dr_op d) n source ≫= λ _,
  cur ← observed_quarantine;
  let shr := if forallb (λ x, x ∈? cur) maxq then shr else S shr in
  mret (fold_left (λ l x, add_new x l) cur maxq, shr).

(** Six writes on randomly drawn parents; [content i] is [{"i": i}]. *)
(* src: blackbox_test/live_run.py 82-84 hammer *)
Definition hammer_setup (content : nat → dict json) (draws : list nat) : M St (list string) :=
  live_reset jwt_encode server_private_key ≫= λ _,
  r ← for_fold (zip (seq 0 6) draws) (["clean-parent-1"], [] : dict string) (λ '(nodes, digests) '(i, draw),
        parent ← drawn (choice nodes draw);
        '(nid, rx, digests) ← submit digests [parent] (content i) id;
        mret (if is_status 200 rx then nodes ++ [nid] else nodes, digests));
  mret r.1.

(** The number of shrinks that the hammer counts. *)
(* src: blackbox_test/live_run.py 82-100 hammer *)
Definition hammer (content : nat → dict json) (setup : list nat) (draws : list hammer_draw) : M St nat :=
  nodes ← hammer_setup content setup;
  first ← drawn (nodes !! 1);
  designate first ≫= λ _,
  maxq ← observed_quarantine;
  r ← for_fold draws (maxq, 0) (hammer_round nodes);
  mret r.2.
End campaign.

(** A store that is reset is in order and has the one seed node. *)
Class ResetLaws (St : Type) `{BackendLaws St} := {
  reset_ok (s : St) : store_ok s → store_ok (reset s);
  reset_dag (s : St) : get_dag (reset s) = [("clean-parent-1", bare_node "clean-parent-1")] }.

#[export] Instance memory_reset : ResetLaws state.
Proof.
  split; [|done]. intros s _. split; cbn; [apply NoDup_singleton| |apply NoDup_singleton]. intros k n. by case_decide; intros; simplify_eq.
Qed.

#[export] Instance sqlite_reset : ResetLaws db.
Proof.
  split; [|done]. intros s _. set (cleared := Db [] [] [] [] [] [] [] [] [] [] [] [] (t_shadow s) (t_evidence s) [] (t_substitutes s)
    (t_detector s) (t_tainted s) (depth_limit s)).
  assert (wf cleared) as W by (eapply (db_wf_core (empty_db 0)); [done..|apply wf_empty]).
  destruct (db_wf_commit (bare_node "clean-parent-1") _ W) as [A B C D F].
  split; [exact A|exact B| |exact D|exact F]. apply NoDup_add_new, C.
Qed.

#[export] Instance pg_reset_ok `{PgDriver} : ResetLaws pg.
Proof.
  split; [|done]. intros s _. set (cleared := empty_pg (p_depth s) <| p_evidence := p_evidence s |>).
  destruct (db_wf_commit (bare_node "clean-parent-1") (core_db cleared)) as [A B C D F]; [apply (wf_empty (p_depth s))|].
  rewrite <-(proj1 (core_commit (bare_node "clean-parent-1") cleared)) in A, B, C, D, F.
  split; [exact A|exact B| |exact D|exact F]. apply NoDup_add_new, C.
Qed.

(** What the hammer sends to [/observe] has a class that the route refuses, so
    this operation never writes. *)
Lemma hammer_observe_is_refused `{E : Env} {St} `{Backend St} `{!Transactional St}
    jwt_encode server_private_key n source (w : world St) :
  hammer_request jwt_encode server_private_key OpObserve n source w = (Ret (), w).
Proof.
  cbn [hammer_request]. unfold status_of, observe_recurrence, mbind, M_bind, verify_role_jwt.
  destruct (_ ≫= bearer_token) as [token|]; [|done]. destruct (jwt_decode token _); [|done]. by destruct (json_is_str _ _).
Qed.

(** *** It never counts a shrink *)
Section hammer.
Context `{E : Env} {St : Type} `{BackendLaws St} `{!Transactional St, !RollbackLaws St}.
Context (jwt_encode : dict json → string → string) (server_private_key : string) (int_repr : Z → string).
Abbreviation the_hammer_request := (hammer_request (St:=St) jwt_encode server_private_key).
Abbreviation round := (hammer_round (St:=St) jwt_encode server_private_key).
Abbreviation observed := (quarantine_set (St:=St) jwt_encode server_private_key).
Implicit Types (w : world St).

Lemma status_of_respects {A} (R : St → St → Prop) (m : M St (reply A)) : respects R m → respects R (status_of m).
Proof.
  intros Hm w Hw. unfold status_of. specialize (Hm w Hw). by destruct (m w) as [[r|[]|] w'].
Qed.

Lemma status_of_total {A} (m : M St (reply A)) w : ∃ z w', status_of m w = (Ret z, w').
Proof. unfold status_of. destruct (m w) as [[r|[]|] w']; eauto. Qed.

(** What the client sees of the quarantine depends on its token alone. *)
Lemma observed_cases :
  (∀ w, observed w = (Ret (get_quarantine_ledger (w_db w)), w)) ∨ ∀ w, observed w = (Ret [], w).
Proof.
  unfold quarantine_set, db_state, verify_role_jwt, require, catch.
  destruct (_ ≫= bearer_token) as [token|]; [|by right].
  destruct (jwt_decode token _) as [claims|]; [|by right].
  destruct (json_is_str "admin" _); [|by right]. destruct (DEBUG_MODE cfg); [by left|by right].
Qed.

Lemma hammer_request_respects op n source : respects evolves (the_hammer_request op n source).
Proof.
  assert (∀ A (m : M St (reply A)), respects same_core m → respects evolves (status_of m)) as Hs.
  { intros A m Hm. apply status_of_respects. intros w Hw. destruct (Hm w Hw). split; [done|by apply same_core_evolves]. }
  destruct op; cbn [hammer_request]; unfold live_designate, uuid4, now.
  - apply respects_bind; [apply _|apply status_of_respects, designate_poison_evolves|solve_respects].
  - apply respects_bind; [apply _|apply Hs, observe_recurrence_same_core|solve_respects].
  - apply respects_bind; [apply _|apply Hs, renew_trust_route_same_core|solve_respects].
  - solve_respects. apply Hs, declare_checkpoint_same_core.
  - solve_respects. apply Hs, declare_substitute_same_core.
Qed.

(** [returns m]: whatever happens, [m] ends with a value. *)
Definition returns {A} (m : M St A) : Prop := ∀ w, ∃ a w', m w = (Ret a, w').

Lemma returns_bind {A B} (m : M St A) (f : A → M St B) : returns m → (∀ a, returns (f a)) → returns (m ≫= f).
Proof. intros Hm Hf w. unfold mbind, M_bind. destruct (Hm w) as (a & w1 & ->). apply Hf. Qed.

Lemma returns_ret {A} (a : A) : returns (mret a).
Proof. intros w. by eexists _, _. Qed.

Lemma returns_reading {A} (f : nat → A) : returns (reading f).
Proof. intros w. by eexists _, _. Qed.

Lemma returns_status {A} (m : M St (reply A)) : returns (status_of m).
Proof. intros w. apply status_of_total. Qed.

Lemma returns_observed : returns observed.
Proof. intros w. destruct observed_cases as [Ho|Ho]; rewrite Ho; by eexists _, _. Qed.

Lemma hammer_request_returns op n source : returns (the_hammer_request op n source).
Proof.
  destruct op; cbn [hammer_request]; unfold live_designate, uuid4, now;
    repeat first [apply returns_bind; intros | apply returns_status | apply returns_reading | apply returns_ret].
Qed.

(** What the client would see of the quarantine now. *)
Definition visible w : list string := match (observed w).1 with Ret l => l | _ => [] end.

Lemma observed_visible w : observed w = (Ret (visible w), w).
Proof. unfold visible. destruct observed_cases as [Ho|Ho]; by rewrite Ho. Qed.

Lemma visible_grows w w' : evolves (w_db w) (w_db w') → visible w ⊆ visible w'.
Proof.
  intros He. unfold visible. destruct observed_cases as [Ho|Ho]; rewrite !Ho; cbn; [apply He|done].
Qed.

Lemma choice_Some {A} (l : list A) draw : l ≠ [] → is_Some (choice l draw).
Proof.
  intros Hl. apply lookup_lt_is_Some. apply Nat.mod_upper_bound. by destruct l.
Qed.

(** One round sees everything that was seen before. *)
Lemma hammer_round_keeps nodes maxq shr d w :
  tail nodes ≠ [] → store_ok (w_db w) → maxq ⊆ visible w →
  ∃ maxq' w', round nodes (maxq, shr) d w = (Ret (maxq', shr), w') ∧ store_ok (w_db w') ∧ maxq' ⊆ visible w'.
Proof.
  intros Hn Hok Hm. unfold hammer_round.
  destruct (choice_Some (tail nodes) (dr_node d) Hn) as [n ->].
  destruct (choice_Some nodes (dr_source d)) as [source ->]; [by destruct nodes|].
  rewrite (bind_ret (drawn _) _ w n w), (bind_ret (drawn _) _ w source w) by done.
  destruct (hammer_request_returns (dr_op d) n source w) as ([] & w1 & Hr).
  destruct (respects_run _ _ _ _ _ (hammer_request_respects _ _ _) Hr Hok) as [Hok1 He].
  rewrite (bind_ret _ _ _ _ _ Hr), (bind_ret _ _ _ _ _ (observed_visible w1)).
  assert (maxq ⊆ visible w1) as Hm1 by (etrans; [exact Hm|by apply visible_grows]).
  assert (forallb (λ x, x ∈? visible w1) maxq = true) as ->.
  { apply forallb_forall. intros x Hx%list_elem_of_In. apply bool_decide_eq_true. by apply Hm1. }
  eexists _, w1. split; [done|]. split; [done|]. intros x. rewrite elem_of_fold_add_new. intros [?|?]; [done|by apply Hm1].
Qed.

Lemma hammer_rounds_keep nodes draws maxq shr w :
  tail nodes ≠ [] → store_ok (w_db w) → maxq ⊆ visible w →
  ∃ maxq' w', for_fold draws (maxq, shr) (round nodes) w = (Ret (maxq', shr), w').
Proof.
  intros Hn. revert maxq w. induction draws as [|d draws IH]; intros maxq w Hok Hm; [by eexists _, _|].
  destruct (hammer_round_keeps nodes maxq shr d w Hn Hok Hm) as (maxq1 & w1 & Hr & Hok1 & Hm1).
  cbn [for_fold]. rewrite (bind_ret _ _ _ _ _ Hr). by apply IH.
Qed.

(** The setup ends with a list of nodes and a store in order. *)
Definition anything (s s' : St) : Prop := True.
#[local] Instance anything_preorder : PreOrder anything.
Proof. done. Qed.

Context `{!ResetLaws St}.

Lemma reset_status_ok : respects anything (live_reset (St:=St) jwt_encode server_private_key).
Proof.
  apply status_of_respects. unfold reset_db. pose proof (verify_role_jwt_respects (St:=St) anything).
  apply respects_bind; [apply _|done|intros claims]. apply respects_bind; [apply _|apply respects_require, _|intros []].
  apply respects_bind; [apply _| |intros []; unfold ok; apply respects_ret, _].
  apply respects_update. intros s Hs. split; [by apply reset_ok|done].
Qed.

Lemma live_submit_evolves digests parents state mutate :
  respects evolves (live_submit (St:=St) jwt_encode server_private_key int_repr digests parents state mutate).
Proof.
  pose proof (λ p, status_of_respects evolves _ (submit_candidate_evolves (St:=St) 100 (Parsed p))).
  unfold live_submit, generate_private_key, uuid4, now. solve_respects.
Qed.

Lemma live_submit_returns digests parents state mutate :
  returns (live_submit (St:=St) jwt_encode server_private_key int_repr digests parents state mutate).
Proof.
  unfold live_submit, generate_private_key, uuid4, now.
  repeat first [apply returns_bind; intros | apply returns_status | apply returns_reading | apply returns_ret].
Qed.

Abbreviation one_write content := (λ '(nodes, digests) '(i, draw),
  parent ← drawn (choice nodes draw);
  '(nid, rx, digests) ← live_submit (St:=St) jwt_encode server_private_key int_repr digests [parent] (content i) id;
  mret (if is_status 200 rx then nodes ++ [nid] else nodes, digests)).

Lemma setup_loop (content : nat → dict json) l nodes digests w :
  nodes ≠ [] → store_ok (w_db w) →
  ∃ r w', for_fold l (nodes, digests) (one_write content) w = (Ret r, w') ∧ store_ok (w_db w').
Proof.
  revert nodes digests w. induction l as [|[i draw] l IH]; intros nodes digests w Hn Hok; [by eexists _, _|].
  cbn [for_fold]. destruct (choice_Some nodes draw Hn) as [parent Hp].
  destruct (live_submit_returns digests [parent] (content i) id w) as ([[nid rx] digests'] & w1 & Hr).
  destruct (respects_run _ _ _ _ _ (live_submit_evolves _ _ _ _) Hr Hok) as [Hok1 _].
  rewrite (bind_ret _ _ _ (if is_status 200 rx then nodes ++ [nid] else nodes, digests') w1).
  - apply IH; [|done]. case_match; [|done]. by destruct nodes.
  - rewrite Hp, (bind_ret (drawn _) _ w parent w) by done. by rewrite (bind_ret _ _ _ _ _ Hr).
Qed.

Lemma hammer_setup_ok content draws w :
  store_ok (w_db w) →
  ∃ nodes w', hammer_setup jwt_encode server_private_key int_repr content draws w = (Ret nodes, w') ∧ store_ok (w_db w').
Proof.
  intros Hok. unfold hammer_setup.
  destruct (returns_status (reset_db (ADMIN jwt_encode server_private_key)) w) as (z & w1 & Hr).
  destruct (respects_run _ _ _ _ _ reset_status_ok Hr Hok) as [Hok1 _]. rewrite (bind_ret _ _ _ _ _ Hr).
  destruct (setup_loop content (zip (seq 0 6) draws) ["clean-parent-1"] [] w1) as (r & w2 & Hl & Hok2); [done..|].
  rewrite (bind_ret _ _ _ _ _ Hl). by eexists _, _.
Qed.

(** C38: the monotonicity hammer of the black-box re-run cannot report a shrinking
    quarantine: whatever the six parents, the operations, the nodes and the
    sources that are drawn, and whatever the gateway answers to each request
    (nothing at all included), the campaign ends, with no shrink counted; the only
    other end is that no write was admitted and there is no node to designate. *)
Theorem hammer_counts_no_shrink content setup draws w :
  store_ok (w_db w) →
  match (hammer jwt_encode server_private_key int_repr content setup draws w).1 with
  | Ret shr => shr = 0
  | Raise _ => ∃ nodes w', hammer_setup jwt_encode server_private_key int_repr content setup w = (Ret nodes, w') ∧ nodes !! 1 = None
  | Hang => False
  end.
Proof.
  intros Hok. destruct (hammer_setup_ok content setup w Hok) as (nodes & w1 & Hs & Hok1). unfold hammer.
  rewrite (bind_ret _ _ _ _ _ Hs). destruct (nodes !! 1) as [first|] eqn:Hf.
  2:{ cbn. by exists nodes, w1. }
  rewrite (bind_ret (drawn _) _ w1 first w1) by done. unfold live_designate.
  match goal with |- context [status_of ?m ≫= _] => destruct (returns_status m w1) as (z & w2 & Hr) end.
  destruct (respects_run _ _ _ _ _ (status_of_respects evolves _ (designate_poison_evolves _ _ _)) Hr Hok1) as [Hok2 _].
  rewrite (bind_ret _ _ _ _ _ Hr), (bind_ret _ _ _ _ _ (observed_visible w2)).
  destruct (hammer_rounds_keep nodes draws (visible w2) 0 w2) as (maxq & w3 & Hd); [|done|done|].
  { by destruct nodes as [|? []]. }
  by rewrite (bind_ret _ _ _ _ _ Hd).
Qed.
End hammer.

(** Seven rounds with every kind of request, on the SQLite store. *)
Definition seven_rounds : list hammer_draw :=
  [HammerDraw 0 OpDesignate 0; HammerDraw 3 OpDesignate 1; HammerDraw 1 OpObserve 0; HammerDraw 2 OpRenew 5;
   HammerDraw 4 OpCheckpoint 2; HammerDraw 1 OpSubstitute 3; HammerDraw 5 OpDesignate 4].
Definition numbered (i : nat) : dict json := [("i", JNum (inject_Z (Z.of_nat i)) (pretty i))].
Abbreviation hammered := (hammer (E:=live_env) hex_token "private" pretty numbered [0; 1; 1; 3; 0; 2] seven_rounds).

Lemma hammer_counts_no_shrink_witness :
  store_ok (w_db (start_world (empty_db 1000))) ∧ (hammered (start_world (empty_db 1000))).1 = Ret 0 ∧
  match (hammered (start_world (empty_db 1000))).1 with
  | Ret shr => shr = 0
  | Raise _ => ∃ nodes w', hammer_setup (E:=live_env) hex_token "private" pretty numbered [0; 1; 1; 3; 0; 2]
                             (start_world (empty_db 1000)) = (Ret nodes, w') ∧ nodes !! 1 = None
  | Hang => False
  end.
Proof.
  split_and!; [exact (wf_empty 1000)|by vm_compute|].
  apply hammer_counts_no_shrink; [apply sqlite_reset|exact (wf_empty 1000)].
Defined.
