(* ===== verification/ContainmentSpec.v ===== *)
(** * What a designation guarantees

    Containment: after a node is designated, everything that derives from it is
    in quarantine, and nothing outside the quarantine derives from it; the
    recovery that follows does not undo this. *)
From S2P Require Import Prelude Dict Types Encoding Datetime Graph Lineage Memory Sqlite Interface World Crypto Policy Admission Recovery Detectors Designation Reports Demo.

Section containment.
Context `{E : Env} {St : Type} `{BackendLaws St}.
Implicit Types (w : world St).

(** ** [contain] *)
Lemma recurrence_hook_total c_p c : total (recurrence_hook (St:=St) c_p c).
Proof. unfold recurrence_hook, process_recurrence, uuid4, now. solve_total. Qed.

Lemma contain_total n i r src : total (contain (St:=St) n i r src).
Proof.
  pose proof recurrence_hook_total. unfold contain, uuid4, now. solve_total.
Qed.

(** The graph stays, and exactly the blast radius joins the ledger. *)
Lemma contain_Ret node_id identity reason source w c_p event w' :
  store_ok (w_db w) → contain node_id identity reason source w = (Ret (c_p, event), w') →
  c_p = (compute_blast_radius node_id (w_db w)).1 ∧ store_ok (w_db w') ∧
  get_dag (w_db w') = get_dag (w_db w) ∧ traversal_depth (w_db w') = traversal_depth (w_db w) ∧
  ∀ x, x ∈ get_quarantine_ledger (w_db w') ↔ x ∈ c_p ∨ x ∈ get_quarantine_ledger (w_db w).
Proof.
  intros Hok. pose proof (blast_ok node_id _ Hok) as Hok1. destruct (blast_core node_id _ Hok) as [D1 L1 T1].
  unfold contain, uuid4, now. intros Hr. inv_ret Hr. inv_rets.
  match goal with Hh : recurrence_hook _ _ _ = _ |- _ =>
    destruct (respects_run _ _ _ _ _ (recurrence_hook_respects same_core _ _) Hh Hok1) as [Hok2 [D2 L2 T2]] end.
  simplify_eq. cbn [w_db field_update] in *. split_and!; [done|by apply quarantine_ok|..].
  - by rewrite quarantine_dag, D2, D1.
  - by rewrite quarantine_depth, T2, T1.
  - intros x. by rewrite quarantine_ledger, L2, L1.
Qed.

(** A ledger that grows by everything derived from a node stays closed. *)
Lemma contained_grow (s s' : St) r :
  store_ok s → store_ok s' → get_dag s' = get_dag s →
  (∀ x, x ∈ get_quarantine_ledger s' ↔ derived (get_dag s) r x ∨ x ∈ get_quarantine_ledger s) →
  contained s → contained s'.
Proof.
  intros Hs Hs' D L. rewrite !contained_closed by done. rewrite D. intros Hc x y. rewrite !L.
  intros [Hx|Hx] Hxy; [left; by etrans|right; by eapply Hc].
Qed.


(** ** Recovery under the exclusive lock

    [held m]: run by the task that holds the lock exclusively, [m] never
    returns or leaves the graph and the ledger alone: a commit asks for shared
    access and waits for ever. *)
Definition held {A} (m : M St A) : Prop := ∀ w, w_exclusive w = true → store_ok (w_db w) →
  match m w with
  | (Hang, _) => True
  | (_, w') => w_exclusive w' = true ∧ store_ok (w_db w') ∧ same_core (w_db w) (w_db w')
  end.

Lemma held_bind {A B} (m : M St A) (f : A → M St B) : held m → (∀ a, held (f a)) → held (m ≫= f).
Proof.
  intros Hm Hf w Hx Hok. unfold mbind, M_bind. specialize (Hm w Hx Hok).
  destruct (m w) as [[a|e|] w1]; [|done..]. destruct Hm as (Hx1 & Hok1 & C1). specialize (Hf a w1 Hx1 Hok1).
  destruct (f a w1) as [[b|e|] w2]; [..|done]; (split_and!; [apply Hf..|]; etrans; [exact C1|apply Hf]).
Qed.

Lemma held_catch {A} (m : M St A) h : held m → (∀ e, held (h e)) → held (catch m h).
Proof.
  intros Hm Hh w Hx Hok. unfold catch. specialize (Hm w Hx Hok).
  destruct (m w) as [[a|e|] w1]; [done| |done]. destruct Hm as (Hx1 & Hok1 & C1). specialize (Hh e w1 Hx1 Hok1).
  destruct (h e w1) as [[b|e'|] w2]; [..|done]; (split_and!; [apply Hh..|]; etrans; [exact C1|apply Hh]).
Qed.

Lemma held_mret {A} (a : A) : held (mret a : M St A).
Proof. by intros w Hx Hok. Qed.
Lemma held_raise {A} e : held (raise e : M St A).
Proof. by intros w Hx Hok. Qed.
Lemma held_query {A} (f : St → A) : held (query f).
Proof. by intros w Hx Hok. Qed.
Lemma held_reading {A} (f : nat → A) : held (reading f).
Proof. by intros w Hx Hok. Qed.
Lemma held_set_adapter_key k : held (set_adapter_key k).
Proof. by intros w Hx Hok. Qed.
Lemma held_read_adapter_key : held read_adapter_key.
Proof. by intros w Hx Hok. Qed.
Lemma held_update f : (∀ s, store_ok s → store_ok (f s) ∧ same_core s (f s)) → held (update f).
Proof. intros Hf w Hx Hok. split; [exact Hx|]. by apply Hf. Qed.
Lemma held_shared {A} (m : M St A) : held (admission_shared m).
Proof. intros w Hx Hok. unfold admission_shared. by rewrite Hx. Qed.
Lemma held_for_fold {A B} (l : list A) (b : B) f : (∀ b x, held (f b x)) → held (for_fold l b f).
Proof. intros Hf. revert b; induction l; intros b; cbn; [apply held_mret|]. by apply held_bind. Qed.

Ltac solve_held := repeat (cbv zeta; first
  [ progress intros | simple apply held_bind | simple apply held_mret | simple apply held_raise
  | simple apply held_query | simple apply held_reading | simple apply held_set_adapter_key
  | simple apply held_read_adapter_key | simple apply held_catch | simple apply held_shared
  | simple apply held_for_fold | simple apply held_update; solve [eauto with gasc] | case_match ]).

Lemma attempt_safe_continuity_held c e : held (attempt_safe_continuity c e).
Proof.
  unfold attempt_safe_continuity, serve_dependent, emit_replay, emit_substitute, generate_private_key, uuid4, now.
  solve_held.
Qed.

Lemma attempt_reconstruction_held r : held (attempt_reconstruction r).
Proof.
  unfold attempt_reconstruction, reconstruct_one, check_candidate, inline_candidate, adapter_candidate,
    reintegrate, give_up_on, generate_private_key, uuid4, now.
  solve_held.
Qed.

Lemma held_Ret {A} (m : M St A) w a w' :
  held m → m w = (Ret a, w') → w_exclusive w = true → store_ok (w_db w) →
  w_exclusive w' = true ∧ store_ok (w_db w') ∧ same_core (w_db w) (w_db w').
Proof. intros Hm E0 Hx Hok. specialize (Hm w Hx Hok). by rewrite E0 in Hm. Qed.

(** ** [/designate] *)
Lemma limit_designations_core i n : respects (St:=St) same_core (limit_designations i n).
Proof. unfold limit_designations, http, now. solve_respects. Qed.

Lemma verify_role_jwt_Ret rq role w claims w' :
  verify_role_jwt rq role w = (Ret claims, w') →
  w' = w ∧ dict_get "role" claims = Some (JStr role) ∧
  ∃ token, authorization rq ≫= bearer_token = Some token ∧ jwt_decode token (JWT_PUBLIC_KEY cfg) = Some claims.
Proof.
  unfold verify_role_jwt. destruct (authorization rq ≫= bearer_token) as [token|]; [|done].
  destruct (jwt_decode token _) as [c|] eqn:Hj; [|done]. destruct (json_is_str role _) eqn:Hs; [|done].
  intros Hr. inv_ret Hr. apply json_is_str_true in Hs. eauto.
Qed.

(** What the body of the transaction has done when it answers. *)
Lemma designate_body_Ret node_id reason identity w event res w' :
  store_ok (w_db w) → w_exclusive w = true →
  designate_body node_id reason identity w = (Ret (Reply 200 (Designated event res)), w') →
  get_dag (w_db w') = get_dag (w_db w) ∧ store_ok (w_db w') ∧
  ∀ x, x ∈ get_quarantine_ledger (w_db w') ↔
    x ∈ (compute_blast_radius node_id (w_db w)).1 ∨ x ∈ get_quarantine_ledger (w_db w).
Proof.
  intros Hok Hx. unfold designate_body. intros Hr. inv_ret Hr. inv_rets.
  destruct (negb _); [done|]. destruct (flag node_id _); [done|]. inv_ret Hr.
  match goal with Hc : contain _ _ _ _ _ = (Ret ?cq, ?w1) |- _ => destruct cq as [c_p ev]; rename w1 into wc, Hc into Hcon end.
  destruct (contain_total node_id identity reason None w) as (? & ? & Hcon' & Hex).
  rewrite Hcon in Hcon'. injection Hcon' as <- <-.
  destruct (contain_Ret _ _ _ _ _ _ _ _ Hok Hcon) as (-> & Hok1 & D & _ & L). inv_rets.
  match goal with Hs : attempt_safe_continuity _ _ _ = _, Ha : attempt_reconstruction _ _ = _ |- _ =>
    destruct (held_Ret _ _ _ _ (attempt_safe_continuity_held _ _) Hs) as (Hx2 & Hok2 & [D2 L2 _]);
      [by rewrite Hex|done|];
    destruct (held_Ret _ _ _ _ (attempt_reconstruction_held _) Ha Hx2 Hok2) as (_ & Hok3 & [D3 L3 _]) end.
  split_and!; [by rewrite D3, D2|done|]. intros y. by rewrite L3, L2.
Qed.


(** ** Continuity outside the lock *)

(** With the ledger at [L]: the ledger stays and so does containment. *)
Definition stays_contained (L : list string) (s s' : St) : Prop :=
  get_quarantine_ledger s = L ∧ contained s → get_quarantine_ledger s' = L ∧ contained s'.

#[local] Instance stays_contained_preorder L : PreOrder (stays_contained L).
Proof. split; [intros s Hs; exact Hs|]. intros s1 s2 s3 H1 H2 Hs. auto. Qed.

#[local] Instance stays_contained_core L : CoreRelation (stays_contained L).
Proof.
  intros s s' Hc [HL Hs]. split; [|by eapply same_core_contained]. by rewrite (sc_ledger _ _ Hc).
Qed.

Lemma respects_commit_clean L n :
  (∀ p, p ∈ parent_ids n ∨ p ∈ covers n → p ∉ L) → respects (stays_contained L) (call (commit_node n)).
Proof.
  intros Hn. apply respects_call. intros s Hok. split; [by apply commit_node_ok|]. intros [HL Hs].
  rewrite commit_node_ledger. split; [done|]. intros k m. rewrite commit_node_dag, commit_node_ledger by done.
  destruct (dict_get k (get_dag s)) eqn:Hk; [intros [= <-]; by apply Hs|].
  case_decide; [|done]. intros [= <-] _ p Hp. rewrite HL. by apply Hn.
Qed.

Lemma clean_parents_clean dag q n p : "clean-parent-1" ∉ q → p ∈ clean_parents dag q n → p ∉ q.
Proof.
  intros Hq. unfold clean_parents. destruct (List.filter _ _) as [|p0 l] eqn:Hf.
  - by intros ->%list_elem_of_singleton.
  - rewrite <-Hf, elem_of_bfilter, negb_true_iff, bool_decide_eq_false. tauto.
Qed.

Lemma emit_replay_contained L dag ct dep id cp :
  "clean-parent-1" ∉ L → respects (stays_contained L) (emit_replay dag L ct dep id cp).
Proof.
  intros HL. unfold emit_replay, generate_private_key, uuid4, now. repeat respects_step.
  all: try solve [eauto with gasc]. apply respects_commit_clean. unfold parent_ids.
  cbn [parent_dependency_commitments covers continuity_node].
  intros p [Hp|[]%elem_of_nil]. rewrite <-list_fmap_compose in Hp.
  apply list_elem_of_fmap in Hp as (p' & -> & Hp). by eapply clean_parents_clean.
Qed.

Lemma emit_substitute_contained L dag ct dep p d :
  substitute_source_id d ∉ L → respects (stays_contained L) (emit_substitute dag ct dep p d).
Proof.
  intros HL. unfold emit_substitute, generate_private_key, uuid4, now. repeat respects_step.
  all: try solve [eauto with gasc]. apply respects_commit_clean. unfold parent_ids.
  cbn [parent_dependency_commitments covers continuity_node].
  intros p' [->%list_elem_of_singleton|[]%elem_of_nil]. done.
Qed.

Lemma choose_substitute_clean dag q ct subs rel p d :
  choose_substitute dag q ct subs rel = Some (p, d) → substitute_source_id d ∉ q.
Proof.
  unfold choose_substitute. intros (x & _ & Hx)%first_some_elem.
  destruct (dict_get x subs) as [d'|]; [|done]. destruct (substitutable _ _ _ _) eqn:Hs; [|done].
  injection Hx as -> ->. unfold substitutable in Hs. apply andb_true_iff in Hs as [_ Hs].
  by rewrite negb_true_iff, bool_decide_eq_false in Hs.
Qed.

Lemma serve_dependent_contained L dag cps subs ct res dep :
  "clean-parent-1" ∉ L → respects (stays_contained L) (serve_dependent dag L cps subs ct res dep).
Proof.
  intros HL. unfold serve_dependent. cbv zeta.
  destruct (List.find _ cps) as [[id cp]|].
  - apply respects_bind; [apply _|by apply emit_replay_contained|]. intros. apply respects_ret, _.
  - destruct (choose_substitute _ _ _ _ _) as [[p d]|] eqn:Hc; [|apply respects_ret, _].
    apply respects_bind; [apply _| |intros; apply respects_ret, _].
    by eapply emit_substitute_contained, choose_substitute_clean.
Qed.


(** ** [/detector/{source}] *)
Lemma detector_contain_Ret node_id reason identity source w c_p event w' :
  store_ok (w_db w) → deep_enough (w_db w) →
  detector_contain node_id reason identity source w = (Ret (Some (c_p, event)), w') →
  store_ok (w_db w') ∧ node_id ∈ dict_keys (get_dag (w_db w)) ∧
  ∀ x, derived (get_dag (w_db w)) node_id x → x ∈ get_quarantine_ledger (w_db w').
Proof.
  intros Hok Hdeep. unfold detector_contain. intros Hr. inv_ret Hr. inv_rets.
  destruct (flag node_id (nodes_exist _ _)) eqn:Hf; [|done]. cbn [negb] in Hr.
  rewrite nodes_exist_spec, dict_mem_true in Hf by (done || by left).
  destruct (flag node_id _); [inv_rets; done|]. inv_ret Hr. inv_ret Hr. simplify_eq.
  match goal with Hc : contain _ _ _ _ _ = _ |- _ =>
    destruct (contain_Ret _ _ _ _ _ _ _ _ Hok Hc) as (-> & Hok1 & _ & _ & L) end.
  split_and!; [done..|]. intros y Hy. apply L. left. by apply blast_derived.
Qed.

End containment.

(** ** Reports *)

(** The escape set that [/measured-cost] reports is empty exactly when the
    store is contained, so the report detects every breach and only breaches. *)
Theorem escape_set_detects_breaches {St} `{BackendLaws St} t1 t2 (s : St) :
  store_ok s → escape_set (measured_cost_report t1 t2 s) = [] ↔ contained s.
Proof. apply breaches_contained. Qed.

(** [/reducibility-report] accounts for every repair candidate once:
    reducible, irreducible and undecided candidates add up to those that
    entered. *)
Theorem reducibility_report_adds_up candidates :
  let r := reducibility_report candidates in
  (reducible_count r + irreducible_count r + undecided_count r = entering r)%Z ∧
  entering r = Z.of_nat (length candidates).
Proof.
  destruct (tally_sum (dict_values candidates) (Reducibility (len candidates) 0 0 0 [])) as [Hs He].
  cbn zeta. fold (reducibility_report candidates) in Hs, He. rewrite Hs, He. unfold len, dict_values.
  cbn. rewrite length_fmap. lia.
Qed.





Lemma escape_set_detects_breaches_witness :
  escape_set (measured_cost_report 0 0 poisoned) = [] ∧
  (escape_set (measured_cost_report 0 0 poisoned) = [] ↔ contained poisoned).
Proof. split; [by vm_compute|]. exact (escape_set_detects_breaches 0 0 poisoned poisoned_wf). Defined.
