(* ===== verification/Storm.v ===== *)
(** * The write storm ([blackbox_test/property_runner.py], [run_concurrency_storm])

    Workers write below nodes that were admitted while a designator strikes at
    random; in the end the growth of the graph is compared with the answers.  The
    moves come in the order in which the gateway serves them, with what the
    random generator drew.  The theorem is about every such order. *)
From stdpp Require Import pretty.
From S2P Require Import Prelude Dict Types Encoding Datetime Timeparse Json Graph Lineage Memory Sqlite Interface Postgres World Crypto Policy Admission Recovery Detectors Designation Routes Reports Demo AdmissionSpec ContainmentSpec Client LiveRun Campaign.

(** ** The accounts *)
Record storm_tally := Tally {
  n200 : nat; n403 : nat; n429 : nat; n5xx : nat; n_other : nat;
  failed_payload_ids : list string;
  active_nodes : list string }.

#[export] Instance storm_tally_rebuild : Rebuild storm_tally := λ t,
  Tally (n200 t) (n403 t) (n429 t) (n5xx t) (n_other t) (failed_payload_ids t) (active_nodes t).

(* src: blackbox_test/property_runner.py 150-154 run_concurrency_storm *)
Definition no_results : storm_tally := Tally 0 0 0 0 0 [] ["clean-parent-1"].

(* src: blackbox_test/property_runner.py 161-175 worker *)
Definition count_result (nid : string) (status : option Z) (t : storm_tally) : storm_tally :=
  match status with
  | Some z =>
    if (z =? 200)%Z then t <| n200 ::= S |> <| active_nodes ::= λ l, l ++ [nid] |>
    else if (z =? 403)%Z then t <| n403 ::= S |>
    else if (z =? 429)%Z then t <| n429 ::= S |>
    else if (500 <=? z)%Z then t <| n5xx ::= S |> <| failed_payload_ids ::= λ l, l ++ [nid] |>
    else t <| n_other ::= S |>
  | None => t <| n_other ::= S |>
  end.

(** A write that the backpressure turns away does not reach the handler. *)
Inductive storm_move := StormWrite (draw : nat) (turned_away : bool) | StormStrike (draw : nat).

Section storm.
Context `{E : Env} {St : Type} `{Backend St} `{!Transactional St}.
Context (jwt_encode : dict json → string → string) (server_private_key : string) (int_repr : Z → string).

(* src: blackbox_test/property_runner.py 158-175 worker *)
Definition storm_write (draw : nat) (turned_away : bool) (r : storm_tally * dict string) : M St (storm_tally * dict string) :=
  let '(t, digests) := r in
  parent ← drawn (choice (active_nodes t) draw);
  v ← uuid4;
  if turned_away then mret (count_result "" (Some 429%Z) t, digests)
  else
    '(nid, status, digests) ← live_submit jwt_encode server_private_key int_repr digests [parent] [("v", JStr v)] id;
    mret (count_result nid status t, digests).

(* src: blackbox_test/property_runner.py 183-184 designator *)
Definition storm_strike (draw : nat) (r : storm_tally * dict string) : M St (storm_tally * dict string) :=
  parent ← drawn (choice (active_nodes r.1) draw);
  live_designate jwt_encode server_private_key parent ≫= λ _, mret r.

Definition storm_move_run (r : storm_tally * dict string) (m : storm_move) : M St (storm_tally * dict string) :=
  match m with
  | StormWrite draw turned_away => storm_write draw turned_away r
  | StormStrike draw => storm_strike draw r
  end.

(** [get_db()["dag"]]: an error document has no such key. *)
(* src: blackbox_test/property_runner.py 8-8 get_db *)
Definition get_db_dag : M St (dict node) :=
  catch (db ← db_state (ADMIN jwt_encode server_private_key); mret db.1.1.1.1) (λ _, raise OtherException).

Record storm_report := StormReport { exact_accounting : bool; atomicity_holds : bool; results : storm_tally }.

(* src: blackbox_test/property_runner.py 197-216 run_concurrency_storm *)
Definition storm_verdict (start_dag_size : nat) (t : storm_tally) : M St storm_report :=
  end_dag ← get_db_dag;
  final_dag ← get_db_dag;
  let diff := (Z.of_nat (length end_dag) - Z.of_nat start_dag_size)%Z in
  let leaks := List.filter (λ pid, dict_mem pid final_dag) (failed_payload_ids t) in
  mret (StormReport (diff =? Z.of_nat (n200 t + n403 t))%Z (bool_decide (leaks = [])) t).

(* src: blackbox_test/property_runner.py 147-216 run_concurrency_storm *)
Definition run_concurrency_storm (digests : dict string) (moves : list storm_move) : M St storm_report :=
  live_reset jwt_encode server_private_key ≫= λ _,
  start_dag ← get_db_dag;
  r ← for_fold moves (no_results, digests) storm_move_run;
  storm_verdict (length start_dag) r.1.
End storm.

(** ** The number of readings only grows *)
Section ticks.
Context {St : Type}.
Definition ticks {A} (m : M St A) : Prop := ∀ w, w_tick w ≤ w_tick (m w).2.

Lemma ticks_bind {A B} (m : M St A) (f : A → M St B) : ticks m → (∀ a, ticks (f a)) → ticks (m ≫= f).
Proof.
  intros Hm Hf w. unfold mbind, M_bind. specialize (Hm w). destruct (m w) as [[a|e|] w1]; [|done..].
  etrans; [exact Hm|apply Hf].
Qed.

Lemma ticks_mret {A} (a : A) : ticks (mret a : M St A).
Proof. by intros w. Qed.
Lemma ticks_raise {A} e : ticks (raise e : M St A).
Proof. by intros w. Qed.
Lemma ticks_query {A} (f : St → A) : ticks (query f).
Proof. by intros w. Qed.
Lemma ticks_update f : ticks (update f).
Proof. by intros w. Qed.
Lemma ticks_call {A} (f : St → A * St) : ticks (call f).
Proof. intros w. unfold call. by destruct (f (w_db w)). Qed.
Lemma ticks_try_query {A} (f : St → option A) : ticks (try_query f).
Proof. intros w. unfold try_query. by destruct (f (w_db w)). Qed.
Lemma ticks_try_update (f : St → option St) : ticks (try_update f).
Proof. intros w. unfold try_update. by destruct (f (w_db w)). Qed.
Lemma ticks_reading {A} (f : nat → A) : ticks (reading f).
Proof. intros w. cbn. lia. Qed.
Lemma ticks_require b st d : ticks (require b st d).
Proof. destruct b; intros w; cbn; lia. Qed.
Lemma ticks_when b m : ticks m → ticks (when b m).
Proof. destruct b; [done|]. intros _ w. cbn. lia. Qed.
Lemma ticks_read_adapter_key : ticks read_adapter_key.
Proof. by intros w. Qed.
Lemma ticks_set_adapter_key k : ticks (set_adapter_key k).
Proof. by intros w. Qed.

Lemma ticks_catch {A} (m : M St A) h : ticks m → (∀ e, ticks (h e)) → ticks (catch m h).
Proof.
  intros Hm Hh w. unfold catch. specialize (Hm w). destruct (m w) as [[a|e|] w1]; [done| |done].
  etrans; [exact Hm|apply Hh].
Qed.

Lemma ticks_for_each {A} (l : list A) f : (∀ x, ticks (f x)) → ticks (for_each l f).
Proof. intros Hf. induction l; cbn; [apply ticks_mret|by apply ticks_bind]. Qed.

Lemma ticks_for_fold {A B} (l : list A) (b : B) f : (∀ b x, ticks (f b x)) → ticks (for_fold l b f).
Proof. intros Hf. revert b; induction l; intros b; cbn; [apply ticks_mret|by apply ticks_bind]. Qed.

Lemma ticks_shared {A} (m : M St A) : ticks m → ticks (admission_shared m).
Proof. intros Hm w. unfold admission_shared. by destruct (w_exclusive w). Qed.

Lemma ticks_exclusive {A} (m : M St A) : ticks m → ticks (admission_exclusive m).
Proof.
  intros Hm w. unfold admission_exclusive. destruct (w_exclusive w); [done|].
  match goal with |- context [m ?w1] => specialize (Hm w1); by destruct (m w1) as [[]] end.
Qed.

Lemma ticks_transaction `{Transactional St} {A} (m : M St A) : ticks m → ticks (transaction m).
Proof. intros Hm w. unfold transaction. specialize (Hm w). by destruct (m w) as [[]]. Qed.

Lemma ticks_run {A} (m : M St A) w o w' : ticks m → m w = (o, w') → w_tick w ≤ w_tick w'.
Proof. intros Hm E. specialize (Hm w). by rewrite E in Hm. Qed.
End ticks.

Ltac ticks_step := first
  [ progress intros | simple apply ticks_bind | simple apply ticks_mret | simple apply ticks_raise
  | simple apply ticks_query | simple apply ticks_update | simple apply ticks_call | simple apply ticks_try_query
  | simple apply ticks_try_update | simple apply ticks_reading | simple apply ticks_require | simple apply ticks_when
  | simple apply ticks_read_adapter_key | simple apply ticks_set_adapter_key | simple apply ticks_catch
  | simple apply ticks_for_each | simple apply ticks_for_fold | simple apply ticks_shared
  | simple apply ticks_exclusive | simple apply ticks_transaction | case_match ].
Ltac solve_ticks := repeat (cbv zeta; ticks_step).

Section handlers.
Context `{E : Env} {St : Type} `{Backend St} `{!Transactional St}.

Lemma ask_policies_ticks ids qm i v : ticks (St:=St) (ask_policies ids qm i v).
Proof.
  unfold ask_policies, evaluate_opa_policy, policy_error_as, read_wasm, read_bundle_process, read_rest,
    read_local_process, policy_error, other_error. solve_ticks.
Qed.

Lemma recurrence_hook_ticks c_p c : ticks (St:=St) (recurrence_hook c_p c).
Proof. unfold recurrence_hook, process_recurrence, uuid4, now. solve_ticks. Qed.

Lemma submit_candidate_ticks len b : ticks (St:=St) (submit_candidate len b).
Proof.
  pose proof ask_policies_ticks. pose proof recurrence_hook_ticks.
  unfold submit_candidate, verify_nhi_jwt, admit_payload, check_covers, decide_admission, evaluate_admission,
    quarantine_attempt, offer_replacement, audit, http, uuid4, now. repeat (solve_ticks; eauto).
Qed.

Lemma designate_body_ticks n r i : ticks (St:=St) (designate_body n r i).
Proof.
  pose proof recurrence_hook_ticks.
  unfold designate_body, contain, attempt_safe_continuity, serve_dependent, emit_replay, emit_substitute,
    attempt_reconstruction, reconstruct_one, check_candidate, inline_candidate, adapter_candidate, reintegrate,
    give_up_on, generate_private_key, http, uuid4, now.
  repeat (solve_ticks; eauto).
Qed.

Lemma designate_poison_ticks rq n r : ticks (St:=St) (designate_poison rq n r).
Proof.
  pose proof designate_body_ticks. unfold designate_poison, verify_role_jwt, limit_designations, http, now.
  repeat (solve_ticks; eauto).
Qed.
End handlers.

Lemma ticks_status {St A} (m : M St (reply A)) : ticks m → ticks (status_of m).
Proof. intros Hm w. unfold status_of. specialize (Hm w). by destruct (m w) as [[?|[]|] ?]. Qed.

(** ** Which errors a handler raises

    [blames P m]: an [HTTPException] that [m] raises has a status in [P]. *)
Section blames.
Context {St : Type} (P : Z → Prop).
Definition blames {A} (m : M St A) : Prop := ∀ w,
  match m w with (Raise (HTTPException st _), _) => P st | _ => True end.

Lemma blames_bind {A B} (m : M St A) (f : A → M St B) : blames m → (∀ a, blames (f a)) → blames (m ≫= f).
Proof.
  intros Hm Hf w. unfold mbind, M_bind. specialize (Hm w). destruct (m w) as [[a|[]|] w1]; try done. apply Hf.
Qed.

Lemma blames_mret {A} (a : A) : blames (mret a : M St A).
Proof. by intros w. Qed.
Lemma blames_http {A} st d : P st → blames (http st d : M St A).
Proof. by intros HP w. Qed.
Lemma blames_raise {A} e : (∀ st d, e = HTTPException st d → P st) → blames (raise e : M St A).
Proof. intros He w. cbn. destruct e; [by eapply He|done..]. Qed.
Lemma blames_query {A} (f : St → A) : blames (query f).
Proof. by intros w. Qed.
Lemma blames_update f : blames (update f).
Proof. by intros w. Qed.
Lemma blames_call {A} (f : St → A * St) : blames (call f).
Proof. intros w. unfold call. by destruct (f (w_db w)). Qed.
Lemma blames_try_query {A} (f : St → option A) : blames (try_query f).
Proof. intros w. unfold try_query. by destruct (f (w_db w)). Qed.
Lemma blames_try_update (f : St → option St) : blames (try_update f).
Proof. intros w. unfold try_update. by destruct (f (w_db w)). Qed.
Lemma blames_reading {A} (f : nat → A) : blames (reading f).
Proof. by intros w. Qed.
Lemma blames_when b m : blames m → blames (when b m).
Proof. destruct b; [done|]. by intros _ w. Qed.
Lemma blames_for_each {A} (l : list A) f : (∀ x, blames (f x)) → blames (for_each l f).
Proof. intros Hf. induction l; cbn; [apply blames_mret|by apply blames_bind]. Qed.
Lemma blames_catch {A} (m : M St A) h :
  blames m → (∀ e, (∀ st d, e = HTTPException st d → P st) → blames (h e)) → blames (catch m h).
Proof.
  intros Hm Hh w. unfold catch. specialize (Hm w). destruct (m w) as [[a|e|] w1]; [done| |done].
  apply Hh. intros st d ->. exact Hm.
Qed.
End blames.

Ltac blames_step := first
  [ progress intros | simple apply blames_bind | simple apply blames_mret | simple apply blames_query
  | simple apply blames_update | simple apply blames_call | simple apply blames_try_query
  | simple apply blames_try_update | simple apply blames_reading | simple apply blames_when
  | simple apply blames_for_each | simple apply blames_catch | simple apply blames_http; lia
  | simple apply blames_raise; [by intros|..] | simple apply blames_raise; assumption | case_match ].
Ltac solve_blames := repeat (cbv zeta; blames_step).

(** ** One honest write *)
Section write.
Context `{E : Env} {St : Type} `{BackendLaws St} `{!Transactional St, !RollbackLaws St}.
Implicit Types (w : world St) (c : node).

Definition not_forbidden (st : Z) : Prop := (st ≠ 200 ∧ st ≠ 403)%Z.

Lemma decide_admission_blames c em qm auth : blames (St:=St) not_forbidden (decide_admission c em qm auth).
Proof.
  assert (∀ e A (a : A), (∀ st d, e = HTTPException st d → not_forbidden st) →
    blames (St:=St) not_forbidden (policy_error_as a e)) as Hp.
  { intros [] A a He; unfold policy_error_as; solve_blames. }
  assert (∀ p q i, blames (St:=St) not_forbidden (evaluate_opa_policy p q i)) as Ho.
  { unfold evaluate_opa_policy, read_wasm, read_bundle_process, read_rest, read_local_process, policy_error, other_error.
    solve_blames. }
  unfold decide_admission, evaluate_admission, ask_policies, now, not_forbidden in *. repeat (solve_blames; eauto).
Qed.

Lemma audit_blames (b : bool) d c r em qm wi : blames (St:=St) not_forbidden (audit d c b r em qm wi).
Proof. unfold audit, now. solve_blames. Qed.

Lemma quarantine_attempt_blames c root : blames (St:=St) not_forbidden (quarantine_attempt c root).
Proof.
  unfold quarantine_attempt, recurrence_hook, process_recurrence, offer_replacement, uuid4, now. solve_blames.
Qed.

(** The same of one run, for what follows from the store it starts from. *)
Definition spares {A} (m : M St A) w : Prop :=
  match m w with (Raise (HTTPException st _), _) => not_forbidden st | _ => True end.

Lemma spares_bind {A B} (m : M St A) (f : A → M St B) w :
  blames not_forbidden m → (∀ a w', m w = (Ret a, w') → spares (f a) w') → spares (m ≫= f) w.
Proof.
  intros Hm Hf. unfold spares, mbind, M_bind. specialize (Hm w). destruct (m w) as [[a|[]|] w1]; try done. by apply Hf.
Qed.

Lemma spares_require {B} b st d (f : () → M St B) w :
  not_forbidden st → spares (f ()) w → spares (require b st d ≫= f) w.
Proof. intros Hst Hf. by destruct b. Qed.

(** A candidate that is no compaction and has its parents' hashes right is not
    turned away with a 403 by an exception. *)
Lemma admit_payload_spares c auth did wi w :
  node_type c ≠ Some "COMPACTION" →
  hashes_match c (get_node_content_hashes (parent_ids c) (w_db w)) = true →
  spares (admit_payload c auth did wi) w.
Proof.
  intros Ht Hh. unfold admit_payload. apply spares_bind; [solve_blames|intros idq w1 Hq; inv_ret Hq].
  destruct (flag _ _); [by split|]. do 3 (apply spares_bind; [solve_blames|intros ? w1 Hq; inv_ret Hq]).
  assert (check_covers c w = (Ret c, w)) as Hc by (unfold check_covers; by rewrite bool_decide_eq_false_2).
  unfold spares. rewrite (bind_ret _ _ _ _ _ Hc), Hh.
  match goal with |- match ?m w with _ => _ end => enough (blames (St:=St) not_forbidden m) as Hb by apply Hb end.
  pose proof decide_admission_blames. pose proof audit_blames. pose proof quarantine_attempt_blames.
  cbn [require]. repeat (solve_blames; eauto).
Qed.

Lemma submit_candidate_spares len c w :
  node_type c ≠ Some "COMPACTION" →
  hashes_match c (get_node_content_hashes (parent_ids c) (w_db w)) = true →
  spares (submit_candidate len (Parsed c)) w.
Proof.
  intros Ht Hh. unfold submit_candidate. do 2 (apply spares_require; [by split|]).
  apply spares_bind; [unfold verify_nhi_jwt, not_forbidden; solve_blames|].
  intros claims w1 [-> _]%verify_nhi_jwt_Ret. do 2 (apply spares_require; [by split|]).
  apply spares_bind; [unfold uuid4; solve_blames|]. intros did w1 Hu. unfold uuid4 in Hu. inv_ret Hu.
  unfold spares, admission_shared. destruct (w_exclusive _); [done|]. unfold transaction.
  match goal with |- context [admit_payload c claims ?d ?wi ?w1] =>
    pose proof (admit_payload_spares c claims d wi w1 Ht Hh) as Hb; unfold spares in Hb;
    by destruct (admit_payload c claims d wi w1) as [[r|[]|] w2] end.
Qed.

(** What an answer says about the graph. *)
Definition lands c (st : option Z) (s s' : St) : Prop :=
  if bool_decide (st = Some 200%Z ∨ st = Some 403%Z)
  then ∃ n, same_write c n ∧ ∀ k, dict_get k (get_dag s') = dict_get k (get_dag (commit_node n s).2)
  else get_dag s' = get_dag s.

(** Whether the graph has grown can be read off the status, when the candidate
    is one that the separation rules cannot refuse. *)
Lemma submit_lands len c w st w' :
  faithful_engine → ENFORCEMENT_MODE cfg ≠ "shadow" → store_ok (w_db w) →
  node_type c ≠ Some "COMPACTION" →
  hashes_match c (get_node_content_hashes (parent_ids c) (w_db w)) = true →
  (∀ n claims, same_write c n → authenticated c claims →
    rules_decision n (parent_ids n) (nodes_exist (parent_ids c) (w_db w)) (are_quarantined (parent_ids c) (w_db w))
      claims (clock (S (w_tick w))) ≠ SeparationFailed) →
  status_of (submit_candidate len (Parsed c)) w = (Ret st, w') → lands c st (w_db w) (w_db w').
Proof.
  intros HF Hmode Hok Ht Hh Hsep. unfold status_of. pose proof (submit_candidate_atomic len (Parsed c) w) as Hat.
  pose proof (submit_candidate_spares len c w Ht Hh) as Hbl. unfold spares in Hbl.
  destruct (submit_candidate len (Parsed c) w) as [[r|e|] w1] eqn:Hr.
  - intros [= <- <-]. apply submit_candidate_runs in Hr as (_ & n & claims & did & [= <-] & Hauth & Ha).
    eapply admit_payload_enforced in Ha as (_ & _ & Hen); [|done|done|exact Hok].
    unfold lands.
    inversion Hen as [n' t Hw _ _ _ [Hdag _]|n' root ev w3 w4 Hw _ _ Hdb3 Hatt [Hdag _]|status d Hne H403 [Hdag _]];
      subst; cbn [status_code w_db w_tick field_update] in *.
    + rewrite bool_decide_eq_true_2 by (by left). exists n'. split; [done|]. intros k. by rewrite Hdag.
    + rewrite bool_decide_eq_true_2 by (by right). exists n'. split; [done|]. intros k. rewrite Hdag.
      apply quarantine_attempt_core in Hatt as [D _]; [|by rewrite Hdb3]. by rewrite D, Hdb3.
    + rewrite bool_decide_eq_false_2; [done|]. intros [|]; [congruence|].
      destruct H403 as (n' & Hw & Hd); [congruence|]. by eapply Hsep.
  - unfold lands. destruct e as [z d| | |]; intros [= <- <-]; cbn in Hbl;
      (rewrite bool_decide_eq_false_2; [by rewrite Hat|unfold not_forbidden in *; intros [|]; simplify_eq; lia]).
  - intros [= <- <-]. unfold lands. rewrite bool_decide_eq_false_2; [by rewrite Hat|by intros [|]].
Qed.
End write.

(** ** The accounts stay exact *)
Section accounts.
Context `{E : Env} {St : Type} `{BackendLaws St} `{!Transactional St, !RollbackLaws St}.
Context (jwt_encode : dict json → string → string) (server_private_key : string) (int_repr : Z → string).
Implicit Types (w : world St) (t : storm_tally).
Abbreviation candidate_of := (harness_candidate jwt_encode server_private_key int_repr).
Abbreviation claims_of := (session_claims int_repr).

(** The gateway of the test bench: enforcing, in debug mode, with a policy engine
    that answers or fails, the operator's key, and less than an hour, for which
    the clients' tokens are valid, between two readings of the clock. *)
Record bench : Prop := {
  be_engine : faithful_engine;
  be_mode : ENFORCEMENT_MODE cfg ≠ "shadow";
  be_debug : DEBUG_MODE cfg = true;
  be_admin : ∃ token claims, authorization (ADMIN jwt_encode server_private_key) ≫= bearer_token = Some token ∧
      jwt_decode token (JWT_PUBLIC_KEY cfg) = Some claims ∧ dict_get "role" claims = Some (JStr "admin");
  be_token i : token_decodes jwt_encode server_private_key int_repr (client_public_key_hex (fresh_key i)) "agent"
    (clock (S (S (S i))));
  be_hour i : (unix_timestamp (clock (S (S i))) < unix_timestamp (plus_seconds (clock i) 3600))%Z;
  be_fresh i j : fresh_uuid i = fresh_uuid j → i = j;
  be_names i : fresh_uuid i ≠ "clean-parent-1" ∧ fresh_uuid i ≠ "none" }.

(** The separation rules do not refuse a candidate of the client. *)
Lemma candidate_passes_separation k uuid boundary now p content digests n (em qm : dict bool) (at_time : Z) :
  same_write (candidate_of digests k uuid boundary now [p] content "agent") n →
  flag p em = true → rego_holds (dict_get "justification" content) = false → uuid ≠ "none" →
  (unix_timestamp at_time < unix_timestamp (plus_seconds now 3600))%Z →
  rules_decision n (parent_ids n) em qm (claims_of (client_public_key_hex k) "agent" now []) at_time ≠ SeparationFailed.
Proof.
  intros Hw Hp Hj Hu Ht. destruct (same_write_fields _ _ Hw) as (Hid & Hpar & _ & _ & Hc & Hb).
  rewrite Hpar. rewrite (only_justification_is_screened _ _ _ _ _ _ _ Hid Hb (f_equal _ Hc)).
  rewrite candidate_parents. destruct (flag p qm) eqn:Hq.
  - unfold rules_decision.
    assert (∀ c, allow_state_write (integrity_input_of c [p] em qm) = false) as ->.
    { intros c. unfold allow_state_write, any_parent_quarantined. cbn. rewrite Hq. cbn. by rewrite andb_false_r. }
    cbn. unfold refusal, tainted_of. cbn. by rewrite Hq.
  - rewrite (candidate_rules _ _ _ k uuid boundary "agent" now [p] content digests em qm at_time); try done.
    by intros ? ->%list_elem_of_singleton.
Qed.

Lemma length_grows {A} (d d' : dict A) x v :
  dict_ok d → dict_ok d' → x ∉ dict_keys d →
  (∀ k, dict_get k d' = match dict_get k d with Some m => Some m | None => if decide (k = x) then Some v else None end) →
  length d' = S (length d).
Proof.
  intros Hd Hd' Hx Hk. rewrite <-(length_dict_keys d), <-(length_dict_keys d').
  change (S (length (dict_keys d))) with (length (x :: dict_keys d)). apply Permutation_length, NoDup_Permutation.
  - exact Hd'.
  - by apply NoDup_cons.
  - intros k. rewrite elem_of_cons, <-!dict_get_is_Some, Hk. destruct (dict_get k d) eqn:E1.
    + split; eauto.
    + case_decide; split; [by left|eauto|by intros []|by intros [|[]]].
Qed.

(** What is claimed between two moves. *)
Record accounted (start : nat) (r : storm_tally * dict string) w : Prop := {
  ac_ok : store_ok (w_db w);
  ac_keys k : k ∈ dict_keys (get_dag (w_db w)) → k = "clean-parent-1" ∨ ∃ i, i < w_tick w ∧ k = fresh_uuid i;
  ac_growth : length (get_dag (w_db w)) = start + (n200 r.1 + n403 r.1);
  ac_some : active_nodes r.1 ≠ [];
  ac_active p : p ∈ active_nodes r.1 → p ∈ dict_keys (get_dag (w_db w)) ∧
    let h := default "" (dict_get p (get_dag (w_db w)) ≫= content_digest_sha256) in h = "" ∨ dict_get p r.2 = Some h;
  ac_failed k : k ∈ failed_payload_ids r.1 →
    (k ∉ dict_keys (get_dag (w_db w))) ∧ ∃ i, i < w_tick w ∧ k = fresh_uuid i }.

Lemma accounted_quiet start r w w' :
  store_ok (w_db w') → get_dag (w_db w') = get_dag (w_db w) → w_tick w ≤ w_tick w' →
  accounted start r w → accounted start r w'.
Proof.
  intros Hok D Ht [A B C F G I]. split; rewrite ?D; [done| |done..|].
  - intros k Hk. destruct (B k Hk) as [|(i & ? & ?)]; [by left|right]. exists i. split; [lia|done].
  - intros k Hk. destruct (I k Hk) as [? (i & ? & ?)]. split; [done|]. exists i. split; [lia|done].
Qed.

(** An answer that is not a success or a failure of the server moves a counter. *)
Lemma accounted_idle start t t' digests w :
  n200 t' + n403 t' = n200 t + n403 t → active_nodes t' = active_nodes t → failed_payload_ids t' = failed_payload_ids t →
  accounted start (t, digests) w → accounted start (t', digests) w.
Proof. intros N A F [O K G S P I]. split; cbn [fst snd] in *; rewrite ?N, ?A, ?F; done. Qed.

(** A write that lands is one new node, and the digest the client notes is the
    one that is stored. *)
Definition grew c (s s' : St) : Prop :=
  length (get_dag s') = S (length (get_dag s)) ∧
  (∀ k, k ∈ dict_keys (get_dag s') ↔ k = payload_id c ∨ k ∈ dict_keys (get_dag s)) ∧
  (∀ k n, dict_get k (get_dag s) = Some n → dict_get k (get_dag s') = Some n) ∧
  dict_get (payload_id c) (get_dag s') ≫= content_digest_sha256 = content_digest_sha256 c.

Lemma lands_grew c st (s s' : St) :
  store_ok s → store_ok s' → payload_id c ∉ dict_keys (get_dag s) → st = Some 200%Z ∨ st = Some 403%Z →
  lands c st s s' → grew c s s'.
Proof.
  intros Hok Hok' Hnew Hst Hl. unfold lands in Hl. rewrite bool_decide_eq_true_2 in Hl by done.
  destruct Hl as (n & Hw & D).
  assert (payload_id n = payload_id c ∧ content_digest_sha256 n = content_digest_sha256 c) as [Hpid Hcd]
    by (by destruct Hw as [->|[gap ->]]).
  setoid_rewrite commit_node_dag in D; [|done]. rewrite Hpid in D. unfold grew. split_and!.
  - exact (length_grows _ _ (payload_id c) n (dag_ok _ Hok) (dag_ok _ Hok') Hnew D).
  - intros k. rewrite <-!dict_get_is_Some, D. destruct (dict_get k (get_dag s)); [split; eauto|].
    destruct (decide (k = payload_id c)) as [->|]; split; [intros _; by left|eauto|by intros []|by intros [|[]]].
  - intros k m Hm. by rewrite D, Hm.
  - rewrite D. apply dict_get_None in Hnew. by rewrite Hnew, decide_True.
Qed.

Lemma accounted_fresh start r i w : bench → accounted start r w → w_tick w ≤ i → fresh_uuid i ∉ dict_keys (get_dag (w_db w)).
Proof.
  intros HB Hac Hi Hin. destruct (ac_keys _ _ _ Hac _ Hin) as [He|(j & Hj & He)].
  - by destruct (be_names HB i).
  - apply (be_fresh HB) in He. lia.
Qed.

Lemma older_tick (k : string) (i j : nat) :
  i ≤ j → (∃ n, n < i ∧ k = fresh_uuid n) → ∃ n, n < j ∧ k = fresh_uuid n.
Proof. intros Hij (n & ? & ?). exists n. split; [lia|done]. Qed.

(** The move of a write that landed, as admitted or as a tainted attempt. *)
Lemma accounted_landed start t digests c st i w w' :
  bench → accounted start (t, digests) w → store_ok (w_db w') → w_tick w ≤ i → i < w_tick w' →
  payload_id c = fresh_uuid i → content_digest_sha256 c = Some (content_digest (content_of c)) →
  st = Some 200%Z ∨ st = Some 403%Z → grew c (w_db w) (w_db w') →
  accounted start (count_result (payload_id c) st t, note_digest c st digests) w'.
Proof.
  intros HB [Hok HK HG HS HP HF] Hok' Hi Hi' Hid Hdig Hst (L & K & O & N). cbn [fst snd] in *. rewrite Hdig in N.
  assert (∀ k, k ∈ dict_keys (get_dag (w_db w')) → k = "clean-parent-1" ∨ ∃ j, j < w_tick w' ∧ k = fresh_uuid j) as HK'.
  { intros k [->|Hk]%K; [right; by exists i|]. destruct (HK k Hk); [by left|right].
    apply (older_tick _ (w_tick w)); [lia|done]. }
  assert (∀ k, k ∈ failed_payload_ids t → (k ∉ dict_keys (get_dag (w_db w'))) ∧ ∃ j, j < w_tick w' ∧ k = fresh_uuid j) as HF'.
  { intros k Hk. destruct (HF k Hk) as (Hn & j & Hj & ->). split; [|exists j; split; [lia|done]].
    intros [He|Hin]%K; [|done]. rewrite Hid in He. apply (be_fresh HB) in He. lia. }
  assert (∀ p, p ∈ active_nodes t → p ∈ dict_keys (get_dag (w_db w')) ∧
    let h := default "" (dict_get p (get_dag (w_db w')) ≫= content_digest_sha256) in
    h = "" ∨ dict_get p (note_digest c st digests) = Some h) as HP'.
  { intros p Hp. destruct (HP p Hp) as [Hin Hh]. split; [by apply K; right|]. apply dict_get_is_Some in Hin as [m Hm].
    rewrite Hm in Hh. rewrite (O p m Hm). destruct Hh as [Hh|Hh]; [by left|right].
    unfold note_digest. destruct (decide (st = Some 200%Z)); [|done]. rewrite dict_get_set_ne; [done|].
    intros ->. destruct (HP _ Hp) as [Hk _]. destruct (HK _ Hk) as [He|(j & Hj & He)].
    - by destruct (be_names HB i) as [[] _]; rewrite <-Hid.
    - rewrite Hid in He. apply (be_fresh HB) in He. lia. }
  destruct Hst as [-> | ->]; cbn [count_result Z.eqb Pos.eqb]; (split; cbn [fst snd]; [done|done| | | |done]).
  - rewrite L, HG. cbn. lia.
  - cbn. by destruct (active_nodes t).
  - cbn. intros p [Hp| ->%list_elem_of_singleton]%elem_of_app; [by apply HP'|]. split; [apply K; by left|].
    right. rewrite N. unfold note_digest. destruct (decide (Some 200%Z = Some 200%Z)); [|done]. apply dict_get_set_eq.
  - rewrite L, HG. cbn. lia.
  - done.
  - exact HP'.
Qed.

(** The move of a write that left the graph alone. *)
Lemma accounted_refused start t digests c st i w :
  st ≠ Some 200%Z → st ≠ Some 403%Z → i < w_tick w → payload_id c = fresh_uuid i →
  payload_id c ∉ dict_keys (get_dag (w_db w)) → accounted start (t, digests) w →
  accounted start (count_result (payload_id c) st t, note_digest c st digests) w.
Proof.
  intros H2 H4 Hi Hid Hnew Hac.
  assert (note_digest c st digests = digests) as -> by (unfold note_digest; by rewrite decide_False).
  unfold count_result. destruct st as [z|]; [|by apply (accounted_idle _ t)].
  destruct (z =? 200)%Z eqn:Hz; [apply Z.eqb_eq in Hz; congruence|].
  destruct (z =? 403)%Z eqn:Hz3; [apply Z.eqb_eq in Hz3; congruence|].
  destruct (z =? 429)%Z; [by apply (accounted_idle _ t)|]. destruct (500 <=? z)%Z; [|by apply (accounted_idle _ t)].
  destruct Hac as [A B C F G I]. split; cbn [fst snd]; try done.
  intros k [Hk| ->%list_elem_of_singleton]%elem_of_app; [by apply I|]. split; [done|by exists i].
Qed.

Lemma accounted_served start t digests c st i w w' :
  bench → accounted start (t, digests) w → store_ok (w_db w') → w_tick w ≤ i → i < w_tick w' →
  payload_id c = fresh_uuid i → content_digest_sha256 c = Some (content_digest (content_of c)) →
  lands c st (w_db w) (w_db w') →
  accounted start (count_result (payload_id c) st t, note_digest c st digests) w'.
Proof.
  intros HB Hac Hok' Hi Hi' Hid Hdig Hl.
  assert (payload_id c ∉ dict_keys (get_dag (w_db w))) as Hnew by (rewrite Hid; by apply (accounted_fresh start (t, digests) i w)).
  destruct (decide (st = Some 200%Z ∨ st = Some 403%Z)) as [Hst|Hst].
  - apply (accounted_landed _ _ _ _ _ i w); try done. eapply lands_grew; try done. apply Hac.
  - unfold lands in Hl. rewrite bool_decide_eq_false_2 in Hl by done.
    apply (accounted_refused _ _ _ _ _ i); [tauto..|done|done|by rewrite Hl|].
    apply (accounted_quiet _ _ w); [done..|lia|done].
Qed.

(** ** The moves *)
Abbreviation one_move := (storm_move_run (St:=St) jwt_encode server_private_key int_repr).

(** Four readings, then one request. *)
Definition read_four w : world St := w <| w_tick := S (S (S (S (w_tick w)))) |>.
Definition sent digests p (state : dict json) w : node :=
  candidate_of digests (fresh_key (w_tick w)) (fresh_uuid (S (w_tick w))) (fresh_uuid (S (S (w_tick w))))
    (clock (S (S (S (w_tick w))))) [p] state "agent".

Lemma live_submit_run digests p state w :
  let c := sent digests p state w in
  ∃ st w', status_of (submit_candidate 100 (Parsed c)) (read_four w) = (Ret st, w') ∧
    live_submit jwt_encode server_private_key int_repr digests [p] state id w =
      (Ret (payload_id c, st, note_digest c st digests), w').
Proof.
  intros c. destruct (status_of_total (submit_candidate 100 (Parsed c)) (read_four w)) as (st & w' & Hr).
  exists st, w'. split; [done|]. unfold live_submit, generate_private_key, uuid4, now.
  rewrite (bind_ret (reading fresh_key) _ w (fresh_key (w_tick w)) (w <| w_tick ::= S |>)) by done.
  rewrite (bind_ret (reading fresh_uuid) _ (w <| w_tick ::= S |>) _ (w <| w_tick ::= S |> <| w_tick ::= S |>)) by done.
  rewrite (bind_ret (reading fresh_uuid) _ (w <| w_tick ::= S |> <| w_tick ::= S |>) _
    (w <| w_tick ::= S |> <| w_tick ::= S |> <| w_tick ::= S |>)) by done.
  rewrite (bind_ret (reading clock) _ (w <| w_tick ::= S |> <| w_tick ::= S |> <| w_tick ::= S |>) _ (read_four w)) by done.
  cbv zeta. match goal with |- context [id ?x] => change (id x) with c end. by rewrite (bind_ret _ _ _ _ _ Hr).
Qed.

(** What the client sends passes everything that could forbid it. *)
Lemma sent_lands start t digests p u w st w' :
  bench → accounted start (t, digests) w → p ∈ active_nodes t →
  let c := sent digests p [("v", JStr u)] w in
  status_of (submit_candidate 100 (Parsed c)) (read_four w) = (Ret st, w') → lands c st (w_db w) (w_db w').
Proof.
  intros HB Hac Hp c Hr. destruct (ac_active _ _ _ Hac p Hp) as [Hin Hh]. cbn [fst snd] in Hh.
  subst c. unfold sent in *.
  apply (submit_lands 100 _ (read_four w)); [apply HB|apply HB|apply Hac|discriminate| | |exact Hr]; rewrite candidate_parents.
  - apply candidate_hashes. intros q ->%list_elem_of_singleton. cbv zeta.
    rewrite content_hashes_spec; [exact Hh|apply Hac|by left].
  - intros n claims Hw Hauth.
    assert (claims = claims_of (client_public_key_hex (fresh_key (w_tick w))) "agent" (clock (S (S (S (w_tick w))))) []) as ->.
    { destruct (au_token _ _ Hauth) as (token & Ht & Hd). injection Ht as <-.
      pose proof (be_token HB (w_tick w)) as Hd'. unfold token_decodes in Hd'. congruence. }
    eapply candidate_passes_separation; [exact Hw| |done|apply HB|apply HB].
    rewrite nodes_exist_spec; [by apply dict_mem_true|apply Hac|by left].
Qed.

Lemma storm_write_accounted start draw turned_away r w :
  bench → accounted start r w →
  ∃ r' w', storm_write jwt_encode server_private_key int_repr draw turned_away r w = (Ret r', w') ∧ accounted start r' w'.
Proof.
  intros HB Hac. destruct r as [t digests]. unfold storm_write.
  destruct (choice (active_nodes t) draw) as [p|] eqn:Hp.
  2:{ destruct (choice_Some (active_nodes t) draw (ac_some _ _ _ Hac)). congruence. }
  assert (p ∈ active_nodes t) as Hin by (by eapply list_elem_of_lookup_2).
  rewrite (bind_ret (drawn _) _ w p w) by done. set (w1 := w <| w_tick ::= S |>).
  rewrite (bind_ret uuid4 _ w (fresh_uuid (w_tick w)) w1) by done.
  assert (accounted start (t, digests) w1) as Hac1 by (apply (accounted_quiet _ _ w); [apply Hac|done|cbn; lia|done]).
  destruct turned_away.
  { eexists _, _. split; [done|]. by apply (accounted_idle _ t). }
  destruct (live_submit_run digests p [("v", JStr (fresh_uuid (w_tick w)))] w1) as (st & w2 & Hr & Hl).
  rewrite (bind_ret _ _ _ _ _ Hl). eexists _, _. split; [done|].
  pose proof (ticks_run _ _ _ _ (ticks_status _ (submit_candidate_ticks _ _)) Hr) as Ht. cbn in Ht.
  apply (accounted_served _ _ _ _ _ (S (w_tick w1)) w1); try done; [|cbn; lia..|by eapply sent_lands].
  by destruct (respects_run _ _ _ _ _ (status_of_respects evolves _ (submit_candidate_evolves _ _)) Hr (ac_ok _ _ _ Hac1)).
Qed.

Lemma designate_body_graph n reason identity w r w' :
  store_ok (w_db w) → w_exclusive w = true →
  designate_body n reason identity w = (Ret r, w') → get_dag (w_db w') = get_dag (w_db w).
Proof.
  intros Hok Hx Hr. pose proof Hr as Hb. unfold designate_body in Hb. inv_ret Hb. inv_rets.
  destruct (negb _); [by inv_ret Hb|]. destruct (flag n _); [by inv_ret Hb|]. inv_ret Hb.
  match goal with Hc : contain _ _ _ _ _ = (Ret ?cq, _) |- _ => destruct cq end. inv_rets.
  by apply designate_body_Ret in Hr as (D & _).
Qed.

(** A designation leaves the graph alone, whatever comes of it. *)
Lemma designate_keeps_graph rq n reason w :
  store_ok (w_db w) → get_dag (w_db (designate_poison rq n reason w).2) = get_dag (w_db w).
Proof.
  intros Hok. unfold designate_poison, mbind, M_bind.
  destruct (verify_role_jwt rq "designator" w) as [o w1] eqn:Hv.
  destruct (respects_run _ _ _ _ _ (verify_role_jwt_respects same_core _ _) Hv Hok) as [Hok0 [D0 _ _]]. rewrite <-D0.
  destruct o as [claims|e|]; [|done..].
  destruct (limit_designations (subject_or_unknown claims) n w1) as [o w2] eqn:Hl.
  destruct (respects_run _ _ _ _ _ (limit_designations_core _ _) Hl Hok0) as [Hok1 [D1 _ _]]. rewrite <-D1.
  destruct o as [[]|e|]; [|done..].
  pose proof (atomic_exclusive _ (atomic_transaction (designate_body n reason (subject_or_unknown claims))) w2) as Hat.
  destruct (admission_exclusive _ w2) as [[r|e|] w3] eqn:Hr; [|by cbn; rewrite Hat..]. clear Hat.
  inv_ret Hr. inv_ret Hr. cbn [snd w_db field_update].
  by apply designate_body_graph in Hr.
Qed.

Lemma storm_strike_accounted start draw r w :
  accounted start r w →
  ∃ w', storm_strike jwt_encode server_private_key draw r w = (Ret r, w') ∧ accounted start r w'.
Proof.
  intros Hac. unfold storm_strike. destruct (choice_Some (active_nodes r.1) draw (ac_some _ _ _ Hac)) as [p Hp].
  rewrite Hp, (bind_ret (drawn _) _ w p w) by done. unfold live_designate.
  match goal with |- context [status_of ?m ≫= _] => destruct (status_of_total m w) as (st & w1 & Hr); pose proof m end.
  rewrite (bind_ret _ _ _ _ _ Hr). exists w1. split; [done|]. pose proof (ac_ok _ _ _ Hac) as Hok.
  apply (accounted_quiet _ _ w); [| | |done].
  - by destruct (respects_run _ _ _ _ _ (status_of_respects evolves _ (designate_poison_evolves _ _ _)) Hr Hok).
  - rewrite <-(designate_keeps_graph (bearing jwt_encode server_private_key
      [("sub", JStr "designator"); ("role", JStr "designator")]) p "poison" w Hok).
    unfold status_of in Hr. by destruct (designate_poison _ p "poison" w) as [[?|[]|] w2]; injection Hr as _ <-.
  - exact (ticks_run _ _ _ _ (ticks_status _ (designate_poison_ticks _ _ _)) Hr).
Qed.

Lemma storm_moves_accounted start moves r w :
  bench → accounted start r w → ∃ r' w', for_fold moves r one_move w = (Ret r', w') ∧ accounted start r' w'.
Proof.
  intros HB. revert r w. induction moves as [|m moves IH]; intros r w Hac; [by eexists _, _|]. cbn [for_fold].
  assert (∃ r1 w1, one_move r m w = (Ret r1, w1) ∧ accounted start r1 w1) as (r1 & w1 & Hr & Hac1).
  { destruct m as [draw away|draw]; [by apply storm_write_accounted|].
    destruct (storm_strike_accounted start draw r w Hac) as (w1 & ? & ?). by exists r, w1. }
  rewrite (bind_ret _ _ _ _ _ Hr). by apply IH.
Qed.

(** ** What the operator sees *)
Lemma operator_admitted w :
  bench → ∃ claims, verify_role_jwt (ADMIN jwt_encode server_private_key) "admin" w = (Ret claims, w).
Proof.
  intros HB. destruct (be_admin HB) as (token & claims & Ht & Hd & Hrole). exists claims.
  unfold verify_role_jwt. by rewrite Ht, Hd, Hrole.
Qed.

Lemma get_db_dag_run w : bench → get_db_dag jwt_encode server_private_key w = (Ret (get_dag (w_db w)), w).
Proof.
  intros HB. destruct (operator_admitted w HB) as [claims Hv]. unfold get_db_dag, catch, db_state.
  unfold mbind, M_bind. by rewrite Hv, (be_debug HB).
Qed.

Context `{!ResetLaws St}.

Lemma live_reset_run w :
  bench → ∃ st w', live_reset jwt_encode server_private_key w = (Ret st, w') ∧ w_db w' = reset (w_db w) ∧ w_tick w' = w_tick w.
Proof.
  intros HB. destruct (operator_admitted w HB) as [claims Hv]. unfold live_reset, status_of, reset_db.
  unfold mbind, M_bind. rewrite Hv, (be_debug HB). by eexists _, _.
Qed.

(** C18: the accounts of the write storm are exact.  On a bench whose gateway
    enforces with a policy engine that answers or fails, whatever parents are
    drawn and however writes, writes that the backpressure turns away and
    designations alternate, the storm ends with both verdicts good: the graph
    has grown by the writes answered 200 and by those answered 403, which are
    kept as tainted attempts, and no write that failed with a 5xx is in it. *)
Theorem storm_accounting_is_exact digests moves w :
  bench → store_ok (w_db w) →
  ∃ t w', run_concurrency_storm jwt_encode server_private_key int_repr digests moves w =
    (Ret (StormReport true true t), w') ∧ length (get_dag (w_db w')) = 1 + (n200 t + n403 t).
Proof.
  intros HB Hok. unfold run_concurrency_storm.
  destruct (live_reset_run w HB) as (st & w1 & Hr & Hdb & Ht). rewrite (bind_ret _ _ _ _ _ Hr).
  rewrite (bind_ret _ _ _ _ _ (get_db_dag_run w1 HB)).
  assert (accounted 1 (no_results, digests) w1) as Hac.
  { split; rewrite ?Hdb, ?reset_dag; cbn; [by apply reset_ok| |done|done| |by intros k ?%elem_of_nil].
    - intros k ->%list_elem_of_singleton. by left.
    - intros p ->%list_elem_of_singleton. split; [by left|by left]. }
  destruct (storm_moves_accounted 1 moves _ w1 HB Hac) as (r & w2 & Hm & Hac2). rewrite (bind_ret _ _ _ _ _ Hm).
  exists r.1, w2. pose proof (ac_growth _ _ _ Hac2) as HG. split; [|exact HG]. unfold storm_verdict.
  rewrite (bind_ret _ _ _ _ _ (get_db_dag_run w2 HB)), (bind_ret _ _ _ _ _ (get_db_dag_run w2 HB)).
  rewrite HG, Hdb, reset_dag. cbn [length].
  rewrite (proj2 (Z.eqb_eq _ _)) by lia. rewrite bool_decide_eq_true_2; [done|]. apply bfilter_nil.
  intros k Hk. apply dict_mem_false. by apply (ac_failed _ _ _ Hac2).
Qed.
End accounts.

(** ** A storm on the SQLite store

    One key and one instant for all, and a policy engine that is down for a
    while. *)
Definition storm_env : Env :=
  let E := live_env in
  {| cfg := @cfg E; payload_size_limit := @payload_size_limit E; env_text := @env_text E; clock := λ _, client_now;
     fresh_uuid := @fresh_uuid E; key_pair := @key_pair E; fresh_key := λ _, 41%Z; public_key := @public_key E;
     public_numbers := @public_numbers E; load_numbers := @load_numbers E; load_encoded_point := @load_encoded_point E;
     encode_dss_signature := @encode_dss_signature E; ecdsa_verify := @ecdsa_verify E; ecdsa_sign := @ecdsa_sign E;
     jwt_decode := read_hex_token; path_exists := @path_exists E; has_wasmtime := false; opa_wasm := @opa_wasm E;
     opa_process := λ n b q input, if (30 <=? n) && (n <=? 40) then Exited 1 None else @opa_process E n b q input;
     opa_rest := @opa_rest E; adapter_post := @adapter_post E; set_order := @set_order E |}.

Lemma storm_bench : bench (E:=storm_env) hex_token "private" pretty.
Proof.
  split.
  - split; intros; cbn; [done| |done]. by destruct (_ && _).
  - done.
  - done.
  - exists (mint_jwt hex_token "private" [("sub", JStr "x"); ("role", JStr "admin")]), [("sub", JStr "x"); ("role", JStr "admin")].
    split; [by vm_compute|]. split; by vm_compute.
  - intros i. by vm_compute.
  - intros i. by vm_compute.
  - intros i j Hij. injection Hij as Hij. by do 2 apply (inj _) in Hij.
  - by intros i.
Qed.

Definition storm_moves : list storm_move :=
  [StormWrite 0 false; StormWrite 1 false; StormStrike 1; StormWrite 1 false; StormWrite 0 true; StormWrite 0 false;
   StormWrite 0 false; StormStrike 0; StormWrite 3 false].

Abbreviation bench_storm := (run_concurrency_storm (E:=storm_env) hex_token "private" pretty [] storm_moves (start_world (empty_db 1000))).

(** Every kind of answer occurs: four writes land, one is a tainted attempt, one
    is turned away and one fails with the engine. *)
Lemma storm_accounting_is_exact_witness :
  bench (E:=storm_env) hex_token "private" pretty ∧
  bench_storm.1 = Ret (StormReport true true
    (Tally 4 1 1 1 0 ["uuid-25"] ["clean-parent-1"; "uuid-2"; "uuid-11"; "uuid-35"; "uuid-46"])) ∧
  ∃ t w', bench_storm = (Ret (StormReport true true t), w') ∧ length (get_dag (w_db w')) = 1 + (n200 t + n403 t).
Proof.
  split; [exact storm_bench|]. split; [by vm_compute|].
  apply (storm_accounting_is_exact (E:=storm_env) hex_token "private" pretty [] storm_moves); [exact storm_bench|].
  exact (wf_empty 1000).
Defined.
