(* ===== verification/Concurrency.v ===== *)
(** * Submissions and designations of several tasks

    [Connection] shows that tasks which interleave on the SQLite file leave in it
    what their units give one after the other.  Here the units are those of the
    handlers: the transaction of a submission, the transaction of a designation,
    and single writes that touch neither graph nor ledger.  Containment holds at
    the end of every schedule, when an identifier always names the same
    dependencies.  The file ends with the race of the one commit path that checks
    before it takes the lock. *)
From S2P Require Import Prelude Dict Types Encoding Datetime Graph Lineage Memory Sqlite Interface World Crypto Policy Admission Recovery Detectors Designation Routes Demo Connection AdmissionSpec ContainmentSpec.

(** What a transaction of a handler does to the store it starts from; the task's
    readings of the outside are numbered from [tick]. *)
(* src: src/governor_service.py 1308-1309 submit_candidate *)
Definition transaction_effect `{!Transactional St} {A} (body : M St A) (key : option string) (exclusive : bool)
    (tick : nat) (s : St) : St :=
  w_db (transaction body (World s key exclusive tick)).2.

Definition same_refs (n m : node) : Prop := parent_ids n = parent_ids m ∧ covers n = covers m.

Section concurrency.
Context `{E : Env} {St : Type} `{BackendLaws St} `{!Transactional St, !RollbackLaws St}.
(** Every payload there is, by identifier, and the nodes that may be covered. *)
Variable (known : dict node) (anchored : list string).

Definition named (n : node) : Prop := ∃ m, dict_get (payload_id n) known = Some m ∧ same_refs n m.

(** Between units: the store is contained, what is outside the quarantine refers
    to nodes of the graph, and identifiers keep their meaning. *)
Record steady (s : St) : Prop := {
  st_ok : store_ok s;
  st_contained : contained s;
  st_named k n : dict_get k (get_dag s) = Some n → ∃ m, dict_get k known = Some m ∧ same_refs n m;
  st_grounded k n : dict_get k (get_dag s) = Some n → k ∉ get_quarantine_ledger s →
    ∀ p, p ∈ parent_ids n ∨ p ∈ covers n → p ∈ dict_keys (get_dag s);
  st_anchored : anchored ⊆ dict_keys (get_dag s);
  st_depth d : traversal_depth s = Some d → length known < d }.

(** What tasks do on the file. *)
Inductive gateway_action : action St → Prop :=
  | ga_begin : gateway_action Begin
  | ga_commit : gateway_action Commit
  | ga_abort : gateway_action Abort
  | ga_submit n auth did wi key tick :
      named n → (node_type n = Some "COMPACTION" ∨ covers n = []) → covers n ⊆ anchored →
      gateway_action (Write (transaction_effect (admit_payload n auth did wi) key false tick))
  | ga_designate node_id reason identity key tick :
      gateway_action (Write (transaction_effect (designate_body node_id reason identity) key true tick))
  | ga_other f : (∀ s, store_ok s → store_ok (f s) ∧ same_core s (f s)) → gateway_action (Write f).

Lemma steady_same_core s s' : store_ok s' → same_core s s' → steady s → steady s'.
Proof.
  intros Hok Hc [_ Hcon Hn Hg Ha Hd]. pose proof Hc as [D L T]. split.
  - done.
  - by eapply same_core_contained.
  - by rewrite D.
  - by rewrite D, L.
  - by rewrite D.
  - by rewrite T.
Qed.

Lemma steady_deep s : steady s → deep_enough s.
Proof.
  intros [Hok _ Hn _ _ Hd] d Hdep. specialize (Hd d Hdep). pose proof (dag_ok s Hok) as Hnd. unfold dict_ok in Hnd.
  assert (dict_keys (get_dag s) ⊆+ dict_keys known) as Hsub.
  { apply NoDup_submseteq; [done|]. intros k Hk%dict_get_is_Some. destruct Hk as [n Hk].
    destruct (Hn k n Hk) as (m & Hm & _). apply dict_get_is_Some. eauto. }
  apply submseteq_length in Hsub. rewrite !length_dict_keys in Hsub. lia.
Qed.

(** ** A node joins the graph *)
Lemma commit_keys n s p : store_ok s → p ∈ dict_keys (get_dag s) → p ∈ dict_keys (get_dag (commit_node n s).2).
Proof. intros Hok [m Hp]%dict_get_is_Some. apply dict_get_is_Some. rewrite commit_node_dag, Hp by done. eauto. Qed.

Lemma same_write_refs n n' : same_write n n' → payload_id n' = payload_id n ∧ same_refs n' n.
Proof. intros Hw. destruct (same_write_fields n n' Hw) as (? & ? & ? & _). by repeat split. Qed.

Lemma commit_named n n' s k m :
  steady s → named n → same_write n n' → dict_get k (get_dag (commit_node n' s).2) = Some m →
  ∃ m', dict_get k known = Some m' ∧ same_refs m m'.
Proof.
  intros Hs (m0 & Hm0 & Hr0) [Hpid Hr]%same_write_refs. rewrite commit_node_dag by apply (st_ok _ Hs).
  destruct (dict_get k (get_dag s)) eqn:Hk; [intros [= <-]; by eapply st_named|].
  case_decide as Hkn; [|done]. intros [= <-]. exists m0. rewrite Hkn, Hpid. split; [done|].
  destruct Hr, Hr0. split; congruence.
Qed.

Lemma steady_admit n n' s s' :
  steady s → named n → (node_type n = Some "COMPACTION" ∨ covers n = []) → covers n ⊆ anchored →
  same_write n n' → parents_clean n s →
  (node_type n = Some "COMPACTION" → ∀ c, c ∈ covers n → c ∉ get_quarantine_ledger s) →
  store_ok s' → same_core (commit_node n' s).2 s' → steady s'.
Proof.
  intros Hs Hn Hty Hanch Hw Hp Hc Hok' Hcore. pose proof (st_ok _ Hs) as Hok.
  assert (∀ c, c ∈ covers n → c ∉ get_quarantine_ledger s) as Hcov.
  { intros c Hin. destruct Hty as [Ht|Ht]; [by apply Hc|]. rewrite Ht in Hin. by apply elem_of_nil in Hin. }
  pose proof (contained_admit n n' s s' Hok Hw Hp Hcov Hcore (st_contained _ Hs)) as Hcon.
  destruct (same_write_refs _ _ Hw) as [Hpid [Hpar Hcovs]].
  apply (steady_same_core _ _ Hok' Hcore). split.
  - by apply commit_node_ok.
  - destruct Hcore as [D L _]. unfold contained in *. by rewrite D, L in Hcon.
  - intros k m. by eapply commit_named.
  - intros k m. rewrite commit_node_dag, commit_node_ledger by done.
    destruct (dict_get k (get_dag s)) eqn:Hk.
    + intros [= <-] Hkq p Href. apply commit_keys; [done|]. by eapply (st_grounded _ Hs).
    + case_decide; [|done]. intros [= <-] _ p. rewrite Hpar, Hcovs. intros [Hin|Hin]; apply commit_keys; try done.
      * by apply Hp.
      * by apply (st_anchored _ Hs), Hanch.
  - intros x Hx. apply commit_keys; [done|]. by apply (st_anchored _ Hs).
  - intros d. rewrite commit_node_depth. apply (st_depth _ Hs).
Qed.

(** A tainted attempt joins graph and quarantine; nothing outside refers to it:
    if the identifier is new, nothing outside the quarantine can, and if it is
    not, the node that has it has the same tainted parent and is in quarantine. *)
Lemma steady_attempt n n' root s s' :
  steady s → named n → covers n ⊆ anchored → same_write n n' →
  payload_id n ∉ get_quarantine_ledger s → root ∈ parent_ids n → root ∈ get_quarantine_ledger s →
  store_ok s' → traversal_depth s' = traversal_depth s →
  (∀ k, dict_get k (get_dag s') = dict_get k (get_dag (commit_node n' s).2)) →
  (∀ x, x ∈ get_quarantine_ledger s' ↔ x = payload_id n ∨ x ∈ get_quarantine_ledger s) →
  steady s'.
Proof.
  intros Hs Hn Hanch Hw Hid Hroot Hrq Hok' HT D L. pose proof (st_ok _ Hs) as Hok.
  destruct (same_write_refs _ _ Hw) as [Hpid [Hpar Hcovs]].
  assert (dict_get (payload_id n) (get_dag s) = None) as Hnew.
  { destruct (dict_get (payload_id n) (get_dag s)) as [m|] eqn:Hk; [|done]. exfalso.
    destruct (st_named _ Hs _ _ Hk) as (m1 & Hm1 & Hr1), Hn as (m2 & Hm2 & Hr2). rewrite Hm1 in Hm2. injection Hm2 as <-.
    destruct Hr1 as [Hr1 _], Hr2 as [Hr2 _].
    eapply (st_contained _ Hs _ _ Hk Hid root); [left; congruence|done]. }
  assert (∀ k m, dict_get k (get_dag s') = Some m → k ∉ get_quarantine_ledger s' → dict_get k (get_dag s) = Some m) as Hold.
  { intros k m. rewrite D, commit_node_dag, L by done. destruct (dict_get k (get_dag s)); [done|].
    case_decide as Hk; [|done]. rewrite Hk, Hpid. intros _ Hq. destruct Hq. by left. }
  assert (∀ p, p ∈ dict_keys (get_dag s) → p ∈ dict_keys (get_dag s')) as Hkeys.
  { intros p Hp. apply (commit_keys n' s p Hok) in Hp. apply dict_get_is_Some in Hp. apply dict_get_is_Some. by rewrite D. }
  split.
  - done.
  - intros k m Hk Hkq p Href Hpq. pose proof (Hold k m Hk Hkq) as Hks. rewrite L in Hkq, Hpq.
    destruct Hpq as [->|Hpq].
    + assert (payload_id n ∈ dict_keys (get_dag s)) as Hin by (eapply (st_grounded _ Hs k m); [done|tauto|done]).
      apply dict_get_is_Some in Hin. rewrite Hnew in Hin. by destruct Hin.
    + eapply (st_contained _ Hs k m Hks); [tauto|exact Href|exact Hpq].
  - intros k m. rewrite D. by eapply commit_named.
  - intros k m Hk Hkq p Href. apply Hkeys. eapply (st_grounded _ Hs k m); [by apply Hold| |done].
    rewrite L in Hkq. tauto.
  - intros x Hx. by apply Hkeys, (st_anchored _ Hs).
  - rewrite HT. apply (st_depth _ Hs).
Qed.

(** ** Units *)
Lemma effect_steady {A} (body : M St A) key exclusive tick s :
  steady s → (∀ r w', body (World s key exclusive tick) = (Ret r, w') → steady (w_db w')) →
  steady (transaction_effect body key exclusive tick s).
Proof.
  intros Hs Hbody. unfold transaction_effect, transaction.
  destruct (body (World s key exclusive tick)) as [[r|e|] w'] eqn:Hr; cbn [snd w_db field_update world_rebuild];
    [by eapply Hbody|by rewrite rollback..].
Qed.

Lemma admit_payload_evolves n auth did wi : respects (St:=St) evolves (admit_payload n auth did wi).
Proof.
  pose proof (quarantine_attempt_evolves (St:=St)). unfold admit_payload, check_covers, decide_admission, audit, http, now.
  solve_respects.
Qed.

Lemma submission_steady n auth did wi key tick s :
  faithful_engine → ENFORCEMENT_MODE cfg ≠ "shadow" →
  named n → (node_type n = Some "COMPACTION" ∨ covers n = []) → covers n ⊆ anchored →
  steady s → steady (transaction_effect (admit_payload n auth did wi) key false tick s).
Proof.
  intros HF Hmode Hn Hty Hanch Hs. apply effect_steady; [done|]. intros r w' Hr.
  destruct (respects_run _ _ _ _ _ (admit_payload_evolves _ _ _ _) Hr (st_ok _ Hs)) as [Hok' [_ _ HT]].
  destruct (admit_payload_enforced n auth did wi (World s key false tick) r w' HF Hmode (st_ok _ Hs) Hr) as (Hid & Hcov & Hen).
  cbn [w_db] in *.
  inversion Hen as [n' t Hw Hp _ _ Hcore|n' root ev w2 w3 Hw Hin Hq Hdb Hatt Hcore|? ? _ _ Hcore]; subst.
  - by eapply steady_admit.
  - assert (store_ok (w_db w2)) as Hok2 by (rewrite Hdb; apply (st_ok _ Hs)).
    apply quarantine_attempt_core in Hatt as [D L]; [|done]. destruct Hcore as [D' L' _].
    destruct (same_write_refs _ _ Hw) as [Hpid _]. rewrite Hdb in D, L. cbn [w_db] in D, L.
    apply (steady_attempt n n' root s); try done.
    + intros k. by rewrite D', D.
    + intros x. by rewrite L', L, Hpid.
  - by eapply steady_same_core.
Qed.

Lemma designation_steady node_id reason identity key tick s :
  steady s → steady (transaction_effect (designate_body node_id reason identity) key true tick s).
Proof.
  intros Hs. apply effect_steady; [done|]. intros r w' Hr. pose proof (st_ok _ Hs) as Hok.
  assert (r = Reply 404 NotFound ∧ w_db w' = s ∨ r = Reply 200 AlreadyQuarantined ∧ w_db w' = s ∨
    ∃ event res, r = Reply 200 (Designated event res)) as Hcases.
  { revert Hr. unfold designate_body. intros Hr. inv_ret Hr. inv_rets.
    destruct (negb _); [inv_ret Hr; auto|]. destruct (flag node_id _); inv_ret Hr; [auto|]. inv_rets.
    match goal with Hc : contain _ _ _ _ _ = (Ret ?cq, _) |- _ => destruct cq end. inv_rets. eauto. }
  destruct Hcases as [[_ ->]|[[_ ->]|(event & res & ->)]]; [done|done|].
  assert (respects evolves (designate_body (St:=St) node_id reason identity)) as Hev
    by (unfold designate_body; solve_respects).
  destruct (respects_run _ _ _ _ _ Hev Hr Hok) as [_ [_ _ HT]]. cbn [w_db] in HT.
  apply designate_body_Ret in Hr as (D & Hok' & L); [|done|done]. cbn [w_db] in D, L.
  assert (∀ x, x ∈ get_quarantine_ledger (w_db w') ↔ derived (get_dag s) node_id x ∨ x ∈ get_quarantine_ledger s) as L'.
  { intros x. by rewrite L, blast_derived by (done || by apply steady_deep). }
  split.
  - done.
  - by apply (contained_grow s _ node_id); try done; apply Hs.
  - rewrite D. apply Hs.
  - rewrite D. intros k n Hk Hkq. apply (st_grounded _ Hs k n Hk). rewrite L' in Hkq. tauto.
  - rewrite D. apply Hs.
  - rewrite HT. apply Hs.
Qed.

Lemma gateway_action_steady a s :
  faithful_engine → ENFORCEMENT_MODE cfg ≠ "shadow" → gateway_action a → steady s → steady (effect a s).
Proof.
  intros HF Hmode Ha Hs. destruct Ha; cbn [effect]; try done.
  - by apply submission_steady.
  - by apply designation_steady.
  - match goal with Hf : ∀ s, _ |- _ => destruct (Hf s (st_ok _ Hs)) end. by eapply steady_same_core.
Qed.

Lemma gateway_insert_ok a : gateway_action a → insert_ok a.
Proof. by destruct 1. Qed.

End concurrency.

(** ** An example *)
Definition late_write : node := agent_write enforce_settings "late" ["a"] [] "STANDARD".
Definition agent_auth : dict json := default [] (demo_jwt "agent" "key").
Definition everything : dict node := get_dag seeded ++ [("late", late_write)].

(** A submission below [a] and a designation of [root], whose attempt to begin
    comes while the submission is under way. *)
Definition race_schedule : list (nat * action db) :=
  [(0, Begin); (1, Begin);
   (0, Write (transaction_effect (admit_payload (E:=enforcing) late_write agent_auth "d" "agent") None false 0));
   (0, Commit); (1, Begin);
   (1, Write (transaction_effect (designate_body (E:=enforcing) "root" "bad" "op") None true 9)); (1, Commit)].

Lemma race_result :
  t_ledger (on_disk (run race_schedule (File seeded None)).2) = ["a"; "late"; "root"] ∧
  dict_keys (nodes (on_disk (run race_schedule (File seeded None)).2)) = ["root"; "a"; "other"; "late"].
Proof. by vm_compute. Qed.

Lemma demo_known (k : string) (n : node) :
  (k, n) ∈ get_dag seeded → ∃ m, dict_get k everything = Some m ∧ same_refs n m.
Proof.
  intros Hk. vm_compute in Hk.
  repeat (apply elem_of_cons in Hk as [Hk|Hk]; [injection Hk as -> ->; eexists; split; [reflexivity|done]|]).
  by apply elem_of_nil in Hk.
Qed.

Lemma demo_grounded (k : string) (n : node) :
  (k, n) ∈ get_dag seeded → ∀ p, p ∈ parent_ids n ∨ p ∈ covers n → p ∈ dict_keys (get_dag seeded).
Proof.
  intros Hk p. change (dict_keys (get_dag seeded)) with ["root"; "a"; "other"]. vm_compute in Hk.
  repeat (apply elem_of_cons in Hk as [Hk|Hk]; [injection Hk as -> ->; unfold parent_ids; cbn; set_solver|]).
  by apply elem_of_nil in Hk.
Qed.

Lemma demo_steady : steady everything [] seeded.
Proof.
  split.
  - exact seeded_wf.
  - exact seeded_contained.
  - intros k n Hk%dict_get_Some_elem. by apply demo_known.
  - intros k n Hk%dict_get_Some_elem _. by apply (demo_grounded k).
  - intros x []%elem_of_nil.
  - intros d [= <-]. vm_compute. lia.
Qed.

Lemma race_schedule_ok : Forall (λ e, gateway_action (E:=enforcing) everything [] e.2) race_schedule.
Proof.
  assert (gateway_action (E:=enforcing) everything []
    (Write (transaction_effect (admit_payload (E:=enforcing) late_write agent_auth "d" "agent") None false 0))) as Hs.
  { apply ga_submit; [by exists late_write|by right|]. intros x []%elem_of_nil. }
  assert (gateway_action (E:=enforcing) everything []
    (Write (transaction_effect (designate_body (E:=enforcing) "root" "bad" "op") None true 9))) as Hd by apply ga_designate.
  repeat (apply Forall_cons; split; [first [apply ga_begin | apply ga_commit | exact Hs | exact Hd]|]). apply Forall_nil_2.
Qed.


(** ** The race of [/context-compacted] *)

(** A signed compaction of [a]. *)
Definition compaction_of_a : compacted_event :=
  CompactedEvent ["a"] "sum" "2026-01-01T00:00:00Z" (Nhi (Some agent_identity) (Some "agent") None) demo_content
    (@sign_hex enforcing agent_key (content_digest demo_content)) "ECDSA-P256-SHA256" "llm-v1".

Definition compaction_checked : node :=
  match (compaction_checks (E:=enforcing) compaction_of_a (start_world seeded)).1 with
  | Ret payload => payload | _ => bare_node "refused" end.

Definition compaction_late : db :=
  (Sqlite.commit_node compaction_checked
     (transaction_effect (designate_body (E:=enforcing) "a" "bad" "op") None true 9 seeded)).2.

Lemma compaction_late_ledger : get_quarantine_ledger compaction_late = ["a"].
Proof. by vm_compute. Qed.
Lemma compaction_late_node :
  (λ n, (parent_ids n, covers n)) <$> dict_get "sum" (get_dag compaction_late) = Some (["a"], ["a"]).
Proof. by vm_compute. Qed.

(** A node outside the ledger with a parent inside it. *)
Lemma not_contained (s : db) k p l :
  get_quarantine_ledger s = l → (λ n, (parent_ids n, covers n)) <$> dict_get k (get_dag s) = Some ([p], [p]) →
  k ∉ l → p ∈ l → ¬ contained s.
Proof.
  intros <- Hn Hk Hp Hc. destruct (dict_get k (get_dag s)) as [n|] eqn:HD; [|done]. injection Hn as Hpar _.
  apply (Hc k n HD Hk p); [left; rewrite Hpar; by left|done].
Qed.

(** The handler checks the covers before it asks for the shared lock.  When a
    designation of [a] falls in between, the compaction is committed outside the
    quarantine with a quarantined parent. *)
Theorem compaction_race_breaks_containment :
  (compaction_checks (E:=enforcing) compaction_of_a (start_world seeded)).1 = Ret compaction_checked ∧
  contained seeded ∧ ¬ contained compaction_late.
Proof.
  split; [by vm_compute|]. split; [exact seeded_contained|].
  apply (not_contained _ "sum" "a" ["a"] compaction_late_ledger compaction_late_node); set_solver.
Qed.
