(* ===== verification/PostgresSpec.v ===== *)
(** * Where the PostgreSQL backend raises

    The graph, the ledger and the trust tables of the PostgreSQL backend behave
    as those of the other backends ([Postgres.pg_laws], [Refinement]).  What it
    is given as text for a time column, and what it stores as JSON text inside
    a JSON column, it cannot use again. *)
From S2P Require Import Prelude Dict Datetime Types Encoding Timeparse Graph Cte Lineage Memory Sqlite Postgres Interface World Crypto Policy Admission Recovery Designation Reports ContainmentSpec Demo.

(** ** Tainted writes *)
Section tainted.
Context `{E : Env} {D : PgDriver} `{!AsyncpgTyped}.
Implicit Types (w : world pg).

Lemma offer_replacement_raises n root event w :
  (offer_replacement n root event w).1 = Raise OtherException ∧
  w_db (offer_replacement n root event w).2 = w_db w.
Proof.
  unfold offer_replacement, now, reading, try_update, mbind, M_bind.
  cbn [w_db field_update record_tainted_rejection pg_backend]. unfold pg_record_tainted_rejection.
  by rewrite text_rejected.
Qed.

(** On PostgreSQL the handling of a write with a quarantined parent never
    completes: recording the rejection raises, because the time is passed as
    text, after the payload has been committed and has joined the quarantine;
    no replacement is ever offered and the caller gets an internal error. *)
Theorem postgres_tainted_attempt_raises n root w :
  pg_wf (w_db w) →
  let r := quarantine_attempt n root w in
  r.1 = Raise OtherException ∧
  payload_id n ∈ dict_keys (get_dag (w_db r.2)) ∧
  (∀ x, x ∈ get_quarantine_ledger (w_db r.2) ↔ x = payload_id n ∨ x ∈ get_quarantine_ledger (w_db w)).
Proof.
  intros W. assert (store_ok (w_db w)) as Hok by exact W. clear W.
  pose proof (commit_node_ok n _ Hok) as Hok1. pose proof (blast_ok root _ Hok1) as Hok2.
  destruct (blast_core root _ Hok1) as [D1 L1 _].
  unfold quarantine_attempt, call, query, uuid4, now, reading, mbind, M_bind.
  destruct (commit_node n (w_db w)) as [b s1] eqn:E1. cbn [fst snd w_db field_update] in *.
  destruct (compute_blast_radius root s1) as [c_p s2] eqn:E2. cbn [fst snd] in *.
  destruct (recurrence_hook_total c_p "PROHIBITED_PATH" (w <| w_db := s1 |> <| w_db := s2 |>)) as ([] & w3 & E3 & _).
  rewrite E3. destruct (respects_run _ _ _ _ _ (recurrence_hook_respects same_core _ _) E3 Hok2) as [_ [D3 L3 _]].
  cbn [w_db w_tick field_update].
  match goal with |- context [apply_quarantine_transaction ?e ?c ?s] =>
    pose proof (quarantine_dag e c s) as D4; pose proof (quarantine_ledger e c s) as L4;
    destruct (apply_quarantine_transaction e c s) as [ev s4] end.
  match goal with |- context [offer_replacement n root ev ?w5] =>
    destruct (offer_replacement_raises n root ev w5) as [-> ->] end.
  cbn [fst snd w_db field_update] in *. split_and!; [done| |].
  - rewrite D4, D3, D1. apply dict_get_is_Some. pose proof (commit_node_dag n (w_db w) (payload_id n) Hok) as Hd.
    rewrite E1 in Hd. cbn [snd] in Hd. rewrite Hd. case_match; [by eexists|]. by rewrite decide_True by done; eexists.
  - intros x. pose proof (commit_node_ledger n (w_db w)) as Hl. rewrite E1 in Hl. cbn [snd] in Hl.
    by rewrite L4, list_elem_of_singleton, L3, L1, Hl.
Qed.
End tainted.

(** ** Exposures *)
Section exposures.
Context {D : PgDriver}.

(** Every record is a non-empty JSON string, as the method writes it. *)
Definition records_are_text (p : pg) : Prop :=
  ∀ k e, (k, e) ∈ p_exposures p → ∃ t, px_record e = JStr t ∧ t ≠ "".

Lemma dumps_object_nonempty b o : dumps b (JObj o) ≠ "".
Proof. cbn. by intros ?%(f_equal String.length). Qed.

Lemma record_exposure_text k n st q r now p :
  records_are_text p → records_are_text (pg_record_continuity_exposure k n st q r now p).
Proof.
  intros H k' e. cbn. unfold insert_or_ignore. case_decide; [apply H|].
  intros [Hin|Hin%list_elem_of_singleton]%elem_of_app; [by eapply H|]. injection Hin as -> ->.
  eexists. split; [done|]. exact (dumps_object_nonempty false r).
Qed.

Lemma text_record_get t : t ≠ "" → json_get "mechanism" (or_empty (JStr t)) = None.
Proof. intros Ht. cbn. by rewrite decide_False. Qed.

Lemma replacement_raises p c :
  records_are_text p →
  pg_replacement_for p c = None ↔ ∃ k e, (k, e) ∈ p_exposures p ∧ replays (pg_get_dag p) c (px_node_id e) = true.
Proof.
  intros H. unfold pg_replacement_for.
  pose proof (list_find_first (λ kv, replays (pg_get_dag p) c (px_node_id kv.2)) (p_exposures p)) as F.
  destruct (List.find _ _) as [[k e]|].
  - destruct F as [Hin Hr]. destruct (H k e Hin) as (t & -> & Ht). rewrite text_record_get by done.
    split; [eauto|done].
  - split; [done|]. intros (k & e & Hin & Hr). specialize (F (k, e) Hin). cbn in F. congruence.
Qed.

(** The report looks at the first exposure made under quarantine. *)
Lemma report_raises (p : pg) :
  records_are_text p →
  continuity_report p = None ↔ ∃ k e, (k, e) ∈ p_exposures p ∧ px_quarantine_non_empty e = true.
Proof.
  intros H0. unfold continuity_report. cbn [get_continuity_exposures pg_backend].
  assert (∀ x, x ∈ pg_get_continuity_exposures p ↔ ∃ k e, (k, e) ∈ p_exposures p ∧
    x = Exposure k (px_node_id e) (px_substitute_status e) (iso_z (px_exposed_at e)) (px_quarantine_non_empty e) (px_record e)) as Hx.
  { intros x. unfold pg_get_continuity_exposures. rewrite list_elem_of_fmap. setoid_rewrite merge_sort_Permutation.
    split; [intros ([k e] & -> & Hin); eauto|intros (k & e & Hin & ->); by exists (k, e)]. }
  destruct (List.filter quarantine_non_empty (pg_get_continuity_exposures p)) as [|x l] eqn:Hf.
  - cbn [provenance_complete mbind option_bind]. split; [done|]. intros (k & e & Hin & Hq).
    rewrite bfilter_nil in Hf. specialize (Hf _ (proj2 (Hx _) (ex_intro _ k (ex_intro _ e (conj Hin eq_refl))))).
    cbn in Hf. congruence.
  - assert (x ∈ List.filter quarantine_non_empty (pg_get_continuity_exposures p)) as [Hin Hq]%elem_of_bfilter
      by (rewrite Hf; left).
    apply Hx in Hin as (k & e & Hin & ->). cbn [provenance_complete exposure_record].
    destruct (H0 k e Hin) as (t & -> & _). cbn [json_get mbind option_bind]. split; [|done]. intros _. by exists k, e.
Qed.

(** On PostgreSQL a continuity exposure makes the continuity report and the
    search for a replacement raise: the record is dumped to text before the
    column's codec dumps it again, so it is read back as a string and has no
    [get].  The report raises exactly when some exposure was made while the
    quarantine was not empty, the search for a candidate exactly when the node
    of some exposure replays it; both hold of every store whose exposures were
    written by the backend. *)
Theorem postgres_exposures_unreadable p :
  records_are_text p →
  (continuity_report p = None ↔ ∃ k e, (k, e) ∈ p_exposures p ∧ px_quarantine_non_empty e = true) ∧
  (∀ c, pg_replacement_for p c = None ↔
     ∃ k e, (k, e) ∈ p_exposures p ∧ replays (pg_get_dag p) c (px_node_id e) = true) ∧
  (∀ k n st q r now, records_are_text (pg_record_continuity_exposure k n st q r now p)).
Proof.
  intros H'. split_and!; [by apply report_raises|intros c; by apply replacement_raises|].
  intros. by apply record_exposure_text.
Qed.
End exposures.

(** ** Witnesses *)
Definition pg_poisoned : pg :=
  (pg_apply_quarantine_transaction
     (QuarantineEvent "e" "t" "root" ["root"] "d" None None None None None None None None) ["root"]
     (pg_commit_node (bare_node "root") (empty_pg 9)).2).2.

Lemma pg_poisoned_wf : pg_wf pg_poisoned.
Proof.
  apply (quarantine_ok (BackendLaws:=pg_laws (D:=demo_driver))), (commit_node_ok (BackendLaws:=pg_laws (D:=demo_driver))).
  apply pg_wf_empty.
Qed.

Lemma postgres_tainted_attempt_raises_witness :
  let n := bare_node "x" <| parent_dependency_commitments := [Commitment "root" None None] |> in
  let r := quarantine_attempt (E:=enforcing) (H:=pg_backend (D:=demo_driver)) n "root" (start_world pg_poisoned) in
  (r.1, p_ledger (w_db r.2), p_tainted (w_db r.2)) = (Raise OtherException, ["root"; "x"], []) ∧
  r.1 = Raise OtherException ∧ "x" ∈ dict_keys (pg_get_dag (w_db r.2)).
Proof.
  intros n r. split; [by vm_compute|].
  destruct (postgres_tainted_attempt_raises (E:=enforcing) (D:=demo_driver) n "root" (start_world pg_poisoned)
    pg_poisoned_wf) as (Hr & Hin & _). split; [exact Hr|exact Hin].
Defined.

Lemma postgres_exposures_unreadable_witness :
  let p := pg_record_continuity_exposure "e" "n" "BOUNDED_SUBSTITUTE" true [("mechanism", JStr "M3")] 0 (empty_pg 9) in
  px_quarantine_non_empty <$> dict_get "e" (p_exposures p) = Some true ∧
  continuity_report (H:=pg_backend (D:=demo_driver)) p = None.
Proof.
  intros p. split; [by vm_compute|].
  refine (proj2 (proj1 (postgres_exposures_unreadable (D:=demo_driver) p _)) _).
  - apply record_exposure_text. intros k e []%elem_of_nil.
  - eexists "e", _. split; [by left|done].
Defined.
