(* ===== verification/Oracle.v ===== *)
(** * The independent oracle ([blackbox_test/property_runner.py])

    The black-box tests judge the gateway by an oracle of their own: from the
    graph, the ledger and the events of [/db-state] and from the exposures of
    [/continuity-report] it recomputes closures with its own traversal and
    compares.  This file models the oracle and shows what its verdicts mean. *)
From S2P Require Import Prelude Dict Types Encoding Datetime Graph Lineage Memory Sqlite Interface World Crypto Policy Admission Recovery Detectors Designation Reports Demo.

(** ** A traversal that marks nodes when they leave the queue *)
Section search.
Context (succ : string → list string).

(* src: blackbox_test/property_runner.py 33-41 Oracle.independent_bfs *)
Fixpoint pop_search (fuel : nat) (visited queue : list string) : list string :=
  match fuel, queue with
  | S fuel, curr :: queue =>
    if decide (curr ∈ visited) then pop_search fuel visited queue
    else pop_search fuel (visited ++ [curr]) (queue ++ succ curr)
  | _, _ => visited
  end.

(** The successors of the nodes that were not visited. *)
Definition unvisited (visited universe : list string) : nat :=
  sum_list_with (λ x, length (succ x)) (List.filter (λ y, negb (bool_decide (y ∈ visited))) universe).

Lemma unvisited_mono visited x universe : unvisited (visited ++ [x]) universe ≤ unvisited visited universe.
Proof.
  unfold unvisited. induction universe as [|y u IH]; [done|]. cbn [List.filter].
  repeat case_bool_decide; cbn [negb sum_list_with]; try lia. set_solver.
Qed.

Lemma unvisited_visit visited x universe :
  x ∈ universe → x ∉ visited → unvisited (visited ++ [x]) universe + length (succ x) ≤ unvisited visited universe.
Proof.
  intros Hx Hv. induction universe as [|y u IH]; [by apply elem_of_nil in Hx|].
  pose proof (unvisited_mono visited x u) as Hm. unfold unvisited in *. cbn [List.filter].
  destruct (decide (x = y)) as [->|Hne].
  - rewrite bool_decide_eq_true_2, bool_decide_eq_false_2 by set_solver. cbn [negb sum_list_with]. lia.
  - specialize (IH ltac:(set_solver)).
    repeat case_bool_decide; cbn [negb sum_list_with]; try lia; set_solver.
Qed.

(** The queue holds what remains to be looked at, so it empties. *)
Record pop_inv (roots visited queue : list string) : Prop := {
  pi_reach x : x ∈ visited ∨ x ∈ queue → ∃ r, r ∈ roots ∧ reach succ r x;
  pi_closed x y : x ∈ visited → y ∈ succ x → y ∈ visited ∨ y ∈ queue;
  pi_roots x : x ∈ roots → x ∈ visited ∨ x ∈ queue }.

Lemma pop_search_inv universe roots fuel visited queue :
  (∀ x, x ∉ universe → succ x = []) →
  pop_inv roots visited queue → length queue + unvisited visited universe ≤ fuel →
  pop_inv roots (pop_search fuel visited queue) [].
Proof.
  intros Hempty. revert visited queue. induction fuel as [|fuel IH]; intros visited queue I Hf.
  - destruct queue; [exact I|cbn in Hf; lia].
  - destruct queue as [|curr queue]; [exact I|]. cbn [pop_search]. destruct I as [Hr Hc Ho]. case_decide as Hv.
    + apply IH; [|cbn in Hf; lia]. split.
      * intros x Hx. apply Hr. set_solver.
      * intros x y Hx Hy. destruct (Hc x y Hx Hy); set_solver.
      * intros x Hx. destruct (Ho x Hx); set_solver.
    + apply IH.
      * split.
        -- intros x Hx. assert (x ∈ visited ∨ x ∈ curr :: queue ∨ x ∈ succ curr) as [|[|Hs]] by set_solver; [apply Hr; set_solver..|].
           destruct (Hr curr) as (r & Hin & Hp); [set_solver|]. exists r. split; [done|]. by eapply rtc_r.
        -- intros x y Hx Hy. assert (x ∈ visited ∨ x = curr) as [Hx'| ->] by set_solver; [|set_solver].
           destruct (Hc x y Hx' Hy); set_solver.
        -- intros x Hx. destruct (Ho x Hx); set_solver.
      * rewrite length_app. cbn [length] in Hf. destruct (decide (curr ∈ universe)) as [Hu|Hu].
        -- pose proof (unvisited_visit visited curr universe Hu Hv). lia.
        -- rewrite (Hempty curr Hu). pose proof (unvisited_mono visited curr universe). cbn [length]. lia.
Qed.

Lemma pop_search_spec universe roots fuel x :
  (∀ x, x ∉ universe → succ x = []) → length roots + unvisited [] universe ≤ fuel →
  x ∈ pop_search fuel [] roots ↔ ∃ r, r ∈ roots ∧ reach succ r x.
Proof.
  intros Hempty Hf. destruct (pop_search_inv universe roots fuel [] roots Hempty) as [Hr Hc Ho]; [|done|].
  { split; [|set_solver|by right]. intros y [Hy|Hy]; [by apply elem_of_nil in Hy|]. exists y. split; [done|apply rtc_refl]. }
  split; [intros Hx; apply Hr; by left|]. intros (r & Hin & Hp).
  apply (closed_reach succ _ r); [|destruct (Ho r Hin) as [|Hn]; [done|by apply elem_of_nil in Hn]|done].
  intros y z Hy Hz. destruct (Hc y z Hy Hz) as [|Hn]; [done|by apply elem_of_nil in Hn].
Qed.
End search.

(** ** The oracle's view *)
Record view := View {
  v_dag : dict node;
  v_ledger : list string;
  v_events : list quarantine_event;
  v_exposures : list exposure }.

(* src: blackbox_test/property_runner.py 12-18 Oracle.__init__ *)
Definition view_of {St} `{Backend St} (s : St) : view :=
  View (get_dag s) (get_quarantine_ledger s) (get_quarantine_events s) (get_continuity_exposures s).

Section oracle.
Context (v : view).

(** [nid] is appended once for every mention of a key. *)
(* src: blackbox_test/property_runner.py 21-31 Oracle.independent_bfs *)
Definition mentions (ids : node → list string) (p : string) : list string :=
  if dict_mem p (v_dag v)
  then v_dag v ≫= λ kv, (λ _, kv.1) <$> List.filter (λ q, bool_decide (q = p)) (ids kv.2)
  else [].

Definition oracle_children (curr : string) : list string := mentions parent_ids curr ++ mentions covers curr.

(** Enough pops for the starting nodes and every mention. *)
Definition oracle_fuel (start_nodes : list string) : nat :=
  length start_nodes + unvisited oracle_children [] (dict_keys (v_dag v)).

(* src: blackbox_test/property_runner.py Oracle.independent_bfs *)
Definition independent_bfs (start_nodes : list string) : list string :=
  pop_search oracle_children (oracle_fuel start_nodes) [] start_nodes.

(** The roots of the events, an empty one left out. *)
Definition event_roots : list string :=
  List.filter (λ p, negb (bool_decide (p = ""))) (poisoned_root_id <$> v_events v).

(* src: blackbox_test/property_runner.py Oracle.check_containment *)
Definition check_containment : bool :=
  let q_roots := fold_left (λ l x, add_new x l) event_roots [] in
  let closure := independent_bfs q_roots in
  bool_decide (List.filter (λ x, negb (bool_decide (x ∈ v_ledger v))) closure = []).

(** The radii recorded for a root, over all its events. *)
(* src: blackbox_test/property_runner.py 52-58 Oracle.check_closure_correctness *)
Definition recorded_cp (p : string) : list string :=
  v_events v ≫= λ ev, if bool_decide (poisoned_root_id ev = p) then computed_blast_radius_C_p ev else [].

(* src: blackbox_test/property_runner.py Oracle.check_closure_correctness *)
Definition check_closure_correctness : bool :=
  forallb (λ p, let actual_cp := independent_bfs [p] in
    forallb (λ x, bool_decide (x ∈ actual_cp)) (recorded_cp p) &&
    forallb (λ x, bool_decide (x ∈ recorded_cp p)) actual_cp) event_roots.

(** No stored event has a [continuity] entry, so there are no escalations. *)
(* src: blackbox_test/property_runner.py Oracle.check_continuity *)
Definition check_continuity : bool :=
  forallb (λ nid,
    let w := match dict_get nid (v_dag v) with Some n => weight_of n | None => 0%Q end in
    Qle_bool w 0 || existsb (λ e, bool_decide (exp_node_id e = nid)) (v_exposures v)) (v_ledger v).

(* src: blackbox_test/property_runner.py Oracle.run_all *)
Definition run_all : bool := check_containment && check_closure_correctness && check_continuity.
End oracle.

(** ** What the oracle sees *)
Section verdicts.
Context (v : view) (Hok : dict_ok (v_dag v)).

Lemma elem_of_mentions ids p y :
  y ∈ mentions v ids p ↔ p ∈ dict_keys (v_dag v) ∧ ∃ n, dict_get y (v_dag v) = Some n ∧ p ∈ ids n.
Proof.
  unfold mentions. rewrite <-dict_mem_true. destruct (dict_mem p (v_dag v)).
  2:{ split; [by intros ?%elem_of_nil|by intros []]. }
  rewrite list_elem_of_bind. split.
  - intros ([k n] & Hy & Hin). split; [done|]. apply list_elem_of_fmap in Hy as (q & -> & Hq).
    apply elem_of_bfilter in Hq as [Hq Hb]. apply bool_decide_eq_true in Hb as ->.
    exists n. split; [by apply dict_get_elem|done].
  - intros (_ & n & Hn & Hp). exists (y, n). split; [|by apply dict_get_Some_elem].
    apply list_elem_of_fmap. exists p. split; [done|]. apply elem_of_bfilter. by rewrite bool_decide_eq_true.
Qed.

Lemma elem_of_oracle_children x y :
  y ∈ oracle_children v x ↔ x ∈ dict_keys (v_dag v) ∧ y ∈ children (v_dag v) x.
Proof.
  unfold oracle_children. rewrite elem_of_app, !elem_of_mentions, elem_of_children by done. naive_solver.
Qed.

(** From a node of the graph the oracle reaches what derives from it. *)
Lemma oracle_reach r x :
  reach (oracle_children v) r x ↔ x = r ∨ r ∈ dict_keys (v_dag v) ∧ derived (v_dag v) r x.
Proof.
  split.
  - intros Hr. destruct Hr as [|r y x Hry Hyx]; [by left|]. right.
    unfold edge in Hry. apply elem_of_oracle_children in Hry as [Hk Hy]. split; [done|].
    eapply rtc_l; [exact Hy|]. clear -Hyx Hok. induction Hyx as [|a b c Hab _ IH]; [apply rtc_refl|].
    eapply rtc_l; [|exact IH]. unfold edge in *. by apply elem_of_oracle_children in Hab as [_ ?].
  - intros [->|[Hk Hd]]; [apply rtc_refl|]. induction Hd as [|a b c Hab _ IH]; [apply rtc_refl|].
    unfold edge in Hab. eapply rtc_l; [apply elem_of_oracle_children; by split|].
    apply IH. by apply children_in_dag in Hab.
Qed.

Lemma oracle_children_empty x : x ∉ dict_keys (v_dag v) → oracle_children v x = [].
Proof.
  intros Hx. apply elem_of_nil_inv. intros y Hy. by apply elem_of_oracle_children in Hy as [? _].
Qed.

(** [independent_bfs] computes the closure of its starting nodes. *)
Lemma independent_bfs_spec start_nodes x :
  x ∈ independent_bfs v start_nodes ↔
    ∃ r, r ∈ start_nodes ∧ (x = r ∨ r ∈ dict_keys (v_dag v) ∧ derived (v_dag v) r x).
Proof.
  unfold independent_bfs. setoid_rewrite <-oracle_reach.
  apply (pop_search_spec _ (dict_keys (v_dag v))); [apply oracle_children_empty|done].
Qed.

Lemma elem_of_event_roots p :
  p ∈ event_roots v ↔ p ≠ "" ∧ ∃ e, e ∈ v_events v ∧ poisoned_root_id e = p.
Proof.
  unfold event_roots. rewrite elem_of_bfilter, negb_true_iff, bool_decide_eq_false, list_elem_of_fmap. naive_solver.
Qed.

Lemma check_containment_spec :
  check_containment v = true ↔
    ∀ p x, p ∈ event_roots v → x = p ∨ p ∈ dict_keys (v_dag v) ∧ derived (v_dag v) p x → x ∈ v_ledger v.
Proof.
  unfold check_containment. rewrite bool_decide_eq_true, bfilter_nil. setoid_rewrite independent_bfs_spec.
  setoid_rewrite elem_of_fold_add_new. setoid_rewrite negb_false_iff. setoid_rewrite bool_decide_eq_true.
  split.
  - intros Hc p x Hp Hx. apply Hc. exists p. split; [by left|done].
  - intros Hc x (p & [Hp|Hp] & Hx); [by eapply Hc|by apply elem_of_nil in Hp].
Qed.

Lemma check_closure_spec :
  check_closure_correctness v = true ↔
    ∀ p x, p ∈ event_roots v →
      x ∈ recorded_cp v p ↔ x = p ∨ p ∈ dict_keys (v_dag v) ∧ derived (v_dag v) p x.
Proof.
  unfold check_closure_correctness. rewrite forallb_forall. setoid_rewrite andb_true_iff.
  setoid_rewrite forallb_forall. setoid_rewrite bool_decide_eq_true. setoid_rewrite <-list_elem_of_In.
  setoid_rewrite independent_bfs_spec. setoid_rewrite list_elem_of_singleton. naive_solver.
Qed.
End verdicts.

(** C33: the oracle's containment check agrees with the gateway's notion of
    derivation: on a store whose events name nodes of the graph it passes
    exactly when everything that derives from an event's root is quarantined,
    and so it passes on every contained store that has its roots in quarantine. *)
Theorem oracle_containment_exact {St} `{BackendLaws St} (s : St) :
  store_ok s →
  (∀ e, e ∈ get_quarantine_events s → poisoned_root_id e ≠ "" ∧ poisoned_root_id e ∈ dict_keys (get_dag s)) →
  (check_containment (view_of s) = true ↔
    ∀ e x, e ∈ get_quarantine_events s → derived (get_dag s) (poisoned_root_id e) x → x ∈ get_quarantine_ledger s) ∧
  (contained s → (∀ e, e ∈ get_quarantine_events s → poisoned_root_id e ∈ get_quarantine_ledger s) →
    check_containment (view_of s) = true).
Proof.
  intros Hok Hroots.
  assert (check_containment (view_of s) = true ↔
    ∀ e x, e ∈ get_quarantine_events s → derived (get_dag s) (poisoned_root_id e) x → x ∈ get_quarantine_ledger s) as Hiff.
  { rewrite check_containment_spec by by apply dag_ok. setoid_rewrite elem_of_event_roots. cbn [view_of v_dag v_events v_ledger].
    split.
    - intros Hc e x He Hd. destruct (Hroots e He) as [Hne Hk].
      apply (Hc (poisoned_root_id e)); [split; [done|by exists e]|by right].
    - intros Hc p x (_ & e & He & <-) [->|[_ Hd]]; [apply (Hc e); [done|apply rtc_refl]|by apply (Hc e)]. }
  split; [done|]. intros Hc Hl. apply Hiff. intros e x He Hd.
  by apply (proj1 (contained_closed s Hok) Hc (poisoned_root_id e) x (Hl e He)).
Qed.

(** ** Where the oracle and the gateway part *)
Abbreviation oracle_submit n w := (submit_candidate (E:=enforcing) (St:=db) 100 (Parsed n) w).

(** The closure check raises a false alarm: after [root] is designated, a
    refused write below [root]'s child is quarantined with an event of its own,
    so the radius recorded for [root] no longer is its closure, although the
    containment check passes and nothing escapes. *)
Theorem oracle_false_alarm :
  let w1 := (designate_poison (E:=enforcing) designator "root" "bad" (start_world seeded)).2 in
  let w2 := (oracle_submit (agent_write enforce_settings "late" ["a"] [] "STANDARD") w1).2 in
  run_all (view_of (w_db w1)) = true ∧
  check_containment (view_of (w_db w2)) = true ∧ breaches (get_dag (w_db w2)) (get_quarantine_ledger (w_db w2)) = [] ∧
  check_closure_correctness (view_of (w_db w2)) = false.
Proof. by vm_compute. Qed.

(** A root that is not in the graph has no closure for the oracle, while the
    gateway derives what covers it. *)
Example oracle_misses_unknown_roots :
  let w := (oracle_submit (agent_write enforce_settings "sum" ["other"] ["ghost"] "COMPACTION") (start_world seeded)).2 in
  let s := (apply_quarantine_transaction (QuarantineEvent "e" "t" "ghost" ["ghost"] "d" None None None None None None None None)
              ["ghost"] (w_db w)).2 in
  check_containment (view_of s) = true ∧ breaches (get_dag s) (get_quarantine_ledger s) = ["sum"].
Proof. by vm_compute. Qed.

Lemma oracle_containment_exact_witness :
  check_containment (view_of poisoned) = true ∧ "a" ∈ get_quarantine_ledger poisoned.
Proof.
  destruct (oracle_containment_exact (H0:=sqlite_laws) poisoned poisoned_wf) as [Hiff Hpass].
  - intros e He. change (get_quarantine_events poisoned) with (dict_values (t_events poisoned)) in He.
    vm_compute in He. apply list_elem_of_singleton in He as ->. split; by apply (bool_decide_unpack _).
  - split; [|by apply (bool_decide_unpack _)]. apply Hpass; [apply poisoned_contained|].
    intros e He. vm_compute in He. apply list_elem_of_singleton in He as ->. by apply (bool_decide_unpack _).
Defined.
