(* ===== verification/Runner.v ===== *)
(** * The other tests of the property runner ([blackbox_test/property_runner.py])

    The oracle is first shown to fail when it should: leaks and tampered radii are
    planted in what it sees.  Then two races, R10 of the re-run and the sleeper
    agent, in every order in which the gateway can serve the racing requests, and
    the graph that the latency test writes into the database. *)
From stdpp Require Import pretty.
From S2P Require Import Prelude Dict Types Encoding Datetime Timeparse Json Graph Lineage Memory Sqlite Interface World Crypto Policy Admission Recovery Detectors Designation Routes Reports Demo Client LiveRun Campaign Oracle.

(** [s.remove(x)] for a set *)
Definition without (x : string) (l : list string) : list string := List.filter (λ y, negb (bool_decide (y = x))) l.

Lemma elem_of_without x y l : y ∈ without x l ↔ y ∈ l ∧ y ≠ x.
Proof. unfold without. by rewrite elem_of_bfilter, negb_true_iff, bool_decide_eq_false. Qed.

(** A leak is planted: a node that should be in quarantine is not. *)
(* src: blackbox_test/property_runner.py 123-126 prove_falsifiability *)
Definition leak (x : string) (v : view) : view := View (v_dag v) (without x (v_ledger v)) (v_events v) (v_exposures v).

(** The recorded radii lose a node. *)
(* src: blackbox_test/property_runner.py 135-139 prove_falsifiability *)
Definition tamper (x : string) (v : view) : view :=
  View (v_dag v) (v_ledger v)
    ((λ ev, ev <| computed_blast_radius_C_p ::= without x |>) <$> v_events v) (v_exposures v).

(** The oracle can fail.  From any view, if a node that derives from the
    root of an event is taken out of the ledger the containment check fails, and
    if it is taken out of the recorded radii the closure check fails. *)
Theorem oracle_is_falsifiable v e x :
  dict_ok (v_dag v) → e ∈ v_events v → poisoned_root_id e ≠ "" → poisoned_root_id e ∈ dict_keys (v_dag v) →
  derived (v_dag v) (poisoned_root_id e) x →
  check_containment (leak x v) = false ∧ check_closure_correctness (tamper x v) = false.
Proof.
  intros Hok He Hne Hk Hd. split; apply not_true_iff_false.
  - intros Hc. rewrite check_containment_spec in Hc by done.
    assert (x ∈ v_ledger (leak x v)) as [_ ?]%elem_of_without; [|done].
    apply (Hc (poisoned_root_id e)); [apply elem_of_event_roots; eauto|by right].
  - intros Hc. rewrite check_closure_spec in Hc by done.
    assert (poisoned_root_id e ∈ event_roots (tamper x v)) as Hr.
    { apply elem_of_event_roots. split; [done|]. exists (e <| computed_blast_radius_C_p ::= without x |>).
      split; [|done]. by apply (list_elem_of_fmap_2 (λ ev, ev <| computed_blast_radius_C_p ::= without x |>)). }
    assert (x ∈ recorded_cp (tamper x v) (poisoned_root_id e)) as Hx by (apply (Hc _ x Hr); by right).
    unfold recorded_cp in Hx. apply list_elem_of_bind in Hx as (ev & Hx & Hev).
    apply list_elem_of_fmap in Hev as (ev0 & -> & _). case_bool_decide; [|by apply elem_of_nil in Hx].
    by apply elem_of_without in Hx as [_ ?].
Qed.

Section scripts.
Context `{E : Env} {St : Type} `{Backend St} `{!Transactional St}.
Context (jwt_encode : dict json → string → string) (server_private_key : string) (int_repr : Z → string).
Abbreviation submit := (live_submit jwt_encode server_private_key int_repr).
Abbreviation designate := (live_designate jwt_encode server_private_key).
Abbreviation the_admin := (ADMIN jwt_encode server_private_key).

(** [Oracle()]: an error document leaves the oracle nothing to see. *)
(* src: blackbox_test/property_runner.py 12-18 Oracle.__init__ *)
Definition consult : M St view :=
  db ← catch (db ← db_state the_admin; mret db.1.1) (λ _, mret ([], [], []));
  exposures ← catch (report ← admin_report the_admin continuity_report; mret (reported_exposures report)) (λ _, mret []);
  mret (View db.1.1 db.1.2 db.2 exposures).

(* src: blackbox_test/property_runner.py 102-105 mutate_c1 *)
Definition mutate_c1 (p1 : string) (p : node) : node :=
  p <| node_type := Some "COMPACTION" |> <| covers := [p1] |>
    <| summarizer := Some (Summarizer (Some "m") (Some (repeat_char "c" 64)) None None) |>.

(** The two checks of the baseline, then the three that have to fail. *)
(* src: blackbox_test/property_runner.py 94-140 prove_falsifiability *)
Definition prove_falsifiability (digests : dict string) : M St (bool * bool * list bool) :=
  live_reset jwt_encode server_private_key ≫= λ _,
  '(p1, _, digests) ← submit digests ["clean-parent-1"] (note "v" "P1") id;
  '(d1, _, digests) ← submit digests [p1] (note "v" "D1") id;
  '(c1, _, digests) ← submit digests ["clean-parent-1"] (note "v" "C1") (mutate_c1 p1);
  designate p1 ≫= λ _,
  oracle ← consult;
  designate p1 ≫= λ _,
  mret (check_containment oracle, check_closure_correctness oracle,
        [check_containment (leak d1 oracle); check_containment (leak c1 oracle);
         check_closure_correctness (tamper d1 oracle)]).

(** R10: a designation races a write below a descendant. *)
Definition in_order {A} (first_wins : bool) (a b : M St A) : M St () :=
  if first_wins then a ≫= λ _, b ≫= λ _, mret () else b ≫= λ _, a ≫= λ _, mret ().

(** [sum(..)] of the slips of one trial, zero or one. *)
(* src: blackbox_test/live_run.py 107-115 race_trial *)
Definition race_trial (designation_first : bool) (trial : dict json) (digests : dict string) : M St bool :=
  live_reset jwt_encode server_private_key ≫= λ _,
  '(root, _, digests) ← submit digests ["clean-parent-1"] (note "v" "r") id;
  '(leaf, _, digests) ← submit digests [root] (note "v" "l") id;
  in_order designation_first (designate root ≫= λ _, mret ())
    (submit digests [leaf] trial id ≫= λ _, mret ()) ≫= λ _,
  q ← quarantine_set jwt_encode server_private_key;
  if leaf ∈? q then
    v ← consult;
    mret (existsb (λ kv, existsb (λ p, bool_decide (p = leaf)) (parent_ids kv.2) && negb (kv.1 ∈? q)) (v_dag v))
  else mret false.

(** The sleeper: a poisoned node, and two children that race its designation
    ([place] tells how many come first); the poller reads the size of the ledger
    between any two of them. *)
(* src: blackbox_test/property_runner.py 223-228 run_sleeper_agent_race *)
Definition sleeper_setup (digests : dict string) (draws : list nat) (poison_draw : nat) : M St (string * dict string) :=
  live_reset jwt_encode server_private_key ≫= λ _,
  '(nodes, digests) ← for_fold (zip (seq 0 10) draws) (["clean-parent-1"], digests) (λ '(nodes, digests) '(i, draw),
    parent ← drawn (choice nodes draw);
    '(nid, _, digests) ← submit digests [parent] (note "v" ("clean-" +:+ int_repr (Z.of_nat i))) id;
    mret (nodes ++ [nid], digests));
  parent ← drawn (choice nodes poison_draw);
  '(poison_id, _, digests) ← submit digests [parent] (note "secret" "sleeper-poison") id;
  mret (poison_id, digests).

(* src: blackbox_test/property_runner.py 236-239 poller *)
Definition poll (seen : bool * nat) : M St (bool * nat) :=
  v ← consult;
  let q_len := length (v_ledger v) in
  mret (seen.1 && (seen.2 <=? q_len), max seen.2 q_len).

(* src: blackbox_test/property_runner.py 230-266 run_sleeper_agent_race *)
Definition run_sleeper_agent_race (digests : dict string) (draws : list nat) (poison_draw place : nat) : M St bool :=
  '(poison_id, digests) ← sleeper_setup digests draws poison_draw;
  seen ← for_fold (seq 0 3) (true, 0) (λ seen i,
    seen ← poll seen;
    (if i =? place then designate poison_id ≫= λ _, mret ()
     else submit digests [poison_id] (note "v" "greedy-child") id ≫= λ _, mret ()) ≫= λ _,
    mret seen);
  seen ← poll seen;
  if negb seen.1 then mret false
  else oracle ← consult; mret (run_all oracle).
End scripts.

Abbreviation on_bench f := (f hex_token "private" pretty [] (start_world (empty_db 1000))).1.

(** The script passes: the baseline is green and the three planted faults are
    detected. *)
Lemma prove_falsifiability_passes :
  on_bench (prove_falsifiability (E:=live_env)) = Ret (true, true, [false; false; false]).
Proof. by vm_compute. Qed.

(** No trial of R10 lets a child of the leaf slip, whoever wins. *)
Lemma race_trials_are_safe :
  Forall (λ first_wins, (race_trial (E:=live_env) hex_token "private" pretty first_wins (note "v" "c0") []
    (start_world (empty_db 1000))).1 = Ret false) [true; false].
Proof. repeat constructor; by vm_compute. Qed.

(** The sleeper, below two clean writes, is contained in every order, and the
    oracle agrees. *)
Lemma sleeper_is_contained :
  Forall (λ place, (run_sleeper_agent_race (E:=live_env) hex_token "private" pretty [] [0; 1] 1 place
    (start_world (empty_db 1000))).1 = Ret true) [0; 1; 2].
Proof. repeat constructor; by vm_compute. Qed.

(** On the store where [root] and [a] are in quarantine: [a] derives from the
    root of the event. *)
Lemma oracle_is_falsifiable_witness :
  check_containment (view_of poisoned) = true ∧
  check_containment (leak "a" (view_of poisoned)) = false ∧ check_closure_correctness (tamper "a" (view_of poisoned)) = false.
Proof.
  split; [by vm_compute|].
  apply (oracle_is_falsifiable (view_of poisoned)
    (QuarantineEvent "e" "2026-01-01T00:00:00+00:00Z" "root" ["a"; "root"] "d" None None None
      (Some 1000) None None None None) "a").
  - exact (dag_ok poisoned poisoned_wf).
  - vm_compute. by left.
  - done.
  - by apply (bool_decide_unpack _).
  - apply rtc_once. unfold edge. by apply (bool_decide_unpack _).
Defined.

(** ** The graph of the latency test *)

(** [random.sample(pool, count)]: what is drawn leaves the pool. *)
Fixpoint sample {A} (pool : list A) (count : nat) (picks : nat → nat) : list A :=
  match count, pool !! (picks 0 mod length pool) with
  | S count, Some x => x :: sample (delete (picks 0 mod length pool) pool) count (λ i, picks (S i))
  | _, _ => []
  end.

Record scale_draw := ScaleDraw {
  dr_parents : nat; dr_parent_picks : nat → nat;
  dr_covering : bool; dr_covers : nat; dr_cover_picks : nat → nat }.

Record scale_graph := ScaleGraph {
  nodes_data : list (string * dict json * string * string);
  edges_data : list edge_row;
  node_ids : list string }.

Definition scale_name (i : nat) : string := if i =? 0 then "clean-parent-1" else "n" +:+ pretty i.

(* src: blackbox_test/property_runner.py 276-279 build_scale_dag *)
Definition scale_root : scale_graph :=
  ScaleGraph [(scale_name 0, [("v", JStr "root")], repeat_char "c" 64, "commitroot")] [] [scale_name 0].

(* src: blackbox_test/property_runner.py 283-288 build_scale_dag *)
Definition scale_parents (d : scale_draw) (ids : list string) : list string :=
  let parent_count := min (1 + dr_parents d mod 3) (length ids) in
  let window_size := min 100 (length ids) in
  sample (skipn (length ids - window_size) ids) parent_count (dr_parent_picks d).

(* src: blackbox_test/property_runner.py 290-293 build_scale_dag *)
Definition scale_covers (d : scale_draw) (ids parents : list string) : list string :=
  if dr_covering d then
    List.filter (λ c, negb (c ∈? parents)) (sample ids (min (1 + dr_covers d mod 2) (length ids)) (dr_cover_picks d))
  else [].

(* src: blackbox_test/property_runner.py 280-303 build_scale_dag *)
Definition scale_step (g : scale_graph) (d : scale_draw) : scale_graph :=
  let i := length (node_ids g) in
  let nid := scale_name i in
  let parents := scale_parents d (node_ids g) in
  let covers := scale_covers d (node_ids g) parents in
  let commitments := (λ p, JObj [("parent_node_id", JStr p); ("parent_content_hash", JStr (repeat_char "c" 64))]) <$> parents in
  let payload := [("v", JStr nid); ("parent_dependency_commitments", JArr commitments)]
    ++ match covers with [] => [] | _ => [("covers", JArr (JStr <$> covers))] end in
  ScaleGraph (nodes_data g ++ [(nid, payload, repeat_char "c" 64, "commit" +:+ pretty i)])
    (edges_data g ++ ((λ c, EdgeRow nid c "COVERS") <$> covers) ++ ((λ p, EdgeRow nid p "MATERIAL") <$> parents))
    (node_ids g ++ [nid]).

(* src: blackbox_test/property_runner.py 276-303 build_scale_dag *)
Definition build_scale_dag (draws : list scale_draw) : scale_graph := fold_left scale_step draws scale_root.

Lemma elem_of_sample {A} (pool : list A) count picks x : x ∈ sample pool count picks → x ∈ pool.
Proof.
  revert pool picks. induction count as [|count IH]; intros pool picks; cbn [sample]; [by intros ?%elem_of_nil|].
  destruct (pool !! _) as [y|] eqn:Hy; [|by intros ?%elem_of_nil]. intros [->|Hx]%elem_of_cons.
  - by eapply list_elem_of_lookup_2.
  - by eapply list_elem_of_delete_inv, IH.
Qed.

Lemma scale_parents_known d ids p : p ∈ scale_parents d ids → p ∈ ids.
Proof.
  intros Hp%elem_of_sample. rewrite <-(firstn_skipn (length ids - min 100 (length ids)) ids). apply elem_of_app. by right.
Qed.

Lemma scale_covers_known d ids ps c : c ∈ scale_covers d ids ps → c ∈ ids.
Proof.
  unfold scale_covers. destruct (dr_covering d); [|by intros ?%elem_of_nil].
  intros [Hc _]%elem_of_bfilter. by apply elem_of_sample in Hc.
Qed.

(** Every edge leads from one of the [n] nodes to one that is older. *)
Definition points_back (n : nat) (e : edge_row) : Prop :=
  ∃ i j, j < i < n ∧ child_id e = scale_name i ∧ parent_id e = scale_name j.

Lemma scale_step_ids g d n :
  node_ids g = scale_name <$> seq 0 n → Forall (points_back n) (edges_data g) →
  node_ids (scale_step g d) = scale_name <$> seq 0 (S n) ∧ Forall (points_back (S n)) (edges_data (scale_step g d)).
Proof.
  intros Hids He. assert (length (node_ids g) = n) as Hlen by (by rewrite Hids, length_fmap, length_seq).
  split.
  - rewrite seq_S, fmap_app. cbn. by rewrite Hids, length_fmap, length_seq.
  - assert (∀ x, x ∈ node_ids g → ∃ j, j < n ∧ x = scale_name j) as Hold.
    { intros x. rewrite Hids, list_elem_of_fmap. intros (j & -> & Hj%elem_of_seq). exists j. split; [lia|done]. }
    assert (∀ cls l, (∀ x, x ∈ l → x ∈ node_ids g) →
      Forall (points_back (S n)) ((λ p, EdgeRow (scale_name (length (node_ids g))) p cls) <$> l)) as Hnew.
    { intros cls l Hl. apply Forall_fmap, Forall_forall. intros x (j & Hj & ->)%Hl%Hold. exists n, j. cbn. rewrite Hlen.
      split; [lia|done]. }
    cbn [scale_step edges_data]. rewrite !Forall_app. split_and!.
    + eapply Forall_impl; [exact He|]. intros e (k & j & ? & ? & ?). exists k, j. split; [lia|done].
    + apply Hnew, scale_covers_known.
    + apply Hnew, scale_parents_known.
Qed.

Lemma build_scale_dag_ids draws :
  node_ids (build_scale_dag draws) = scale_name <$> seq 0 (S (length draws)) ∧
  Forall (points_back (S (length draws))) (edges_data (build_scale_dag draws)).
Proof.
  unfold build_scale_dag. assert (∀ g n, node_ids g = scale_name <$> seq 0 n → Forall (points_back n) (edges_data g) →
    let g' := fold_left scale_step draws g in
    node_ids g' = scale_name <$> seq 0 (n + length draws) ∧ Forall (points_back (n + length draws)) (edges_data g')) as Hgen.
  { induction draws as [|d draws IH]; intros g n Hids He; cbn [fold_left length]; [by rewrite Nat.add_0_r|].
    destruct (scale_step_ids g d n Hids He) as [Hids' He']. specialize (IH _ _ Hids' He').
    by replace (n + S (length draws)) with (S n + length draws) by lia. }
  by apply (Hgen scale_root 1).
Qed.

(** Names are distinct, so indices can be read off them. *)
Lemma scale_name_inj i j : scale_name i = scale_name j → i = j.
Proof.
  unfold scale_name. destruct (i =? 0) eqn:Hi, (j =? 0) eqn:Hj; try done.
  - intros _. apply Nat.eqb_eq in Hi, Hj. congruence.
  - intros H. injection H as H. by do 2 apply (inj _) in H.
Qed.

(** The successors of a node are younger and have names. *)
Lemma scale_successor draws i y :
  y ∈ adjacency (edges_data (build_scale_dag draws)) (scale_name i) →
  ∃ k, i < k ≤ length draws ∧ y = scale_name k.
Proof.
  rewrite elem_of_adjacency. intros (e & He & <- & Hp).
  destruct (proj1 (Forall_forall _ _) (proj2 (build_scale_dag_ids draws)) e He) as (k & j & Hjk & Hc & Hpar).
  rewrite Hpar in Hp. apply scale_name_inj in Hp as Hji. subst j. exists k.
  split; [lia|done].
Qed.

Lemma scale_acyclic draws i : ¬ tc (edge (adjacency (edges_data (build_scale_dag draws)))) (scale_name i) (scale_name i).
Proof.
  assert (∀ x y, tc (edge (adjacency (edges_data (build_scale_dag draws)))) x y →
    ∀ j, x = scale_name j → ∃ k, j < k ∧ y = scale_name k) as Hup.
  { induction 1 as [x y Hxy|x y z Hxy _ IH]; intros j Hj; subst x; [|].
    { destruct (scale_successor draws j y Hxy) as (k & ? & ->). exists k. split; [lia|done]. }
    destruct (scale_successor draws j y Hxy) as (k & Hk & ->). destruct (IH k eq_refl) as (l & Hl & ->).
    exists l. split; [lia|done]. }
  intros Ht. destruct (Hup _ _ Ht i eq_refl) as (k & Hk & Hi%scale_name_inj). lia.
Qed.

(** A draw adds at most three parents and two covers. *)
Lemma length_sample {A} (pool : list A) count picks : length (sample pool count picks) ≤ count.
Proof.
  revert pool picks. induction count as [|count IH]; intros pool picks; cbn [sample]; [done|].
  destruct (pool !! _); cbn; [|lia]. specialize (IH (delete (picks 0 mod length pool) pool) (λ i, picks (S i))). lia.
Qed.

Lemma scale_step_few g d : length (edges_data (scale_step g d)) ≤ length (edges_data g) + 5.
Proof.
  cbn [scale_step edges_data]. rewrite !length_app, !length_fmap.
  assert (length (scale_parents d (node_ids g)) ≤ 3) as Hp.
  { etrans; [apply length_sample|]. pose proof (Nat.mod_upper_bound (dr_parents d) 3). lia. }
  assert (length (scale_covers d (node_ids g) (scale_parents d (node_ids g))) ≤ 2) as Hc; [|lia].
  unfold scale_covers. destruct (dr_covering d); [|cbn; lia].
  etrans; [apply filter_length_le|]. etrans; [apply length_sample|].
  pose proof (Nat.mod_upper_bound (dr_covers d) 2). lia.
Qed.

Lemma scale_edges_few draws : length (edges_data (build_scale_dag draws)) ≤ 5 * length draws.
Proof.
  unfold build_scale_dag. change (5 * length draws) with (length (edges_data scale_root) + 5 * length draws).
  generalize scale_root. induction draws as [|d draws IH]; intros g; cbn [fold_left length]; [lia|].
  etrans; [apply IH|]. pose proof (scale_step_few g d). lia.
Qed.

(** What the latency test measures.  For up to a thousand nodes, whatever is
    drawn, the graph it writes is acyclic and the radius that the SQLite store
    computes on it is exactly what can be reached, as no path is longer than the
    default traversal depth; a deeper graph is cut off. *)
Theorem scale_radius_is_exact draws (s : db) i :
  edges s = edges_data (build_scale_dag draws) → length draws < MAX_TRAVERSAL_DEPTH (default_settings "key") →
  depth_limit s = MAX_TRAVERSAL_DEPTH (default_settings "key") → i ≤ length draws →
  (∀ x, x ∈ (Sqlite.compute_blast_radius (scale_name i) s).1 ↔ rtc (edge (adjacency (edges s))) (scale_name i) x) ∧
  ¬ tc (edge (adjacency (edges s))) (scale_name i) (scale_name i).
Proof.
  intros He Hn Hd Hi. split; [|rewrite He; apply scale_acyclic]. intros x.
  unfold Sqlite.compute_blast_radius. cbn [fst]. rewrite elem_of_sorted.
  unfold walk. pose proof (scale_edges_few draws) as Hfew. change (MAX_TRAVERSAL_DEPTH _) with 1000 in *.
  rewrite He in *. rewrite (proj2 (Z.leb_le _ _)) by lia. unfold sparse_walk. rewrite He, Hd.
  rewrite (levels_correct _ _ (scale_name i) 1000 0 [scale_name i] [scale_name i]); [|done|apply level_inv_start|].
  - apply (bsteps_reach _ (scale_name <$> seq 0 (S (length draws)))).
    + apply list_elem_of_fmap_2, elem_of_seq. lia.
    + intros y z (j & -> & _)%list_elem_of_fmap (k & Hk & ->)%scale_successor. apply list_elem_of_fmap_2, elem_of_seq. lia.
    + rewrite length_fmap, length_seq. lia.
  - intros y. rewrite list_elem_of_singleton. split; [intros ->; apply bsteps_refl|by inversion 1].
Qed.

(** Each node below the one before it. *)
Definition chain (n : nat) : list scale_draw :=
  (λ i, ScaleDraw 0 (λ _, i) (bool_decide (i = 2)) 0 (λ _, 0)) <$> seq 0 n.
Definition loaded (depth n : nat) : db := empty_db depth <| edges := edges_data (build_scale_dag (chain n)) |>.

Lemma scale_radius_is_exact_witness :
  length (chain 5) < 1000 ∧
  (Sqlite.compute_blast_radius "clean-parent-1" (loaded 2 5)).1 = ["clean-parent-1"; "n1"; "n2"; "n3"; "n4"] ∧
  (∀ x, x ∈ (Sqlite.compute_blast_radius (scale_name 0) (loaded 1000 5)).1 ↔
    rtc (edge (adjacency (edges (loaded 1000 5)))) (scale_name 0) x) ∧
  ¬ tc (edge (adjacency (edges (loaded 1000 5)))) (scale_name 0) (scale_name 0).
Proof.
  split; [cbn; lia|]. split; [by vm_compute|].
  apply (scale_radius_is_exact (chain 5)); [done|cbn; lia|done|cbn; lia].
Defined.
