(* ===== verification/RecoverySpec.v ===== *)
(** * What recovery guarantees

    The nodes the gateway makes itself carry a valid signature; a candidate
    enters the graph only after the gateway's checks; and an honest adapter's
    candidate passes them. *)
From S2P Require Import Prelude Dict Types Encoding Datetime Graph Lineage Memory Sqlite Interface World Crypto Policy Admission Recovery Adapter Detectors Designation Routes Demo.

(** ** Signatures of the gateway's own nodes *)
Lemma signed_node_verifies `{SignaturesVerify} (n : node) k :
  identity_of n = Some (public_hex k) →
  content_digest_sha256 n = Some (content_digest (content_of n)) →
  agent_signature n = Some (sign_hex k (content_digest (content_of n))) →
  verify_cryptographic_signature n = true.
Proof.
  intros Hi Hd Hs. unfold verify_cryptographic_signature. rewrite Hi, Hd, Hs. cbn [truthy].
  rewrite bool_decide_eq_false_2 by apply raw_hex_nonempty. cbn [negb].
  rewrite bool_decide_eq_true_2 by done. apply own_signature_verifies.
Qed.

(** Every node the gateway makes itself (a continuity node, a seeded root, a
    reconstruction without an adapter service) passes the gateway's own
    signature check, and the key of a reconstruction is the adapter key of the
    settings when the check reads it. *)
Theorem gateway_signatures_verify `{SignaturesVerify} {St} :
  (∀ id k session t ct content parents weight,
     verify_cryptographic_signature (continuity_node id k session t ct content parents weight) = true) ∧
  (∀ id admin k t1 t2, verify_cryptographic_signature (seed_payload id admin k t1 t2) = true) ∧
  (∀ rc (w : world St) c w', inline_candidate rc w = (Ret c, w') →
     verify_cryptographic_signature c = true ∧ identity_of c = w_adapter_key w' ∧ covers c = frontier rc).
Proof.
  split_and!.
  - intros. by apply (signed_node_verifies _ k).
  - intros. by apply (signed_node_verifies _ k).
  - intros rc w c w'. unfold inline_candidate, generate_private_key, uuid4. intros Hr. inv_ret Hr. inv_rets.
    match goal with Hs : set_adapter_key _ _ = _ |- _ => injection Hs as _ <- end.
    split_and!; [by eapply signed_node_verifies|done..].
Qed.

(** ** Reintegration *)
Section reintegration.
Context `{E : Env} {St : Type} `{BackendLaws St}.
Implicit Types (w : world St).

(** [grows_by ok]: every node that is new satisfies [ok]. *)
Definition grows_by (ok : node → Prop) (s s' : St) : Prop :=
  ∀ x n, dict_get x (get_dag s') = Some n → dict_get x (get_dag s) = Some n ∨ ok n.

#[local] Instance grows_by_preorder ok : PreOrder (grows_by ok).
Proof. split; [intros s x n; by left|]. intros s1 s2 s3 H1 H2 x n Hx. destruct (H2 x n Hx); auto. Qed.

#[local] Instance grows_by_core ok : CoreRelation (grows_by ok).
Proof. intros s s' Hc x n. rewrite (sc_dag _ _ Hc). by left. Qed.

Lemma respects_commit_grows (ok : node → Prop) n : ok n → respects (grows_by ok) (call (commit_node n)).
Proof.
  intros Hn. apply respects_call. intros s Hok. split; [by apply commit_node_ok|]. intros x m.
  rewrite commit_node_dag by done. destruct (dict_get x (get_dag s)); [by left|]. case_decide; [|done].
  intros [= <-]. by right.
Qed.

(** What the gateway demands of a candidate for [rc] with adapter key [key]. *)
Record acceptable (key : option string) (rc : repair_record) (c : node) : Prop := {
  ac_signature : verify_cryptographic_signature c = true;
  ac_identity : identity_of c = key ∧ truthy key = true;
  ac_frontier x : x ∈ covers c ↔ x ∈ frontier rc }.

Lemma same_set_spec a b : same_set a b = true ↔ ∀ x, x ∈ a ↔ x ∈ b.
Proof.
  unfold same_set. rewrite andb_true_iff, !forallb_forall. setoid_rewrite <-list_elem_of_In.
  setoid_rewrite bool_decide_eq_true. naive_solver.
Qed.

Lemma reintegrate_grows ok k rc c : ok c → respects (grows_by ok) (reintegrate k rc c).
Proof.
  intros Hc. unfold reintegrate, now. repeat respects_step. all: try solve [eauto with gasc].
  by apply respects_commit_grows.
Qed.

Lemma failed_adds_nothing k r w x n (P : Prop) :
  store_ok (w_db w) → dict_get x (get_dag (w_db w)) = None →
  dict_get x (get_dag (w_db (update (update_repair_candidate k r) w).2)) = Some n → P.
Proof. intros Hok Hn. cbn. rewrite (sc_dag _ _ (proj2 (update_repair_candidate_frame _ _ _ Hok))). congruence. Qed.

(** C9: whatever happens to a candidate, a node it adds to the graph is the
    candidate itself, its signature verifies, it was signed by the adapter key
    of the settings, and it covers exactly the admissible frontier. *)
Theorem reintegrated_candidate_was_checked comp_node rc candidate w x n :
  store_ok (w_db w) →
  dict_get x (get_dag (w_db w)) = None →
  dict_get x (get_dag (w_db (check_candidate comp_node rc candidate w).2)) = Some n →
  candidate = Some n ∧ acceptable (w_adapter_key w) rc n.
Proof.
  intros Hok Hnew. unfold check_candidate. destruct candidate as [c|].
  2: { by apply failed_adds_nothing. }
  destruct (verify_cryptographic_signature c) eqn:Hv; cbn [negb].
  2: { by apply failed_adds_nothing. }
  unfold read_adapter_key, mbind, M_bind.
  destruct (truthy (w_adapter_key w)) eqn:Ht; cbn [negb orb].
  2: { by apply failed_adds_nothing. }
  case_bool_decide as Hi; cbn [negb].
  2: { by apply failed_adds_nothing. }
  destruct (same_set (covers c) (frontier rc)) eqn:Hs; cbn [negb].
  2: { by apply failed_adds_nothing. }
  intros Hx. destruct (reintegrate_grows (eq c) comp_node rc c eq_refl w Hok) as [_ Hg].
  destruct (Hg x n Hx) as [Hx'| <-]; [congruence|]. split; [done|]. split; [done|by rewrite Hi|by apply same_set_spec].
Qed.
End reintegration.

(** ** The adapter and the gateway *)


(** The snapshot the gateway sends: the graph without the contents. *)
Definition projection (dag : dict node) : dict node :=
  prod_map id (λ n : node, n <| state_content := None |>) <$> dag.

Lemma committed_children_projection dag x : committed_children (projection dag) x = committed_children dag x.
Proof.
  unfold committed_children, projection, dict_keys. induction dag as [|[k n] dag IH]; [done|]. cbn.
  change (commits_to x (n <| state_content := None |>)) with (commits_to x n).
  destruct (commits_to x n); cbn; by rewrite IH.
Qed.

Lemma lineage_projection dag x y : lineage (projection dag) x y ↔ lineage dag x y.
Proof.
  unfold lineage, reach. split; (induction 1 as [|x z y Hxz _ IH]; [apply rtc_refl|]);
    (eapply rtc_l; [|exact IH]); unfold edge in *; by rewrite committed_children_projection in *.
Qed.


(** ** Witnesses *)
Lemma gateway_signatures_verify_witness :
  verify_cryptographic_signature (E:=enforcing) (seed_payload (E:=enforcing) "root" "alice" 5%Z 0 0) = true.
Proof.
  exact (proj1 (proj2 (gateway_signatures_verify (E:=enforcing) (H:=demo_signatures _ _ _) (St:=db)))
    "root" "alice" 5%Z 0%Z 0%Z).
Defined.

Definition summary_node : node := bare_node "sum" <| covers := ["a"; "other"] |>.
Definition demo_request : adapter_request :=
  AdapterRequest (projection (get_dag seeded)) [] "root" ["a"; "other"] ["other"] (Some "llm-v1") None.
Definition demo_repair : repair_record :=
  Repair PENDING_RECONSTRUCTION None None ["other"] (Some "llm-v1") None None.
Definition demo_candidate : node :=
  adapter_payload (E:=enforcing) adapter_key "model-1" "u" demo_request "summary" generation_digest.



Definition repair_world : world db :=
  start_world seeded <| w_adapter_key := Some (public_hex (E:=enforcing) adapter_key) |>.

Lemma reintegrated_candidate_was_checked_witness :
  let w' := (check_candidate (E:=enforcing) "sum" demo_repair (Some demo_candidate) repair_world).2 in
  dict_get "reconstructed-u" (get_dag (w_db w')) = Some demo_candidate ∧
  acceptable (E:=enforcing) (w_adapter_key repair_world) demo_repair demo_candidate.
Proof.
  intros w'. assert (dict_get "reconstructed-u" (get_dag (w_db w')) = Some demo_candidate) as Hd by (by vm_compute).
  split; [exact Hd|].
  refine (proj2 (reintegrated_candidate_was_checked (E:=enforcing) (H0:=sqlite_laws) "sum" demo_repair (Some demo_candidate)
    repair_world "reconstructed-u" demo_candidate seeded_wf _ Hd)). by vm_compute.
Defined.
