(* ===== verification/Steady.v ===== *)
(** * Handlers that leave a table alone

    [steady table m]: whatever way [m] ends, [table] of the store is what it was.
    The handlers of designation, recovery and recurrence touch neither the
    records of refused writes nor the attempts that the limiters count. *)
From S2P Require Import Prelude Dict Types Encoding Datetime Graph Lineage Memory Sqlite Interface World Crypto Policy Admission Recovery Detectors Designation Routes.

Section steady.
Context {St T : Type} (table : St → T).

Definition steady {A} (m : M St A) : Prop := ∀ w, table (w_db (m w).2) = table (w_db w).

Lemma steady_bind {A B} (m : M St A) (f : A → M St B) : steady m → (∀ a, steady (f a)) → steady (m ≫= f).
Proof.
  intros Hm Hf w. unfold mbind, M_bind. specialize (Hm w). destruct (m w) as [[a|e|] w1]; [|done..].
  rewrite Hf. exact Hm.
Qed.

Lemma steady_silent {A} (m : M St A) : silent m → steady m.
Proof. intros Hm w. by rewrite Hm. Qed.

Lemma steady_update f : (∀ s, table (f s) = table s) → steady (update f).
Proof. intros Hf w. apply Hf. Qed.

Lemma steady_call {A} (f : St → A * St) : (∀ s, table (f s).2 = table s) → steady (call f).
Proof. intros Hf w. unfold call. specialize (Hf (w_db w)). by destruct (f (w_db w)). Qed.

Lemma steady_try_update f : (∀ s s', f s = Some s' → table s' = table s) → steady (try_update f).
Proof. intros Hf w. unfold try_update. destruct (f (w_db w)) eqn:E; [by apply Hf|done]. Qed.

Lemma steady_when b m : steady m → steady (when b m).
Proof. by destruct b. Qed.

Lemma steady_catch {A} (m : M St A) h : steady m → (∀ e, steady (h e)) → steady (catch m h).
Proof.
  intros Hm Hh w. unfold catch. specialize (Hm w). destruct (m w) as [[a|e|] w1]; [done| |done].
  rewrite Hh. exact Hm.
Qed.

Lemma steady_for_each {A} (l : list A) f : (∀ x, steady (f x)) → steady (for_each l f).
Proof. intros Hf. induction l; cbn; [done|]. by apply steady_bind. Qed.

Lemma steady_for_fold {A B} (l : list A) (b : B) f : (∀ b x, steady (f b x)) → steady (for_fold l b f).
Proof. intros Hf. revert b; induction l; intros b; cbn; [done|]. by apply steady_bind. Qed.

Lemma steady_shared {A} (m : M St A) : steady m → steady (admission_shared m).
Proof. intros Hm w. unfold admission_shared. destruct (w_exclusive w); [done|apply Hm]. Qed.

Lemma steady_exclusive {A} (m : M St A) : steady m → steady (admission_exclusive m).
Proof.
  intros Hm w. unfold admission_exclusive. destruct (w_exclusive w); [done|].
  match goal with |- context [m ?w1] => specialize (Hm w1); by destruct (m w1) as [[] w'] end.
Qed.

Lemma steady_transaction `{RollbackLaws St} {A} (m : M St A) : steady m → steady (transaction m).
Proof.
  intros Hm w. unfold transaction. specialize (Hm w).
  destruct (m w) as [[a|e|] w1]; [done|..]; cbn; by rewrite (rollback (St:=St)).
Qed.

Lemma steady_run {A} (m : M St A) w o w' : steady m → m w = (o, w') → table (w_db w') = table (w_db w).
Proof. intros Hm E. specialize (Hm w). by rewrite E in Hm. Qed.
End steady.

Lemma steady_of {St T U A} (f : T → U) (table : St → T) (m : M St A) : steady table m → steady (λ s, f (table s)) m.
Proof. intros Hm w. by rewrite Hm. Qed.

(** ** On SQLite *)

(** The records of refused writes and the attempts. *)
Definition records (s : db) : list rejection * list signal_attempt := (t_tainted s, t_signals s).

Section fold.
Context {T : Type} (table : db → T).

Lemma fold_table {A} (f : db → A → db) l s : (∀ s x, table (f s x) = table s) → table (fold_left f l s) = table s.
Proof. intros Hf. revert s. induction l as [|x l IH]; intros s; cbn; [done|]. by rewrite IH. Qed.
End fold.

Lemma blast_records r (s : db) : records (compute_blast_radius r s).2 = records s.
Proof.
  cbn. apply (fold_table records). intros s' c. unfold plan_compaction. repeat (case_match; try done).
Qed.

Lemma quarantine_records e c (s : db) : records (apply_quarantine_transaction e c s).2 = records s.
Proof. cbn. by rewrite (fold_table records). Qed.

Lemma commit_records n (s : db) : records (commit_node n s).2 = records s.
Proof. cbn. unfold Sqlite.commit_node. by destruct (dict_mem _ _). Qed.

Create HintDb steady.
#[export] Hint Resolve steady_silent blast_records quarantine_records commit_records : steady.

(** Splits a handler into its primitive steps; a write is compared by
    evaluation. *)
Ltac steady_write :=
  intros; cbn in *; unfold Sqlite.record_shadow_decision in *; repeat case_match; simplify_eq/=; reflexivity.
Ltac steady_step := first
  [ progress intros | solve [eauto 3 with steady silent] | simple apply steady_bind
  | simple apply steady_update; solve [steady_write]
  | simple apply steady_try_update; solve [steady_write]
  | simple apply steady_call; solve [eauto with steady | steady_write]
  | simple apply steady_when | simple apply steady_catch | simple apply steady_for_each | simple apply steady_for_fold
  | simple apply steady_shared | simple apply steady_exclusive | simple apply steady_transaction; try apply _
  | case_match ].
Ltac solve_steady := repeat (cbv zeta; steady_step).

Section handlers.
Context `{E : Env}.

Lemma verify_role_jwt_silent {St} rq role : silent (St:=St) (verify_role_jwt rq role).
Proof. unfold verify_role_jwt, http. solve_silent. Qed.
Hint Resolve verify_role_jwt_silent : silent.

Lemma recurrence_hook_steady c_p c : steady records (recurrence_hook c_p c).
Proof. unfold recurrence_hook, process_recurrence, uuid4, now. solve_steady. Qed.
Hint Resolve recurrence_hook_steady : steady.

Lemma audit_steady d n b r em qm wi : steady records (audit d n b r em qm wi).
Proof. unfold audit, now. solve_steady. Qed.

Lemma attempt_safe_continuity_steady c e : steady records (attempt_safe_continuity c e).
Proof.
  unfold attempt_safe_continuity, serve_dependent, emit_replay, emit_substitute, generate_private_key, uuid4, now.
  solve_steady.
Qed.

Lemma reintegrate_steady n rc c : steady records (reintegrate n rc c).
Proof. unfold reintegrate, now. solve_steady. Qed.
Hint Resolve reintegrate_steady : steady.

Lemma attempt_reconstruction_steady r : steady records (attempt_reconstruction r).
Proof.
  unfold attempt_reconstruction, reconstruct_one, check_candidate, inline_candidate, adapter_candidate,
    give_up_on, generate_private_key, uuid4, now.
  solve_steady.
Qed.

Lemma contain_steady n i r s : steady records (contain n i r s).
Proof. unfold contain, uuid4, now. solve_steady. Qed.
Hint Resolve attempt_safe_continuity_steady attempt_reconstruction_steady contain_steady : steady.

Lemma designate_body_steady n r i : steady records (designate_body n r i).
Proof. unfold designate_body. solve_steady. Qed.

Lemma detector_contain_steady n r i s : steady records (detector_contain n r i s).
Proof. unfold detector_contain, http. solve_steady. Qed.
End handlers.
#[export] Hint Resolve verify_role_jwt_silent : silent.
#[export] Hint Resolve recurrence_hook_steady audit_steady attempt_safe_continuity_steady attempt_reconstruction_steady
  contain_steady designate_body_steady detector_contain_steady : steady.
