(* ===== verification/System.v ===== *)
(** * The service as a whole

    Every route that writes, as one transition of the service.  Requests are
    served one after the other; a handler that waits for ever keeps the lock
    it holds. *)
From S2P Require Import Prelude Dict Types Encoding Datetime Graph Lineage Memory Sqlite Interface World Crypto Policy Admission Recovery Detectors Designation Routes Reports Demo ContainmentSpec.

Inductive api_call :=
  | CallSubmit (body_length : Z) (b : body)
  | CallDesignate (rq : request) (node_id reason : string)
  | CallDetector (source : string) (rq : request) (raw : dict json)
  | CallContextCompacted (event : compacted_event)
  | CallContinuityExpose (rq : request) (node_id status reason : option string)
  | CallDeclareSubstitute (rq : request) (target source declared : option string)
  | CallObserve (rq : request) (event : observe_event)
  | CallRenewTrust (rq : request) (node_id : string)
  | CallCalibrate (rq : request) (run : calibration_run)
  | CallDeclareEffect (rq : request) (key node_id effect_type : string)
  | CallDeclareCheckpoint (rq : request) (cp : checkpoint_record)
  | CallSeedRoot (rq : request) (root_id : option string)
  | CallResetDb (rq : request)
  | CallDbState (rq : request).

(** The role a route demands. *)
Definition required_role (c : api_call) : option (request * string) :=
  match c with
  | CallSubmit _ _ | CallContextCompacted _ => None
  | CallDesignate rq _ _ | CallDetector _ rq _ | CallContinuityExpose rq _ _ _ | CallObserve rq _
  | CallRenewTrust rq _ => Some (rq, "designator")
  | CallDeclareSubstitute rq _ _ _ | CallCalibrate rq _ | CallDeclareEffect rq _ _ _
  | CallDeclareCheckpoint rq _ | CallSeedRoot rq _ | CallResetDb rq | CallDbState rq => Some (rq, "admin")
  end.

Section system.
Context `{E : Env} {St : Type} `{BackendLaws St} `{!Transactional St, !RollbackLaws St}.
Variable (float_of_text : string → option Q) (format_json : json → string).
Implicit Types (w : world St).

Definition done_with {A} (m : M St A) : M St () := m ≫= λ _, mret ().

Definition handle (c : api_call) : M St () :=
  match c with
  | CallSubmit len b => done_with (submit_candidate len b)
  | CallDesignate rq n r => done_with (designate_poison rq n r)
  | CallDetector s rq raw => done_with (ingest_detector_event float_of_text format_json s rq raw)
  | CallContextCompacted e => done_with (declare_context_compacted e)
  | CallContinuityExpose rq n s r => done_with (continuity_expose rq n s r)
  | CallDeclareSubstitute rq t s d => done_with (declare_substitute rq t s d)
  | CallObserve rq e => done_with (observe_recurrence rq e)
  | CallRenewTrust rq n => done_with (renew_trust_route rq n)
  | CallCalibrate rq r => done_with (calibrate_harness rq r)
  | CallDeclareEffect rq k n t => done_with (declare_external_effect rq k n t)
  | CallDeclareCheckpoint rq cp => done_with (declare_checkpoint rq cp)
  | CallSeedRoot rq r => done_with (seed_root rq r)
  | CallResetDb rq => done_with (reset_db rq)
  | CallDbState rq => done_with (db_state rq)
  end.

(** One request is served, however it ends. *)
Inductive served : world St → world St → Prop :=
  | served_call c w : served w (handle c w).2.

Lemma served_two c1 c2 w : rtc served w (handle c2 (handle c1 w).2).2.
Proof. eapply rtc_l; [apply served_call|]. apply rtc_once, served_call. Qed.

(** ** Production is append-only *)
Lemma respects_done {A} (m : M St A) : respects evolves m → respects evolves (done_with m).
Proof. intros Hm. unfold done_with. solve_respects. Qed.

Lemma respects_weaken {A} (m : M St A) : respects same_core m → respects evolves m.
Proof. intros Hm w Hok. destruct (Hm w Hok). split; [done|by apply same_core_evolves]. Qed.

Lemma reset_db_refuses rq : DEBUG_MODE cfg = false → respects evolves (reset_db (St:=St) rq).
Proof.
  intros Hd. unfold reset_db. rewrite Hd. apply respects_bind; [apply _|apply verify_role_jwt_respects, _|].
  intros _ w Hok. done.
Qed.

Lemma db_state_silent rq : respects evolves (db_state (St:=St) rq).
Proof. unfold db_state. solve_respects. Qed.

Lemma handle_evolves c : DEBUG_MODE cfg = false → respects (St:=St) evolves (handle c).
Proof.
  intros Hd. destruct c; cbn [handle]; apply respects_done;
    eauto using submit_candidate_evolves, designate_poison_evolves, ingest_detector_event_evolves,
      declare_context_compacted_evolves, seed_root_evolves, reset_db_refuses, db_state_silent;
    apply respects_weaken;
    eauto using continuity_expose_same_core, declare_substitute_same_core, observe_recurrence_same_core,
      renew_trust_route_same_core, calibrate_harness_same_core, declare_external_effect_same_core,
      declare_checkpoint_same_core.
Qed.

(** C6: outside debug mode, no sequence of requests, whatever their outcome, ever
    removes or rewrites a node of the graph or releases a node from quarantine,
    and the store stays well formed. *)
Theorem production_is_append_only w w' :
  DEBUG_MODE cfg = false → store_ok (w_db w) → rtc served w w' →
  store_ok (w_db w') ∧ evolves (w_db w) (w_db w').
Proof.
  intros Hd Hok Hr. revert Hok. induction Hr as [w|w w1 w' [c w2] _ IH]; intros Hok; [done|].
  destruct (handle_evolves c Hd w2 Hok) as [Hok1 H1]. destruct (IH Hok1) as [Hok2 H2].
  split; [done|by etrans].
Qed.

(** ** Authorisation *)
Lemma role_checked {A} rq role (f : dict json → M St A) w a w' :
  done_with (verify_role_jwt rq role ≫= f) w = (Ret a, w') →
  ∃ token claims, authorization rq ≫= bearer_token = Some token ∧
    jwt_decode token (JWT_PUBLIC_KEY cfg) = Some claims ∧ dict_get "role" claims = Some (JStr role).
Proof.
  unfold done_with. intros Hr. inv_rets.
  match goal with Hj : verify_role_jwt _ _ _ = _ |- _ => apply verify_role_jwt_Ret in Hj as (_ & Hrole & token & Ht & Hc) end.
  eauto 6.
Qed.

(** A route that demands a role only answers a request whose bearer token
    decodes, under the configured key, to claims with that role. *)
Theorem every_answer_is_authorised c w u w' rq role :
  required_role c = Some (rq, role) → handle c w = (Ret u, w') →
  ∃ token claims, authorization rq ≫= bearer_token = Some token ∧
    jwt_decode token (JWT_PUBLIC_KEY cfg) = Some claims ∧ dict_get "role" claims = Some (JStr role).
Proof. destruct c; intros [= <- <-] Hr; exact (role_checked _ _ _ _ _ _ Hr). Qed.
End system.

(** ** Witnesses *)
Definition production : Env := demo_env (enforce_settings <| DEBUG_MODE := false |>) true no_adapter.
Abbreviation production_handle := (handle (E:=production) (St:=db) (λ _, None) (λ _, "")).

Lemma production_is_append_only_witness :
  t_ledger (w_db (production_handle (CallResetDb administrator)
    (production_handle (CallDesignate designator "root" "bad") (start_world seeded)).2).2) = ["a"; "root"] ∧
  evolves (w_db (start_world seeded)) (w_db (production_handle (CallResetDb administrator)
    (production_handle (CallDesignate designator "root" "bad") (start_world seeded)).2).2).
Proof.
  split; [by vm_compute|].
  exact (proj2 (production_is_append_only (E:=production) (H0:=sqlite_laws) (λ _, None) (λ _, "")
    (start_world seeded) _ eq_refl seeded_wf
    (served_two (E:=production) (λ _, None) (λ _, "") (CallDesignate designator "root" "bad")
       (CallResetDb administrator) (start_world seeded)))).
Defined.

Lemma every_answer_is_authorised_witness :
  let r := production_handle (CallSeedRoot administrator (Some "new")) (start_world seeded) in
  r.1 = Ret () ∧ ∃ token claims, bearer_token "Bearer admin" = Some token ∧
    demo_jwt token "key" = Some claims ∧ dict_get "role" claims = Some (JStr "admin").
Proof.
  intros r. assert (r.1 = Ret ()) as Hr by (by vm_compute). split; [exact Hr|].
  exact (every_answer_is_authorised (E:=production) (H:=sqlite_backend) (λ _, None) (λ _, "")
    (CallSeedRoot administrator (Some "new")) (start_world seeded) _ _ administrator "admin" eq_refl (run_eq _ _ _ Hr)).
Defined.
