(* ===== verification/Tainted.v ===== *)
(** * The accounting of refused writes (B.8)

    A write with a quarantined parent is refused and recorded; if continuity
    has a replacement for the parent, it is offered; a later write that takes
    the replacement as parent completes the record.  The rates of the report
    are ratios over these records.  This file shows, for the service on SQLite
    and any sequence of requests, that the records mean what the report says. *)
From Stdlib Require Import QArith.
From S2P Require Import Prelude Dict Types Encoding Datetime Graph Lineage Memory Sqlite Interface World Crypto Policy Admission Recovery Detectors Designation Routes Reports Demo AdmissionSpec ContainmentSpec Steady System.

(** ** What a record says *)
Record honest (s : db) (r : rejection) : Prop := {
  ho_quarantined : rej_node_id r ∈ t_ledger s;
  ho_type : offered r = true → replacement_type r = Some "direct" ∨ replacement_type r = Some "ancestor";
  ho_completed : completed r = true → offered r = true ∧
    ∃ m o, completed_by r = Some (payload_id m) ∧ dict_get (payload_id m) (get_dag s) = Some m ∧
      offered_replacement r = Some o ∧ o ∈ parent_ids m }.

Record accounted (s : db) : Prop := {
  ac_once : NoDup (rej_node_id <$> t_tainted s);
  ac_honest : Forall (honest s) (t_tainted s) }.

Lemma honest_evolves s s' r : evolves s s' → honest s r → honest s' r.
Proof.
  intros [D L _] [Q T C]. split; [by apply L|done|]. intros (Ho & m & o & Hm & Hd & Hr)%C.
  split; [done|]. exists m, o. split_and!; [done|by apply D|apply Hr..].
Qed.

(** ** Everything but the three operations on the records leaves them alone *)
Definition keeps (s s' : db) : Prop := evolves s s' ∧ t_tainted s' = t_tainted s.

#[export] Instance keeps_preorder : PreOrder keeps.
Proof.
  split; [by intros s; split|]. intros a b c [E1 T1] [E2 T2]. split; [by etrans|congruence].
Qed.

Lemma accounted_keeps s s' : keeps s s' → accounted s → accounted s'.
Proof.
  intros [Ev T] [N F]. split; rewrite T; [done|]. eapply Forall_impl; [exact F|]. intros r. by apply honest_evolves.
Qed.

(** A handler that loses nothing and is steady keeps the records. *)
Lemma keeps_of {A} (m : M db A) : respects evolves m → steady t_tainted m → respects keeps m.
Proof. intros He Ht w Hok. destruct (He w Hok). split; [done|]. by split. Qed.

Lemma keeps_records {A} (m : M db A) : respects evolves m → steady records m → respects keeps m.
Proof. intros He Ht. apply keeps_of; [done|]. exact (steady_of fst records m Ht). Qed.

Lemma blast_keeps r (s : db) :
  store_ok s → store_ok (compute_blast_radius r s).2 ∧ keeps s (compute_blast_radius r s).2.
Proof.
  intros Hs. split; [by apply blast_ok|]. split; [by apply blast_evolves|exact (f_equal fst (blast_records r s))].
Qed.

Lemma quarantine_keeps e c (s : db) :
  store_ok s → store_ok (apply_quarantine_transaction e c s).2 ∧ keeps s (apply_quarantine_transaction e c s).2.
Proof.
  intros Hs. split; [by apply quarantine_ok|].
  split; [apply quarantine_evolves|exact (f_equal fst (quarantine_records e c s))].
Qed.

Lemma commit_keeps n (s : db) : store_ok s → store_ok (commit_node n s).2 ∧ keeps s (commit_node n s).2.
Proof.
  intros Hs. split; [by apply commit_node_ok|].
  split; [by apply commit_node_evolves|exact (f_equal fst (commit_records n s))].
Qed.

Section keeps.
Context `{E : Env}.
Variable (float_of_text : string → option Q) (format_json : json → string).

Lemma recurrence_hook_keeps c_p c : respects keeps (recurrence_hook c_p c).
Proof. apply keeps_records; [apply recurrence_hook_respects; apply _|apply recurrence_hook_steady]. Qed.

Lemma audit_keeps d n b r em qm wi : respects keeps (audit d n b r em qm wi).
Proof.
  apply keeps_records; [|apply audit_steady]. apply respects_weaken, audit_core.
Qed.

#[local] Hint Resolve verify_nhi_jwt_silent : silent.

(** Every request but a submission (and a reset, which production refuses). *)
Lemma handle_steady c :
  DEBUG_MODE cfg = false →
  match c with CallSubmit _ _ => True | _ => steady t_tainted (handle float_of_text format_json c) end.
Proof.
  intros Hd.
  assert (∀ A (m : M db A), steady records m → steady t_tainted m) as Hw by (intros A m; apply (steady_of fst records m)).
  pose proof (λ n i r s, Hw _ _ (contain_steady n i r s)). pose proof (λ n r i, Hw _ _ (designate_body_steady n r i)).
  pose proof (λ n r i s, Hw _ _ (detector_contain_steady n r i s)).
  pose proof (λ c e, Hw _ _ (attempt_safe_continuity_steady c e)).
  pose proof (λ r, Hw _ _ (attempt_reconstruction_steady r)).
  pose proof (λ c_p c, Hw _ _ (recurrence_hook_steady c_p c)).
  assert (∀ n (s : db), t_tainted (commit_node n s).2 = t_tainted s) as Hc by (intros n s; exact (f_equal fst (commit_records n s))).
  assert (∀ r (s : db), t_tainted (compute_blast_radius r s).2 = t_tainted s) by (intros r s; exact (f_equal fst (blast_records r s))).
  destruct c; cbn [handle]; [done|..]; unfold done_with.
  - unfold designate_poison, limit_designations, http, now. solve_steady.
  - unfold ingest_detector_event, limit_designations, http, uuid4, now. solve_steady.
  - unfold declare_context_compacted, compaction_checks, http, ok. solve_steady.
  - unfold continuity_expose, http, uuid4, now, ok. solve_steady.
  - unfold declare_substitute, http, ok. solve_steady.
  - unfold observe_recurrence, process_recurrence, limit_signals, check_adapter_signature, reject_signal, http, uuid4, now, ok.
    solve_steady.
  - unfold renew_trust_route, now, ok. solve_steady.
  - unfold calibrate_harness, ok. solve_steady.
  - unfold declare_external_effect, now. solve_steady.
  - unfold declare_checkpoint. solve_steady.
  - unfold seed_root, http, generate_private_key, now, ok. solve_steady.
  - unfold reset_db. rewrite Hd. solve_steady.
  - unfold db_state. solve_steady.
Qed.
End keeps.

(** ** The three operations on the records *)
Lemma honest_rows (s s' : db) l :
  t_ledger s' = t_ledger s → nodes s' = nodes s → Forall (honest s) l → Forall (honest s') l.
Proof.
  intros L N F. eapply Forall_impl; [exact F|]. intros r [Q T C]. split; [by rewrite L|done|].
  cbn in *. unfold Sqlite.get_dag in *. by rewrite N.
Qed.

Lemma accounted_reject id p t a (s : db) :
  id ∉ rej_node_id <$> t_tainted s → id ∈ t_ledger s → accounted s →
  accounted (Sqlite.record_tainted_rejection id p t a s).
Proof.
  intros Hid Hq [N F]. split; cbn.
  - rewrite fmap_app. apply NoDup_app. split_and!; [done| |apply NoDup_singleton].
    intros x Hx ->%list_elem_of_singleton. done.
  - apply Forall_app. split; [by apply (honest_rows s)|]. constructor; [by split|done].
Qed.

Lemma update_where_ids (p : rejection → bool) f l :
  (∀ r, rej_node_id (f r) = rej_node_id r) → rej_node_id <$> update_where p f l = rej_node_id <$> l.
Proof.
  intros Hf. unfold update_where. induction l as [|r l IH]; [done|]. cbn. f_equal; [|exact IH]. by destruct (p r).
Qed.

Lemma Forall_update_where {A} (P : A → Prop) (p : A → bool) f l :
  (∀ r, P r → p r = true → P (f r)) → Forall P l → Forall P (update_where p f l).
Proof.
  intros Hf. unfold update_where. induction 1 as [|r l Hr _ IH]; cbn; constructor; [|done].
  destruct (p r) eqn:E; auto.
Qed.

Lemma accounted_offer id rep ty (s : db) :
  ty = "direct" ∨ ty = "ancestor" → accounted s → accounted (Sqlite.record_tainted_offer id rep ty s).
Proof.
  intros Hty [N F]. split; cbn; [by rewrite update_where_ids|]. apply Forall_update_where; [|by apply (honest_rows s)].
  intros r [Q T C] [_ Hno%negb_true_iff]%andb_true_iff. split; [exact Q|intros _; cbn; naive_solver|].
  cbn. intros [Ho _]%C. congruence.
Qed.

(** What a row is after the completions of a write. *)
Definition completed_by_write (n : node) (r : rejection) : rejection :=
  if completes n r then complete_rejection (payload_id n) r else r.

Lemma complete_others id by_id l :
  (id ∉ rej_node_id <$> l) →
  update_where (λ r, bool_decide (rej_node_id r = id) && negb (completed r)) (complete_rejection by_id) l = l.
Proof.
  unfold update_where. induction l as [|r l IH]; [done|]. cbn. intros [Hr Hl]%not_elem_of_cons.
  rewrite bool_decide_eq_false_2 by done. cbn. f_equal. by apply IH.
Qed.

(** One write completes exactly the rows that its own test selects: the updates
    go by identifier, and an identifier has one row. *)
Lemma complete_rows n by_id rows done_rows :
  NoDup (rej_node_id <$> done_rows ++ rows) →
  fold_left (λ l r, update_where (λ r', bool_decide (rej_node_id r' = rej_node_id r) && negb (completed r'))
      (complete_rejection by_id) l) (List.filter (completes n) rows) (done_rows ++ rows) =
  done_rows ++ ((λ r, if completes n r then complete_rejection by_id r else r) <$> rows).
Proof.
  revert done_rows. induction rows as [|r rows IH]; intros dr N; [done|].
  assert (NoDup (rej_node_id <$> (dr ++ [r]) ++ rows)) as N1 by (by rewrite <-(assoc_L (++))).
  cbn [List.filter fmap list_fmap]. destruct (completes n r) eqn:Hc; cbn [fold_left].
  - rewrite fmap_app in N. apply NoDup_app in N as (_ & Hdis & [Hr _]%NoDup_cons).
    assert (rej_node_id r ∉ rej_node_id <$> dr) as Hd by (intros ?; by eapply Hdis; [done|left]).
    unfold update_where at 2. rewrite List.map_app. cbn [List.map].
    fold (update_where (λ r', bool_decide (rej_node_id r' = rej_node_id r) && negb (completed r')) (complete_rejection by_id) dr)
      (update_where (λ r', bool_decide (rej_node_id r' = rej_node_id r) && negb (completed r')) (complete_rejection by_id) rows).
    rewrite !complete_others by done. rewrite bool_decide_eq_true_2 by done.
    assert (negb (completed r) = true) as -> by (unfold completes in Hc; by destruct (completed r)).
    cbn [andb]. specialize (IH (dr ++ [complete_rejection by_id r])). rewrite <-!(assoc_L (++)) in IH. apply IH.
    rewrite <-(assoc_L (++)) in N1. rewrite !fmap_app in N1 |- *. exact N1.
  - specialize (IH (dr ++ [r]) N1). by rewrite <-!(assoc_L (++)) in IH.
Qed.

Lemma check_retry_rows n (s : db) :
  NoDup (rej_node_id <$> t_tainted s) →
  t_tainted (Sqlite.check_retry_completion n s) = completed_by_write n <$> t_tainted s.
Proof.
  intros N. etrans; [|exact (complete_rows n (payload_id n) (t_tainted s) [] N)].
  cbn [app]. unfold Sqlite.check_retry_completion. generalize (List.filter (completes n) (t_tainted s)) as l.
  intros l. clear N. revert s. induction l as [|r l IH]; intros s; [done|]. cbn [fold_left].
  exact (IH (Sqlite.record_tainted_completion (rej_node_id r) (payload_id n) s)).
Qed.

Lemma check_retry_rest n (s : db) :
  t_ledger (Sqlite.check_retry_completion n s) = t_ledger s ∧ nodes (Sqlite.check_retry_completion n s) = nodes s.
Proof.
  unfold Sqlite.check_retry_completion. generalize (List.filter (completes n) (t_tainted s)) as l.
  intros l. revert s. induction l as [|r l IH]; intros s; [done|]. cbn [fold_left].
  exact (IH (Sqlite.record_tainted_completion (rej_node_id r) (payload_id n) s)).
Qed.

(** The write is in the graph, and it did take the replacement as a parent. *)
Lemma accounted_check n (s : db) :
  dict_get (payload_id n) (get_dag s) = Some n → accounted s → accounted (Sqlite.check_retry_completion n s).
Proof.
  intros Hn [N F]. destruct (check_retry_rest n s) as [L D]. split; rewrite check_retry_rows by done.
  - rewrite <-list_fmap_compose. erewrite list_fmap_ext; [exact N|]. intros i r _. cbn.
    unfold completed_by_write. by destruct (completes n r).
  - apply (honest_rows s); [done..|]. apply Forall_fmap. eapply Forall_impl; [exact F|].
    intros r [Q T C]. cbn. unfold completed_by_write. destruct (completes n r) eqn:Hc; [|by split].
    unfold completes in Hc. destruct (completed r) eqn:E; [done|]. destruct (offered r) eqn:Eo; [|done].
    destruct (offered_replacement r) as [o|] eqn:Er; [|done]. cbn [negb andb] in Hc.
    apply andb_true_iff in Hc as [[_ Hp%bool_decide_eq_true]%andb_true_iff _].
    split; [exact Q|cbn; auto|]. intros _. cbn. split; [done|]. exists n, o. done.
Qed.

(** ** A submission *)
Section submit.
Context `{E : Env}.

Lemma offer_replacement_accounted n root event0 (w : world db) event w' :
  payload_id n ∈ t_ledger (w_db w) → (payload_id n ∉ rej_node_id <$> t_tainted (w_db w)) → accounted (w_db w) →
  offer_replacement n root event0 w = (Ret event, w') → accounted (w_db w').
Proof.
  intros Hq Hid HA. unfold offer_replacement, now. intros Hr. inv_rets.
  match goal with Ht : record_tainted_rejection _ _ _ _ _ = Some _ |- _ => injection Ht as <- end.
  match goal with Hr : (match ?x with Some _ => _ | None => _ end) _ = _ |- _ => destruct x end; inv_rets.
  - apply (accounted_offer _ _ _ (Sqlite.record_tainted_rejection _ _ _ _ _)); [case_decide; auto|].
    by apply accounted_reject.
  - by apply (accounted_reject (payload_id n) _ _ _ (w_db w)).
Qed.

Lemma no_record_yet id (s s' : db) :
  accounted s → (id ∉ t_ledger s) → keeps s s' → id ∉ rej_node_id <$> t_tainted s'.
Proof.
  intros [_ F] Hid [_ ->] (r & -> & Hr)%list_elem_of_fmap. rewrite Forall_forall in F. by apply Hid, ho_quarantined, F.
Qed.

Lemma quarantine_attempt_accounted n root (w : world db) event w' :
  store_ok (w_db w) → (payload_id n ∉ t_ledger (w_db w)) → accounted (w_db w) →
  quarantine_attempt n root w = (Ret event, w') → accounted (w_db w').
Proof.
  intros Hok Hid HA. unfold quarantine_attempt, uuid4, now. intros Hr. inv_rets.
  match goal with Hh : recurrence_hook _ _ _ = _, Ho : offer_replacement _ _ _ _ = _ |- _ =>
    rename Hh into Hhook, Ho into Hoffer end.
  destruct (commit_keeps n (w_db w) Hok) as [Hok1 K1]. destruct (blast_keeps root _ Hok1) as [Hok2 K2].
  destruct (respects_run _ _ _ _ _ (recurrence_hook_keeps _ _) Hhook Hok2) as [Hok3 K3].
  match type of Hoffer with context [apply_quarantine_transaction ?e ?c ?s] =>
    destruct (quarantine_keeps e c s Hok3) as [Hok4 K4];
    assert (payload_id n ∈ get_quarantine_ledger (apply_quarantine_transaction e c s).2) as Hin
      by (apply quarantine_ledger; left; left) end.
  assert (keeps (w_db w) _) as K by (etrans; [exact K1|]; etrans; [exact K2|]; etrans; [exact K3|exact K4]).
  refine (offer_replacement_accounted n root _ _ _ _ _ _ _ Hoffer); [exact Hin|exact (no_record_yet _ _ _ HA Hid K)|exact (accounted_keeps _ _ K HA)].
Qed.

Lemma admit_payload_accounted n auth did wi (w : world db) r w' :
  store_ok (w_db w) → accounted (w_db w) →
  admit_payload n auth did wi w = (Ret r, w') → accounted (w_db w').
Proof.
  intros Hok HA. unfold admit_payload. intros Hr. inv_ret Hr. inv_rets.
  destruct (flag (payload_id n) _) eqn:Hid; [done|]. apply id_not_quarantined in Hid. inv_rets.
  match goal with Hc : check_covers _ _ = (Ret ?x, _), Hd : decide_admission _ _ _ _ _ = (Ret ?y, ?w2) |- _ =>
    rename x into n', y into d, w2 into w1, Hc into Hcheck, Hd into Hdecide end.
  apply check_covers_Ret in Hcheck as (-> & Hw & _). fold (same_write n n') in Hw.
  destruct (same_write_fields n n' Hw) as (Hpid & _).
  apply (silent_run _ _ _ _ (decide_admission_silent _ _ _ _)) in Hdecide. rewrite <-Hdecide in *.
  destruct (bool_decide (ENFORCEMENT_MODE cfg = "shadow")).
  { inv_rets. eapply accounted_keeps; [apply (commit_keeps n' _ Hok)|exact HA]. }
  destruct d as [|root| |].
  - inv_rets. match goal with Hc : when _ _ _ = _ |- _ => rename Hc into Hcomp end.
    destruct (commit_keeps n' _ Hok) as [Hok1 K1]. pose proof (accounted_keeps _ _ K1 HA) as HA1.
    destruct (Interface.commit_node n' (w_db w1)).1 eqn:Hnew; cbn [when] in Hcomp; [|by inv_rets].
    rewrite commit_node_new in Hnew by done. inv_rets.
    match goal with Ha : audit _ _ _ _ _ _ _ _ = (Ret _, ?w3) |- _ =>
      destruct (respects_run _ _ _ _ _ (audit_keeps _ _ _ _ _ _ _) Ha Hok1) as [Hok3 K3]; set (w4 := w3) in * end.
    apply (accounted_check n' (w_db w4)); [|exact (accounted_keeps _ _ K3 HA1)].
    apply (ev_dag _ _ (proj1 K3)). cbn [w_db field_update]. rewrite Interface.commit_node_dag by done.
    unfold dict_mem in Hnew. destruct (dict_get _ _); [done|]. by rewrite decide_True.
  - inv_ret Hr. inv_ret Hr.
    match goal with Hc : audit _ _ _ _ _ _ _ _ = _, Hq : quarantine_attempt _ _ _ = _ |- _ =>
      rename Hc into Haudit, Hq into Hattempt end.
    inv_ret Hr. rewrite <-Hpid in Hid.
    destruct (respects_run _ _ _ _ _ (quarantine_attempt_evolves _ _) Hattempt Hok) as [Hok2 _].
    destruct (respects_run _ _ _ _ _ (audit_keeps _ _ _ _ _ _ _) Haudit Hok2) as [_ K].
    eapply accounted_keeps; [exact K|]. exact (quarantine_attempt_accounted _ _ _ _ _ Hok Hid HA Hattempt).
  - inv_ret Hr. match goal with Hc : audit _ _ _ _ _ _ _ _ = _ |- _ =>
      destruct (respects_run _ _ _ _ _ (audit_keeps _ _ _ _ _ _ _) Hc Hok) as [_ K] end.
    inv_ret Hr. by eapply accounted_keeps.
  - inv_ret Hr. match goal with Hc : audit _ _ _ _ _ _ _ _ = _ |- _ =>
      destruct (respects_run _ _ _ _ _ (audit_keeps _ _ _ _ _ _ _) Hc Hok) as [_ K] end.
    inv_ret Hr. by eapply accounted_keeps.
Qed.

Lemma submit_candidate_accounted len b (w : world db) :
  store_ok (w_db w) → accounted (w_db w) → accounted (w_db (submit_candidate len b w).2).
Proof.
  intros Hok HA. pose proof (submit_candidate_atomic len b w) as Hat.
  destruct (submit_candidate len b w) as [[r|e|] w'] eqn:Hr; cbn [snd]; [|by rewrite Hat..].
  apply submit_candidate_Ret in Hr as (_ & n & claims & did & w1 & _ & _ & Hdb & Ha).
  rewrite <-Hdb in *. by eapply admit_payload_accounted.
Qed.
End submit.

(** ** What the report says *)
Lemma count_if_le {A} (p q : A → bool) l :
  Forall (λ x, p x = true → q x = true) l → (count_if p l <= count_if q l)%Z.
Proof.
  unfold count_if. intros F. apply inj_le. induction F as [|x l Hx _ IH]; [done|]. cbn.
  destruct (p x); [rewrite Hx by done; cbn; lia|]. destruct (q x); cbn; lia.
Qed.

Lemma count_if_split {A} (p a b : A → bool) l :
  Forall (λ x, p x = true → a x = negb (b x)) l →
  count_if p l = (count_if (λ x, p x && a x) l + count_if (λ x, p x && b x) l)%Z.
Proof.
  unfold count_if. intros F. rewrite <-Nat2Z.inj_add. f_equal. induction F as [|x l Hx _ IH]; [done|]. cbn.
  destruct (p x); [|done]. rewrite Hx by done. destruct (b x); cbn; lia.
Qed.

Lemma ratio_bounds a b : (0 <= a <= b)%Z → (0 <= ratio a b <= 1)%Q.
Proof.
  intros H. unfold ratio. destruct (Z.ltb_spec 0 b); [|split; discriminate].
  unfold Qle. cbn. rewrite Z2Pos.id by done. lia.
Qed.

(** The counts of the report add up. *)
Record consistent (st : tainted_action_stats) : Prop := {
  co_order : (0 <= completed_count st <= offered_count st)%Z ∧ (offered_count st <= total_rejections st)%Z;
  co_offered : (offered_count st = direct_offered st + ancestor_offered st)%Z;
  co_completed : (completed_count st = direct_completed st + ancestor_completed st)%Z;
  co_rates : (0 <= completion_rate st <= 1 ∧ 0 <= offer_rate st <= 1)%Q }.

Lemma accounted_consistent (s : db) : accounted s → consistent (Sqlite.get_tainted_action_stats s).
Proof.
  intros [_ F]. unfold Sqlite.get_tainted_action_stats, tainted_action_stats_of.
  assert (Forall (λ r, completed r = true → offered r = true) (t_tainted s)) as F1
    by (eapply Forall_impl; [exact F|]; intros r Hr Hc; by apply (ho_completed _ _ Hr)).
  assert (Forall (λ r, offered r = true → replacement_is "direct" r = negb (replacement_is "ancestor" r)) (t_tainted s)) as F2.
  { eapply Forall_impl; [exact F|]. intros r Hr Ho. unfold replacement_is.
    by destruct (ho_type _ _ Hr Ho) as [->| ->]. }
  assert (∀ p : rejection → bool, (0 <= count_if p (t_tainted s) <= Z.of_nat (length (t_tainted s)))%Z) as Hb.
  { intros p. unfold count_if. split; [lia|]. apply inj_le, filter_length_le. }
  pose proof (count_if_le _ _ _ F1) as Hle. pose proof (Hb offered). pose proof (Hb completed).
  split; cbn; [lia| | |split; apply ratio_bounds; lia].
  - by apply count_if_split.
  - apply count_if_split. rewrite Forall_forall in F1, F2 |- *. eauto.
Qed.

Section claim.
Context `{E : Env}.
Variable (float_of_text : string → option Q) (format_json : json → string).

Lemma handle_accounted c (w : world db) :
  DEBUG_MODE cfg = false → store_ok (w_db w) → accounted (w_db w) →
  accounted (w_db (handle float_of_text format_json c w).2).
Proof.
  intros Hd Hok HA. pose proof (handle_steady float_of_text format_json c Hd) as K.
  destruct (handle_evolves float_of_text format_json c Hd w Hok) as [_ Hev].
  assert (match c with CallSubmit len b => True
          | _ => accounted (w_db (handle float_of_text format_json c w).2) end) as Hc.
  { destruct c; try done; (eapply accounted_keeps; [split; [exact Hev|exact (K w)]|exact HA]). }
  destruct c as [len b| | | | | | | | | | | | |]; try exact Hc. cbn [handle]. unfold done_with, mbind, M_bind.
  pose proof (submit_candidate_accounted len b w Hok HA) as H. by destruct (submit_candidate len b w) as [[] ?].
Qed.

(** C15: outside debug mode, from a SQLite store whose records are in order and
    whatever sequence of requests is served, the report of refused writes is
    right: the completed are among the offered and those among all, direct and
    ancestor replacements add up, and the rates lie between 0 and 1. Every
    recorded write is in quarantine, and one that counts as completed was
    completed by a node of the graph that has the offered replacement as a
    parent. *)
Theorem refused_writes_are_accounted (w w' : world db) :
  DEBUG_MODE cfg = false → store_ok (w_db w) → accounted (w_db w) →
  rtc (served float_of_text format_json) w w' →
  consistent (Interface.get_tainted_action_stats (w_db w')) ∧
  ∀ r, r ∈ t_tainted (w_db w') → rej_node_id r ∈ t_ledger (w_db w') ∧
    (completed r = true → ∃ m o, completed_by r = Some (payload_id m) ∧
       dict_get (payload_id m) (Interface.get_dag (w_db w')) = Some m ∧
       offered_replacement r = Some o ∧ o ∈ parent_ids m).
Proof.
  intros Hd Hok HA Hr. assert (accounted (w_db w')) as HA'.
  { revert Hok HA. induction Hr as [w|w w1 w' [c w2] _ IH]; intros Hok HA; [done|].
    destruct (handle_evolves float_of_text format_json c Hd w2 Hok) as [Hok1 _].
    by apply IH, handle_accounted. }
  split; [by apply accounted_consistent|]. intros r Hin. destruct HA' as [_ F]. rewrite Forall_forall in F.
  destruct (F r Hin) as [Q T C]. split; [exact Q|]. intros Hc. by apply C.
Qed.
End claim.

(** ** A run: a substitute is declared, a write refused, and redone on the
    substitute. *)
Definition refused : node := agent_write enforce_settings "bad" ["root"] [] "STANDARD".
Definition redone : node := agent_write enforce_settings "redo" ["other"] [] "STANDARD".

Definition after_redo : world db :=
  (production_handle (CallSubmit 100 (Parsed redone))
    (production_handle (CallSubmit 100 (Parsed refused))
      (production_handle (CallDeclareSubstitute administrator (Some "root") (Some "other") (Some "2026-01-01T00:00:00Z"))
        (start_world poisoned)).2).2).2.

Lemma redo_is_served : rtc (served (E:=production) (St:=db) (λ _, None) (λ _, "")) (start_world poisoned) after_redo.
Proof. unfold after_redo. do 2 (eapply rtc_r; [|apply served_call]). apply rtc_once, served_call. Qed.

Lemma refused_writes_are_accounted_witness :
  (completed_count (Interface.get_tainted_action_stats (w_db after_redo)) = 1)%Z ∧
  consistent (Interface.get_tainted_action_stats (w_db after_redo)).
Proof.
  split; [by vm_compute|].
  assert (accounted (w_db (start_world poisoned))) as HA by (split; constructor).
  exact (proj1 (refused_writes_are_accounted (E:=production) (λ _, None) (λ _, "") (start_world poisoned) after_redo
    eq_refl poisoned_wf HA redo_is_served)).
Defined.
