(* ===== verification/Latency.v ===== *)
(** * The latency test of the property runner

    [run_large_scale_latency_test] writes graphs of growing size straight into
    the database file and designates random old nodes, twenty for each size; it
    prints the sizes of the radii and how long the answers took.  It empties the
    quarantine before every designation, but not the attempts that the limiter
    counts.  Times are not modelled. *)
From S2P Require Import Prelude Dict Types Encoding Datetime Graph Lineage Memory Sqlite Interface World Crypto Policy Admission Recovery Detectors Designation Routes Reports Demo Client LiveRun Campaign Oracle Runner Storm Steady Trust.

(** One size: what [build_scale_dag] does to the file, and the drawn roots. *)
Record scale_round := ScaleRound { load_graph : db → db; drawn_roots : list string }.

(* src: blackbox_test/property_runner.py 319-322 run_large_scale_latency_test *)
Definition clear_quarantine (s : db) : db := s <| t_ledger := [] |> <| t_events := [] |>.

(** [len(r.get("json", {}).get("event", {}).get("computed_blast_radius_C_p", []))] *)
(* src: blackbox_test/property_runner.py 327-327 run_large_scale_latency_test *)
Definition cp_size (o : outcome (reply designation_outcome)) : nat :=
  match o with
  | Ret r => match content r with Designated event _ => length (computed_blast_radius_C_p event) | _ => 0 end
  | _ => 0
  end.

Section latency.
Context `{E : Env}.
Context (jwt_encode : dict json → string → string) (server_private_key : string).

Definition harness_designator : request :=
  bearing jwt_encode server_private_key [("sub", JStr "designator"); ("role", JStr "designator")].

(* src: blackbox_test/property_runner.py 317-328 run_large_scale_latency_test *)
Definition latency_sample (p : string) : M db nat := λ w,
  let '(o, w') := designate_poison harness_designator p "poison" (w <| w_db ::= clear_quarantine |>) in
  (Ret (cp_size o), w').

Fixpoint take_samples (roots : list string) : M db (list nat) :=
  match roots with
  | [] => mret []
  | p :: roots => x ← latency_sample p; xs ← take_samples roots; mret (x :: xs)
  end.

(* src: blackbox_test/property_runner.py 306-328 run_large_scale_latency_test *)
Fixpoint run_large_scale_latency_test (rounds : list scale_round) : M db (list (list nat)) :=
  match rounds with
  | [] => mret []
  | r :: rounds =>
    update (load_graph r) ≫= λ _,
    xs ← take_samples (drawn_roots r);
    rest ← run_large_scale_latency_test rounds;
    mret (xs :: rest)
  end.

(** What is printed for a size: the three least and the three greatest. *)
(* src: blackbox_test/property_runner.py 330-334 run_large_scale_latency_test *)
Definition printed_sizes (samples : list nat) : list nat :=
  let samples := merge_sort le samples in firstn 3 samples ++ skipn (length samples - 3) samples.

(** ** The limiter counts every designation of the test *)

(** The readings of the clock up to [b] fall in one counting window, which holds
    [k] attempts already. *)
Definition attempted (identity : string) (b k : nat) (w : world db) : Prop :=
  one_window (w_tick w) b ∧ counted_at_least identity (w_tick w) b (Z.of_nat k) (w_db w).

Lemma attempted_later identity b k (w w' : world db) :
  w_tick w ≤ w_tick w' → t_signals (w_db w') = t_signals (w_db w) → attempted identity b k w → attempted identity b k w'.
Proof.
  intros Ht Hs [Hw Hc]. split; [by eapply one_window_sub|].
  intros j Hj. specialize (Hc j ltac:(lia)). unfold Sqlite.count_recent_signals in *. by rewrite Hs.
Qed.

Lemma attempted_none identity b w : one_window (w_tick w) b → attempted identity b 0 w.
Proof. intros Hw. split; [done|]. intros j _. unfold Sqlite.count_recent_signals, count_if. cbn. lia. Qed.

(** The designator token of the harness, as the gateway reads it. *)
Lemma designator_claims (rq : request) :
  (∃ claims, ∀ w : world db, verify_role_jwt rq "designator" w = (Ret claims, w)) ∨
  ∃ e, ∀ w : world db, verify_role_jwt rq "designator" w = (Raise e, w).
Proof.
  unfold verify_role_jwt. destruct (_ ≫= bearer_token) as [token|]; [|right; eauto].
  destruct (jwt_decode token _) as [claims|]; [|right; eauto].
  destruct (json_is_str "designator" _); [left; eauto|right; eauto].
Qed.

Lemma designate_counts rq claims p b k (w : world db) :
  (∀ w, verify_role_jwt (St:=db) rq "designator" w = (Ret claims, w)) →
  attempted (subject_or_unknown claims) b k w →
  let r := designate_poison rq p "poison" w in
  w_tick r.2 ≤ b →
  attempted (subject_or_unknown claims) b (S k) r.2 ∧
  ((DESIGNATION_RATE_LIMIT cfg ≤ Z.of_nat k)%Z → cp_size r.1 = 0).
Proof.
  intros Hv HA r Hb.
  unfold designate_poison in r. set (identity := subject_or_unknown claims) in *.
  assert (r = (limit_designations identity p ≫= λ _,
    admission_exclusive (transaction (designate_body p "poison" identity))) w) as Er.
  { unfold r. unfold mbind at 1, M_bind at 1. by rewrite Hv. }
  rewrite Er in *. clear Er. unfold mbind, M_bind in *.
  destruct (limit_designations_step identity p w) as (Ht & (o & Hs) & Ho).
  destruct (limit_designations identity p w) as [oc w1]. cbn [fst snd] in *. subst oc.
  assert (w_tick w1 ≤ b → attempted identity b (S k) w1) as HA1.
  { destruct HA as [Hw Hc]. intros Hb1. split; [eapply one_window_sub; [|exact Hw]; lia|].
    intros j Hj. rewrite Hs, Nat2Z.inj_succ, <-Z.add_1_r.
    apply (count_recorded _ _ _ _ (w_tick w) b); [exact Hw|lia|exact Hc|lia]. }
  assert ((DESIGNATION_RATE_LIMIT cfg ≤ Z.of_nat k)%Z → w_tick w1 ≤ b →
    (DESIGNATION_RATE_LIMIT cfg <=? Sqlite.count_recent_signals identity (horizon_start (clock (w_tick w))) (w_db w))%Z = true)
    as Hlim.
  { intros Hk Hb1. destruct HA as [_ Hc]. specialize (Hc (w_tick w) ltac:(lia)). apply Z.leb_le. lia. }
  destruct (DESIGNATION_RATE_LIMIT cfg <=? _)%Z; cbn [fst snd] in *; [by split; [apply HA1|]|].
  assert (w_tick w1 ≤ w_tick (admission_exclusive (transaction (designate_body p "poison" identity)) w1).2) as Hle
    by (apply ticks_exclusive, ticks_transaction, designate_body_ticks).
  split; [|intros Hk; specialize (Hlim Hk ltac:(lia)); done].
  apply (attempted_later _ _ _ w1); [exact Hle| |apply HA1; lia].
  exact (steady_of snd records _ (steady_exclusive _ _ (steady_transaction _ _ (designate_body_steady _ _ _))) w1).
Qed.

Lemma latency_sample_eq p (w : world db) :
  let r := designate_poison harness_designator p "poison" (w <| w_db ::= clear_quarantine |>) in
  latency_sample p w = (Ret (cp_size r.1), r.2).
Proof. unfold latency_sample. by destruct (designate_poison _ _ _ _). Qed.

Lemma latency_sample_ticks p : ticks (latency_sample p).
Proof.
  intros w. rewrite latency_sample_eq. pose (w0 := w <| w_db ::= clear_quarantine |>).
  exact (designate_poison_ticks harness_designator p "poison" w0).
Qed.

Lemma take_samples_ticks roots : ticks (take_samples roots).
Proof. pose proof latency_sample_ticks. induction roots; cbn; repeat (solve_ticks; eauto). Qed.

Lemma latency_test_ticks rounds : ticks (run_large_scale_latency_test rounds).
Proof. pose proof take_samples_ticks. induction rounds; cbn; repeat (solve_ticks; eauto). Qed.

Lemma take_samples_quota roots b k (w : world db) claims :
  (∀ w, verify_role_jwt (St:=db) harness_designator "designator" w = (Ret claims, w)) →
  attempted (subject_or_unknown claims) b k w → w_tick (take_samples roots w).2 ≤ b →
  ∃ xs w', take_samples roots w = (Ret xs, w') ∧ length xs = length roots ∧
    attempted (subject_or_unknown claims) b (k + length roots) w' ∧
    ∀ i x, xs !! i = Some x → (DESIGNATION_RATE_LIMIT cfg ≤ Z.of_nat (k + i))%Z → x = 0.
Proof.
  intros Hv. revert k w. induction roots as [|p roots IH]; intros k w HA Hb.
  - exists [], w. split_and!; [done|done|by rewrite Nat.add_0_r|]. intros i x Hx. by rewrite lookup_nil in Hx.
  - pose (w0 := w <| w_db ::= clear_quarantine |>).
    assert (attempted (subject_or_unknown claims) b k w0) as HA0 by (by apply (attempted_later _ _ _ w)).
    cbn [take_samples] in Hb |- *. unfold mbind, M_bind in Hb |- *. rewrite latency_sample_eq in Hb |- *.
    cbv beta iota zeta in Hb |- *. fold w0 in Hb |- *.
    set (r := designate_poison harness_designator p "poison" w0) in *.
    pose proof (take_samples_ticks roots r.2) as Htk.
    assert (w_tick (take_samples roots r.2).2 ≤ b) as Hb2 by (by destruct (take_samples roots r.2) as [[] ?]).
    destruct (designate_counts harness_designator claims p b k w0 Hv HA0) as [HA1 H0]; [fold r; lia|]. fold r in HA1, H0.
    destruct (IH (S k) _ HA1 Hb2) as (xs & w2 & Hr & Hlen & HA2 & Hz).
    exists (cp_size r.1 :: xs), w2. rewrite Hr. split_and!; [done|cbn; by rewrite Hlen| |].
    + cbn [length]. by replace (k + S (length roots)) with (S k + length roots) by lia.
    + intros [|i] x; cbn; [intros [= <-]; rewrite Nat.add_0_r; exact H0|].
      intros Hx Hk. apply (Hz i x Hx). by replace (S k + i) with (k + S i) by lia.
Qed.

Lemma latency_quota rounds b k (w : world db) claims :
  (∀ w, verify_role_jwt (St:=db) harness_designator "designator" w = (Ret claims, w)) →
  (∀ r s, r ∈ rounds → t_signals (load_graph r s) = t_signals s) →
  attempted (subject_or_unknown claims) b k w → w_tick (run_large_scale_latency_test rounds w).2 ≤ b →
  ∃ samples w', run_large_scale_latency_test rounds w = (Ret samples, w') ∧
    length <$> samples = (λ r, length (drawn_roots r)) <$> rounds ∧
    ∀ i x, mjoin samples !! i = Some x → (DESIGNATION_RATE_LIMIT cfg ≤ Z.of_nat (k + i))%Z → x = 0.
Proof.
  intros Hv. revert k w. induction rounds as [|r rounds IH]; intros k w Hload HA Hb.
  - exists [], w. by split_and!.
  - pose (w0 := w <| w_db ::= load_graph r |>).
    assert (attempted (subject_or_unknown claims) b k w0) as HA0
      by (apply (attempted_later _ _ _ w); [done|by apply Hload; left|done]).
    cbn [run_large_scale_latency_test] in Hb |- *. unfold update, mbind, M_bind in Hb |- *. fold w0 in Hb |- *.
    assert (w_tick (take_samples (drawn_roots r) w0).2 ≤ b) as Hb1.
    { destruct (take_samples (drawn_roots r) w0) as [[xs|e|] w1]; [|done..]. cbn [snd].
      pose proof (latency_test_ticks rounds w1). destruct (run_large_scale_latency_test rounds w1) as [[] ?]; cbn in *; lia. }
    destruct (take_samples_quota (drawn_roots r) b k w0 claims Hv HA0 Hb1) as (xs & w1 & Hr & Hlen & HA1 & Hz).
    rewrite Hr in Hb |- *.
    destruct (IH _ w1 (λ r s H, Hload r s (list_elem_of_further _ _ _ H)) HA1) as (ys & w2 & Hr2 & Hlens & Hz2).
    { by destruct (run_large_scale_latency_test rounds w1) as [[] ?]. }
    exists (xs :: ys), w2. rewrite Hr2. split_and!; [done|cbn; by rewrite Hlen, Hlens|]. cbn [mjoin list_join]. intros i x.
    rewrite lookup_app_Some. intros [Hx|[Hi Hx]] Hk; [by apply (Hz i)|].
    apply (Hz2 (i - length xs) x Hx). rewrite <-Hlen. by replace (k + length xs + (i - length xs)) with (k + i) by lia.
Qed.

(** A token that the gateway does not take as a designator's: nothing is
    measured at all. *)
Lemma take_samples_refused roots e (w : world db) :
  (∀ w, verify_role_jwt (St:=db) harness_designator "designator" w = (Raise e, w)) →
  ∃ w', take_samples roots w = (Ret (replicate (length roots) 0), w').
Proof.
  intros Hv. revert w. induction roots as [|p roots IH]; intros w; [by exists w|]. cbn [take_samples].
  unfold mbind, M_bind. rewrite latency_sample_eq. cbv zeta. unfold designate_poison, mbind, M_bind. rewrite Hv.
  cbn [fst snd]. destruct (IH (w <| w_db ::= clear_quarantine |>)) as (w' & Hr). rewrite Hr. by exists w'.
Qed.

Lemma latency_refused rounds e (w : world db) :
  (∀ w, verify_role_jwt (St:=db) harness_designator "designator" w = (Raise e, w)) →
  ∃ w', run_large_scale_latency_test rounds w = (Ret ((λ r, replicate (length (drawn_roots r)) 0) <$> rounds), w').
Proof.
  intros Hv. revert w. induction rounds as [|r rounds IH]; intros w; [by exists w|].
  cbn [run_large_scale_latency_test]. unfold update, mbind at 1, M_bind at 1. cbv beta iota.
  pose (w0 := w <| w_db ::= load_graph r |>). fold w0.
  destruct (take_samples_refused (drawn_roots r) e w0 Hv) as (w1 & Hr). unfold mbind, M_bind. rewrite Hr.
  destruct (IH w1) as (w2 & Hr2). rewrite Hr2. by exists w2.
Qed.

(** C40: the latency test measures at most [DESIGNATION_RATE_LIMIT] designations.
    It always comes to an end with the samples it drew roots for, and when it
    runs within one counting window, whatever graphs it loads and roots it draws
    and whatever was designated before, every sample from that number on has an
    empty radius: the gateway refused it, because the test empties the quarantine
    but not the attempts. *)
Theorem latency_test_is_rate_limited rounds (w : world db) :
  one_window (w_tick w) (w_tick (run_large_scale_latency_test rounds w).2) →
  (∀ r s, r ∈ rounds → t_signals (load_graph r s) = t_signals s) →
  ∃ samples w', run_large_scale_latency_test rounds w = (Ret samples, w') ∧
    length <$> samples = (λ r, length (drawn_roots r)) <$> rounds ∧
    ∀ i x, mjoin samples !! i = Some x → (DESIGNATION_RATE_LIMIT cfg ≤ Z.of_nat i)%Z → x = 0.
Proof.
  intros Hw Hload. destruct (designator_claims harness_designator) as [[claims Hv]|[e Hv]].
  - exact (latency_quota rounds _ 0 w claims Hv Hload (attempted_none _ _ _ Hw) (le_n _)).
  - destruct (latency_refused rounds e w Hv) as (w' & Hr). eexists _, w'. split_and!; [exact Hr| |].
    + rewrite <-list_fmap_compose. apply list_fmap_ext. intros i r _. apply length_replicate.
    + intros i x Hx%list_elem_of_lookup_2 _. apply list_elem_of_join in Hx as (xs & Hx & Hxs).
      apply list_elem_of_fmap in Hxs as (r & -> & _). by apply elem_of_replicate in Hx as [-> _].
Qed.
End latency.

(** Two designations are allowed; the test makes four. *)
Definition two_allowed : Env := demo_env (enforce_settings <| DESIGNATION_RATE_LIMIT := 2%Z |>) true no_adapter.
Definition small_round (roots : list string) : scale_round :=
  ScaleRound (λ s, s <| nodes := nodes seeded |> <| edges := edges seeded |>) roots.
Definition small_rounds : list scale_round := [small_round ["root"; "a"]; small_round ["root"; "other"]].
Abbreviation small_test := (run_large_scale_latency_test (E:=two_allowed) (λ _ _, "designator") "key" small_rounds).

Lemma small_test_is_short : w_tick (small_test (start_world (empty_db 9))).2 <= 1000.
Proof. apply Nat.leb_le. by vm_compute. Qed.

Lemma small_test_in_window :
  one_window (E:=two_allowed) (w_tick (start_world (empty_db 9))) (w_tick (small_test (start_world (empty_db 9))).2).
Proof.
  pose proof small_test_is_short as Hb. revert Hb. generalize (w_tick (small_test (start_world (empty_db 9))).2) as b.
  intros b Hb i j Hi Hj. assert (i < 1000 ∧ j < 1000) as [Hi' Hj'] by lia. clear -Hi' Hj'.
  unfold in_range. cbn -[Z.add Z.mul Z.opp Z.of_nat].
  unfold plus_seconds, demo_clock, max_datetime, us_per_day, us_per_second. lia.
Qed.

Lemma small_rounds_load r s : r ∈ small_rounds → t_signals (load_graph r s) = t_signals s.
Proof. unfold small_rounds. rewrite !elem_of_cons. by intros [->|[->|[]%elem_of_nil]]. Qed.

Lemma latency_test_is_rate_limited_witness :
  (small_test (start_world (empty_db 9))).1 = Ret [[2; 1]; [0; 0]] ∧
  ∃ samples w', small_test (start_world (empty_db 9)) = (Ret samples, w') ∧
    length <$> samples = (λ r, length (drawn_roots r)) <$> small_rounds ∧
    ∀ i x, mjoin samples !! i = Some x → (DESIGNATION_RATE_LIMIT (@cfg two_allowed) ≤ Z.of_nat i)%Z → x = 0.
Proof.
  split; [by vm_compute|].
  exact (latency_test_is_rate_limited (E:=two_allowed) (λ _ _, "designator") "key" small_rounds (start_world (empty_db 9))
    small_test_in_window small_rounds_load).
Defined.
