(* ===== verification/Scenarios.v ===== *)
(** * Runs that show where the code stops

    Concrete requests on a concrete SQLite store, evaluated by the kernel.  Each
    is a limit of one of the general theorems: a hypothesis that cannot be
    dropped, or a promise the code does not keep. *)
From S2P Require Import Prelude Dict Types Encoding Datetime Graph Lineage Memory Sqlite Interface World Crypto Policy Admission Recovery Detectors Designation Reports Demo.

Abbreviation submit n w := (submit_candidate (E:=enforcing) (St:=db) 100 (Parsed n) w).

Definition escapes (s : db) : list string := breaches (get_dag s) (get_quarantine_ledger s).

(** ** Continuity under [/designate] *)

(** A critical function below [root], and a checkpoint of [root]. *)
Definition critical_store : db :=
  add_checkpoint (Checkpoint "cp" "root" "2025-01-01T00:00:00+00:00Z" [("saved", JStr "state")])
    (commit_node (bare_node "pump" <| parent_dependency_commitments := [Commitment "root" None None] |>
       <| criticality_weight := Some 1%Q |>) seeded).2.

Definition human_event : dict json := [("node_id", JStr "root")].

(** When there is continuity to serve, [/designate] waits for ever: it asks
    for shared admission while it holds the lock exclusively, and its
    quarantine is not committed.  The same designation through [/detector],
    which has released the lock by then, quarantines the node and serves the
    critical function from the checkpoint. *)
Theorem designate_with_continuity_hangs :
  let r1 := designate_poison (E:=enforcing) designator "root" "bad" (start_world critical_store) in
  let r2 := ingest_detector_event (E:=enforcing) (λ _, None) (λ _, "") "human_report" designator human_event
              (start_world critical_store) in
  r1.1 = Hang ∧ get_quarantine_ledger (w_db r1.2) = [] ∧
  get_quarantine_ledger (w_db r2.2) = ["a"; "pump"; "root"] ∧
  match r2.1 with
  | Ret (Reply 200 (Designated _ res)) => rp_critical_function <$> checkpoint_replays res = ["pump"]
  | _ => False
  end.
Proof. by vm_compute. Qed.

(** ** Ways out of containment *)

(** [poisoned], with [dep] below the clean node [other]. *)
Definition dependent_store : db :=
  (commit_node (bare_node "dep" <| parent_dependency_commitments := [Commitment "other" None None] |>) poisoned).2.

(** A refused write quarantines its declared identifier even when a clean
    node already has it: the existing node [other] is not replaced, but it
    joins the quarantine without its descendants, and [dep] escapes. *)
Theorem tainted_identifier_reuse_breaks_containment :
  let r := submit (agent_write enforce_settings "other" ["a"] [] "STANDARD") (start_world dependent_store) in
  escapes dependent_store = [] ∧
  match r.1 with Ret (Reply 403 (TaintedParentDetail _)) => True | _ => False end ∧
  dict_get "other" (get_dag (w_db r.2)) = Some (bare_node "other") ∧
  "other" ∈ get_quarantine_ledger (w_db r.2) ∧ escapes (w_db r.2) = ["dep"].
Proof. cbn zeta. split_and!; vm_compute; try done. set_solver. Qed.

(** Covers are a way out of containment: a write that is not a compaction
    may cover a quarantined node, and a compaction may cover an identifier that
    does not exist yet and is quarantined later. *)
Theorem unchecked_covers_break_containment :
  let r1 := submit (agent_write enforce_settings "x" ["other"] ["a"] "STANDARD") (start_world poisoned) in
  let r2 := submit (agent_write enforce_settings "sum" ["other"] ["future"] "COMPACTION") (start_world poisoned) in
  let r3 := submit (agent_write enforce_settings "future" ["a"] [] "STANDARD") r2.2 in
  r1.1 = Ret (Reply 200 (Success false false)) ∧ escapes (w_db r1.2) = ["x"] ∧
  r2.1 = Ret (Reply 200 (Success false false)) ∧ escapes (w_db r2.2) = [] ∧ escapes (w_db r3.2) = ["sum"].
Proof. by vm_compute. Qed.
